(** * SLA-DWP fog scheduler: a shallow embedding of the node scheduler,
      the admission test, the adaptive weight update and the simulation loop.

    Sources embedded: [models.py] (Request), [config.py] (SimulationConfig),
    [topology.py] (FogNode, FogTopology, build_grid_topology),
    [request_generator.py] (RequestGenerator), [metrics.py] (the counters,
    the deadline tallies and the rates of MetricsCollector), [simulation.py]
    (Simulation) and [generate_comparison_plots.py] (pctl).

    Modelling conventions.
    - Python floats are exact rationals [Q]; [a <= b] is [Qle_bool a b],
      [a > b] is [Qltb b a], [a == b] is [Qeq_bool a b].  A float division
      by zero raises [ZeroDivisionError], modelled in the [result] monad.
    - Request objects are mutable and shared by reference between the node
      queues, the in-service slot, the completion history and the lists
      handed to the metrics collector.  They live in a store
      [gmap ref Request]; queues hold references.
    - [float("inf")] as the initial value of a running minimum or maximum is
      [None] of an option. *)

From Stdlib Require Import QArith Qminmax Qround Lqa Lia ZArith String List.
From stdpp Require Import gmap strings list sorting.

Open Scope Q_scope.

(** ** Exceptions and the result monad *)

Inductive exn : Type :=
  | ZeroDivisionError
  | ValueError (msg : string)
  | IndexError
  | AssertionError
  | OutOfFuel.

Inductive result (A : Type) : Type :=
  | Ok (a : A)
  | Raise (e : exn).
Arguments Ok {A} a.
Arguments Raise {A} e.

#[global] Instance result_ret : MRet result := λ A, @Ok A.
#[global] Instance result_bind : MBind result :=
  λ A B f m, match m with Ok a => f a | Raise e => Raise e end.

Definition is_Ok {A} (m : result A) : Prop := ∃ a, m = Ok a.

(** ** Float comparisons *)

Definition Qltb (x y : Q) : bool := negb (Qle_bool y x).

(** Python's [max(a, b)] and [min(a, b)] on two floats: the first argument
    wins ties. *)
Definition py_max (a b : Q) : Q := if Qltb a b then b else a.
Definition py_min (a b : Q) : Q := if Qltb b a then b else a.

(** [sum(xs)] over floats. *)
Definition py_sum (xs : list Q) : Q := fold_left Qplus xs 0.

(** [float(len(xs))] *)
Definition py_len {A} (xs : list A) : Q := inject_Z (Z.of_nat (length xs)).

(** ** models.py *)

Inductive RequestType : Type :=
  | LANE_GUIDANCE | NAVIGATION_REROUTING | PARKING_DISCOVERY
  | EV_CHARGER_BOOKING | TOLLING_CHARGING | EMERGENCY_SOS | INCIDENT_UPLOAD
  | COLLISION_ALERT | SPEED_LIMIT_AR | ROAD_HAZARD_BROADCAST
  | DROWSINESS_ALERT | SURROUND_VIEW | SCHOOL_ZONE_ADVISORY
  | WEATHER_AWARE_ROUTING | TRIP_SUMMARY_ANALYTICS.

#[global] Instance RequestType_eq_dec : EqDecision RequestType.
Proof. solve_decision. Defined.

(** References to Request objects. *)
Abbreviation ref := nat.

Record Request : Type := mkRequest {
  request_id : Z;
  request_type : RequestType;
  source_position : Q * Q;
  arrival_time : Q;
  processing_demand : Q;
  remaining_demand : Q;
  data_size : Q;
  is_emergency : bool;
  latency_slo : option Q;
  priority_class : Z;
  relative_deadline_s : Q;
  absolute_deadline : Q;
  assigned_fog_id : option Z;
  start_time : option Q;
  completion_time : option Q
}.

Definition set_remaining_demand (v : Q) (r : Request) : Request :=
  {| request_id := request_id r; request_type := request_type r; source_position :=
     source_position r; arrival_time := arrival_time r; processing_demand := processing_demand r;
     remaining_demand := v; data_size := data_size r; is_emergency := is_emergency r; latency_slo
     := latency_slo r; priority_class := priority_class r; relative_deadline_s :=
     relative_deadline_s r; absolute_deadline := absolute_deadline r; assigned_fog_id :=
     assigned_fog_id r; start_time := start_time r; completion_time := completion_time r |}.

Definition set_assigned_fog_id (v : option Z) (r : Request) : Request :=
  {| request_id := request_id r; request_type := request_type r; source_position :=
     source_position r; arrival_time := arrival_time r; processing_demand := processing_demand r;
     remaining_demand := remaining_demand r; data_size := data_size r; is_emergency :=
     is_emergency r; latency_slo := latency_slo r; priority_class := priority_class r;
     relative_deadline_s := relative_deadline_s r; absolute_deadline := absolute_deadline r;
     assigned_fog_id := v; start_time := start_time r; completion_time := completion_time r |}.

Definition set_start_time (v : option Q) (r : Request) : Request :=
  {| request_id := request_id r; request_type := request_type r; source_position :=
     source_position r; arrival_time := arrival_time r; processing_demand := processing_demand r;
     remaining_demand := remaining_demand r; data_size := data_size r; is_emergency :=
     is_emergency r; latency_slo := latency_slo r; priority_class := priority_class r;
     relative_deadline_s := relative_deadline_s r; absolute_deadline := absolute_deadline r;
     assigned_fog_id := assigned_fog_id r; start_time := v; completion_time := completion_time r |}.

Definition set_completion_time (v : option Q) (r : Request) : Request :=
  {| request_id := request_id r; request_type := request_type r; source_position :=
     source_position r; arrival_time := arrival_time r; processing_demand := processing_demand r;
     remaining_demand := remaining_demand r; data_size := data_size r; is_emergency :=
     is_emergency r; latency_slo := latency_slo r; priority_class := priority_class r;
     relative_deadline_s := relative_deadline_s r; absolute_deadline := absolute_deadline r;
     assigned_fog_id := assigned_fog_id r; start_time := start_time r; completion_time := v |}.
#[global] Instance Request_inhabited : Inhabited Request :=
  populate (mkRequest 0 LANE_GUIDANCE (0, 0) 0 0 0 0 false None 1 60 0 None None None).

(** The object store. *)
Abbreviation heap := (gmap nat Request).

(** [Request.latency] *)
Definition latency (r : Request) : option Q :=
  match completion_time r with
  | None => None
  | Some c => Some (c - arrival_time r)
  end.

(** [Request.deadline_met] *)
Definition deadline_met (r : Request) : option bool :=
  match completion_time r with
  | None => None
  | Some c => Some (Qle_bool c (absolute_deadline r))
  end.

(** The [__eq__] that [@dataclass] generates for Request: field by field. *)
Definition opt_eqb {A} (eqb : A → A → bool) (a b : option A) : bool :=
  match a, b with
  | None, None => true
  | Some x, Some y => eqb x y
  | _, _ => false
  end.

Definition Request_eqb (a b : Request) : bool :=
  Z.eqb (request_id a) (request_id b)
  && bool_decide (request_type a = request_type b)
  && Qeq_bool (fst (source_position a)) (fst (source_position b))
  && Qeq_bool (snd (source_position a)) (snd (source_position b))
  && Qeq_bool (arrival_time a) (arrival_time b)
  && Qeq_bool (processing_demand a) (processing_demand b)
  && Qeq_bool (remaining_demand a) (remaining_demand b)
  && Qeq_bool (data_size a) (data_size b)
  && Bool.eqb (is_emergency a) (is_emergency b)
  && opt_eqb Qeq_bool (latency_slo a) (latency_slo b)
  && Z.eqb (priority_class a) (priority_class b)
  && Qeq_bool (relative_deadline_s a) (relative_deadline_s b)
  && Qeq_bool (absolute_deadline a) (absolute_deadline b)
  && opt_eqb Z.eqb (assigned_fog_id a) (assigned_fog_id b)
  && opt_eqb Qeq_bool (start_time a) (start_time b)
  && opt_eqb Qeq_bool (completion_time a) (completion_time b).

(** ** topology.py: FogNode

    Fields that no method reads ([window_size], [completed_in_window],
    [max_wait_threshold], the three legacy [sla_*_max] thresholds and
    [total_offloaded_to_cloud]) are left out.  The eight [sla_*] attributes
    that [build_grid_topology] may set with [setattr] and that the methods
    read with [getattr(self, name, default)] are optional fields. *)

Record FogNode : Type := mkFogNode {
  node_id : Z;
  position : Q * Q;
  cpu_capacity : Q;
  link_capacity : option Q;
  max_queue_length : option Z;
  scheduler : string;
  queue : list ref;
  emergency_queue : list ref;
  normal_queue : list ref;
  priority_queue_3 : list ref;
  priority_queue_2 : list ref;
  priority_queue_1 : list ref;
  dynamic_queue_3 : list ref;
  dynamic_queue_2 : list ref;
  dynamic_queue_1 : list ref;
  alpha : Q;
  beta : Q;
  gamma : Q;
  lambda_1 : Q;
  lambda_2 : Q;
  lambda_3 : Q;
  eta_1 : Q;
  eta_2 : Q;
  eta_3 : Q;
  _completed_history : list ref;
  _last_window_update : Q;
  current_request : option ref;
  current_request_start_time : option Q;
  current_link_load : Q;
  total_rejected_due_to_deadline : Z;
  sla_window_TW : option Q;
  sla_J1_max : option Q;
  sla_J2_max_s : option Q;
  sla_J3_max : option Q;
  sla_eta1 : option Q;
  sla_eta2 : option Q;
  sla_eta3 : option Q;
  sla_eps : option Q
}.

Definition set_queue (v : list ref) (n : FogNode) : FogNode :=
  {| node_id := node_id n; position := position n; cpu_capacity := cpu_capacity n; link_capacity
     := link_capacity n; max_queue_length := max_queue_length n; scheduler := scheduler n; queue
     := v; emergency_queue := emergency_queue n; normal_queue := normal_queue n; priority_queue_3
     := priority_queue_3 n; priority_queue_2 := priority_queue_2 n; priority_queue_1 :=
     priority_queue_1 n; dynamic_queue_3 := dynamic_queue_3 n; dynamic_queue_2 := dynamic_queue_2
     n; dynamic_queue_1 := dynamic_queue_1 n; alpha := alpha n; beta := beta n; gamma := gamma n;
     lambda_1 := lambda_1 n; lambda_2 := lambda_2 n; lambda_3 := lambda_3 n; eta_1 := eta_1 n;
     eta_2 := eta_2 n; eta_3 := eta_3 n; _completed_history := _completed_history n;
     _last_window_update := _last_window_update n; current_request := current_request n;
     current_request_start_time := current_request_start_time n; current_link_load :=
     current_link_load n; total_rejected_due_to_deadline := total_rejected_due_to_deadline n;
     sla_window_TW := sla_window_TW n; sla_J1_max := sla_J1_max n; sla_J2_max_s := sla_J2_max_s
     n; sla_J3_max := sla_J3_max n; sla_eta1 := sla_eta1 n; sla_eta2 := sla_eta2 n; sla_eta3 :=
     sla_eta3 n; sla_eps := sla_eps n |}.

Definition set_emergency_queue (v : list ref) (n : FogNode) : FogNode :=
  {| node_id := node_id n; position := position n; cpu_capacity := cpu_capacity n; link_capacity
     := link_capacity n; max_queue_length := max_queue_length n; scheduler := scheduler n; queue
     := queue n; emergency_queue := v; normal_queue := normal_queue n; priority_queue_3 :=
     priority_queue_3 n; priority_queue_2 := priority_queue_2 n; priority_queue_1 :=
     priority_queue_1 n; dynamic_queue_3 := dynamic_queue_3 n; dynamic_queue_2 := dynamic_queue_2
     n; dynamic_queue_1 := dynamic_queue_1 n; alpha := alpha n; beta := beta n; gamma := gamma n;
     lambda_1 := lambda_1 n; lambda_2 := lambda_2 n; lambda_3 := lambda_3 n; eta_1 := eta_1 n;
     eta_2 := eta_2 n; eta_3 := eta_3 n; _completed_history := _completed_history n;
     _last_window_update := _last_window_update n; current_request := current_request n;
     current_request_start_time := current_request_start_time n; current_link_load :=
     current_link_load n; total_rejected_due_to_deadline := total_rejected_due_to_deadline n;
     sla_window_TW := sla_window_TW n; sla_J1_max := sla_J1_max n; sla_J2_max_s := sla_J2_max_s
     n; sla_J3_max := sla_J3_max n; sla_eta1 := sla_eta1 n; sla_eta2 := sla_eta2 n; sla_eta3 :=
     sla_eta3 n; sla_eps := sla_eps n |}.

Definition set_normal_queue (v : list ref) (n : FogNode) : FogNode :=
  {| node_id := node_id n; position := position n; cpu_capacity := cpu_capacity n; link_capacity
     := link_capacity n; max_queue_length := max_queue_length n; scheduler := scheduler n; queue
     := queue n; emergency_queue := emergency_queue n; normal_queue := v; priority_queue_3 :=
     priority_queue_3 n; priority_queue_2 := priority_queue_2 n; priority_queue_1 :=
     priority_queue_1 n; dynamic_queue_3 := dynamic_queue_3 n; dynamic_queue_2 := dynamic_queue_2
     n; dynamic_queue_1 := dynamic_queue_1 n; alpha := alpha n; beta := beta n; gamma := gamma n;
     lambda_1 := lambda_1 n; lambda_2 := lambda_2 n; lambda_3 := lambda_3 n; eta_1 := eta_1 n;
     eta_2 := eta_2 n; eta_3 := eta_3 n; _completed_history := _completed_history n;
     _last_window_update := _last_window_update n; current_request := current_request n;
     current_request_start_time := current_request_start_time n; current_link_load :=
     current_link_load n; total_rejected_due_to_deadline := total_rejected_due_to_deadline n;
     sla_window_TW := sla_window_TW n; sla_J1_max := sla_J1_max n; sla_J2_max_s := sla_J2_max_s
     n; sla_J3_max := sla_J3_max n; sla_eta1 := sla_eta1 n; sla_eta2 := sla_eta2 n; sla_eta3 :=
     sla_eta3 n; sla_eps := sla_eps n |}.

Definition set_priority_queue_3 (v : list ref) (n : FogNode) : FogNode :=
  {| node_id := node_id n; position := position n; cpu_capacity := cpu_capacity n; link_capacity
     := link_capacity n; max_queue_length := max_queue_length n; scheduler := scheduler n; queue
     := queue n; emergency_queue := emergency_queue n; normal_queue := normal_queue n;
     priority_queue_3 := v; priority_queue_2 := priority_queue_2 n; priority_queue_1 :=
     priority_queue_1 n; dynamic_queue_3 := dynamic_queue_3 n; dynamic_queue_2 := dynamic_queue_2
     n; dynamic_queue_1 := dynamic_queue_1 n; alpha := alpha n; beta := beta n; gamma := gamma n;
     lambda_1 := lambda_1 n; lambda_2 := lambda_2 n; lambda_3 := lambda_3 n; eta_1 := eta_1 n;
     eta_2 := eta_2 n; eta_3 := eta_3 n; _completed_history := _completed_history n;
     _last_window_update := _last_window_update n; current_request := current_request n;
     current_request_start_time := current_request_start_time n; current_link_load :=
     current_link_load n; total_rejected_due_to_deadline := total_rejected_due_to_deadline n;
     sla_window_TW := sla_window_TW n; sla_J1_max := sla_J1_max n; sla_J2_max_s := sla_J2_max_s
     n; sla_J3_max := sla_J3_max n; sla_eta1 := sla_eta1 n; sla_eta2 := sla_eta2 n; sla_eta3 :=
     sla_eta3 n; sla_eps := sla_eps n |}.

Definition set_priority_queue_2 (v : list ref) (n : FogNode) : FogNode :=
  {| node_id := node_id n; position := position n; cpu_capacity := cpu_capacity n; link_capacity
     := link_capacity n; max_queue_length := max_queue_length n; scheduler := scheduler n; queue
     := queue n; emergency_queue := emergency_queue n; normal_queue := normal_queue n;
     priority_queue_3 := priority_queue_3 n; priority_queue_2 := v; priority_queue_1 :=
     priority_queue_1 n; dynamic_queue_3 := dynamic_queue_3 n; dynamic_queue_2 := dynamic_queue_2
     n; dynamic_queue_1 := dynamic_queue_1 n; alpha := alpha n; beta := beta n; gamma := gamma n;
     lambda_1 := lambda_1 n; lambda_2 := lambda_2 n; lambda_3 := lambda_3 n; eta_1 := eta_1 n;
     eta_2 := eta_2 n; eta_3 := eta_3 n; _completed_history := _completed_history n;
     _last_window_update := _last_window_update n; current_request := current_request n;
     current_request_start_time := current_request_start_time n; current_link_load :=
     current_link_load n; total_rejected_due_to_deadline := total_rejected_due_to_deadline n;
     sla_window_TW := sla_window_TW n; sla_J1_max := sla_J1_max n; sla_J2_max_s := sla_J2_max_s
     n; sla_J3_max := sla_J3_max n; sla_eta1 := sla_eta1 n; sla_eta2 := sla_eta2 n; sla_eta3 :=
     sla_eta3 n; sla_eps := sla_eps n |}.

Definition set_priority_queue_1 (v : list ref) (n : FogNode) : FogNode :=
  {| node_id := node_id n; position := position n; cpu_capacity := cpu_capacity n; link_capacity
     := link_capacity n; max_queue_length := max_queue_length n; scheduler := scheduler n; queue
     := queue n; emergency_queue := emergency_queue n; normal_queue := normal_queue n;
     priority_queue_3 := priority_queue_3 n; priority_queue_2 := priority_queue_2 n;
     priority_queue_1 := v; dynamic_queue_3 := dynamic_queue_3 n; dynamic_queue_2 :=
     dynamic_queue_2 n; dynamic_queue_1 := dynamic_queue_1 n; alpha := alpha n; beta := beta n;
     gamma := gamma n; lambda_1 := lambda_1 n; lambda_2 := lambda_2 n; lambda_3 := lambda_3 n;
     eta_1 := eta_1 n; eta_2 := eta_2 n; eta_3 := eta_3 n; _completed_history :=
     _completed_history n; _last_window_update := _last_window_update n; current_request :=
     current_request n; current_request_start_time := current_request_start_time n;
     current_link_load := current_link_load n; total_rejected_due_to_deadline :=
     total_rejected_due_to_deadline n; sla_window_TW := sla_window_TW n; sla_J1_max := sla_J1_max
     n; sla_J2_max_s := sla_J2_max_s n; sla_J3_max := sla_J3_max n; sla_eta1 := sla_eta1 n;
     sla_eta2 := sla_eta2 n; sla_eta3 := sla_eta3 n; sla_eps := sla_eps n |}.

Definition set_dynamic_queue_3 (v : list ref) (n : FogNode) : FogNode :=
  {| node_id := node_id n; position := position n; cpu_capacity := cpu_capacity n; link_capacity
     := link_capacity n; max_queue_length := max_queue_length n; scheduler := scheduler n; queue
     := queue n; emergency_queue := emergency_queue n; normal_queue := normal_queue n;
     priority_queue_3 := priority_queue_3 n; priority_queue_2 := priority_queue_2 n;
     priority_queue_1 := priority_queue_1 n; dynamic_queue_3 := v; dynamic_queue_2 :=
     dynamic_queue_2 n; dynamic_queue_1 := dynamic_queue_1 n; alpha := alpha n; beta := beta n;
     gamma := gamma n; lambda_1 := lambda_1 n; lambda_2 := lambda_2 n; lambda_3 := lambda_3 n;
     eta_1 := eta_1 n; eta_2 := eta_2 n; eta_3 := eta_3 n; _completed_history :=
     _completed_history n; _last_window_update := _last_window_update n; current_request :=
     current_request n; current_request_start_time := current_request_start_time n;
     current_link_load := current_link_load n; total_rejected_due_to_deadline :=
     total_rejected_due_to_deadline n; sla_window_TW := sla_window_TW n; sla_J1_max := sla_J1_max
     n; sla_J2_max_s := sla_J2_max_s n; sla_J3_max := sla_J3_max n; sla_eta1 := sla_eta1 n;
     sla_eta2 := sla_eta2 n; sla_eta3 := sla_eta3 n; sla_eps := sla_eps n |}.

Definition set_dynamic_queue_2 (v : list ref) (n : FogNode) : FogNode :=
  {| node_id := node_id n; position := position n; cpu_capacity := cpu_capacity n; link_capacity
     := link_capacity n; max_queue_length := max_queue_length n; scheduler := scheduler n; queue
     := queue n; emergency_queue := emergency_queue n; normal_queue := normal_queue n;
     priority_queue_3 := priority_queue_3 n; priority_queue_2 := priority_queue_2 n;
     priority_queue_1 := priority_queue_1 n; dynamic_queue_3 := dynamic_queue_3 n;
     dynamic_queue_2 := v; dynamic_queue_1 := dynamic_queue_1 n; alpha := alpha n; beta := beta
     n; gamma := gamma n; lambda_1 := lambda_1 n; lambda_2 := lambda_2 n; lambda_3 := lambda_3 n;
     eta_1 := eta_1 n; eta_2 := eta_2 n; eta_3 := eta_3 n; _completed_history :=
     _completed_history n; _last_window_update := _last_window_update n; current_request :=
     current_request n; current_request_start_time := current_request_start_time n;
     current_link_load := current_link_load n; total_rejected_due_to_deadline :=
     total_rejected_due_to_deadline n; sla_window_TW := sla_window_TW n; sla_J1_max := sla_J1_max
     n; sla_J2_max_s := sla_J2_max_s n; sla_J3_max := sla_J3_max n; sla_eta1 := sla_eta1 n;
     sla_eta2 := sla_eta2 n; sla_eta3 := sla_eta3 n; sla_eps := sla_eps n |}.

Definition set_dynamic_queue_1 (v : list ref) (n : FogNode) : FogNode :=
  {| node_id := node_id n; position := position n; cpu_capacity := cpu_capacity n; link_capacity
     := link_capacity n; max_queue_length := max_queue_length n; scheduler := scheduler n; queue
     := queue n; emergency_queue := emergency_queue n; normal_queue := normal_queue n;
     priority_queue_3 := priority_queue_3 n; priority_queue_2 := priority_queue_2 n;
     priority_queue_1 := priority_queue_1 n; dynamic_queue_3 := dynamic_queue_3 n;
     dynamic_queue_2 := dynamic_queue_2 n; dynamic_queue_1 := v; alpha := alpha n; beta := beta
     n; gamma := gamma n; lambda_1 := lambda_1 n; lambda_2 := lambda_2 n; lambda_3 := lambda_3 n;
     eta_1 := eta_1 n; eta_2 := eta_2 n; eta_3 := eta_3 n; _completed_history :=
     _completed_history n; _last_window_update := _last_window_update n; current_request :=
     current_request n; current_request_start_time := current_request_start_time n;
     current_link_load := current_link_load n; total_rejected_due_to_deadline :=
     total_rejected_due_to_deadline n; sla_window_TW := sla_window_TW n; sla_J1_max := sla_J1_max
     n; sla_J2_max_s := sla_J2_max_s n; sla_J3_max := sla_J3_max n; sla_eta1 := sla_eta1 n;
     sla_eta2 := sla_eta2 n; sla_eta3 := sla_eta3 n; sla_eps := sla_eps n |}.

Definition set_alpha (v : Q) (n : FogNode) : FogNode :=
  {| node_id := node_id n; position := position n; cpu_capacity := cpu_capacity n; link_capacity
     := link_capacity n; max_queue_length := max_queue_length n; scheduler := scheduler n; queue
     := queue n; emergency_queue := emergency_queue n; normal_queue := normal_queue n;
     priority_queue_3 := priority_queue_3 n; priority_queue_2 := priority_queue_2 n;
     priority_queue_1 := priority_queue_1 n; dynamic_queue_3 := dynamic_queue_3 n;
     dynamic_queue_2 := dynamic_queue_2 n; dynamic_queue_1 := dynamic_queue_1 n; alpha := v; beta
     := beta n; gamma := gamma n; lambda_1 := lambda_1 n; lambda_2 := lambda_2 n; lambda_3 :=
     lambda_3 n; eta_1 := eta_1 n; eta_2 := eta_2 n; eta_3 := eta_3 n; _completed_history :=
     _completed_history n; _last_window_update := _last_window_update n; current_request :=
     current_request n; current_request_start_time := current_request_start_time n;
     current_link_load := current_link_load n; total_rejected_due_to_deadline :=
     total_rejected_due_to_deadline n; sla_window_TW := sla_window_TW n; sla_J1_max := sla_J1_max
     n; sla_J2_max_s := sla_J2_max_s n; sla_J3_max := sla_J3_max n; sla_eta1 := sla_eta1 n;
     sla_eta2 := sla_eta2 n; sla_eta3 := sla_eta3 n; sla_eps := sla_eps n |}.

Definition set_beta (v : Q) (n : FogNode) : FogNode :=
  {| node_id := node_id n; position := position n; cpu_capacity := cpu_capacity n; link_capacity
     := link_capacity n; max_queue_length := max_queue_length n; scheduler := scheduler n; queue
     := queue n; emergency_queue := emergency_queue n; normal_queue := normal_queue n;
     priority_queue_3 := priority_queue_3 n; priority_queue_2 := priority_queue_2 n;
     priority_queue_1 := priority_queue_1 n; dynamic_queue_3 := dynamic_queue_3 n;
     dynamic_queue_2 := dynamic_queue_2 n; dynamic_queue_1 := dynamic_queue_1 n; alpha := alpha
     n; beta := v; gamma := gamma n; lambda_1 := lambda_1 n; lambda_2 := lambda_2 n; lambda_3 :=
     lambda_3 n; eta_1 := eta_1 n; eta_2 := eta_2 n; eta_3 := eta_3 n; _completed_history :=
     _completed_history n; _last_window_update := _last_window_update n; current_request :=
     current_request n; current_request_start_time := current_request_start_time n;
     current_link_load := current_link_load n; total_rejected_due_to_deadline :=
     total_rejected_due_to_deadline n; sla_window_TW := sla_window_TW n; sla_J1_max := sla_J1_max
     n; sla_J2_max_s := sla_J2_max_s n; sla_J3_max := sla_J3_max n; sla_eta1 := sla_eta1 n;
     sla_eta2 := sla_eta2 n; sla_eta3 := sla_eta3 n; sla_eps := sla_eps n |}.

Definition set_gamma (v : Q) (n : FogNode) : FogNode :=
  {| node_id := node_id n; position := position n; cpu_capacity := cpu_capacity n; link_capacity
     := link_capacity n; max_queue_length := max_queue_length n; scheduler := scheduler n; queue
     := queue n; emergency_queue := emergency_queue n; normal_queue := normal_queue n;
     priority_queue_3 := priority_queue_3 n; priority_queue_2 := priority_queue_2 n;
     priority_queue_1 := priority_queue_1 n; dynamic_queue_3 := dynamic_queue_3 n;
     dynamic_queue_2 := dynamic_queue_2 n; dynamic_queue_1 := dynamic_queue_1 n; alpha := alpha
     n; beta := beta n; gamma := v; lambda_1 := lambda_1 n; lambda_2 := lambda_2 n; lambda_3 :=
     lambda_3 n; eta_1 := eta_1 n; eta_2 := eta_2 n; eta_3 := eta_3 n; _completed_history :=
     _completed_history n; _last_window_update := _last_window_update n; current_request :=
     current_request n; current_request_start_time := current_request_start_time n;
     current_link_load := current_link_load n; total_rejected_due_to_deadline :=
     total_rejected_due_to_deadline n; sla_window_TW := sla_window_TW n; sla_J1_max := sla_J1_max
     n; sla_J2_max_s := sla_J2_max_s n; sla_J3_max := sla_J3_max n; sla_eta1 := sla_eta1 n;
     sla_eta2 := sla_eta2 n; sla_eta3 := sla_eta3 n; sla_eps := sla_eps n |}.

Definition set_lambda_1 (v : Q) (n : FogNode) : FogNode :=
  {| node_id := node_id n; position := position n; cpu_capacity := cpu_capacity n; link_capacity
     := link_capacity n; max_queue_length := max_queue_length n; scheduler := scheduler n; queue
     := queue n; emergency_queue := emergency_queue n; normal_queue := normal_queue n;
     priority_queue_3 := priority_queue_3 n; priority_queue_2 := priority_queue_2 n;
     priority_queue_1 := priority_queue_1 n; dynamic_queue_3 := dynamic_queue_3 n;
     dynamic_queue_2 := dynamic_queue_2 n; dynamic_queue_1 := dynamic_queue_1 n; alpha := alpha
     n; beta := beta n; gamma := gamma n; lambda_1 := v; lambda_2 := lambda_2 n; lambda_3 :=
     lambda_3 n; eta_1 := eta_1 n; eta_2 := eta_2 n; eta_3 := eta_3 n; _completed_history :=
     _completed_history n; _last_window_update := _last_window_update n; current_request :=
     current_request n; current_request_start_time := current_request_start_time n;
     current_link_load := current_link_load n; total_rejected_due_to_deadline :=
     total_rejected_due_to_deadline n; sla_window_TW := sla_window_TW n; sla_J1_max := sla_J1_max
     n; sla_J2_max_s := sla_J2_max_s n; sla_J3_max := sla_J3_max n; sla_eta1 := sla_eta1 n;
     sla_eta2 := sla_eta2 n; sla_eta3 := sla_eta3 n; sla_eps := sla_eps n |}.

Definition set_lambda_2 (v : Q) (n : FogNode) : FogNode :=
  {| node_id := node_id n; position := position n; cpu_capacity := cpu_capacity n; link_capacity
     := link_capacity n; max_queue_length := max_queue_length n; scheduler := scheduler n; queue
     := queue n; emergency_queue := emergency_queue n; normal_queue := normal_queue n;
     priority_queue_3 := priority_queue_3 n; priority_queue_2 := priority_queue_2 n;
     priority_queue_1 := priority_queue_1 n; dynamic_queue_3 := dynamic_queue_3 n;
     dynamic_queue_2 := dynamic_queue_2 n; dynamic_queue_1 := dynamic_queue_1 n; alpha := alpha
     n; beta := beta n; gamma := gamma n; lambda_1 := lambda_1 n; lambda_2 := v; lambda_3 :=
     lambda_3 n; eta_1 := eta_1 n; eta_2 := eta_2 n; eta_3 := eta_3 n; _completed_history :=
     _completed_history n; _last_window_update := _last_window_update n; current_request :=
     current_request n; current_request_start_time := current_request_start_time n;
     current_link_load := current_link_load n; total_rejected_due_to_deadline :=
     total_rejected_due_to_deadline n; sla_window_TW := sla_window_TW n; sla_J1_max := sla_J1_max
     n; sla_J2_max_s := sla_J2_max_s n; sla_J3_max := sla_J3_max n; sla_eta1 := sla_eta1 n;
     sla_eta2 := sla_eta2 n; sla_eta3 := sla_eta3 n; sla_eps := sla_eps n |}.

Definition set_lambda_3 (v : Q) (n : FogNode) : FogNode :=
  {| node_id := node_id n; position := position n; cpu_capacity := cpu_capacity n; link_capacity
     := link_capacity n; max_queue_length := max_queue_length n; scheduler := scheduler n; queue
     := queue n; emergency_queue := emergency_queue n; normal_queue := normal_queue n;
     priority_queue_3 := priority_queue_3 n; priority_queue_2 := priority_queue_2 n;
     priority_queue_1 := priority_queue_1 n; dynamic_queue_3 := dynamic_queue_3 n;
     dynamic_queue_2 := dynamic_queue_2 n; dynamic_queue_1 := dynamic_queue_1 n; alpha := alpha
     n; beta := beta n; gamma := gamma n; lambda_1 := lambda_1 n; lambda_2 := lambda_2 n;
     lambda_3 := v; eta_1 := eta_1 n; eta_2 := eta_2 n; eta_3 := eta_3 n; _completed_history :=
     _completed_history n; _last_window_update := _last_window_update n; current_request :=
     current_request n; current_request_start_time := current_request_start_time n;
     current_link_load := current_link_load n; total_rejected_due_to_deadline :=
     total_rejected_due_to_deadline n; sla_window_TW := sla_window_TW n; sla_J1_max := sla_J1_max
     n; sla_J2_max_s := sla_J2_max_s n; sla_J3_max := sla_J3_max n; sla_eta1 := sla_eta1 n;
     sla_eta2 := sla_eta2 n; sla_eta3 := sla_eta3 n; sla_eps := sla_eps n |}.

Definition set_completed_history (v : list ref) (n : FogNode) : FogNode :=
  {| node_id := node_id n; position := position n; cpu_capacity := cpu_capacity n; link_capacity
     := link_capacity n; max_queue_length := max_queue_length n; scheduler := scheduler n; queue
     := queue n; emergency_queue := emergency_queue n; normal_queue := normal_queue n;
     priority_queue_3 := priority_queue_3 n; priority_queue_2 := priority_queue_2 n;
     priority_queue_1 := priority_queue_1 n; dynamic_queue_3 := dynamic_queue_3 n;
     dynamic_queue_2 := dynamic_queue_2 n; dynamic_queue_1 := dynamic_queue_1 n; alpha := alpha
     n; beta := beta n; gamma := gamma n; lambda_1 := lambda_1 n; lambda_2 := lambda_2 n;
     lambda_3 := lambda_3 n; eta_1 := eta_1 n; eta_2 := eta_2 n; eta_3 := eta_3 n;
     _completed_history := v; _last_window_update := _last_window_update n; current_request :=
     current_request n; current_request_start_time := current_request_start_time n;
     current_link_load := current_link_load n; total_rejected_due_to_deadline :=
     total_rejected_due_to_deadline n; sla_window_TW := sla_window_TW n; sla_J1_max := sla_J1_max
     n; sla_J2_max_s := sla_J2_max_s n; sla_J3_max := sla_J3_max n; sla_eta1 := sla_eta1 n;
     sla_eta2 := sla_eta2 n; sla_eta3 := sla_eta3 n; sla_eps := sla_eps n |}.

Definition set_last_window_update (v : Q) (n : FogNode) : FogNode :=
  {| node_id := node_id n; position := position n; cpu_capacity := cpu_capacity n; link_capacity
     := link_capacity n; max_queue_length := max_queue_length n; scheduler := scheduler n; queue
     := queue n; emergency_queue := emergency_queue n; normal_queue := normal_queue n;
     priority_queue_3 := priority_queue_3 n; priority_queue_2 := priority_queue_2 n;
     priority_queue_1 := priority_queue_1 n; dynamic_queue_3 := dynamic_queue_3 n;
     dynamic_queue_2 := dynamic_queue_2 n; dynamic_queue_1 := dynamic_queue_1 n; alpha := alpha
     n; beta := beta n; gamma := gamma n; lambda_1 := lambda_1 n; lambda_2 := lambda_2 n;
     lambda_3 := lambda_3 n; eta_1 := eta_1 n; eta_2 := eta_2 n; eta_3 := eta_3 n;
     _completed_history := _completed_history n; _last_window_update := v; current_request :=
     current_request n; current_request_start_time := current_request_start_time n;
     current_link_load := current_link_load n; total_rejected_due_to_deadline :=
     total_rejected_due_to_deadline n; sla_window_TW := sla_window_TW n; sla_J1_max := sla_J1_max
     n; sla_J2_max_s := sla_J2_max_s n; sla_J3_max := sla_J3_max n; sla_eta1 := sla_eta1 n;
     sla_eta2 := sla_eta2 n; sla_eta3 := sla_eta3 n; sla_eps := sla_eps n |}.

Definition set_current_request (v : option ref) (n : FogNode) : FogNode :=
  {| node_id := node_id n; position := position n; cpu_capacity := cpu_capacity n; link_capacity
     := link_capacity n; max_queue_length := max_queue_length n; scheduler := scheduler n; queue
     := queue n; emergency_queue := emergency_queue n; normal_queue := normal_queue n;
     priority_queue_3 := priority_queue_3 n; priority_queue_2 := priority_queue_2 n;
     priority_queue_1 := priority_queue_1 n; dynamic_queue_3 := dynamic_queue_3 n;
     dynamic_queue_2 := dynamic_queue_2 n; dynamic_queue_1 := dynamic_queue_1 n; alpha := alpha
     n; beta := beta n; gamma := gamma n; lambda_1 := lambda_1 n; lambda_2 := lambda_2 n;
     lambda_3 := lambda_3 n; eta_1 := eta_1 n; eta_2 := eta_2 n; eta_3 := eta_3 n;
     _completed_history := _completed_history n; _last_window_update := _last_window_update n;
     current_request := v; current_request_start_time := current_request_start_time n;
     current_link_load := current_link_load n; total_rejected_due_to_deadline :=
     total_rejected_due_to_deadline n; sla_window_TW := sla_window_TW n; sla_J1_max := sla_J1_max
     n; sla_J2_max_s := sla_J2_max_s n; sla_J3_max := sla_J3_max n; sla_eta1 := sla_eta1 n;
     sla_eta2 := sla_eta2 n; sla_eta3 := sla_eta3 n; sla_eps := sla_eps n |}.

Definition set_current_request_start_time (v : option Q) (n : FogNode) : FogNode :=
  {| node_id := node_id n; position := position n; cpu_capacity := cpu_capacity n; link_capacity
     := link_capacity n; max_queue_length := max_queue_length n; scheduler := scheduler n; queue
     := queue n; emergency_queue := emergency_queue n; normal_queue := normal_queue n;
     priority_queue_3 := priority_queue_3 n; priority_queue_2 := priority_queue_2 n;
     priority_queue_1 := priority_queue_1 n; dynamic_queue_3 := dynamic_queue_3 n;
     dynamic_queue_2 := dynamic_queue_2 n; dynamic_queue_1 := dynamic_queue_1 n; alpha := alpha
     n; beta := beta n; gamma := gamma n; lambda_1 := lambda_1 n; lambda_2 := lambda_2 n;
     lambda_3 := lambda_3 n; eta_1 := eta_1 n; eta_2 := eta_2 n; eta_3 := eta_3 n;
     _completed_history := _completed_history n; _last_window_update := _last_window_update n;
     current_request := current_request n; current_request_start_time := v; current_link_load :=
     current_link_load n; total_rejected_due_to_deadline := total_rejected_due_to_deadline n;
     sla_window_TW := sla_window_TW n; sla_J1_max := sla_J1_max n; sla_J2_max_s := sla_J2_max_s
     n; sla_J3_max := sla_J3_max n; sla_eta1 := sla_eta1 n; sla_eta2 := sla_eta2 n; sla_eta3 :=
     sla_eta3 n; sla_eps := sla_eps n |}.

Definition set_current_link_load (v : Q) (n : FogNode) : FogNode :=
  {| node_id := node_id n; position := position n; cpu_capacity := cpu_capacity n; link_capacity
     := link_capacity n; max_queue_length := max_queue_length n; scheduler := scheduler n; queue
     := queue n; emergency_queue := emergency_queue n; normal_queue := normal_queue n;
     priority_queue_3 := priority_queue_3 n; priority_queue_2 := priority_queue_2 n;
     priority_queue_1 := priority_queue_1 n; dynamic_queue_3 := dynamic_queue_3 n;
     dynamic_queue_2 := dynamic_queue_2 n; dynamic_queue_1 := dynamic_queue_1 n; alpha := alpha
     n; beta := beta n; gamma := gamma n; lambda_1 := lambda_1 n; lambda_2 := lambda_2 n;
     lambda_3 := lambda_3 n; eta_1 := eta_1 n; eta_2 := eta_2 n; eta_3 := eta_3 n;
     _completed_history := _completed_history n; _last_window_update := _last_window_update n;
     current_request := current_request n; current_request_start_time :=
     current_request_start_time n; current_link_load := v; total_rejected_due_to_deadline :=
     total_rejected_due_to_deadline n; sla_window_TW := sla_window_TW n; sla_J1_max := sla_J1_max
     n; sla_J2_max_s := sla_J2_max_s n; sla_J3_max := sla_J3_max n; sla_eta1 := sla_eta1 n;
     sla_eta2 := sla_eta2 n; sla_eta3 := sla_eta3 n; sla_eps := sla_eps n |}.

Definition set_total_rejected_due_to_deadline (v : Z) (n : FogNode) : FogNode :=
  {| node_id := node_id n; position := position n; cpu_capacity := cpu_capacity n; link_capacity
     := link_capacity n; max_queue_length := max_queue_length n; scheduler := scheduler n; queue
     := queue n; emergency_queue := emergency_queue n; normal_queue := normal_queue n;
     priority_queue_3 := priority_queue_3 n; priority_queue_2 := priority_queue_2 n;
     priority_queue_1 := priority_queue_1 n; dynamic_queue_3 := dynamic_queue_3 n;
     dynamic_queue_2 := dynamic_queue_2 n; dynamic_queue_1 := dynamic_queue_1 n; alpha := alpha
     n; beta := beta n; gamma := gamma n; lambda_1 := lambda_1 n; lambda_2 := lambda_2 n;
     lambda_3 := lambda_3 n; eta_1 := eta_1 n; eta_2 := eta_2 n; eta_3 := eta_3 n;
     _completed_history := _completed_history n; _last_window_update := _last_window_update n;
     current_request := current_request n; current_request_start_time :=
     current_request_start_time n; current_link_load := current_link_load n;
     total_rejected_due_to_deadline := v; sla_window_TW := sla_window_TW n; sla_J1_max :=
     sla_J1_max n; sla_J2_max_s := sla_J2_max_s n; sla_J3_max := sla_J3_max n; sla_eta1 :=
     sla_eta1 n; sla_eta2 := sla_eta2 n; sla_eta3 := sla_eta3 n; sla_eps := sla_eps n |}.

(** [FogNode.__init__] *)
Definition FogNode_init (node_id : Z) (position : Q * Q) (cpu_capacity : Q)
    (link_capacity : option Q) (max_queue_length : option Z)
    (scheduler : string) : FogNode :=
  {| node_id := node_id; position := position; cpu_capacity := cpu_capacity;
     link_capacity := link_capacity; max_queue_length := max_queue_length;
     scheduler := scheduler;
     queue := []; emergency_queue := []; normal_queue := [];
     priority_queue_3 := []; priority_queue_2 := []; priority_queue_1 := [];
     dynamic_queue_3 := []; dynamic_queue_2 := []; dynamic_queue_1 := [];
     alpha := 1 / 3; beta := 1 / 3; gamma := 1 / 3;
     lambda_1 := 0; lambda_2 := 0; lambda_3 := 0;
     eta_1 := 1 # 100; eta_2 := 1 # 100; eta_3 := 1 # 100;
     _completed_history := []; _last_window_update := 0;
     current_request := None; current_request_start_time := None;
     current_link_load := 0; total_rejected_due_to_deadline := 0;
     sla_window_TW := None; sla_J1_max := None; sla_J2_max_s := None;
     sla_J3_max := None; sla_eta1 := None; sla_eta2 := None; sla_eta3 := None;
     sla_eps := None |}.

#[global] Instance FogNode_inhabited : Inhabited FogNode :=
  populate (FogNode_init 0 (0, 0) 0 None None "FIFO").

(** [getattr(self, name, default)] *)
Definition getattr (a : option Q) (default : Q) : Q :=
  match a with Some v => v | None => default end.

(** [self.scheduler in ("DYNAMIC_PRIORITY", "SLA-DWP-Fog")] *)
Definition is_sla (n : FogNode) : bool :=
  String.eqb (scheduler n) "DYNAMIC_PRIORITY" || String.eqb (scheduler n) "SLA-DWP-Fog".

(** [FogNode.reset_step_state] *)
Definition reset_step_state (n : FogNode) : FogNode := set_current_link_load 0 n.

(** [FogNode.can_accept_request] *)
Definition can_accept_request (h : heap) (n : FogNode) (request : ref) (time_step : Q) : bool :=
  match link_capacity n with
  | None => true
  | Some lc =>
      let capacity_this_step := lc * time_step in
      let projected := current_link_load n + data_size (h !!! request) in
      Qle_bool projected capacity_this_step
  end.

(** [len(q)] as a Python int *)
Definition len (q : list ref) : Z := Z.of_nat (length q).

(** [FogNode._get_total_queue_length] *)
Definition _get_total_queue_length (n : FogNode) : Z :=
  if is_sla n then
    (len (dynamic_queue_3 n) + len (dynamic_queue_2 n) + len (dynamic_queue_1 n)
     + (if current_request n is Some _ then 1 else 0))%Z
  else if String.eqb (scheduler n) "STATIC_PRIORITY" then
    (len (priority_queue_3 n) + len (priority_queue_2 n) + len (priority_queue_1 n))%Z
  else if String.eqb (scheduler n) "EMERGENCY_FIRST" then
    (len (emergency_queue n) + len (normal_queue n))%Z
  else len (queue n).

(** [FogNode.queue_length] *)
Definition queue_length (n : FogNode) : Z := _get_total_queue_length n.

(** The inner loop [for req in queue: total_remaining += req.remaining_demand]. *)
Definition add_remaining (h : heap) (total_remaining : Q) (q : list ref) : Q :=
  fold_left (λ acc req, acc + remaining_demand (h !!! req)) q total_remaining.

(** [FogNode._admission_control_check_timebased]; the division by
    [self.cpu_capacity] raises when the capacity is zero. *)
Definition _admission_control_check_timebased (h : heap) (n : FogNode) (request : ref)
    : result bool :=
  let total_remaining :=
    fold_left (add_remaining h)
      [dynamic_queue_3 n; dynamic_queue_2 n; dynamic_queue_1 n] 0 in
  let total_remaining :=
    match current_request n with
    | Some cur => total_remaining + remaining_demand (h !!! cur)
    | None => total_remaining
    end in
  if Qeq_bool (cpu_capacity n) 0 then Raise ZeroDivisionError
  else
    let predicted_work_time :=
      (total_remaining + processing_demand (h !!! request)) / cpu_capacity n in
    let predicted_finish := arrival_time (h !!! request) + predicted_work_time in
    Ok (Qle_bool predicted_finish (absolute_deadline (h !!! request))).

(** [FogNode._priority_score] *)
Definition _priority_score (h : heap) (n : FogNode) (request : ref) (current_time : Q) : Q :=
  let rq := h !!! request in
  let g := if Z.eqb (priority_class rq) 3 then 1
           else if Z.eqb (priority_class rq) 2 then 1 # 2
           else 0 in
  let Di := py_max (1 # 1000000000) (relative_deadline_s rq) in
  let u := 1 - (absolute_deadline rq - current_time) / Di in
  let u := py_min 1 (py_max 0 u) in
  let w := (current_time - arrival_time rq) / Di in
  let w := py_min 1 (py_max 0 w) in
  alpha n * g + beta n * u + gamma n * w.

(** One iteration of the selection loop of [_select_next_request_sla];
    the state is [(best_req, best_score)], [best_score = None] standing
    for [-inf]. *)
Definition select_step (h : heap) (n : FogNode) (current_time : Q)
    (st : option ref * option Q) (req : ref) : option ref * option Q :=
  let score := _priority_score h n req current_time in
  match st with
  | (_, None) => (Some req, Some score)
  | (best_req, Some best_score) =>
      if Qltb best_score score then (Some req, Some score)
      else if Qeq_bool score best_score then
        match best_req with
        | Some best =>
            let slack_best := absolute_deadline (h !!! best) - current_time in
            let slack_new := absolute_deadline (h !!! req) - current_time in
            if Qltb slack_new slack_best then (Some req, Some best_score)
            else if Qeq_bool slack_new slack_best then
              let wait_best := current_time - arrival_time (h !!! best) in
              let wait_new := current_time - arrival_time (h !!! req) in
              if Qltb wait_best wait_new then (Some req, Some best_score)
              else st
            else st
        | None => st
        end
      else st
  end.

(** [FogNode._select_next_request_sla] *)
Definition _select_next_request_sla (h : heap) (n : FogNode) (current_time : Q) : option ref :=
  let candidates := dynamic_queue_3 n ++ dynamic_queue_2 n ++ dynamic_queue_1 n in
  match candidates with
  | [] => None
  | _ => fst (fold_left (select_step h n current_time) candidates (None, None))
  end.

(** [deque.pop()]: drops the last element. *)
Definition deque_pop (q : list ref) : result (list ref) :=
  match q with
  | [] => Raise IndexError
  | _ => Ok (removelast q)
  end.
Arguments deque_pop : simpl never.

(** [deque.remove(x)]: drops the first element that is [x] or compares equal
    to it, and raises ValueError when there is none. *)
Fixpoint deque_remove (h : heap) (x : ref) (q : list ref) : result (list ref) :=
  match q with
  | [] => Raise (ValueError "deque.remove(x): x not in deque")
  | y :: q' =>
      if Nat.eqb y x || Request_eqb (h !!! y) (h !!! x) then Ok q'
      else q'' ← deque_remove h x q'; Ok (y :: q'')
  end.

(** [if req.start_time is None: req.start_time = t] *)
Definition mark_started (t : Q) (h : heap) (req : ref) : heap :=
  match start_time (h !!! req) with
  | None => <[req := set_start_time (Some t) (h !!! req)]> h
  | Some _ => h
  end.

(** Append to / prepend to / pop from the per-class queue of the
    SLA policy chosen by a priority class ([3], [2], anything else). *)
Definition dynamic_append (cls : Z) (r : ref) (n : FogNode) : FogNode :=
  if Z.eqb cls 3 then set_dynamic_queue_3 (dynamic_queue_3 n ++ [r]) n
  else if Z.eqb cls 2 then set_dynamic_queue_2 (dynamic_queue_2 n ++ [r]) n
  else set_dynamic_queue_1 (dynamic_queue_1 n ++ [r]) n.

Definition dynamic_appendleft (cls : Z) (r : ref) (n : FogNode) : FogNode :=
  if Z.eqb cls 3 then set_dynamic_queue_3 (r :: dynamic_queue_3 n) n
  else if Z.eqb cls 2 then set_dynamic_queue_2 (r :: dynamic_queue_2 n) n
  else set_dynamic_queue_1 (r :: dynamic_queue_1 n) n.

Definition dynamic_pop (cls : Z) (n : FogNode) : result FogNode :=
  if Z.eqb cls 3 then q ← deque_pop (dynamic_queue_3 n); Ok (set_dynamic_queue_3 q n)
  else if Z.eqb cls 2 then q ← deque_pop (dynamic_queue_2 n); Ok (set_dynamic_queue_2 q n)
  else q ← deque_pop (dynamic_queue_1 n); Ok (set_dynamic_queue_1 q n).

Definition dynamic_remove (h : heap) (cls : Z) (r : ref) (n : FogNode) : result FogNode :=
  if Z.eqb cls 3 then q ← deque_remove h r (dynamic_queue_3 n); Ok (set_dynamic_queue_3 q n)
  else if Z.eqb cls 2 then q ← deque_remove h r (dynamic_queue_2 n); Ok (set_dynamic_queue_2 q n)
  else q ← deque_remove h r (dynamic_queue_1 n); Ok (set_dynamic_queue_1 q n).

(** [FogNode.enqueue_request]; the result is the pair the method returns,
    [(True, None)] or [(False, reason)]. *)
Definition enqueue_request (h : heap) (n : FogNode) (request : ref) (time_step : Q)
    : result (heap * FogNode * (bool * option string)) :=
  let total_queue_len := _get_total_queue_length n in
  if (if max_queue_length n is Some m then Z.leb m total_queue_len else false) then
    Ok (h, n, (false, Some "queue_full"))
  else if is_sla n then
    ok ← _admission_control_check_timebased h n request;
    if negb ok then
      Ok (h, set_total_rejected_due_to_deadline (total_rejected_due_to_deadline n + 1)%Z n,
          (false, Some "admission_rejected"))
    else
      let n := dynamic_append (priority_class (h !!! request)) request n in
      match current_request n with
      | Some cur =>
          let new_score := _priority_score h n request (arrival_time (h !!! request)) in
          let run_score := _priority_score h n cur (arrival_time (h !!! request)) in
          if Qltb run_score new_score then
            let n := dynamic_appendleft (priority_class (h !!! cur)) cur n in
            n ← dynamic_pop (priority_class (h !!! request)) n;
            let n := set_current_request (Some request) n in
            let h := mark_started (arrival_time (h !!! request)) h request in
            Ok (h, n, (true, None))
          else Ok (h, n, (true, None))
      | None => Ok (h, n, (true, None))
      end
  else
    let enq :=
      if String.eqb (scheduler n) "STATIC_PRIORITY" then
        if Z.eqb (priority_class (h !!! request)) 3 then
          Some (set_priority_queue_3 (priority_queue_3 n ++ [request]) n)
        else if Z.eqb (priority_class (h !!! request)) 2 then
          Some (set_priority_queue_2 (priority_queue_2 n ++ [request]) n)
        else Some (set_priority_queue_1 (priority_queue_1 n ++ [request]) n)
      else if String.eqb (scheduler n) "EMERGENCY_FIRST" then
        if is_emergency (h !!! request) then
          Some (set_emergency_queue (emergency_queue n ++ [request]) n)
        else Some (set_normal_queue (normal_queue n ++ [request]) n)
      else
        if (if max_queue_length n is Some m then Z.leb m (len (queue n)) else false)
        then None
        else Some (set_queue (queue n ++ [request]) n) in
    match enq with
    | None => Ok (h, n, (false, Some "queue_full"))
    | Some n =>
        let n := match link_capacity n with
                 | Some _ => set_current_link_load
                               (current_link_load n + data_size (h !!! request)) n
                 | None => n
                 end in
        Ok (h, n, (true, None))
    end.

(** [FogNode._update_sla_weights_window].  The final division by [S] raises
    when [S] is zero. *)
Definition mean (xs : list Q) : Q := py_sum xs / py_len xs.

Definition _update_sla_weights_window (h : heap) (n : FogNode) (current_time : Q)
    : result FogNode :=
  let TW := getattr (sla_window_TW n) 10 in
  let J1_max := getattr (sla_J1_max n) (1 # 10) in
  let J2_max_s := getattr (sla_J2_max_s n) 5 in
  let J3_max := getattr (sla_J3_max n) 2 in
  let eta1 := getattr (sla_eta1 n) (eta_1 n) in
  let eta2 := getattr (sla_eta2 n) (eta_2 n) in
  let eta3 := getattr (sla_eta3 n) (eta_3 n) in
  let eps := getattr (sla_eps n) (1 # 1000000) in
  let window_tasks :=
    List.filter (λ r, match completion_time (h !!! r) with
                      | Some c => Qle_bool (current_time - TW) c
                      | None => false
                      end) (_completed_history n) in
  match window_tasks with
  | [] => Ok n
  | _ =>
    let emer := List.filter (λ r, Z.eqb (priority_class (h !!! r)) 3) window_tasks in
    let J1 :=
      match emer with
      | [] => 0
      | _ =>
        let missed :=
          List.filter (λ r, match deadline_met (h !!! r) with
                            | Some false => true
                            | _ => false
                            end) emer in
        py_len missed / py_len emer
      end in
    let lats := omap (λ r, latency (h !!! r)) window_tasks in
    let J2 := match lats with [] => 0 | _ => mean lats end in
    let normal :=
      omap (λ r, if Z.eqb (priority_class (h !!! r)) 1 then latency (h !!! r) else None)
           window_tasks in
    let emer_l :=
      omap (λ r, if Z.eqb (priority_class (h !!! r)) 3 then latency (h !!! r) else None)
           window_tasks in
    let J3 :=
      match emer_l, normal with
      | _ :: _, _ :: _ => mean normal / py_max (1 # 1000000000) (mean emer_l)
      | _, _ => 1
      end in
    let l1 := py_max 0 (lambda_1 n + eta1 * (J1 - J1_max)) in
    let l2 := py_max 0 (lambda_2 n + eta2 * (J2 - J2_max_s)) in
    let l3 := py_max 0 (lambda_3 n + eta3 * (J3 - J3_max)) in
    let S := (l1 + eps) + (l2 + eps) + (l3 + eps) in
    if Qeq_bool S 0 then Raise ZeroDivisionError
    else
      Ok (set_gamma ((l3 + eps) / S)
         (set_beta ((l2 + eps) / S)
         (set_alpha ((l1 + eps) / S)
         (set_lambda_3 l3 (set_lambda_2 l2 (set_lambda_1 l1 n))))))
  end.

(** The block each branch of [process_one_step] runs on the request it
    serves with [capacity_left] at hand: finish it when its remaining demand
    fits, otherwise give it all that is left.  The result is
    [(finished, capacity_left, store)]. *)
Definition serve (current_time time_step : Q) (h : heap) (req : ref) (capacity_left : Q)
    : bool * Q * heap :=
  let rq := h !!! req in
  if Qle_bool (remaining_demand rq) capacity_left then
    let capacity_used := remaining_demand rq in
    (true, capacity_left - capacity_used,
     <[req := set_completion_time (Some (current_time + time_step))
                (set_remaining_demand 0 rq)]> h)
  else
    (false, 0, <[req := set_remaining_demand (remaining_demand rq - capacity_left) rq]> h).

(** [while queue and capacity_left > 0: ...], the loop of the FIFO,
    EMERGENCY_FIRST and STATIC_PRIORITY branches.  After a partial service
    [capacity_left] is [0.0] and the loop test fails. *)
Fixpoint drain (current_time time_step : Q) (q : list ref) (capacity_left : Q)
    (h : heap) (completed : list ref) : list ref * Q * heap * list ref :=
  match q with
  | [] => (q, capacity_left, h, completed)
  | req :: q' =>
      if Qltb 0 capacity_left then
        let h := mark_started current_time h req in
        match serve current_time time_step h req capacity_left with
        | (true, capacity_left, h) =>
            drain current_time time_step q' capacity_left h (completed ++ [req])
        | (false, capacity_left, h) => (q, capacity_left, h, completed)
        end
      else (q, capacity_left, h, completed)
  end.

(** The second half of an iteration of the SLA loop: select the next
    request by priority score, take it out of its class queue, give it its
    start time and make it the current request; [continue] is the next
    iteration and [None] leaves the loop. *)
Definition sla_dispatch
    (continue : Q → gmap nat Request → FogNode → list ref
                → result (Q * gmap nat Request * FogNode * list ref))
    (current_time : Q) (capacity_left : Q)
    (h : gmap nat Request) (n : FogNode) (completed : list ref)
    : result (Q * gmap nat Request * FogNode * list ref) :=
  match _select_next_request_sla h n current_time with
  | None => Ok (capacity_left, h, n, completed)
  | Some next_req =>
      n ← dynamic_remove h (priority_class (h !!! next_req)) next_req n;
      let h := mark_started current_time h next_req in
      let n := set_current_request_start_time (Some current_time)
                 (set_current_request (Some next_req) n) in
      continue capacity_left h n completed
  end.

(** [while capacity_left > 0: ...], the loop of the SLA branch: the current
    request is finished, or takes what is left and the loop ends ([break]);
    then the next request is dispatched.  Every iteration that does not
    leave the loop takes one request out of the class queues, so [fuel]
    above their total length is never used up. *)
Fixpoint sla_loop (fuel : nat) (current_time time_step : Q) (capacity_left : Q)
    (h : gmap nat Request) (n : FogNode) (completed : list ref)
    : result (Q * gmap nat Request * FogNode * list ref) :=
  match fuel with
  | O => Raise OutOfFuel
  | S fuel =>
    if Qltb 0 capacity_left then
      match current_request n with
      | Some cur =>
          match serve current_time time_step h cur capacity_left with
          | (true, capacity_left, h) =>
              sla_dispatch (sla_loop fuel current_time time_step) current_time
                capacity_left h
                (set_current_request_start_time None
                   (set_current_request None
                      (set_completed_history (_completed_history n ++ [cur]) n)))
                (completed ++ [cur])
          | (false, capacity_left, h) => Ok (capacity_left, h, n, completed)
          end
      | None =>
          sla_dispatch (sla_loop fuel current_time time_step) current_time
            capacity_left h n completed
      end
    else Ok (capacity_left, h, n, completed)
  end.

(** The window test that closes the SLA branch of [process_one_step]. *)
Definition sla_window_boundary (h : heap) (n : FogNode) (current_time : Q)
    : result FogNode :=
  let TW := getattr (sla_window_TW n) 10 in
  if Qle_bool TW (current_time - _last_window_update n) then
    n ← _update_sla_weights_window h n current_time;
    Ok (set_last_window_update current_time n)
  else Ok n.

(** [FogNode.process_one_step] together with the [capacity_left] it ends
    with. *)
Definition process_one_step_cap (h : heap) (n : FogNode) (current_time time_step : Q)
    : result (Q * heap * FogNode * list ref) :=
  let completed : list ref := [] in
  let capacity_left := cpu_capacity n * time_step in
  if is_sla n then
    let fuel := S (length (dynamic_queue_3 n ++ dynamic_queue_2 n ++ dynamic_queue_1 n)) in
    '(capacity_left, h, n, completed) ←
      sla_loop fuel current_time time_step capacity_left h n completed;
    n ← sla_window_boundary h n current_time;
    Ok (capacity_left, h, n, completed)
  else if String.eqb (scheduler n) "STATIC_PRIORITY" then
    let '(q3, capacity_left, h, completed) :=
      drain current_time time_step (priority_queue_3 n) capacity_left h completed in
    let '(q2, capacity_left, h, completed) :=
      drain current_time time_step (priority_queue_2 n) capacity_left h completed in
    let '(q1, capacity_left, h, completed) :=
      drain current_time time_step (priority_queue_1 n) capacity_left h completed in
    Ok (capacity_left, h,
        set_priority_queue_1 q1 (set_priority_queue_2 q2 (set_priority_queue_3 q3 n)),
        completed)
  else if String.eqb (scheduler n) "EMERGENCY_FIRST" then
    let '(qe, capacity_left, h, completed) :=
      drain current_time time_step (emergency_queue n) capacity_left h completed in
    let '(qn, capacity_left, h, completed) :=
      drain current_time time_step (normal_queue n) capacity_left h completed in
    Ok (capacity_left, h, set_normal_queue qn (set_emergency_queue qe n), completed)
  else
    let '(q, capacity_left, h, completed) :=
      drain current_time time_step (queue n) capacity_left h completed in
    Ok (capacity_left, h, set_queue q n, completed).

(** [FogNode.process_one_step]: the store and node after the step and the
    list of completed requests it returns. *)
Definition process_one_step (h : heap) (n : FogNode) (current_time time_step : Q)
    : result (heap * FogNode * list ref) :=
  '(_, h, n, completed) ← process_one_step_cap h n current_time time_step;
  Ok (h, n, completed).

(** ** config.py *)

Record SimulationConfig : Type := mkSimulationConfig {
  sim_time : Q;
  time_step : Q;
  time_step_ms : option Z;
  random_seed : Z;
  city_width : Q;
  city_height : Q;
  num_fog_nodes_x : Z;
  num_fog_nodes_y : Z;
  fog_cpu_capacity : Q;
  fog_link_capacity : option Q;
  fog_max_queue_length : option Z;
  avg_requests_per_step : Q;
  max_requests_per_step : Z;
  cfg_scheduler : string;
  cfg_sla_window_TW : Q;
  cfg_sla_J1_max : Q;
  cfg_sla_J2_max_s : Q;
  cfg_sla_J3_max : Q;
  cfg_sla_eta1 : Q;
  cfg_sla_eta2 : Q;
  cfg_sla_eta3 : Q;
  cfg_sla_eps : Q
}.

(** The defaults of the dataclass. *)
Definition default_config : SimulationConfig :=
  {| sim_time := 3600; time_step := 1; time_step_ms := None; random_seed := 42;
     city_width := 1000; city_height := 1000;
     num_fog_nodes_x := 2; num_fog_nodes_y := 2;
     fog_cpu_capacity := 10; fog_link_capacity := Some 50;
     fog_max_queue_length := None;
     avg_requests_per_step := 5; max_requests_per_step := 200;
     cfg_scheduler := "FIFO";
     cfg_sla_window_TW := 10; cfg_sla_J1_max := 1 # 10; cfg_sla_J2_max_s := 5;
     cfg_sla_J3_max := 2; cfg_sla_eta1 := 1 # 100; cfg_sla_eta2 := 1 # 100;
     cfg_sla_eta3 := 1 # 100; cfg_sla_eps := 1 # 1000000 |}.

(** ** topology.py: FogTopology and build_grid_topology *)

Record FogTopology : Type := mkFogTopology { fog_nodes : list FogNode }.

Definition all_nodes (t : FogTopology) : list FogNode := fog_nodes t.

(** [range(n)] *)
Definition range (n : Z) : list Z := map Z.of_nat (seq 0 (Z.to_nat n)).

(** The [setattr] loop of [build_grid_topology]: the configuration
    dataclass has all eight attributes. *)
Definition wire_sla_attrs (config : SimulationConfig) (n : FogNode) : FogNode :=
  {| node_id := node_id n; position := position n; cpu_capacity := cpu_capacity n;
     link_capacity := link_capacity n; max_queue_length := max_queue_length n;
     scheduler := scheduler n;
     queue := queue n; emergency_queue := emergency_queue n;
     normal_queue := normal_queue n;
     priority_queue_3 := priority_queue_3 n; priority_queue_2 := priority_queue_2 n;
     priority_queue_1 := priority_queue_1 n;
     dynamic_queue_3 := dynamic_queue_3 n; dynamic_queue_2 := dynamic_queue_2 n;
     dynamic_queue_1 := dynamic_queue_1 n;
     alpha := alpha n; beta := beta n; gamma := gamma n;
     lambda_1 := lambda_1 n; lambda_2 := lambda_2 n; lambda_3 := lambda_3 n;
     eta_1 := eta_1 n; eta_2 := eta_2 n; eta_3 := eta_3 n;
     _completed_history := _completed_history n;
     _last_window_update := _last_window_update n;
     current_request := current_request n;
     current_request_start_time := current_request_start_time n;
     current_link_load := current_link_load n;
     total_rejected_due_to_deadline := total_rejected_due_to_deadline n;
     sla_window_TW := Some (cfg_sla_window_TW config);
     sla_J1_max := Some (cfg_sla_J1_max config);
     sla_J2_max_s := Some (cfg_sla_J2_max_s config);
     sla_J3_max := Some (cfg_sla_J3_max config);
     sla_eta1 := Some (cfg_sla_eta1 config);
     sla_eta2 := Some (cfg_sla_eta2 config);
     sla_eta3 := Some (cfg_sla_eta3 config);
     sla_eps := Some (cfg_sla_eps config) |}.

(** [build_grid_topology]; the running [node_id] counter of the nested loops
    is [ix * num_fog_nodes_y + iy]. *)
Definition build_grid_topology (config : SimulationConfig) : result FogTopology :=
  if Z.leb (num_fog_nodes_x config) 0 || Z.leb (num_fog_nodes_y config) 0 then
    Raise (ValueError "Number of fog nodes in each dimension must be positive.")
  else
    let step_x := city_width config / inject_Z (num_fog_nodes_x config + 1) in
    let step_y := city_height config / inject_Z (num_fog_nodes_y config + 1) in
    Ok (mkFogTopology
      (flat_map (λ ix,
         map (λ iy,
           let x := inject_Z (ix + 1) * step_x in
           let y := inject_Z (iy + 1) * step_y in
           wire_sla_attrs config
             (FogNode_init (ix * num_fog_nodes_y config + iy)%Z (x, y)
                (fog_cpu_capacity config) (fog_link_capacity config)
                (fog_max_queue_length config) (cfg_scheduler config)))
           (range (num_fog_nodes_y config)))
         (range (num_fog_nodes_x config)))).

(** The comparison [dist < best_dist] of [get_nearest_fog] on the squares of
    the two distances ([sqrt] is increasing). *)
Definition dist2 (p q : Q * Q) : Q :=
  (fst p - fst q) * (fst p - fst q) + (snd p - snd q) * (snd p - snd q).

Definition nearest_step (pos : Q * Q) (st : option nat * option Q)
    (e : nat * FogNode) : option nat * option Q :=
  let d := dist2 (position (snd e)) pos in
  match st with
  | (_, None) => (Some (fst e), Some d)
  | (_, Some best_dist) => if Qltb d best_dist then (Some (fst e), Some d) else st
  end.

(** [FogTopology.get_nearest_fog]: the index in [fog_nodes] of the node it
    returns; the [assert] fails on an empty topology. *)
Definition get_nearest_fog (t : FogTopology) (pos : Q * Q) : result nat :=
  match fst (fold_left (nearest_step pos) (imap pair (fog_nodes t)) (None, None)) with
  | Some i => Ok i
  | None => Raise AssertionError
  end.

(** ** The [random] module

    The generator of the [random] module is a stream of draws in [[0, 1)]
    and a position in it; [random.seed] picks the stream. *)

Record Rng : Type := mkRng { rng_stream : nat → Q; rng_pos : nat }.

(** [random.random()] *)
Definition random_random (g : Rng) : Q * Rng :=
  (rng_stream g (rng_pos g), mkRng (rng_stream g) (S (rng_pos g))).

(** [random.uniform(a, b)] *)
Definition random_uniform (a b : Q) (g : Rng) : Q * Rng :=
  let '(u, g) := random_random g in (a + (b - a) * u, g).

(** ** request_generator.py *)

Record RequestGenerator : Type := mkRequestGenerator {
  gen_config : SimulationConfig;
  next_request_id : Z;
  type_probabilities : list (RequestType * Q)
}.

Definition type_probabilities_table : list (RequestType * Q) :=
  [ (LANE_GUIDANCE, 8 # 100); (NAVIGATION_REROUTING, 8 # 100);
    (PARKING_DISCOVERY, 5 # 100); (EV_CHARGER_BOOKING, 3 # 100);
    (TOLLING_CHARGING, 2 # 100); (EMERGENCY_SOS, 10 # 100);
    (INCIDENT_UPLOAD, 8 # 100); (COLLISION_ALERT, 8 # 100);
    (SPEED_LIMIT_AR, 8 # 100); (ROAD_HAZARD_BROADCAST, 10 # 100);
    (DROWSINESS_ALERT, 5 # 100); (SURROUND_VIEW, 5 # 100);
    (SCHOOL_ZONE_ADVISORY, 2 # 100); (WEATHER_AWARE_ROUTING, 2 # 100);
    (TRIP_SUMMARY_ANALYTICS, 0) ].

(** [RequestGenerator.__init__] *)
Definition RequestGenerator_init (config : SimulationConfig) : result RequestGenerator :=
  let total_p := py_sum (map snd type_probabilities_table) in
  if Qle_bool total_p 0 then
    Raise (ValueError "Sum of type probabilities must be positive.")
  else
    Ok (mkRequestGenerator config 0
          (map (λ e, (fst e, snd e / total_p)) type_probabilities_table)).

(** [RequestGenerator._sample_request_type] on the draw [r]. *)
Fixpoint sample_from (r : Q) (cumulative : Q) (ps : list (RequestType * Q))
    : option RequestType :=
  match ps with
  | [] => None
  | (rt, p) :: ps =>
      let cumulative := cumulative + p in
      if Qle_bool r cumulative then Some rt else sample_from r cumulative ps
  end.

Definition _sample_request_type (gen : RequestGenerator) (g : Rng) : RequestType * Rng :=
  let '(r, g) := random_random g in
  match sample_from r 0 (type_probabilities gen) with
  | Some rt => (rt, g)
  | None => (List.last (map fst (type_probabilities gen)) TRIP_SUMMARY_ANALYTICS, g)
  end.

(** [RequestGenerator._defaults_for_type]:
    [(processing_demand, data_size, latency_slo, is_emergency)]. *)
Definition _defaults_for_type (request_type : RequestType) : Q * Q * option Q * bool :=
  match request_type with
  | EMERGENCY_SOS => (20, 2, Some 2, true)
  | COLLISION_ALERT => (15, 3 # 2, Some (1 # 2), true)
  | ROAD_HAZARD_BROADCAST => (12, 1, Some 1, true)
  | INCIDENT_UPLOAD => (18, 10, Some 5, true)
  | LANE_GUIDANCE | NAVIGATION_REROUTING | SPEED_LIMIT_AR | DROWSINESS_ALERT
  | SURROUND_VIEW | SCHOOL_ZONE_ADVISORY | WEATHER_AWARE_ROUTING =>
      (10, 1, Some 3, false)
  | PARKING_DISCOVERY | EV_CHARGER_BOOKING | TOLLING_CHARGING => (8, 1, Some 5, false)
  | TRIP_SUMMARY_ANALYTICS => (5, 3, Some 60, false)
  end.

(** [RequestGenerator._priority_class_for_type] *)
Definition _priority_class_for_type (request_type : RequestType) : Z :=
  match request_type with
  | EMERGENCY_SOS | COLLISION_ALERT | ROAD_HAZARD_BROADCAST | INCIDENT_UPLOAD => 3
  | LANE_GUIDANCE | NAVIGATION_REROUTING | SPEED_LIMIT_AR | DROWSINESS_ALERT
  | SURROUND_VIEW | SCHOOL_ZONE_ADVISORY | WEATHER_AWARE_ROUTING
  | PARKING_DISCOVERY => 2
  | _ => 1
  end.

(** [RequestGenerator._relative_deadline_for_type] *)
Definition _relative_deadline_for_type (request_type : RequestType) : Q :=
  match request_type with
  | COLLISION_ALERT => 5
  | EMERGENCY_SOS | ROAD_HAZARD_BROADCAST => 8
  | INCIDENT_UPLOAD => 10
  | LANE_GUIDANCE | DROWSINESS_ALERT | SURROUND_VIEW => 15
  | NAVIGATION_REROUTING | SPEED_LIMIT_AR | SCHOOL_ZONE_ADVISORY
  | WEATHER_AWARE_ROUTING => 20
  | PARKING_DISCOVERY => 25
  | EV_CHARGER_BOOKING | TOLLING_CHARGING => 60
  | TRIP_SUMMARY_ANALYTICS => 120
  end.

(** The Bernoulli trials [for _ in range(max_n): if random.random() < p: ...]. *)
Fixpoint bernoulli_trials (k : nat) (p : Q) (num_new : nat) (g : Rng) : nat * Rng :=
  match k with
  | O => (num_new, g)
  | S k =>
      let '(u, g) := random_random g in
      bernoulli_trials k p (if Qltb u p then S num_new else num_new) g
  end.

(** The body of the loop [for _ in range(num_new)] of [generate_requests]:
    one Request object is built and put in the store at the next free
    reference. *)
Definition make_request (current_time : Q)
    (st : RequestGenerator * Rng * heap * nat * list ref)
    : RequestGenerator * Rng * heap * nat * list ref :=
  let '(gen, g, h, next_ref, requests) := st in
  let '(rt, g) := _sample_request_type gen g in
  let '(proc_cost, data_size, latency_slo, is_emergency) := _defaults_for_type rt in
  let '(x, g) := random_uniform 0 (city_width (gen_config gen)) g in
  let '(y, g) := random_uniform 0 (city_height (gen_config gen)) g in
  let priority_class := _priority_class_for_type rt in
  let relative_deadline_s := _relative_deadline_for_type rt in
  let absolute_deadline := current_time + relative_deadline_s in
  let req :=
    {| request_id := next_request_id gen; request_type := rt;
       source_position := (x, y); arrival_time := current_time;
       processing_demand := proc_cost; remaining_demand := proc_cost;
       data_size := data_size; is_emergency := is_emergency;
       latency_slo := latency_slo; priority_class := priority_class;
       relative_deadline_s := relative_deadline_s;
       absolute_deadline := absolute_deadline;
       assigned_fog_id := None; start_time := None; completion_time := None |} in
  (mkRequestGenerator (gen_config gen) (next_request_id gen + 1)%Z (type_probabilities gen),
   g, <[next_ref := req]> h, S next_ref, requests ++ [next_ref]).

(** [RequestGenerator.generate_requests] *)
Definition generate_requests (gen : RequestGenerator) (g : Rng) (h : heap) (next_ref : nat)
    (current_time : Q) : RequestGenerator * Rng * heap * nat * list ref :=
  let avg := avg_requests_per_step (gen_config gen) in
  let max_n := max_requests_per_step (gen_config gen) in
  if Z.leb max_n 0 then (gen, g, h, next_ref, [])
  else
    let p := if Qltb 0 avg then py_min 1 (avg / inject_Z max_n) else 0 in
    let '(num_new, g) := bernoulli_trials (Z.to_nat max_n) p 0%nat g in
    Nat.iter num_new (make_request current_time) (gen, g, h, next_ref, []).

(** ** metrics.py: the counters of MetricsCollector

    The per-type and per-class tallies, the latency samples and the deadline
    tallies only feed the final report and are left out. *)

Record MetricsCollector : Type := mkMetricsCollector {
  total_generated : Z;
  total_completed : Z;
  total_dropped : Z;
  total_admitted : Z;
  total_rejected : Z;
  dropped_by_reason : gmap string Z;
  per_step_generated : list Z;
  per_step_completed : list Z;
  per_step_dropped : list Z;
  _current_step_dropped : Z;
  avg_queue_lengths : list Q;
  max_queue_lengths : list Z
}.

Definition MetricsCollector_init : MetricsCollector :=
  mkMetricsCollector 0 0 0 0 0 ∅ [] [] [] 0 [] [].

(** [defaultdict(int)[k] += 1] *)
Definition incr (k : string) (d : gmap string Z) : gmap string Z :=
  <[k := (default 0%Z (d !! k) + 1)%Z]> d.

Definition record_generated (m : MetricsCollector) (requests : list ref) : MetricsCollector :=
  mkMetricsCollector (total_generated m + len requests) (total_completed m)
    (total_dropped m) (total_admitted m) (total_rejected m) (dropped_by_reason m)
    (per_step_generated m ++ [len requests]) (per_step_completed m)
    (per_step_dropped m) (_current_step_dropped m)
    (avg_queue_lengths m) (max_queue_lengths m).

Definition record_completed (m : MetricsCollector) (requests : list ref) : MetricsCollector :=
  mkMetricsCollector (total_generated m) (total_completed m + len requests)
    (total_dropped m) (total_admitted m) (total_rejected m) (dropped_by_reason m)
    (per_step_generated m) (per_step_completed m ++ [len requests])
    (per_step_dropped m) (_current_step_dropped m)
    (avg_queue_lengths m) (max_queue_lengths m).

Definition record_dropped (m : MetricsCollector) (reason : string) : MetricsCollector :=
  mkMetricsCollector (total_generated m) (total_completed m)
    (total_dropped m + 1) (total_admitted m) (total_rejected m)
    (incr reason (dropped_by_reason m))
    (per_step_generated m) (per_step_completed m)
    (per_step_dropped m) (_current_step_dropped m + 1)
    (avg_queue_lengths m) (max_queue_lengths m).

Definition record_rejected (m : MetricsCollector) (reason : string) : MetricsCollector :=
  mkMetricsCollector (total_generated m) (total_completed m)
    (total_dropped m) (total_admitted m) (total_rejected m + 1)
    (incr reason (dropped_by_reason m))
    (per_step_generated m) (per_step_completed m)
    (per_step_dropped m) (_current_step_dropped m)
    (avg_queue_lengths m) (max_queue_lengths m).

(** [self.metrics.total_admitted += 1] in [Simulation.run] *)
Definition count_admitted (m : MetricsCollector) : MetricsCollector :=
  mkMetricsCollector (total_generated m) (total_completed m)
    (total_dropped m) (total_admitted m + 1) (total_rejected m) (dropped_by_reason m)
    (per_step_generated m) (per_step_completed m)
    (per_step_dropped m) (_current_step_dropped m)
    (avg_queue_lengths m) (max_queue_lengths m).

Definition record_queue_lengths (m : MetricsCollector) (nodes : list FogNode)
    : MetricsCollector :=
  match nodes with
  | [] => m
  | _ =>
    let lengths := map queue_length nodes in
    let avg_len := inject_Z (fold_left Z.add lengths 0%Z) / py_len lengths in
    let max_len := fold_left Z.max lengths (List.hd 0%Z lengths) in
    mkMetricsCollector (total_generated m) (total_completed m)
      (total_dropped m) (total_admitted m) (total_rejected m) (dropped_by_reason m)
      (per_step_generated m) (per_step_completed m)
      (per_step_dropped m) (_current_step_dropped m)
      (avg_queue_lengths m ++ [avg_len]) (max_queue_lengths m ++ [max_len])
  end.

Definition step_advance (m : MetricsCollector) : MetricsCollector :=
  mkMetricsCollector (total_generated m) (total_completed m)
    (total_dropped m) (total_admitted m) (total_rejected m) (dropped_by_reason m)
    (per_step_generated m) (per_step_completed m)
    (per_step_dropped m ++ [_current_step_dropped m]) 0
    (avg_queue_lengths m) (max_queue_lengths m).

(** ** simulation.py *)

Record Simulation : Type := mkSimulation {
  config : SimulationConfig;
  topology : FogTopology;
  generator : RequestGenerator;
  metrics : MetricsCollector;
  store : gmap nat Request;
  next_ref : nat;
  rng : Rng
}.

Section Simulation.

(** [random.seed(seed)]: the stream of draws that a seed selects. *)
Variable seeded_stream : Z → nat → Q.

(** [Simulation.__init__] *)
Definition Simulation_init (config : SimulationConfig) : result Simulation :=
  let g := mkRng (seeded_stream (random_seed config)) 0 in
  topology ← build_grid_topology config;
  generator ← RequestGenerator_init config;
  Ok (mkSimulation config topology generator MetricsCollector_init ∅ 0%nat g).

End Simulation.

(** The body of [for req in new_requests] in [Simulation.run]; the state is
    the store, the nodes and the metrics. *)
Definition route_request (dt : Q) (st : gmap nat Request * FogTopology * MetricsCollector)
    (req : ref) : result (gmap nat Request * FogTopology * MetricsCollector) :=
  let '(h, topo, m) := st in
  i ← get_nearest_fog topo (source_position (h !!! req));
  let fog_node := fog_nodes topo !!! i in
  let h := <[req := set_assigned_fog_id (Some (node_id fog_node)) (h !!! req)]> h in
  if can_accept_request h fog_node req dt then
    '(h, fog_node, (success, reason)) ← enqueue_request h fog_node req dt;
    let topo := mkFogTopology (<[i := fog_node]> (fog_nodes topo)) in
    if (success : bool) then Ok (h, topo, count_admitted m)
    else if bool_decide (reason = Some "admission_rejected") then
      Ok (h, topo, record_rejected m "admission_rejected")
    else Ok (h, topo, record_dropped m "queue_full")
  else Ok (h, topo, record_dropped m "link_capacity").

Arguments route_request : simpl never.

(** [for x in xs: st = f(st, x)] with exceptions. *)
Fixpoint foldM {A B} (f : A → B → result A) (st : A) (xs : list B) : result A :=
  match xs with
  | [] => Ok st
  | x :: xs => st ← f st x; foldM f st xs
  end.

(** The body of [for node in self.topology.all_nodes()] of step 4; nodes are
    visited by index and updated in place. *)
Definition process_node (time dt : Q) (st : gmap nat Request * FogTopology * list ref)
    (i : nat) : result (gmap nat Request * FogTopology * list ref) :=
  let '(h, topo, all_completed) := st in
  '(h, node, completed) ← process_one_step h (fog_nodes topo !!! i) time dt;
  Ok (h, mkFogTopology (<[i := node]> (fog_nodes topo)), all_completed ++ completed).

Arguments process_node : simpl never.

(** One iteration of the [while time < sim_time] loop of [Simulation.run]. *)
Definition sim_step (sim : Simulation) (time dt : Q) : result Simulation :=
  let topo := mkFogTopology (map reset_step_state (all_nodes (topology sim))) in
  let '(gen, g, h, nref, new_requests) :=
    generate_requests (generator sim) (rng sim) (store sim) (next_ref sim) time in
  let m := record_generated (metrics sim) new_requests in
  '(h, topo, m) ← foldM (route_request dt) (h, topo, m) new_requests;
  '(h, topo, all_completed) ←
    foldM (process_node time dt) (h, topo, []) (seq 0 (length (fog_nodes topo)));
  let m := record_completed m all_completed in
  let m := record_queue_lengths m (all_nodes topo) in
  let m := step_advance m in
  Ok (mkSimulation (config sim) topo gen m h nref g).

Arguments sim_step : simpl never.

(** The step length [dt] of [Simulation.run]. *)
Definition run_dt (c : SimulationConfig) : Q :=
  match time_step_ms c with
  | Some ms => inject_Z ms / 1000
  | None => time_step c
  end.

(** The loop of [Simulation.run], cut after [k] iterations: the simulation
    and the clock at the [k]-th step boundary, or at the end of the loop when
    that comes first. *)
Fixpoint run_steps (k : nat) (sim : Simulation) (time : Q) : result (Simulation * Q) :=
  match k with
  | O => Ok (sim, time)
  | S k =>
      if Qltb time (sim_time (config sim)) then
        sim ← sim_step sim time (run_dt (config sim));
        run_steps k sim (time + run_dt (config sim))
      else Ok (sim, time)
  end.

(** * Vocabulary of the properties, and the inputs of the examples *)

(** The sum of the remaining demands of a list of requests. *)
Definition sum_remaining (h : gmap nat Request) (q : list ref) : Q :=
  foldr (λ r acc, remaining_demand (h !!! r) + acc) 0 q.

(** The committed work [W_n] in the words of the specification: the
    remaining demand of everything queued in the three class queues and of
    the request in service. *)
Definition W_n (h : gmap nat Request) (n : FogNode) : Q :=
  sum_remaining h (dynamic_queue_3 n ++ dynamic_queue_2 n ++ dynamic_queue_1 n)
  + match current_request n with
    | Some cur => remaining_demand (h !!! cur)
    | None => 0
    end.

Definition t_finish (h : gmap nat Request) (n : FogNode) (request : ref) : Q :=
  arrival_time (h !!! request)
  + (W_n h n + processing_demand (h !!! request)) / cpu_capacity n.

(** [total_queue_len >= max_queue_length] on a bounded node. *)
Definition queue_is_full (n : FogNode) : Prop :=
  ∃ m, max_queue_length n = Some m ∧ (m <= _get_total_queue_length n)%Z.

(** A queued request of 4 units on a node of capacity 1: a newcomer that
    needs 2 units within 5 seconds is predicted to finish at time 6. *)
Definition c1_store : gmap nat Request :=
  <[1%nat := mkRequest 1 EMERGENCY_SOS (0, 0) 0 2 2 1 true None 3 5 5 None None None]>
  (<[0%nat := mkRequest 0 LANE_GUIDANCE (0, 0) 0 4 4 1 false None 2 60 60 None None None]> ∅).

Definition c1_node : FogNode :=
  set_dynamic_queue_2 [0%nat] (FogNode_init 0 (0, 0) 1 None None "SLA-DWP-Fog").

(** The node of the previous example with room for one request only: its
    queue is full and the newcomer cannot meet its deadline. *)
Definition c2_node : FogNode :=
  set_dynamic_queue_2 [0%nat] (FogNode_init 0 (0, 0) 1 None (Some 1%Z) "SLA-DWP-Fog").

(** Two requests of 10 MB and 45 MB offered in one step to a node whose link
    carries 50 MB per step. *)
Definition c7_store : gmap nat Request :=
  <[1%nat := mkRequest 1 LANE_GUIDANCE (0, 0) 0 1 1 45 false None 2 60 60 None None None]>
  (<[0%nat := mkRequest 0 LANE_GUIDANCE (0, 0) 0 1 1 10 false None 2 60 60 None None None]> ∅).

Definition c7_node (scheduler : string) : FogNode :=
  FogNode_init 0 (0, 0) 10 (Some 50) None scheduler.

(** What the caller of [Simulation.run] sees for the second request after
    the first one was offered: the outcome of the first [enqueue_request], the
    link load it leaves, and the answer of [can_accept_request] for the
    second request. *)
Definition c7_second_offer (scheduler : string) : result (bool * Q * bool) :=
  '(h, n, (success, _)) ← enqueue_request c7_store (c7_node scheduler) 0%nat 1;
  Ok (success : bool, current_link_load n, can_accept_request h n 1%nat 1).

(** The default configuration with an arrival bound of zero. *)
Definition c10_config : SimulationConfig :=
  {| sim_time := 3600; time_step := 1; time_step_ms := None; random_seed := 42;
     city_width := 1000; city_height := 1000;
     num_fog_nodes_x := 2; num_fog_nodes_y := 2;
     fog_cpu_capacity := 10; fog_link_capacity := Some 50;
     fog_max_queue_length := None;
     avg_requests_per_step := 5; max_requests_per_step := 0;
     cfg_scheduler := "FIFO";
     cfg_sla_window_TW := 10; cfg_sla_J1_max := 1 # 10; cfg_sla_J2_max_s := 5;
     cfg_sla_J3_max := 2; cfg_sla_eta1 := 1 # 100; cfg_sla_eta2 := 1 # 100;
     cfg_sla_eta3 := 1 # 100; cfg_sla_eps := 1 # 1000000 |}.

(** The clock and the number of generated requests after [k] iterations of
    the loop of [Simulation.run], on a constant stream of draws. *)
Definition c10_run (k : nat) : result (Q * Z * nat) :=
  sim ← Simulation_init (λ _ _, 1 # 2) c10_config;
  '(sim, time) ← run_steps k sim 0;
  Ok (Qred time, total_generated (metrics sim), length (per_step_generated (metrics sim))).

(** The invariant of the adaptive state of a node. *)
Definition weights_normalized (n : FogNode) : Prop :=
  0 <= lambda_1 n ∧ 0 <= lambda_2 n ∧ 0 <= lambda_3 n
  ∧ alpha n + beta n + gamma n == 1
  ∧ (0 < alpha n ∧ alpha n <= 1)
  ∧ (0 < beta n ∧ beta n <= 1)
  ∧ (0 < gamma n ∧ gamma n <= 1).

(** One emergency request that arrived at time 0 with a deadline of 8 and
    completed at time 20, in the completion history of an SLA node. *)
Definition c6_store : gmap nat Request :=
  <[0%nat := mkRequest 0 EMERGENCY_SOS (0, 0) 0 20 0 2 true (Some 2) 3 8 8
               (Some 0%Z) (Some 0) (Some 20)]> ∅.

Definition c6_node : FogNode :=
  set_completed_history [0%nat] (FogNode_init 0 (0, 0) 10 None None "SLA-DWP-Fog").

(** The dual variables and weights after one and after two updates at time
    20 on that node. *)
Definition duals_and_weights (n : FogNode) : list Q :=
  map Qred [lambda_1 n; lambda_2 n; lambda_3 n; alpha n; beta n; gamma n].

Definition c6_once : result FogNode := _update_sla_weights_window c6_store c6_node 20.
Definition c6_twice : result FogNode :=
  n ← c6_once; _update_sla_weights_window c6_store n 20.

(** A request with its three mutable fields put aside. *)
Definition frozen (r : Request) : Request :=
  set_start_time None (set_completion_time None (set_remaining_demand 0 r)).

(** Whatever the policy, one call of [process_one_step] is a sequence of
    three kinds of moves on the budget left, the store and the list of
    completed requests: a request of [L] gets its start time, is finished, or
    takes all the budget that is left. *)
Inductive service_step (now dt : Q) (L : list ref) :
    Q * gmap nat Request * list ref → Q * gmap nat Request * list ref → Prop :=
  | service_start c h d r :
      r ∈ L →
      service_step now dt L (c, h, d) (c, mark_started now h r, d)
  | service_finish c (h : gmap nat Request) d r :
      r ∈ L → 0 < c → remaining_demand (h !!! r) <= c →
      service_step now dt L (c, h, d)
        (c - remaining_demand (h !!! r),
         <[r := set_completion_time (Some (now + dt)) (set_remaining_demand 0 (h !!! r))]> h,
         d ++ [r])
  | service_partial c (h : gmap nat Request) d r :
      r ∈ L → 0 < c → c < remaining_demand (h !!! r) →
      service_step now dt L (c, h, d)
        (0, <[r := set_remaining_demand (remaining_demand (h !!! r) - c) (h !!! r)]> h, d).

Definition service (now dt : Q) (L : list ref) := rtc (service_step now dt L).

(** Neither remaining demand nor completion time of [r] changed. *)
Definition untouched (h0 h : gmap nat Request) (r : ref) : Prop :=
  remaining_demand (h !!! r) = remaining_demand (h0 !!! r)
  ∧ completion_time (h !!! r) = completion_time (h0 !!! r).

(** What holds after a run that started with budget [B], store [h0] and
    nothing completed. *)
Record service_inv (now dt : Q) (L : list ref) (B : Q) (h0 : gmap nat Request)
    (c : Q) (h : gmap nat Request) (d : list ref) : Prop := {
  inv_budget : 0 <= c ∨ c = B;
  inv_done : ∀ r, r ∈ d →
    remaining_demand (h !!! r) = 0 ∧ completion_time (h !!! r) = Some (now + dt);
  inv_fit : ∀ i r, d !! i = Some r →
    (0 < B - sum_remaining h0 (take i d))
    ∧ (remaining_demand (h0 !!! r) <= B - sum_remaining h0 (take i d));
  inv_phase :
    (c == B - sum_remaining h0 d ∧ ∀ r, r ∉ d → untouched h0 h r)
    ∨ (c = 0 ∧ ∃ p, p ∈ L ∧ (p ∉ d)
         ∧ (0 < B - sum_remaining h0 d)
         ∧ (B - sum_remaining h0 d < remaining_demand (h0 !!! p))
         ∧ (remaining_demand (h !!! p)
             == remaining_demand (h0 !!! p) - (B - sum_remaining h0 d))
         ∧ completion_time (h !!! p) = completion_time (h0 !!! p)
         ∧ ∀ r, r ∉ d → r ≠ p → untouched h0 h r);
  inv_frame : ∀ r, r ∉ L → h !!! r = h0 !!! r;
  inv_static : ∀ r, frozen (h !!! r) = frozen (h0 !!! r);
  inv_start : ∀ r,
    start_time (h !!! r) = start_time (h0 !!! r)
    ∨ (start_time (h0 !!! r) = None ∧ start_time (h !!! r) = Some now);
  inv_sub : ∀ r, r ∈ d → r ∈ L
}.

(** The three class queues, in the order in which the selection scans
    them, and all the requests an SLA node holds. *)
Definition dqs (n : FogNode) : list ref :=
  dynamic_queue_3 n ++ dynamic_queue_2 n ++ dynamic_queue_1 n.

Definition sla_refs (n : FogNode) : list ref := dqs n ++ option_list (current_request n).

(** An SLA node without its queues, its current request and its completion
    history. *)
Definition sla_static (n : FogNode) : FogNode :=
  set_completed_history []
    (set_current_request_start_time None
       (set_current_request None
          (set_dynamic_queue_1 [] (set_dynamic_queue_2 [] (set_dynamic_queue_3 [] n))))).

(** The requests of the node are among [L] and have distinct identifiers. *)
Definition sla_pre (L : list ref) (idf : ref → Z)
    (h : gmap nat Request) (n : FogNode) : Prop :=
  (∀ r, r ∈ sla_refs n → r ∈ L)
  ∧ NoDup (idf <$> sla_refs n)
  ∧ (∀ r, request_id (h !!! r) = idf r).

(** What an iteration, and so the loop, does: a service run; requests move
    from the queues to the current slot and from there to the completed
    list, and nothing else changes in the node but its history. *)
Definition sla_post (now dt : Q) (L : list ref) (c : Q) (h : gmap nat Request) (n : FogNode) (d : list ref)
    (c' : Q) (h' : gmap nat Request) (n' : FogNode) (d' : list ref) : Prop :=
  service now dt L (c, h, d) (c', h', d')
  ∧ sla_refs n' ++ d' ≡ₚ sla_refs n ++ d
  ∧ sla_static n' = sla_static n
  ∧ (∀ r, r ∈ dynamic_queue_3 n' → r ∈ dynamic_queue_3 n)
  ∧ (∀ r, r ∈ dynamic_queue_2 n' → r ∈ dynamic_queue_2 n)
  ∧ (∀ r, r ∈ dynamic_queue_1 n' → r ∈ dynamic_queue_1 n)
  ∧ (∀ r, r ∈ dqs n' → h' !!! r = h !!! r).

(** Every queued request sits in the queue of its class, as
    [enqueue_request] puts it. *)
Definition class_queues_ok (h : gmap nat Request) (n : FogNode) : Prop :=
  (∀ r, r ∈ dynamic_queue_3 n → priority_class (h !!! r) = 3%Z)
  ∧ (∀ r, r ∈ dynamic_queue_2 n → priority_class (h !!! r) = 2%Z)
  ∧ (∀ r, r ∈ dynamic_queue_1 n →
       priority_class (h !!! r) ≠ 3%Z ∧ priority_class (h !!! r) ≠ 2%Z).

(** The requests a node holds under its policy: what
    [_get_total_queue_length] counts. *)
Definition queued_refs (n : FogNode) : list ref :=
  if is_sla n then sla_refs n
  else if String.eqb (scheduler n) "STATIC_PRIORITY" then
    priority_queue_3 n ++ priority_queue_2 n ++ priority_queue_1 n
  else if String.eqb (scheduler n) "EMERGENCY_FIRST" then
    emergency_queue n ++ normal_queue n
  else queue n.

(** A node without the state that the adaptive update writes. *)
Definition adaptive_static (n : FogNode) : FogNode :=
  set_last_window_update 0
    (set_gamma 0 (set_beta 0 (set_alpha 0
       (set_lambda_3 0 (set_lambda_2 0 (set_lambda_1 0 n)))))).

(** A node and the store agree: the requests the node holds have distinct
    identifiers, are not completed and have work left, and on an SLA node
    each sits in the queue of its class. *)
Record node_wf (h : gmap nat Request) (n : FogNode) : Prop := {
  wf_ids : NoDup ((λ r, request_id (h !!! r)) <$> queued_refs n);
  wf_live : ∀ r, r ∈ queued_refs n →
    completion_time (h !!! r) = None ∧ 0 < remaining_demand (h !!! r);
  wf_class : is_sla n = true → class_queues_ok h n
}.

(** The work taken off the requests of [l] between two stores. *)
Definition work_done (h h' : gmap nat Request) (l : list ref) : Q :=
  sum_remaining h l - sum_remaining h' l.

(** What one call of [process_one_step] does on a node that agrees with the
    store. *)
Record step_facts (h : gmap nat Request) (n : FogNode) (now dt : Q)
    (left : Q) (h' : gmap nat Request) (n' : FogNode) (completed : list ref) : Prop := {
  sf_perm : queued_refs n' ++ completed ≡ₚ queued_refs n;
  sf_nodup : NoDup (queued_refs n' ++ completed);
  sf_inv : service_inv now dt (queued_refs n) (cpu_capacity n * dt) h left h' completed;
  sf_scheduler : scheduler n' = scheduler n;
  sf_wf : node_wf h' n'
}.

(** The scenario of the specification: one node of capacity 1, steps of one
    second, one request of 2.5 units that arrives at time 0.  The result
    lists what the three steps at times 0, 1 and 2 returned, the remaining
    demand after each and the completion time at the end. *)
Definition c3_store : gmap nat Request :=
  <[0%nat := mkRequest 0 LANE_GUIDANCE (0, 0) 0 (5 # 2) (5 # 2) 1 false None 2 60 60
               None None None]> ∅.

Definition c3_scenario (scheduler : string)
    : result (list (list ref) * list Q * option Q) :=
  '(h0, n0, _) ← enqueue_request c3_store
                    (FogNode_init 0 (0, 0) 1 None None scheduler) 0%nat 1;
  '(h1, n1, done1) ← process_one_step h0 n0 0 1;
  '(h2, n2, done2) ← process_one_step h1 n1 1 1;
  '(h3, n3, done3) ← process_one_step h2 n2 2 1;
  Ok ([done1; done2; done3],
      Qred <$> [remaining_demand (h1 !!! 0%nat); remaining_demand (h2 !!! 0%nat);
                remaining_demand (h3 !!! 0%nat)],
      Qred <$> completion_time (h3 !!! 0%nat)).

(** A sound boolean test for [node_wf], to check concrete nodes. *)
Definition node_wfb (h : gmap nat Request) (n : FogNode) : bool :=
  bool_decide (NoDup ((λ r, request_id (h !!! r)) <$> queued_refs n))
  && forallb (λ r, bool_decide (completion_time (h !!! r) = None)
                   && Qltb 0 (remaining_demand (h !!! r))) (queued_refs n)
  && (negb (is_sla n)
      || (forallb (λ r, Z.eqb (priority_class (h !!! r)) 3) (dynamic_queue_3 n)
          && forallb (λ r, Z.eqb (priority_class (h !!! r)) 2) (dynamic_queue_2 n)
          && forallb (λ r, negb (Z.eqb (priority_class (h !!! r)) 3)
                           && negb (Z.eqb (priority_class (h !!! r)) 2))
               (dynamic_queue_1 n))).

(** A request that the node does not hold yet and that can be offered to
    it: not completed, with work to do, and with an identifier of its own. *)
Definition fresh_request (h : gmap nat Request) (n : FogNode) (request : ref) : Prop :=
  (request_id (h !!! request) ∉ (λ r, request_id (h !!! r)) <$> queued_refs n)
  ∧ completion_time (h !!! request) = None
  ∧ 0 < remaining_demand (h !!! request).

(** An SLA node of capacity 10 serves a routine request of 100 units since
    time 0.  At time 1 a safety-critical request (5 units) and then an
    emergency request (20 units) are offered and admitted, and the step at
    time 1 runs.  The result is the store and the node after that step. *)
Definition c9_store : gmap nat Request :=
  <[2%nat := mkRequest 2 EMERGENCY_SOS (0, 0) 1 20 20 1 true None 3 20 21 None None None]>
  (<[1%nat := mkRequest 1 LANE_GUIDANCE (0, 0) 1 5 5 1 false None 2 15 16 None None None]>
  (<[0%nat := mkRequest 0 TRIP_SUMMARY_ANALYTICS (0, 0) 0 100 100 1 false None 1 120 120
                None None None]> ∅)).

Definition c9_preempted_twice : result (gmap nat Request * FogNode) :=
  '(h, n, _) ← enqueue_request c9_store
                  (FogNode_init 0 (0, 0) 10 None None "SLA-DWP-Fog") 0%nat 1;
  '(h, n, _) ← process_one_step h n 0 1;
  '(h, n, _) ← enqueue_request h n 1%nat 1;
  '(h, n, _) ← enqueue_request h n 2%nat 1;
  '(h, n, _) ← process_one_step h n 1 1;
  Ok (h, n).

(** Two requests admitted at time 0 by an SLA node of capacity 10: an
    emergency request of 20 units and a safety-critical one of 5 units.  The
    result is the budget left at the end of the step at time 1, and the
    store and the node after it. *)
Definition c9_store_exact : gmap nat Request :=
  <[1%nat := mkRequest 1 LANE_GUIDANCE (0, 0) 0 5 5 1 false None 2 15 15 None None None]>
  (<[0%nat := mkRequest 0 EMERGENCY_SOS (0, 0) 0 20 20 1 true None 3 8 8 None None None]> ∅).

Definition c9_two_steps : result (Q * gmap nat Request * FogNode) :=
  '(h, n, _) ← enqueue_request c9_store_exact
                  (FogNode_init 0 (0, 0) 10 None None "SLA-DWP-Fog") 0%nat 1;
  '(h, n, _) ← enqueue_request h n 1%nat 1;
  '(h, n, _) ← process_one_step h n 0 1;
  '(capacity_left, h, n, _) ← process_one_step_cap h n 1 1;
  Ok (capacity_left, h, n).

(** How many requests the nodes hold. *)
Definition queued_total (nodes : list FogNode) : Z :=
  foldr (λ n acc, (queue_length n + acc)%Z) 0%Z nodes.

(** Every generated request has been classified, and every admitted request
    is completed or still held by a node. *)
Definition counters_balanced (m : MetricsCollector) (nodes : list FogNode) : Prop :=
  total_generated m = (total_admitted m + total_rejected m + total_dropped m)%Z
  ∧ total_admitted m = (total_completed m + queued_total nodes)%Z.

(** The three outcome counters together. *)
Definition classified (m : MetricsCollector) : Z :=
  (total_admitted m + total_rejected m + total_dropped m)%Z.

(** Three steps of a one-node SLA simulation with at most four arrivals per
    step. *)
Definition c4_config : SimulationConfig :=
  {| sim_time := 3; time_step := 1; time_step_ms := None; random_seed := 42;
     city_width := 1000; city_height := 1000;
     num_fog_nodes_x := 1; num_fog_nodes_y := 1;
     fog_cpu_capacity := 10; fog_link_capacity := Some 50;
     fog_max_queue_length := None;
     avg_requests_per_step := 5; max_requests_per_step := 4;
     cfg_scheduler := "SLA-DWP-Fog";
     cfg_sla_window_TW := 10; cfg_sla_J1_max := 1 # 10; cfg_sla_J2_max_s := 5;
     cfg_sla_J3_max := 2; cfg_sla_eta1 := 1 # 100; cfg_sla_eta2 := 1 # 100;
     cfg_sla_eta3 := 1 # 100; cfg_sla_eps := 1 # 1000000 |}.

Definition c4_stream (seed : Z) (i : nat) : Q := Z.of_nat (i mod 7) # 10.

(** The request in the in-service slot of the node has a start time. *)
Definition in_service_started (h : gmap nat Request) (n : FogNode) : Prop :=
  ∀ r, current_request n = Some r → start_time (h !!! r) ≠ None.

(** A request that leaves the class queues is dispatched: it has a start
    time afterwards. *)
Definition dispatched_started (h : gmap nat Request) (n : FogNode)
    (h' : gmap nat Request) (n' : FogNode) : Prop :=
  ∀ r, r ∈ dqs n → r ∉ dqs n' → start_time (h' !!! r) ≠ None.

(** Between two stores no arrival time changed, and a completion time
    changed only by being set to [now + dt]. *)
Definition times_kept (now dt : Q) (h h' : gmap nat Request) : Prop :=
  ∀ r, arrival_time (h' !!! r) = arrival_time (h !!! r)
       ∧ (completion_time (h' !!! r) = completion_time (h !!! r)
          ∨ completion_time (h' !!! r) = Some (now + dt)).

(** No request of the store arrived after [t], and none was completed
    before it arrived. *)
Definition stamps_ordered (h : gmap nat Request) (t : Q) : Prop :=
  ∀ r, arrival_time (h !!! r) <= t
       ∧ ∀ c, completion_time (h !!! r) = Some c → arrival_time (h !!! r) <= c.

(** A run with a clock that goes backwards: one FIFO node with
    [cpu_capacity = -100] and [time_step = -1], so that the budget of a step
    is positive.  The result is the arrival time and the completion time of
    the first request after the step at time 0. *)
Definition c9_backwards_config : SimulationConfig :=
  {| sim_time := 3; time_step := -1; time_step_ms := None; random_seed := 42;
     city_width := 1000; city_height := 1000;
     num_fog_nodes_x := 1; num_fog_nodes_y := 1;
     fog_cpu_capacity := -100; fog_link_capacity := None;
     fog_max_queue_length := None;
     avg_requests_per_step := 5; max_requests_per_step := 4;
     cfg_scheduler := "FIFO";
     cfg_sla_window_TW := 10; cfg_sla_J1_max := 1 # 10; cfg_sla_J2_max_s := 5;
     cfg_sla_J3_max := 2; cfg_sla_eta1 := 1 # 100; cfg_sla_eta2 := 1 # 100;
     cfg_sla_eta3 := 1 # 100; cfg_sla_eps := 1 # 1000000 |}.

Definition c9_backwards_step : result (Q * option Q) :=
  sim ← Simulation_init c4_stream c9_backwards_config;
  '(sim, _) ← run_steps 1 sim 0;
  Ok (Qred (arrival_time (store sim !!! 0%nat)),
      Qred <$> completion_time (store sim !!! 0%nat)).

(** Between two stores every start time that was set is kept. *)
Definition starts_kept (h h' : gmap nat Request) : Prop :=
  ∀ r, start_time (h !!! r) ≠ None → start_time (h' !!! r) = start_time (h !!! r).

(** Every request of the store that was given capacity has a start time: a
    request without one has all its work still to do. *)
Definition served_started (h : gmap nat Request) : Prop :=
  ∀ r, remaining_demand (h !!! r) = processing_demand (h !!! r)
       ∨ start_time (h !!! r) ≠ None.

(** What a call of [process_one_step] or [enqueue_request] does to the
    start times and to the in-service slot, [extra] being the requests
    that may newly appear in the class queues or the slot. *)
Definition starts_post (extra : list ref) (h : gmap nat Request) (n : FogNode)
    (h' : gmap nat Request) (n' : FogNode) : Prop :=
  starts_kept h h'
  ∧ (∀ r, r ∈ sla_refs n' → r ∈ extra ∨ r ∈ sla_refs n)
  ∧ (in_service_started h n → served_started h →
     in_service_started h' n' ∧ served_started h').

(** The state of a run in which every request that was given capacity has a
    start time: so has the request in service at every node, and the
    requests of the class queues and of the in-service slots were all
    generated already. *)
Definition run_started (h : gmap nat Request) (nodes : list FogNode) (nref : nat) : Prop :=
  served_started h
  ∧ ∀ n, n ∈ nodes →
      in_service_started h n ∧ ∀ r, r ∈ sla_refs n → (r < nref)%nat.

(** * Further definitions *)

(** ** Selection by earliest deadline

    [FogNode._select_edf_from_class] reads nothing of the node but the queue
    it is given.  One iteration of its loop on the state
    [(best_req, earliest_deadline)], with [None] for [float('inf')]: *)
Definition edf_step (h : gmap nat Request) (st : option ref * option Q) (req : ref)
    : option ref * option Q :=
  match st with
  | (_, None) => (Some req, Some (absolute_deadline (h !!! req)))
  | (_, Some earliest_deadline) =>
      if Qltb (absolute_deadline (h !!! req)) earliest_deadline
      then (Some req, Some (absolute_deadline (h !!! req)))
      else st
  end.

(** [FogNode._select_edf_from_class] *)
Definition _select_edf_from_class (h : gmap nat Request) (queue : list ref) : option ref :=
  match queue with
  | [] => None
  | _ => fst (fold_left (edf_step h) queue (None, None))
  end.

(** [best] is at least as good a choice as [c] for the SLA selection at time
    [t]: its score is at least that of [c], and when the scores are equal
    its deadline is not later, and when the deadlines are equal too it did
    not arrive later. *)
Definition sla_preferred (h : gmap nat Request) (n : FogNode) (t : Q) (best c : ref) : Prop :=
  _priority_score h n c t <= _priority_score h n best t
  ∧ (_priority_score h n c t == _priority_score h n best t →
     absolute_deadline (h !!! best) <= absolute_deadline (h !!! c)
     ∧ (absolute_deadline (h !!! c) == absolute_deadline (h !!! best) →
        arrival_time (h !!! best) <= arrival_time (h !!! c))).

(** The weights of a node are not negative. *)
Definition weights_nonneg (n : FogNode) : Prop :=
  0 <= alpha n ∧ 0 <= beta n ∧ 0 <= gamma n.

(** The grid position of the node at column [ix] and row [iy]. *)
Definition grid_position (config : SimulationConfig) (ix iy : Z) : Q * Q :=
  (inject_Z (ix + 1) * (city_width config / inject_Z (num_fog_nodes_x config + 1)),
   inject_Z (iy + 1) * (city_height config / inject_Z (num_fog_nodes_y config + 1))).

(** A node as [build_grid_topology] makes it: the resources, the policy and
    the eight SLA parameters of the configuration, and the state that the
    constructor gives every node: empty queues, nothing in service, uniform
    weights, dual variables at zero. *)
Definition node_of_config (config : SimulationConfig) (n : FogNode) : Prop :=
  cpu_capacity n = fog_cpu_capacity config
  ∧ link_capacity n = fog_link_capacity config
  ∧ max_queue_length n = fog_max_queue_length config
  ∧ scheduler n = cfg_scheduler config
  ∧ sla_window_TW n = Some (cfg_sla_window_TW config)
  ∧ sla_J1_max n = Some (cfg_sla_J1_max config)
  ∧ sla_J2_max_s n = Some (cfg_sla_J2_max_s config)
  ∧ sla_J3_max n = Some (cfg_sla_J3_max config)
  ∧ sla_eta1 n = Some (cfg_sla_eta1 config)
  ∧ sla_eta2 n = Some (cfg_sla_eta2 config)
  ∧ sla_eta3 n = Some (cfg_sla_eta3 config)
  ∧ sla_eps n = Some (cfg_sla_eps config)
  ∧ queue n ++ emergency_queue n ++ normal_queue n
    ++ priority_queue_3 n ++ priority_queue_2 n ++ priority_queue_1 n
    ++ dynamic_queue_3 n ++ dynamic_queue_2 n ++ dynamic_queue_1 n = []
  ∧ queued_refs n = []
  ∧ current_request n = None ∧ current_request_start_time n = None
  ∧ _completed_history n = [] ∧ _last_window_update n = 0
  ∧ current_link_load n = 0 ∧ total_rejected_due_to_deadline n = 0%Z
  ∧ (alpha n, beta n, gamma n) = (1 / 3, 1 / 3, 1 / 3)
  ∧ (lambda_1 n, lambda_2 n, lambda_3 n) = (0, 0, 0)
  ∧ (eta_1 n, eta_2 n, eta_3 n) = (1 # 100, 1 # 100, 1 # 100)
  ∧ weights_normalized n.

(** What the methods of a node never write: its identity, its resources, its
    policy and the parameters of the adaptation. *)
Definition node_params (n : FogNode) :=
  (node_id n, position n, cpu_capacity n, link_capacity n, max_queue_length n,
   scheduler n,
   (eta_1 n, eta_2 n, eta_3 n),
   (sla_window_TW n, sla_J1_max n, sla_J2_max_s n, sla_J3_max n),
   (sla_eta1 n, sla_eta2 n, sla_eta3 n, sla_eps n)).

(** The state of the adaptation: the weights, the dual variables and the
    time of the last window update. *)
Definition adaptive_state (n : FogNode) :=
  (alpha n, beta n, gamma n, (lambda_1 n, lambda_2 n, lambda_3 n), _last_window_update n).

(** The test [current_time - self._last_window_update >= TW] on an SLA
    node. *)
Definition at_window_boundary (n : FogNode) (current_time : Q) : Prop :=
  is_sla n = true
  ∧ getattr (sla_window_TW n) 10 <= current_time - _last_window_update n.

(** The weights are ordered as the dual variables they come from. *)
Definition weights_follow_duals (n : FogNode) : Prop :=
  (alpha n <= beta n ↔ lambda_1 n <= lambda_2 n)
  ∧ (beta n <= gamma n ↔ lambda_2 n <= lambda_3 n)
  ∧ (alpha n <= gamma n ↔ lambda_1 n <= lambda_3 n).

(** The three class queues of the SLA policy. *)
Definition class_queues (n : FogNode) : list ref * list ref * list ref :=
  (dynamic_queue_3 n, dynamic_queue_2 n, dynamic_queue_1 n).

(** An SLA node of capacity 10 that serves the routine request of the store
    [c9_store] while the safety-critical one is offered. *)
Definition preempt_node : FogNode :=
  set_current_request (Some 0%nat) (FogNode_init 0 (0, 0) 10 None None "SLA-DWP-Fog").

(** What [generate_requests] puts in a request it makes at [current_time]:
    the demand, the size, the class and the deadline that the tables give
    for its type, all the work still to do, and no runtime field set. *)
Definition generated_request (current_time : Q) (rq : Request) : Prop :=
  arrival_time rq = current_time
  ∧ (processing_demand rq, data_size rq, latency_slo rq, is_emergency rq)
    = _defaults_for_type (request_type rq)
  ∧ remaining_demand rq = processing_demand rq
  ∧ priority_class rq = _priority_class_for_type (request_type rq)
  ∧ relative_deadline_s rq = _relative_deadline_for_type (request_type rq)
  ∧ absolute_deadline rq = current_time + relative_deadline_s rq
  ∧ assigned_fog_id rq = None ∧ start_time rq = None ∧ completion_time rq = None.

(** The draws of [random.random()] lie in [[0, 1)]. *)
Definition rng_in_unit (g : Rng) : Prop := ∀ i, 0 <= rng_stream g i ∧ rng_stream g i < 1.

(** A position of the city rectangle. *)
Definition in_city (config : SimulationConfig) (p : Q * Q) : Prop :=
  (0 <= p.1 ∧ p.1 <= city_width config) ∧ (0 <= p.2 ∧ p.2 <= city_height config).

(** A generator with four arrival slots per step and five arrivals on
    average, and a random stream whose every draw is one half. *)
Definition busy_generator : RequestGenerator :=
  mkRequestGenerator c4_config 0 type_probabilities_table.

Definition steady_rng : Rng := mkRng (λ _, 1 # 2) 0.

(** [sum(xs)] over Python ints. *)
Definition Zsum (xs : list Z) : Z := foldr Z.add 0%Z xs.

(** [dropped_by_reason[k]], read without inserting the default. *)
Definition reason_count (m : MetricsCollector) (k : string) : Z :=
  default 0%Z (dropped_by_reason m !! k).

(** The loop that closes [Simulation.run]: the rejection counters of the
    nodes are added up into [metrics.total_rejected_due_to_deadline], which
    [MetricsCollector.__init__] set to 0. *)
Definition collect_rejected_due_to_deadline (nodes : list FogNode) : Z :=
  fold_left (λ acc node, (acc + total_rejected_due_to_deadline node)%Z) nodes 0%Z.

(** The totals of the collector agree with its per-step series and with its
    tally of reasons. *)
Record metrics_consistent (m : MetricsCollector) : Prop := {
  mc_generated : Zsum (per_step_generated m) = total_generated m;
  mc_completed : Zsum (per_step_completed m) = total_completed m;
  mc_dropped :
    (Zsum (per_step_dropped m) + _current_step_dropped m)%Z = total_dropped m;
  mc_reasons_dropped :
    (reason_count m "queue_full" + reason_count m "link_capacity")%Z = total_dropped m;
  mc_reasons_rejected : reason_count m "admission_rejected" = total_rejected m;
  mc_reasons_keys : ∀ k, is_Some (dropped_by_reason m !! k) →
    k ∈ ["queue_full"; "link_capacity"; "admission_rejected"];
  mc_nonneg :
    (0 <= total_generated m ∧ 0 <= total_completed m ∧ 0 <= total_dropped m
     ∧ 0 <= total_admitted m ∧ 0 <= total_rejected m)%Z
}.

(** The series of the collector after [steps] iterations of the loop. *)
Definition series_lengths (steps : nat) (m : MetricsCollector) : Prop :=
  length (per_step_generated m) = steps
  ∧ length (per_step_completed m) = steps
  ∧ length (per_step_dropped m) = steps
  ∧ length (avg_queue_lengths m) = steps
  ∧ length (max_queue_lengths m) = steps
  ∧ _current_step_dropped m = 0%Z.

(** The name of an SLA policy. *)
Definition sla_scheduler (name : string) : Prop :=
  name ∈ ["DYNAMIC_PRIORITY"; "SLA-DWP-Fog"].

(** What holds of the collector and the nodes after [steps] iterations of
    the loop of [Simulation.run], at simulation time [time]. *)
Record run_tallies (cfg : SimulationConfig) (steps : nat) (sim : Simulation) (time : Q)
    : Prop := {
  rt_config : config sim = cfg;
  rt_time : time == inject_Z (Z.of_nat steps) * run_dt cfg;
  rt_before : (0 < steps)%nat → time - run_dt cfg < sim_time cfg;
  rt_metrics : metrics_consistent (metrics sim);
  rt_series : series_lengths steps (metrics sim);
  rt_nodes : fog_nodes (topology sim) ≠ [];
  rt_schedulers : ∀ n, n ∈ fog_nodes (topology sim) → scheduler n = cfg_scheduler cfg;
  rt_rejected :
    Zsum (total_rejected_due_to_deadline <$> fog_nodes (topology sim))
    = total_rejected (metrics sim);
  rt_sla : total_rejected (metrics sim) = 0%Z ∨ sla_scheduler (cfg_scheduler cfg)
}.

(** What [process_one_step] keeps of a node besides its parameters: the
    link load of the step and the count of rejections. *)
Definition node_kept (n : FogNode) :=
  (node_params n, current_link_load n, total_rejected_due_to_deadline n).

(** The link of a node carried no more in the current step than it can
    carry in [dt] seconds, or nothing at all. *)
Definition link_within_budget (dt : Q) (n : FogNode) : Prop :=
  current_link_load n = 0
  ∨ ∃ lc, link_capacity n = Some lc ∧ current_link_load n <= lc * dt.

(** All the requests that the nodes hold, node after node. *)
Definition held_refs (nodes : list FogNode) : list ref := nodes ≫= queued_refs.

(** A node on which the SLA admission test and the weight update can
    divide: a capacity other than zero and a positive [eps]. *)
Definition node_runs (n : FogNode) : Prop :=
  is_sla n = true →
  ¬ cpu_capacity n == 0 ∧ 0 < getattr (sla_eps n) (1 # 1000000).

(** The store and the nodes agree during a run.  Requests are numbered as
    they are generated, and [nref] of them exist; those below [bound] have
    been offered to a node.  No request is held twice, by one node or by
    two; every node agrees with the store; and a request that has not been
    offered yet is not completed and has work to do. *)
Record sim_wf (h : gmap nat Request) (nodes : list FogNode) (bound nref : nat) : Prop := {
  sw_nodup : NoDup (held_refs nodes);
  sw_bound : ∀ r, r ∈ held_refs nodes → (r < bound)%nat;
  sw_nodes : ∀ n, n ∈ nodes → node_wf h n;
  sw_ids : ∀ r, (r < nref)%nat → request_id (h !!! r) = Z.of_nat r;
  sw_new : ∀ r, (bound <= r < nref)%nat →
    completion_time (h !!! r) = None ∧ 0 < remaining_demand (h !!! r)
}.

(** The state of a simulation between two steps. *)
Record run_wf (sim : Simulation) : Prop := {
  rw_store : sim_wf (store sim) (fog_nodes (topology sim)) (next_ref sim) (next_ref sim);
  rw_counter : next_request_id (generator sim) = Z.of_nat (next_ref sim);
  rw_nodes : fog_nodes (topology sim) ≠ [];
  rw_runs : ∀ n, n ∈ fog_nodes (topology sim) → node_runs n
}.

(** A configuration on which [Simulation.run] does not raise: a grid with
    nodes and, under the SLA policy, a capacity other than zero and a
    positive [sla_eps]. *)
Definition config_runs (cfg : SimulationConfig) : Prop :=
  (0 < num_fog_nodes_x cfg)%Z ∧ (0 < num_fog_nodes_y cfg)%Z
  ∧ (sla_scheduler (cfg_scheduler cfg) →
     ¬ fog_cpu_capacity cfg == 0 ∧ 0 < cfg_sla_eps cfg).

(** ** metrics.py: the rates

    [MetricsCollector.get_admission_rate] *)
Definition get_admission_rate (m : MetricsCollector) : Q :=
  if Z.eqb (total_generated m) 0 then 0
  else inject_Z (total_admitted m) / inject_Z (total_generated m).

(** The entry ["completion_ratio"] of [MetricsCollector.final_report]. *)
Definition completion_ratio (m : MetricsCollector) : option Q :=
  if Z.ltb 0 (total_generated m)
  then Some (inject_Z (total_completed m) / inject_Z (total_generated m))
  else None.

(** The entries ["avg_queue_length"] and ["max_queue_length"] of
    [MetricsCollector.final_report]. *)
Definition avg_queue_len_overall (m : MetricsCollector) : option Q :=
  match avg_queue_lengths m with
  | [] => None
  | _ => Some (py_sum (avg_queue_lengths m) / py_len (avg_queue_lengths m))
  end.

Definition max_queue_len_overall (m : MetricsCollector) : option Z :=
  match max_queue_lengths m with
  | [] => None
  | x :: xs => Some (fold_left Z.max xs x)
  end.

(** The deadline tallies of MetricsCollector, which [record_completed]
    writes and the four rate methods read. *)
Record DeadlineTallies : Type := mkDeadlineTallies {
  total_deadline_met : Z;
  total_deadline_violated : Z;
  priority3_deadline_met : Z;
  priority3_deadline_violated : Z;
  priority2_deadline_met : Z;
  priority2_deadline_violated : Z;
  priority1_deadline_met : Z;
  priority1_deadline_violated : Z
}.

(** Their values in [MetricsCollector.__init__]. *)
Definition DeadlineTallies_init : DeadlineTallies := mkDeadlineTallies 0 0 0 0 0 0 0 0.

(** [self.<tally> += 1] for each of the eight tallies. *)
Definition incr_total_deadline_met (t : DeadlineTallies) : DeadlineTallies :=
  mkDeadlineTallies (total_deadline_met t + 1) (total_deadline_violated t)
    (priority3_deadline_met t) (priority3_deadline_violated t)
    (priority2_deadline_met t) (priority2_deadline_violated t)
    (priority1_deadline_met t) (priority1_deadline_violated t).
Definition incr_total_deadline_violated (t : DeadlineTallies) : DeadlineTallies :=
  mkDeadlineTallies (total_deadline_met t) (total_deadline_violated t + 1)
    (priority3_deadline_met t) (priority3_deadline_violated t)
    (priority2_deadline_met t) (priority2_deadline_violated t)
    (priority1_deadline_met t) (priority1_deadline_violated t).
Definition incr_priority3_deadline_met (t : DeadlineTallies) : DeadlineTallies :=
  mkDeadlineTallies (total_deadline_met t) (total_deadline_violated t)
    (priority3_deadline_met t + 1) (priority3_deadline_violated t)
    (priority2_deadline_met t) (priority2_deadline_violated t)
    (priority1_deadline_met t) (priority1_deadline_violated t).
Definition incr_priority3_deadline_violated (t : DeadlineTallies) : DeadlineTallies :=
  mkDeadlineTallies (total_deadline_met t) (total_deadline_violated t)
    (priority3_deadline_met t) (priority3_deadline_violated t + 1)
    (priority2_deadline_met t) (priority2_deadline_violated t)
    (priority1_deadline_met t) (priority1_deadline_violated t).
Definition incr_priority2_deadline_met (t : DeadlineTallies) : DeadlineTallies :=
  mkDeadlineTallies (total_deadline_met t) (total_deadline_violated t)
    (priority3_deadline_met t) (priority3_deadline_violated t)
    (priority2_deadline_met t + 1) (priority2_deadline_violated t)
    (priority1_deadline_met t) (priority1_deadline_violated t).
Definition incr_priority2_deadline_violated (t : DeadlineTallies) : DeadlineTallies :=
  mkDeadlineTallies (total_deadline_met t) (total_deadline_violated t)
    (priority3_deadline_met t) (priority3_deadline_violated t)
    (priority2_deadline_met t) (priority2_deadline_violated t + 1)
    (priority1_deadline_met t) (priority1_deadline_violated t).
Definition incr_priority1_deadline_met (t : DeadlineTallies) : DeadlineTallies :=
  mkDeadlineTallies (total_deadline_met t) (total_deadline_violated t)
    (priority3_deadline_met t) (priority3_deadline_violated t)
    (priority2_deadline_met t) (priority2_deadline_violated t)
    (priority1_deadline_met t + 1) (priority1_deadline_violated t).
Definition incr_priority1_deadline_violated (t : DeadlineTallies) : DeadlineTallies :=
  mkDeadlineTallies (total_deadline_met t) (total_deadline_violated t)
    (priority3_deadline_met t) (priority3_deadline_violated t)
    (priority2_deadline_met t) (priority2_deadline_violated t)
    (priority1_deadline_met t) (priority1_deadline_violated t + 1).

(** The block of the loop of [MetricsCollector.record_completed] that tracks
    the deadlines, for one request [r]: the overall tally first, then the
    tally of the class, if the class is 3, 2 or 1. *)
Definition track_deadline (t : DeadlineTallies) (r : Request) : DeadlineTallies :=
  match deadline_met r with
  | None => t
  | Some met =>
      let t := if met then incr_total_deadline_met t
               else incr_total_deadline_violated t in
      if Z.eqb (priority_class r) 3 then
        if met then incr_priority3_deadline_met t else incr_priority3_deadline_violated t
      else if Z.eqb (priority_class r) 2 then
        if met then incr_priority2_deadline_met t else incr_priority2_deadline_violated t
      else if Z.eqb (priority_class r) 1 then
        if met then incr_priority1_deadline_met t else incr_priority1_deadline_violated t
      else t
  end.

(** [MetricsCollector.record_completed] on the deadline tallies. *)
Definition record_completed_deadlines (h : gmap nat Request) (t : DeadlineTallies)
    (requests : list ref) : DeadlineTallies :=
  fold_left (λ t r, track_deadline t (h !!! r)) requests t.

(** The four rate methods: [met / (met + violated)], and [0.0] when nothing
    was counted. *)
Definition met_rate (met violated : Z) : Q :=
  let total := (met + violated)%Z in
  if Z.eqb total 0 then 0 else inject_Z met / inject_Z total.

Definition overall_deadline_met_rate (t : DeadlineTallies) : Q :=
  met_rate (total_deadline_met t) (total_deadline_violated t).
Definition priority3_deadline_met_rate (t : DeadlineTallies) : Q :=
  met_rate (priority3_deadline_met t) (priority3_deadline_violated t).
Definition priority2_deadline_met_rate (t : DeadlineTallies) : Q :=
  met_rate (priority2_deadline_met t) (priority2_deadline_violated t).
Definition priority1_deadline_met_rate (t : DeadlineTallies) : Q :=
  met_rate (priority1_deadline_met t) (priority1_deadline_violated t).

(** The tallies count what they say: none is negative, and the tallies of
    the three classes add up to no more than the overall ones. *)
Definition tallies_consistent (t : DeadlineTallies) : Prop :=
  (0 <= priority3_deadline_met t ∧ 0 <= priority2_deadline_met t
   ∧ 0 <= priority1_deadline_met t ∧ 0 <= priority3_deadline_violated t
   ∧ 0 <= priority2_deadline_violated t ∧ 0 <= priority1_deadline_violated t
   ∧ priority3_deadline_met t + priority2_deadline_met t + priority1_deadline_met t
     <= total_deadline_met t
   ∧ priority3_deadline_violated t + priority2_deadline_violated t
     + priority1_deadline_violated t <= total_deadline_violated t)%Z.

(** How many requests of a list are completed. *)
Definition completed_count (h : gmap nat Request) (requests : list ref) : Z :=
  Z.of_nat (length (List.filter (λ r, bool_decide (completion_time (h !!! r) ≠ None))
                      requests)).

(** ** generate_comparison_plots.py: the percentile of the latencies

    [int(x)] on a float: truncation towards zero. *)
Definition py_int (x : Q) : Z := if Qle_bool 0 x then Qfloor x else Qceiling x.

(** [l[i]]: a negative index counts from the end, and an index out of
    range raises IndexError. *)
Definition py_getitem {A} (l : list A) (i : Z) : result A :=
  let n := Z.of_nat (length l) in
  let j := if Z.ltb i 0 then (i + n)%Z else i in
  if Z.ltb j 0 || Z.leb n j then Raise IndexError
  else match l !! Z.to_nat j with
       | Some x => Ok x
       | None => Raise IndexError
       end.

#[global] Instance Qle_decision (x y : Q) : Decision (x <= y).
Proof.
  destruct (Qle_bool x y) eqn:E.
  - left. by apply Qle_bool_iff.
  - right. intros H. apply Qle_bool_iff in H. congruence.
Defined.

(** [sorted(values)] *)
Definition sorted (values : list Q) : list Q := merge_sort Qle values.

(** [pctl]: the [q]-quantile of [values] by linear interpolation between
    the two nearest ranks. *)
Definition pctl (values : list Q) (q : Q) : result (option Q) :=
  match values with
  | [] => Ok None
  | _ =>
    let arr := sorted values in
    let k := inject_Z (Z.of_nat (length arr) - 1) * q in
    let f := py_int k in
    let c := Z.min (f + 1) (Z.of_nat (length arr) - 1) in
    if Z.eqb f c then x ← py_getitem arr f; Ok (Some x)
    else
      a ← py_getitem arr f;
      let d0 := a * (inject_Z c - k) in
      b ← py_getitem arr c;
      let d1 := b * (k - inject_Z f) in
      Ok (Some (d0 + d1))
  end.

(** The value of [cumulative] in [_sample_request_type] after [k] entries
    of the table. *)
Definition cumulative_probability (gen : RequestGenerator) (k : nat) : Q :=
  py_sum (map snd (take k (type_probabilities gen))).

(** A node holds no more requests than its queue bound [m] allows. *)
Definition queue_within_bound (m : Z) (n : FogNode) : Prop :=
  max_queue_length n = Some m ∧ (queue_length n <= Z.max m 0)%Z.

(** A configuration with a queue bound of two requests per node. *)
Definition bounded_config : SimulationConfig :=
  {| sim_time := 3; time_step := 1; time_step_ms := None; random_seed := 42;
     city_width := 1000; city_height := 1000;
     num_fog_nodes_x := 1; num_fog_nodes_y := 1;
     fog_cpu_capacity := 10; fog_link_capacity := Some 50;
     fog_max_queue_length := Some 2%Z;
     avg_requests_per_step := 5; max_requests_per_step := 4;
     cfg_scheduler := "FIFO";
     cfg_sla_window_TW := 10; cfg_sla_J1_max := 1 # 10; cfg_sla_J2_max_s := 5;
     cfg_sla_J3_max := 2; cfg_sla_eta1 := 1 # 100; cfg_sla_eta2 := 1 # 100;
     cfg_sla_eta3 := 1 # 100; cfg_sla_eps := 1 # 1000000 |}.

(** A configuration whose clock does not move: a time step of zero. *)
Definition stalled_config : SimulationConfig :=
  {| sim_time := 3; time_step := 0; time_step_ms := None; random_seed := 42;
     city_width := 1000; city_height := 1000;
     num_fog_nodes_x := 1; num_fog_nodes_y := 1;
     fog_cpu_capacity := 10; fog_link_capacity := Some 50;
     fog_max_queue_length := None;
     avg_requests_per_step := 5; max_requests_per_step := 4;
     cfg_scheduler := "FIFO";
     cfg_sla_window_TW := 10; cfg_sla_J1_max := 1 # 10; cfg_sla_J2_max_s := 5;
     cfg_sla_J3_max := 2; cfg_sla_eta1 := 1 # 100; cfg_sla_eta2 := 1 # 100;
     cfg_sla_eta3 := 1 # 100; cfg_sla_eps := 1 # 1000000 |}.

(** * Properties *)

(** ** Comparisons and sums *)

Lemma Qltb_lt (x y : Q) : Qltb x y = true ↔ x < y.
Proof.
  unfold Qltb. rewrite negb_true_iff. split.
  - intros H. apply Qnot_le_lt. intros Hle. apply Qle_bool_iff in Hle. congruence.
  - intros H. destruct (Qle_bool y x) eqn:E; [|done].
    apply Qle_bool_iff in E. lra.
Qed.

Lemma Qltb_ge (x y : Q) : Qltb x y = false ↔ y <= x.
Proof.
  unfold Qltb. rewrite negb_false_iff. apply Qle_bool_iff.
Qed.

Lemma Qle_bool_gt (x y : Q) : Qle_bool x y = false ↔ y < x.
Proof.
  split.
  - intros H. apply Qnot_le_lt. intros Hle. apply Qle_bool_iff in Hle. congruence.
  - intros H. destruct (Qle_bool x y) eqn:E; [|done]. apply Qle_bool_iff in E. lra.
Qed.

Lemma Qeq_bool_false (x y : Q) : Qeq_bool x y = false ↔ ¬ x == y.
Proof.
  split.
  - intros H Heq. apply Qeq_bool_iff in Heq. congruence.
  - intros H. destruct (Qeq_bool x y) eqn:E; [|done]. apply Qeq_bool_iff in E. done.
Qed.

Lemma py_max_ge_l (a b : Q) : a <= py_max a b.
Proof.
  unfold py_max. destruct (Qltb a b) eqn:E; [apply Qltb_lt in E|]; lra.
Qed.

Lemma py_max_ge_r (a b : Q) : b <= py_max a b.
Proof.
  unfold py_max. destruct (Qltb a b) eqn:E; [|apply Qltb_ge in E]; lra.
Qed.

Lemma sum_remaining_app h q1 q2 :
  sum_remaining h (q1 ++ q2) == sum_remaining h q1 + sum_remaining h q2.
Proof.
  induction q1 as [|r q1 IH]; simpl; [lra|]. rewrite IH. lra.
Qed.

Lemma add_remaining_sum h q acc :
  add_remaining h acc q == acc + sum_remaining h q.
Proof.
  unfold add_remaining. revert acc.
  induction q as [|r q IH]; intros acc; simpl; [lra|]. rewrite IH. lra.
Qed.

(** ** Admission (C1, C2) *)

Lemma queue_full_test (n : FogNode) :
  (if max_queue_length n is Some m then Z.leb m (_get_total_queue_length n) else false) = true
  ↔ queue_is_full n.
Proof.
  unfold queue_is_full. destruct (max_queue_length n) as [m|].
  - rewrite Z.leb_le. split; [eauto|]. by intros (m' & [= <-] & ?).
  - split; [done|]. by intros (m' & ? & _).
Qed.

Lemma admission_check_spec h n request :
  ¬ cpu_capacity n == 0 →
  ∃ b, _admission_control_check_timebased h n request = Ok b
       ∧ (b = true ↔ t_finish h n request <= absolute_deadline (h !!! request)).
Proof.
  intros Hcpu. unfold _admission_control_check_timebased.
  apply Qeq_bool_false in Hcpu. rewrite Hcpu.
  eexists; split; [reflexivity|]. rewrite Qle_bool_iff.
  assert (Hw : (match current_request n with
                | Some cur =>
                    fold_left (add_remaining h)
                      [dynamic_queue_3 n; dynamic_queue_2 n; dynamic_queue_1 n] 0
                    + remaining_demand (h !!! cur)
                | None =>
                    fold_left (add_remaining h)
                      [dynamic_queue_3 n; dynamic_queue_2 n; dynamic_queue_1 n] 0
                end) == W_n h n).
  { unfold W_n. simpl. rewrite !sum_remaining_app.
    destruct (current_request n); rewrite !add_remaining_sum; lra. }
  unfold t_finish. by rewrite Hw.
Qed.

Lemma deque_pop_app q r : deque_pop (q ++ [r]) = Ok q.
Proof.
  unfold deque_pop. rewrite removelast_last. by destruct q.
Qed.

Lemma deque_pop_cons_app x q r : deque_pop (x :: q ++ [r]) = Ok (x :: q).
Proof. apply (deque_pop_app (x :: q) r). Qed.

Lemma dynamic_pop_after_append cls cls' cur r n :
  ∃ n', dynamic_pop cls (dynamic_appendleft cls' cur (dynamic_append cls r n)) = Ok n'.
Proof.
  unfold dynamic_pop, dynamic_appendleft, dynamic_append.
  destruct (Z.eqb cls 3), (Z.eqb cls 2), (Z.eqb cls' 3), (Z.eqb cls' 2); simpl;
    rewrite ?deque_pop_app, ?deque_pop_cons_app; simpl; eauto.
Qed.

Lemma current_request_dynamic_append cls r n :
  current_request (dynamic_append cls r n) = current_request n.
Proof.
  unfold dynamic_append. by destruct (Z.eqb cls 3), (Z.eqb cls 2).
Qed.

(** The three outcomes of [enqueue_request] on an SLA node. *)
Lemma enqueue_sla_full h n request dt :
  queue_is_full n →
  enqueue_request h n request dt = Ok (h, n, (false, Some "queue_full")).
Proof.
  intros Hfull%queue_full_test. unfold enqueue_request. by rewrite Hfull.
Qed.

Lemma enqueue_sla_rejected h n request dt :
  is_sla n = true → ¬ queue_is_full n →
  _admission_control_check_timebased h n request = Ok false →
  enqueue_request h n request dt =
    Ok (h, set_total_rejected_due_to_deadline (total_rejected_due_to_deadline n + 1)%Z n,
        (false, Some "admission_rejected")).
Proof.
  intros Hsla Hfull Hchk. unfold enqueue_request.
  destruct (if max_queue_length n is Some m then _ else false) eqn:E.
  { by apply queue_full_test in E. }
  by rewrite Hsla, Hchk.
Qed.

Lemma enqueue_sla_admitted h n request dt :
  is_sla n = true → ¬ queue_is_full n →
  _admission_control_check_timebased h n request = Ok true →
  ∃ h' n', enqueue_request h n request dt = Ok (h', n', (true, None)).
Proof.
  intros Hsla Hfull Hchk. unfold enqueue_request.
  destruct (if max_queue_length n is Some m then _ else false) eqn:E.
  { by apply queue_full_test in E. }
  rewrite Hsla, Hchk. simpl.
  rewrite current_request_dynamic_append.
  destruct (current_request n) as [cur|]; [|eauto].
  destruct (Qltb _ _); [|eauto].
  destruct (dynamic_pop_after_append (priority_class (h !!! request))
              (priority_class (h !!! cur)) cur request n) as [n' ->].
  simpl. eauto.
Qed.

(** C1.  On a node that runs the SLA-adaptive policy (and whose
    [cpu_capacity] is not zero, so that the predicted finish time is
    defined), the admission test answers [True] exactly when
    [t_finish = arrival_time + (W_n + processing_demand) / cpu_capacity]
    is at most the absolute deadline, where [W_n] sums [remaining_demand]
    over the three class queues and the request in service.  Hence a request
    that [enqueue_request] admits had [t_finish <= absolute_deadline], a
    request with [t_finish > absolute_deadline] is turned away, and while the
    queue has room the request is admitted if and only if
    [t_finish <= absolute_deadline]. *)
Theorem C1_sla_admission_soundness h n request dt :
  is_sla n = true →
  ¬ cpu_capacity n == 0 →
  (∃ b, _admission_control_check_timebased h n request = Ok b
        ∧ (b = true ↔ t_finish h n request <= absolute_deadline (h !!! request)))
  ∧ (∀ h' n' reason,
       enqueue_request h n request dt = Ok (h', n', (true, reason)) →
       t_finish h n request <= absolute_deadline (h !!! request))
  ∧ (absolute_deadline (h !!! request) < t_finish h n request →
     ∃ n' reason, enqueue_request h n request dt = Ok (h, n', (false, Some reason)))
  ∧ (¬ queue_is_full n →
     ((∃ h' n', enqueue_request h n request dt = Ok (h', n', (true, None)))
      ↔ t_finish h n request <= absolute_deadline (h !!! request))).
Proof.
  intros Hsla Hcpu.
  destruct (admission_check_spec h n request Hcpu) as (b & Hchk & Hb).
  assert (Hdec : queue_is_full n ∨ ¬ queue_is_full n).
  { rewrite <- queue_full_test. destruct (if max_queue_length n is Some m then _ else _); auto. }
  split; [eauto|]. split; [|split].
  - intros h' n' reason Henq. destruct Hdec as [Hfull|Hfull].
    { rewrite (enqueue_sla_full _ _ _ _ Hfull) in Henq. congruence. }
    destruct b; [by apply Hb|].
    rewrite (enqueue_sla_rejected _ _ _ _ Hsla Hfull Hchk) in Henq. congruence.
  - intros Hlate. destruct Hdec as [Hfull|Hfull].
    { rewrite (enqueue_sla_full _ _ _ _ Hfull). eauto. }
    destruct b.
    { assert (t_finish h n request <= absolute_deadline (h !!! request)) by by apply Hb.
      lra. }
    rewrite (enqueue_sla_rejected _ _ _ _ Hsla Hfull Hchk). eauto.
  - intros Hfull. split.
    + intros (h' & n' & Henq). destruct b; [by apply Hb|].
      rewrite (enqueue_sla_rejected _ _ _ _ Hsla Hfull Hchk) in Henq. congruence.
    + intros Hfin. apply Hb in Hfin. subst b.
      by apply enqueue_sla_admitted.
Qed.

Lemma C1_witness :
  absolute_deadline (c1_store !!! 1%nat) < t_finish c1_store c1_node 1%nat
  ∧ ∃ n' reason,
      enqueue_request c1_store c1_node 1%nat 1 = Ok (c1_store, n', (false, Some reason)).
Proof.
  assert (Hsla : is_sla c1_node = true) by reflexivity.
  assert (Hcpu : ¬ cpu_capacity c1_node == 0) by (by vm_compute).
  assert (Hlate : absolute_deadline (c1_store !!! 1%nat) < t_finish c1_store c1_node 1%nat)
    by (by vm_compute).
  split; [exact Hlate|].
  exact (proj1 (proj2 (proj2 (C1_sla_admission_soundness c1_store c1_node 1%nat 1 Hsla Hcpu)))
           Hlate).
Defined.

(** C2, as stated, fails: on a full SLA node, a request whose predicted
    finish time is past its deadline gets the queue-full outcome. *)
Lemma C2_counterexample :
  is_sla c2_node = true
  ∧ queue_is_full c2_node
  ∧ _admission_control_check_timebased c1_store c2_node 1%nat = Ok false
  ∧ absolute_deadline (c1_store !!! 1%nat) < t_finish c1_store c2_node 1%nat
  ∧ enqueue_request c1_store c2_node 1%nat 1 = Ok (c1_store, c2_node, (false, Some "queue_full"))
  ∧ enqueue_request c1_store c2_node 1%nat 1
      ≠ Ok (c1_store,
            set_total_rejected_due_to_deadline 1%Z c2_node,
            (false, Some "admission_rejected")).
Proof.
  split; [reflexivity|]. split.
  { exists 1%Z. split; [reflexivity|]. by vm_compute. }
  split; [by vm_compute|]. split; [by vm_compute|].
  assert (E : enqueue_request c1_store c2_node 1%nat 1
              = Ok (c1_store, c2_node, (false, Some "queue_full"))).
  { apply enqueue_sla_full. exists 1%Z. split; [reflexivity|]. by vm_compute. }
  split; [exact E|]. rewrite E. intros [=].
Qed.

(** C2, amended.  On an SLA node the queue-length test comes first: when
    the combined queue is full, [enqueue_request] returns the queue-full
    outcome and leaves the node as it was, whatever the predicted finish
    time; the admission-control outcome is returned, and the rejection
    counter incremented, when the queue has room and the predicted finish
    time is past the absolute deadline. *)
Theorem C2_queue_test_before_admission_test h n request dt :
  is_sla n = true →
  (queue_is_full n →
   enqueue_request h n request dt = Ok (h, n, (false, Some "queue_full")))
  ∧ (¬ queue_is_full n → ¬ cpu_capacity n == 0 →
     absolute_deadline (h !!! request) < t_finish h n request →
     enqueue_request h n request dt =
       Ok (h, set_total_rejected_due_to_deadline (total_rejected_due_to_deadline n + 1)%Z n,
           (false, Some "admission_rejected"))).
Proof.
  intros Hsla. split; [apply enqueue_sla_full|].
  intros Hfull Hcpu Hlate.
  destruct (admission_check_spec h n request Hcpu) as (b & Hchk & Hb).
  destruct b.
  { assert (t_finish h n request <= absolute_deadline (h !!! request)) by by apply Hb.
    lra. }
  by apply enqueue_sla_rejected.
Qed.

Lemma C2_witness :
  enqueue_request c1_store c2_node 1%nat 1 = Ok (c1_store, c2_node, (false, Some "queue_full"))
  ∧ enqueue_request c1_store c1_node 1%nat 1 =
      Ok (c1_store,
          set_total_rejected_due_to_deadline
            (total_rejected_due_to_deadline c1_node + 1)%Z c1_node,
          (false, Some "admission_rejected")).
Proof.
  split.
  - apply (proj1 (C2_queue_test_before_admission_test c1_store c2_node 1%nat 1 eq_refl)).
    exists 1%Z. split; [reflexivity|]. by vm_compute.
  - apply (proj2 (C2_queue_test_before_admission_test c1_store c1_node 1%nat 1 eq_refl)).
    + intros (m & Hm & _). discriminate Hm.
    + by vm_compute.
    + by vm_compute.
Defined.

(** ** Link-load accounting (C7) *)

(** Outside the SLA branch an admitted request adds its [data_size] to the
    per-step link load of a node with a link capacity. *)
Lemma enqueue_link_load_other_policies h n request dt h' n' reason lc :
  is_sla n = false → link_capacity n = Some lc →
  enqueue_request h n request dt = Ok (h', n', (true, reason)) →
  current_link_load n' = current_link_load n + data_size (h !!! request).
Proof.
  intros Hsla Hlc. unfold enqueue_request.
  destruct (if max_queue_length n is Some m then Z.leb m (_get_total_queue_length n) else false);
    [intros [=]|].
  rewrite Hsla.
  destruct (String.eqb (scheduler n) "STATIC_PRIORITY");
    [destruct (Z.eqb _ 3); [|destruct (Z.eqb _ 2)]|
     destruct (String.eqb (scheduler n) "EMERGENCY_FIRST");
       [destruct (is_emergency _)|
        destruct (if max_queue_length n is Some m then Z.leb m (len (queue n)) else false)]];
    simpl; rewrite ?Hlc; intros [=]; subst; reflexivity.
Qed.

(** The SLA branch returns before the link load is updated. *)
Lemma enqueue_link_load_sla h n request dt h' n' res :
  is_sla n = true →
  enqueue_request h n request dt = Ok (h', n', res) →
  current_link_load n' = current_link_load n.
Proof.
  intros Hsla. unfold enqueue_request.
  destruct (if max_queue_length n is Some m then Z.leb m (_get_total_queue_length n) else false);
    [by intros [= <- <- <-]|].
  rewrite Hsla.
  destruct (_admission_control_check_timebased h n request) as [[]|]; simpl;
    [|by intros [= <- <- <-]|done].
  rewrite current_request_dynamic_append.
  assert (Happ : ∀ cls r m, current_link_load (dynamic_append cls r m) = current_link_load m).
  { intros cls r m. unfold dynamic_append. by destruct (Z.eqb cls 3), (Z.eqb cls 2). }
  assert (Happl : ∀ cls r m, current_link_load (dynamic_appendleft cls r m) = current_link_load m).
  { intros cls r m. unfold dynamic_appendleft. by destruct (Z.eqb cls 3), (Z.eqb cls 2). }
  assert (Hpop : ∀ cls m m', dynamic_pop cls m = Ok m' →
                             current_link_load m' = current_link_load m).
  { intros cls m m'. unfold dynamic_pop.
    destruct (Z.eqb cls 3); [|destruct (Z.eqb cls 2)];
      (destruct (deque_pop _); simpl; [by intros [= <-]|done]). }
  destruct (current_request n) as [cur|]; [|intros [= <- <- <-]; apply Happ].
  destruct (Qltb _ _); [|intros [= <- <- <-]; apply Happ].
  destruct (dynamic_pop _ _) as [m'|] eqn:Epop; simpl; [|done].
  intros [= <- <- <-]. simpl. apply Hpop in Epop. by rewrite Epop, Happl, Happ.
Qed.

(** C7 fails on the SLA policy.  A FIFO, EMERGENCY_FIRST or STATIC_PRIORITY
    node that admitted the 10 MB request has a link load of 10 and turns the
    45 MB request away; the SLA node admits the first request too, but its
    link load stays 0 and the second request passes the link test although
    10 + 45 > 50. *)
Theorem C7_sla_link_load_not_accumulated :
  c7_second_offer "FIFO" = Ok (true, 0 + 10, false)
  ∧ c7_second_offer "EMERGENCY_FIRST" = Ok (true, 0 + 10, false)
  ∧ c7_second_offer "STATIC_PRIORITY" = Ok (true, 0 + 10, false)
  ∧ c7_second_offer "SLA-DWP-Fog" = Ok (true, 0, true)
  ∧ c7_second_offer "DYNAMIC_PRIORITY" = Ok (true, 0, true).
Proof. repeat split; reflexivity. Qed.

(** ** Configuration errors (C10) *)

Lemma RequestGenerator_init_ok cfg :
  ∃ gen, RequestGenerator_init cfg = Ok gen ∧ gen_config gen = cfg ∧ next_request_id gen = 0%Z.
Proof.
  unfold RequestGenerator_init.
  destruct (Qle_bool (py_sum (map snd type_probabilities_table)) 0) eqn:E.
  { by vm_compute in E. }
  eexists. split; [reflexivity|]. done.
Qed.

(** C10, as stated, fails for the arrival bound: with
    [max_requests_per_step = 0] the simulation is constructed and its loop
    runs, step after step, with no request generated. *)
Lemma C10_counterexample :
  (max_requests_per_step c10_config <= 0)%Z
  ∧ c10_run 0 = Ok (0, 0%Z, 0%nat)
  ∧ c10_run 3 = Ok (3, 0%Z, 3%nat).
Proof. split; [done|]. split; reflexivity. Qed.

(** C10, amended.  A non-positive grid dimension makes
    [build_grid_topology], and with it the construction of the simulation,
    raise ValueError before any step runs.  A non-positive
    [max_requests_per_step] raises nothing: the generator is constructed and
    [generate_requests] returns an empty list, leaving the generator, the
    random stream and the store untouched. *)
Theorem C10_configuration_errors seeded_stream cfg :
  ((num_fog_nodes_x cfg <= 0)%Z ∨ (num_fog_nodes_y cfg <= 0)%Z →
   build_grid_topology cfg
     = Raise (ValueError "Number of fog nodes in each dimension must be positive.")
   ∧ Simulation_init seeded_stream cfg
     = Raise (ValueError "Number of fog nodes in each dimension must be positive."))
  ∧ ((max_requests_per_step cfg <= 0)%Z →
     (∃ gen, RequestGenerator_init cfg = Ok gen ∧ gen_config gen = cfg)
     ∧ ∀ gen g h nref time,
         gen_config gen = cfg →
         generate_requests gen g h nref time = (gen, g, h, nref, [])).
Proof.
  split.
  - intros Hdim.
    assert (Hb : build_grid_topology cfg
      = Raise (ValueError "Number of fog nodes in each dimension must be positive.")).
    { unfold build_grid_topology.
      destruct (Z.leb (num_fog_nodes_x cfg) 0 || Z.leb (num_fog_nodes_y cfg) 0) eqn:E; [done|].
      apply orb_false_iff in E as [Ex Ey]. apply Z.leb_gt in Ex, Ey. lia. }
    split; [exact Hb|]. unfold Simulation_init. by rewrite Hb.
  - intros Hmax. split.
    + destruct (RequestGenerator_init_ok cfg) as (gen & ? & ? & _). eauto.
    + intros gen g h nref time Hcfg. unfold generate_requests. rewrite Hcfg.
      apply Z.leb_le in Hmax. by rewrite Hmax.
Qed.

Lemma C10_witness :
  Simulation_init (λ _ _, 1 # 2)
    {| sim_time := 3600; time_step := 1; time_step_ms := None; random_seed := 42;
       city_width := 1000; city_height := 1000;
       num_fog_nodes_x := 0; num_fog_nodes_y := 2;
       fog_cpu_capacity := 10; fog_link_capacity := Some 50;
       fog_max_queue_length := None;
       avg_requests_per_step := 5; max_requests_per_step := 200;
       cfg_scheduler := "FIFO";
       cfg_sla_window_TW := 10; cfg_sla_J1_max := 1 # 10; cfg_sla_J2_max_s := 5;
       cfg_sla_J3_max := 2; cfg_sla_eta1 := 1 # 100; cfg_sla_eta2 := 1 # 100;
       cfg_sla_eta3 := 1 # 100; cfg_sla_eps := 1 # 1000000 |}
  = Raise (ValueError "Number of fog nodes in each dimension must be positive.")
  ∧ ∃ gen, RequestGenerator_init c10_config = Ok gen ∧ gen_config gen = c10_config.
Proof.
  split.
  - apply (proj1 (C10_configuration_errors _ _)). left. simpl. lia.
  - apply (proj2 (C10_configuration_errors (λ _ _, 1 # 2) c10_config)). simpl. lia.
Defined.

(** ** The adaptive weight update (C5, C6) *)

Lemma FogNode_init_weights_normalized id pos cpu link maxq sched :
  weights_normalized (FogNode_init id pos cpu link maxq sched).
Proof. unfold weights_normalized. simpl. repeat split; by vm_compute. Qed.

Lemma normalized_fraction (a b c : Q) :
  0 < a → 0 < b → 0 < c →
  a / (a + b + c) + b / (a + b + c) + c / (a + b + c) == 1
  ∧ (0 < a / (a + b + c) ∧ a / (a + b + c) <= 1)
  ∧ (0 < b / (a + b + c) ∧ b / (a + b + c) <= 1)
  ∧ (0 < c / (a + b + c) ∧ c / (a + b + c) <= 1).
Proof.
  intros Ha Hb Hc. assert (HS : 0 < a + b + c) by lra.
  split; [field; lra|].
  repeat split;
    first [ apply Qlt_shift_div_l; [exact HS|lra]
          | apply Qle_shift_div_r; [exact HS|lra] ].
Qed.

(** The update of a node whose completion window is not empty. *)
Lemma update_sla_weights_fresh h n current_time :
  0 < getattr (sla_eps n) (1 # 1000000) →
  ∃ n', _update_sla_weights_window h n current_time = Ok n'
        ∧ (n' = n ∨ weights_normalized n').
Proof.
  intros Heps. unfold _update_sla_weights_window.
  destruct (List.filter _ (_completed_history n)) as [|r0 w] eqn:Ew; [eauto|].
  set (l1 := py_max 0 _). set (l2 := py_max 0 _). set (l3 := py_max 0 _).
  set (eps := getattr (sla_eps n) (1 # 1000000)) in *.
  assert (H1 : 0 <= l1) by apply py_max_ge_l.
  assert (H2 : 0 <= l2) by apply py_max_ge_l.
  assert (H3 : 0 <= l3) by apply py_max_ge_l.
  destruct (Qeq_bool (l1 + eps + (l2 + eps) + (l3 + eps)) 0) eqn:ES.
  { apply Qeq_bool_iff in ES. lra. }
  eexists. split; [reflexivity|]. right.
  unfold weights_normalized. simpl.
  split; [exact H1|]. split; [exact H2|]. split; [exact H3|].
  apply normalized_fraction; lra.
Qed.

(** C5.  A freshly constructed node has non-negative dual variables and
    weights that sum to 1, each in (0, 1]; and with [eps > 0] every
    execution of the adaptive weight update on a node in such a state
    completes and leaves the node in such a state: the three dual variables
    are non-negative, [alpha + beta + gamma = 1], and each weight lies in
    [0, 1] and is not 0. *)
Theorem C5_weight_normalization :
  (∀ id pos cpu link maxq sched,
     weights_normalized (FogNode_init id pos cpu link maxq sched))
  ∧ ∀ h n current_time,
      0 < getattr (sla_eps n) (1 # 1000000) →
      weights_normalized n →
      ∃ n', _update_sla_weights_window h n current_time = Ok n'
            ∧ weights_normalized n'.
Proof.
  split; [apply FogNode_init_weights_normalized|].
  intros h n t Heps Hn.
  destruct (update_sla_weights_fresh h n t Heps) as (n' & Hupd & [->|Hn']); eauto.
Qed.

Lemma C5_witness :
  ∃ n', _update_sla_weights_window c6_store c6_node 20 = Ok n' ∧ weights_normalized n'.
Proof.
  apply (proj2 C5_weight_normalization c6_store c6_node 20).
  - by vm_compute.
  - unfold weights_normalized. simpl. repeat split; by vm_compute.
Defined.

(** C6, as stated, fails: the update adds [eta_k * (J_k - J_k_max)] to the
    dual variables every time it runs, so two runs on the same window do not
    give what one run gives. *)
Lemma C6_counterexample :
  (duals_and_weights <$> (match c6_once with Ok n => Some n | Raise _ => None end))
    = Some [9 # 1000; 3 # 20; 0; 9001 # 159003; 150001 # 159003; 1 # 159003]
  ∧ (duals_and_weights <$> (match c6_twice with Ok n => Some n | Raise _ => None end))
    = Some [9 # 500; 3 # 10; 0; 18001 # 318003; 300001 # 318003; 1 # 318003].
Proof. split; reflexivity. Qed.

Lemma update_sla_weights_frame h n current_time n' :
  _update_sla_weights_window h n current_time = Ok n' →
  sla_window_TW n' = sla_window_TW n ∧ _last_window_update n' = _last_window_update n.
Proof.
  unfold _update_sla_weights_window.
  destruct (List.filter _ (_completed_history n)); [by intros [= <-]|].
  destruct (Qeq_bool _ 0); [done|]. by intros [= <-].
Qed.

(** C6, amended.  The window update itself accumulates, but
    [process_one_step] runs it behind the test
    [current_time - _last_window_update >= TW] and then records
    [current_time] as the time of the last update; with a window length
    [TW > 0], running that guarded update a second time at the same
    simulation time on the same store changes nothing: the node, and so its
    dual variables and weights, is what the first run left. *)
Theorem C6_guarded_update_idempotent h n current_time n1 :
  0 < getattr (sla_window_TW n) 10 →
  sla_window_boundary h n current_time = Ok n1 →
  sla_window_boundary h n1 current_time = Ok n1.
Proof.
  intros HTW. unfold sla_window_boundary.
  destruct (Qle_bool (getattr (sla_window_TW n) 10) (current_time - _last_window_update n))
    eqn:Etest.
  - destruct (_update_sla_weights_window h n current_time) as [n'|] eqn:Eupd; simpl; [|done].
    intros [= <-]. apply update_sla_weights_frame in Eupd as [HTW' _].
    simpl. rewrite HTW'.
    destruct (Qle_bool _ (current_time - current_time)) eqn:E; [|done].
    apply Qle_bool_iff in E. lra.
  - intros [= <-]. by rewrite Etest.
Qed.

Lemma C6_witness :
  sla_window_boundary c6_store
    (set_last_window_update 20
       (match c6_once with Ok n => n | Raise _ => c6_node end)) 20
  = Ok (set_last_window_update 20 (match c6_once with Ok n => n | Raise _ => c6_node end)).
Proof.
  apply (C6_guarded_update_idempotent c6_store c6_node 20).
  - by vm_compute.
  - reflexivity.
Defined.

(** ** Service runs *)

Lemma mark_started_lookup t (h : gmap nat Request) r x :
  mark_started t h r !!! x =
    if decide (x = r) then
      match start_time (h !!! r) with
      | None => set_start_time (Some t) (h !!! r)
      | Some _ => h !!! r
      end
    else h !!! x.
Proof.
  unfold mark_started. destruct (decide (x = r)) as [->|Hne].
  - destruct (start_time (h !!! r)); [done|]. by rewrite lookup_total_insert_eq.
  - destruct (start_time (h !!! r)); [done|]. by rewrite lookup_total_insert_ne.
Qed.

Lemma mark_started_fields t (h : gmap nat Request) r x :
  remaining_demand (mark_started t h r !!! x) = remaining_demand (h !!! x)
  ∧ completion_time (mark_started t h r !!! x) = completion_time (h !!! x)
  ∧ frozen (mark_started t h r !!! x) = frozen (h !!! x).
Proof.
  rewrite mark_started_lookup. destruct (decide (x = r)) as [->|]; [|done].
  by destruct (start_time (h !!! r)).
Qed.

Lemma not_elem_of_snoc (x r : ref) (d : list ref) :
  x ∉ d ++ [r] → (x ∉ d) ∧ r ≠ x.
Proof.
  intros Hx. split.
  - intros Hin. apply Hx, elem_of_app. by left.
  - intros ->. apply Hx, elem_of_app. right. by apply list_elem_of_singleton.
Qed.

Section Service.

Variables (now dt : Q) (L : list ref).

(** [serve] makes one of the last two moves. *)
Lemma serve_service c h d r b c' h' :
  r ∈ L → 0 < c →
  serve now dt h r c = (b, c', h') →
  service_step now dt L (c, h, d) (c', h', (if b then d ++ [r] else d)).
Proof.
  intros HL Hc. unfold serve.
  destruct (Qle_bool (remaining_demand (h !!! r)) c) eqn:E; intros [= <- <- <-].
  - apply service_finish; [done..|]. by apply Qle_bool_iff.
  - apply service_partial; [done..|]. by apply Qle_bool_gt.
Qed.

Lemma service_inv_init B h0 : service_inv now dt L B h0 B h0 [].
Proof.
  split.
  - by right.
  - intros r Hr. by apply elem_of_nil in Hr.
  - intros i r Hi. by rewrite lookup_nil in Hi.
  - left. split; [simpl; lra|]. by intros r _.
  - done.
  - done.
  - by left.
  - intros r Hr. by apply elem_of_nil in Hr.
Qed.

Lemma service_inv_step B h0 c h d c' h' d' :
  service_inv now dt L B h0 c h d →
  service_step now dt L (c, h, d) (c', h', d') →
  NoDup d' →
  service_inv now dt L B h0 c' h' d'.
Proof.
  intros [Hbud Hdone Hfit Hphase Hframe Hstatic Hstart Hsub] Hstep Hnd.
  inversion Hstep as [c1 h1 d1 r HL|c1 h1 d1 r HL Hc Hle|c1 h1 d1 r HL Hc Hlt]; subst.
  - (* a start time *)
    assert (F := mark_started_fields now h r).
    split; auto.
    + intros x Hx. destruct (F x) as (-> & -> & _). auto.
    + destruct Hphase as [[Hc Hun]|(-> & p & Hp & Hpd & Hl0 & Hl1 & Hrem & Hcomp & Hun)].
      * left. split; [done|]. intros x Hx. unfold untouched.
        destruct (F x) as (-> & -> & _). by apply Hun.
      * right. split; [done|]. exists p.
        do 4 (split; [done|]).
        destruct (F p) as (-> & -> & _). do 2 (split; [done|]).
        intros x Hx Hxp. unfold untouched.
        destruct (F x) as (-> & -> & _). by apply Hun.
    + intros x Hx. rewrite mark_started_lookup.
      destruct (decide (x = r)) as [->|]; [done|]. auto.
    + intros x. destruct (F x) as (_ & _ & ->). auto.
    + intros x. rewrite mark_started_lookup.
      destruct (decide (x = r)) as [->|]; [|auto].
      destruct (start_time (h !!! r)) eqn:E.
      * apply Hstart.
      * simpl. right. split; [|done].
        destruct (Hstart r) as [Hs|[Hs Hs']]; [by rewrite <- Hs|done].
  - (* a request is finished *)
    apply NoDup_app in Hnd as (Hnd & Hrd & _).
    assert (Hr : r ∉ d).
    { intros Hin. apply (Hrd r Hin). by apply list_elem_of_singleton. }
    destruct Hphase as [[Hceq Hun]|(Hc0 & _)]; [|rewrite Hc0 in Hc; lra].
    destruct (Hun r Hr) as [Hrem Hcomp].
    split.
    + left. lra.
    + intros x [Hx| ->%list_elem_of_singleton]%elem_of_app.
      * rewrite lookup_total_insert_ne by (intros ->; done). auto.
      * by rewrite lookup_total_insert_eq.
    + intros i x Hi. destruct (decide (i < length d)%nat) as [Hlt|Hge].
      * rewrite lookup_app_l in Hi by done. rewrite take_app_le by lia. eauto.
      * rewrite lookup_app_r in Hi by lia.
        destruct (i - length d)%nat as [|m] eqn:Ei; simpl in Hi; [|by destruct m].
        injection Hi as <-. assert (i = length d) as -> by lia.
        rewrite take_app_length. rewrite <- Hrem. split; lra.
    + left. split.
      * rewrite sum_remaining_app. simpl. rewrite <- Hrem. lra.
      * intros x [Hx Hxr]%not_elem_of_snoc. unfold untouched.
        rewrite lookup_total_insert_ne by done. by apply Hun.
    + intros x Hx. rewrite lookup_total_insert_ne by (intros ->; done). auto.
    + intros x. destruct (decide (x = r)) as [->|].
      * rewrite lookup_total_insert_eq. apply Hstatic.
      * rewrite lookup_total_insert_ne by done. apply Hstatic.
    + intros x. destruct (decide (x = r)) as [->|].
      * rewrite lookup_total_insert_eq. apply Hstart.
      * rewrite lookup_total_insert_ne by done. apply Hstart.
    + intros x [Hx| ->%list_elem_of_singleton]%elem_of_app; auto.
  - (* a request takes what is left *)
    destruct Hphase as [[Hceq Hun]|(Hc0 & _)]; [|rewrite Hc0 in Hc; lra].
    assert (Hr : r ∉ d').
    { intros Hin. destruct (Hdone r Hin) as [H0 _]. rewrite H0 in Hlt. lra. }
    destruct (Hun r Hr) as [Hrem Hcomp].
    split; auto.
    + left. lra.
    + intros x Hx. rewrite lookup_total_insert_ne by (intros ->; done). auto.
    + right. split; [done|]. exists r.
      rewrite lookup_total_insert_eq. simpl. rewrite <- Hrem.
      do 2 (split; [done|]). do 3 (split; [lra|]). split; [done|].
      intros x Hx Hxr. unfold untouched.
      rewrite lookup_total_insert_ne by done. by apply Hun.
    + intros x Hx. rewrite lookup_total_insert_ne by (intros ->; done). auto.
    + intros x. destruct (decide (x = r)) as [->|].
      * rewrite lookup_total_insert_eq. apply Hstatic.
      * rewrite lookup_total_insert_ne by done. apply Hstatic.
    + intros x. destruct (decide (x = r)) as [->|].
      * rewrite lookup_total_insert_eq. apply Hstart.
      * rewrite lookup_total_insert_ne by done. apply Hstart.
Qed.

Lemma service_inv_holds B h0 c h d :
  service now dt L (B, h0, []) (c, h, d) → NoDup d → service_inv now dt L B h0 c h d.
Proof.
  intros Hrun.
  change (NoDup (c, h, d).2 →
          service_inv now dt L B h0 (c, h, d).1.1 (c, h, d).1.2 (c, h, d).2).
  generalize dependent (c, h, d). clear c h d.
  apply (rtc_ind_r (λ σ, NoDup σ.2 → service_inv now dt L B h0 σ.1.1 σ.1.2 σ.2)).
  - intros _. apply service_inv_init.
  - intros [[c h] d] [[c' h'] d'] _ Hstep IH Hnd. simpl in *.
    apply (service_inv_step B h0 c h d); [|done..].
    apply IH. inversion Hstep; subst; [done| |done].
    by apply NoDup_app in Hnd as (? & _).
Qed.

End Service.

(** ** The loop of the FIFO, EMERGENCY_FIRST and STATIC_PRIORITY branches *)

Lemma serve_partial_budget now dt h r c c' h' :
  serve now dt h r c = (false, c', h') → c' = 0.
Proof.
  unfold serve. destruct (Qle_bool _ c); by intros [= <- <-].
Qed.

(** Without budget the loop does nothing. *)
Lemma drain_no_budget now dt q c h d :
  c <= 0 → drain now dt q c h d = (q, c, h, d).
Proof.
  intros Hc. destruct q as [|r q]; [done|]. simpl.
  destruct (Qltb 0 c) eqn:E; [|done]. apply Qltb_lt in E. lra.
Qed.

(** The loop is a service run; it completes a prefix of the queue, in queue
    order, leaves the rest, and leaves a request behind only when the budget
    is used up. *)
Lemma drain_run now dt L q : ∀ c h d q' c' h' d',
  (∀ r, r ∈ q → r ∈ L) →
  drain now dt q c h d = (q', c', h', d') →
  service now dt L (c, h, d) (c', h', d')
  ∧ ∃ k, q' = drop k q ∧ d' = d ++ take k q ∧ (q' ≠ [] → c' <= 0).
Proof.
  induction q as [|r q IH]; intros c h d q' c' h' d' HL.
  - intros [= <- <- <- <-]. split; [apply rtc_refl|].
    exists 0%nat. by rewrite app_nil_r.
  - simpl. destruct (Qltb 0 c) eqn:Ec.
    + apply Qltb_lt in Ec.
      assert (Hr : r ∈ L) by (apply HL; left).
      assert (Hfc : remaining_demand (mark_started now h r !!! r) = remaining_demand (h !!! r))
        by apply mark_started_fields.
      destruct (serve now dt (mark_started now h r) r c) as [[b c1] h1] eqn:Es.
      assert (Hstep : service now dt L (c, h, d)
                        (c1, h1, (if b then d ++ [r] else d))).
      { eapply rtc_l; [by apply service_start|].
        apply rtc_once. by apply serve_service. }
      destruct b.
      * intros Hd. apply IH in Hd as [Hrun (k & -> & -> & Hc')];
          [|intros x Hx; apply HL; by right].
        split; [by eapply rtc_trans|].
        exists (S k). simpl. by rewrite <- app_assoc.
      * intros [= <- <- <- <-]. split; [done|].
        exists 0%nat. rewrite app_nil_r. do 2 (split; [done|]).
        intros _. apply serve_partial_budget in Es. rewrite Es. lra.
    + intros [= <- <- <- <-]. split; [apply rtc_refl|].
      exists 0%nat. rewrite app_nil_r. do 2 (split; [done|]).
      intros _. by apply Qltb_ge.
Qed.

(** ** The loop of the SLA branch *)

Lemma select_step_fst h n t st r :
  (select_step h n t st r).1 = st.1 ∨ (select_step h n t st r).1 = Some r.
Proof.
  unfold select_step. destruct st as [b [s|]]; simpl; [|by right].
  repeat case_match; auto.
Qed.

Lemma select_fold_in h n t l : ∀ st x,
  (fold_left (select_step h n t) l st).1 = Some x → st.1 = Some x ∨ x ∈ l.
Proof.
  induction l as [|r l IH]; intros st x; simpl; [auto|].
  intros [Hx|Hx]%IH; [|right; by right].
  destruct (select_step_fst h n t st r) as [E|E]; rewrite E in Hx; [by left|].
  injection Hx as ->. right. by left.
Qed.

Lemma select_next_in h n t x :
  _select_next_request_sla h n t = Some x → x ∈ dqs n.
Proof.
  unfold _select_next_request_sla. fold (dqs n).
  destruct (dqs n) as [|r l] eqn:E; [done|].
  by intros [?|?]%select_fold_in.
Qed.

Lemma Request_eqb_id a b : Request_eqb a b = true → request_id a = request_id b.
Proof.
  unfold Request_eqb. intros H.
  repeat (apply andb_prop in H as [H _]). by apply Z.eqb_eq.
Qed.

Lemma deque_remove_spec h x q : ∀ q',
  deque_remove h x q = Ok q' →
  ∃ q1 y q2, q = q1 ++ y :: q2 ∧ q' = q1 ++ q2
             ∧ request_id (h !!! y) = request_id (h !!! x).
Proof.
  induction q as [|y q IH]; intros q'; simpl; [done|].
  destruct (Nat.eqb y x || Request_eqb (h !!! y) (h !!! x)) eqn:E.
  - intros [= <-]. exists [], y, q. do 2 (split; [done|]).
    apply orb_prop in E as [->%Nat.eqb_eq|E]; [done|]. by apply Request_eqb_id.
  - destruct (deque_remove h x q) as [q''|] eqn:Er; simpl; [|done].
    intros [= <-]. destruct (IH q'' eq_refl) as (q1 & z & q2 & -> & -> & Hid).
    by exists (y :: q1), z, q2.
Qed.

Lemma deque_remove_in h x q : x ∈ q → ∃ q', deque_remove h x q = Ok q'.
Proof.
  induction q as [|y q IH]; [by intros ?%elem_of_nil|].
  intros Hx. simpl.
  destruct (Nat.eqb y x || Request_eqb (h !!! y) (h !!! x)) eqn:E; [eauto|].
  apply orb_false_iff in E as [E%Nat.eqb_neq _].
  apply elem_of_cons in Hx as [->|Hx]; [done|].
  destruct (IH Hx) as [q' ->]. simpl. eauto.
Qed.

Lemma NoDup_fmap_inj_on {A B} (f : A → B) (l : list A) x y :
  NoDup (f <$> l) → x ∈ l → y ∈ l → f x = f y → x = y.
Proof.
  induction l as [|a l IH]; [by intros _ ?%elem_of_nil|].
  rewrite fmap_cons. intros [Ha Hnd]%NoDup_cons.
  intros [->|Hx]%elem_of_cons [->|Hy]%elem_of_cons Hf; [done| | |by apply IH].
  - exfalso. apply Ha. rewrite Hf. by apply list_elem_of_fmap_2.
  - exfalso. apply Ha. rewrite <- Hf. by apply list_elem_of_fmap_2.
Qed.

Lemma Permutation_extract {A} (a b q1 q2 : list A) (y : A) :
  a ++ (q1 ++ y :: q2) ++ b ≡ₚ y :: a ++ (q1 ++ q2) ++ b.
Proof.
  rewrite <- (Permutation_middle q1 q2 y). simpl.
  by rewrite <- (Permutation_middle a).
Qed.

(** Taking a request out of its class queue. *)
Lemma dynamic_remove_spec h cls x n n' :
  dynamic_remove h cls x n = Ok n' →
  ∃ y, request_id (h !!! y) = request_id (h !!! x)
       ∧ dqs n ≡ₚ y :: dqs n'
       ∧ sla_static n' = sla_static n
       ∧ current_request n' = current_request n
       ∧ (∀ r, r ∈ dynamic_queue_3 n' → r ∈ dynamic_queue_3 n)
       ∧ (∀ r, r ∈ dynamic_queue_2 n' → r ∈ dynamic_queue_2 n)
       ∧ (∀ r, r ∈ dynamic_queue_1 n' → r ∈ dynamic_queue_1 n).
Proof.
  unfold dynamic_remove, dqs.
  destruct (Z.eqb cls 3); [|destruct (Z.eqb cls 2)];
    (destruct (deque_remove h x _) as [q'|] eqn:Er; simpl; [|done]);
    intros [= <-]; apply deque_remove_spec in Er as (q1 & y & q2 & Eq & -> & Hid);
    exists y; simpl; rewrite Eq; (split; [done|]); (split; [|split; [done|split; [done|]]]).
  - apply (Permutation_extract []).
  - repeat split; auto. intros r. rewrite !elem_of_app, elem_of_cons. tauto.
  - apply Permutation_extract.
  - repeat split; auto. intros r. rewrite !elem_of_app, elem_of_cons. tauto.
  - rewrite !app_assoc. by rewrite <- Permutation_middle.
  - repeat split; auto. intros r. rewrite !elem_of_app, elem_of_cons. tauto.
Qed.

Lemma serve_frozen now dt h r c b c' h' :
  serve now dt h r c = (b, c', h') → ∀ x, frozen (h' !!! x) = frozen (h !!! x).
Proof.
  unfold serve. destruct (Qle_bool _ c); intros [= <- <- <-] x;
    (destruct (decide (x = r)) as [->|];
       [by rewrite lookup_total_insert_eq|by rewrite lookup_total_insert_ne]).
Qed.

Lemma frozen_request_id a b : frozen a = frozen b → request_id a = request_id b.
Proof. intros H. by apply (f_equal request_id) in H. Qed.

Section SlaLoop.

Variables (now dt : Q) (L : list ref) (idf : ref → Z).

Lemma sla_post_refl c h n d : sla_post now dt L c h n d c h n d.
Proof. repeat split; auto. apply rtc_refl. Qed.

Lemma dqs_subseteq n n' :
  (∀ r, r ∈ dynamic_queue_3 n' → r ∈ dynamic_queue_3 n) →
  (∀ r, r ∈ dynamic_queue_2 n' → r ∈ dynamic_queue_2 n) →
  (∀ r, r ∈ dynamic_queue_1 n' → r ∈ dynamic_queue_1 n) →
  ∀ r, r ∈ dqs n' → r ∈ dqs n.
Proof.
  intros H3 H2 H1 r. unfold dqs. rewrite !elem_of_app.
  intros [?|[?|?]]; auto.
Qed.

Lemma sla_post_trans c h n d c1 h1 n1 d1 c2 h2 n2 d2 :
  sla_post now dt L c h n d c1 h1 n1 d1 → sla_post now dt L c1 h1 n1 d1 c2 h2 n2 d2 →
  sla_post now dt L c h n d c2 h2 n2 d2.
Proof.
  intros (R1 & P1 & S1 & A1 & B1 & C1 & F1) (R2 & P2 & S2 & A2 & B2 & C2 & F2).
  repeat split; auto.
  - by eapply rtc_trans.
  - by rewrite P2.
  - by rewrite S2.
  - intros r Hr. rewrite (F2 r Hr). by apply F1, (dqs_subseteq n1 n2).
Qed.

Lemma sla_dispatch_run continue c h n d c' h' n' d' :
  (∀ c h n d c' h' n' d',
     continue c h n d = Ok (c', h', n', d') → sla_pre L idf h n →
     sla_post now dt L c h n d c' h' n' d') →
  current_request n = None →
  sla_dispatch continue now c h n d = Ok (c', h', n', d') →
  sla_pre L idf h n →
  sla_post now dt L c h n d c' h' n' d'.
Proof.
  intros IH Hcur. unfold sla_dispatch.
  destruct (_select_next_request_sla h n now) as [next|] eqn:Esel;
    [|intros [= <- <- <- <-] _; apply sla_post_refl].
  destruct (dynamic_remove h _ next n) as [n2|] eqn:Erem; simpl; [|done].
  intros Hc (HL & Hnd & Hid).
  apply dynamic_remove_spec in Erem as (y & Hyid & Hperm & Hst & Hcur2 & H3 & H2 & H1).
  apply select_next_in in Esel.
  assert (Hrefs : sla_refs n = dqs n).
  { unfold sla_refs. rewrite Hcur. apply app_nil_r. }
  assert (y = next) as ->.
  { apply (NoDup_fmap_inj_on idf (sla_refs n)); [done| | |].
    - rewrite Hrefs, Hperm. by left.
    - by rewrite Hrefs.
    - by rewrite <- !Hid. }
  set (n3 := set_current_request_start_time (Some now)
               (set_current_request (Some next) n2)) in *.
  assert (Hrefs3 : sla_refs n3 ≡ₚ sla_refs n).
  { rewrite Hrefs, Hperm. unfold sla_refs. simpl.
    change (dqs n3) with (dqs n2). by rewrite <- Permutation_cons_append. }
  assert (Hnext : next ∉ dqs n2).
  { apply NoDup_fmap_1 in Hnd. rewrite Hrefs, Hperm in Hnd.
    by apply NoDup_cons in Hnd as [? _]. }
  apply (sla_post_trans _ _ _ _ c (mark_started now h next) n3 d).
  - repeat split; auto.
    + apply rtc_once, service_start, HL. rewrite Hrefs. done.
    + by rewrite Hrefs3.
    + intros r Hr. rewrite mark_started_lookup.
      destruct (decide (r = next)) as [->|]; done.
  - apply IH; [done|]. repeat split.
    + intros r Hr. apply HL. by rewrite <- Hrefs3.
    + by rewrite Hrefs3.
    + intros r. rewrite <- Hid. apply frozen_request_id, mark_started_fields.
Qed.

Lemma sla_loop_run fuel : ∀ c h n d c' h' n' d',
  sla_loop fuel now dt c h n d = Ok (c', h', n', d') →
  sla_pre L idf h n →
  sla_post now dt L c h n d c' h' n' d'.
Proof.
  induction fuel as [|fuel IH]; intros c h n d c' h' n' d'; [done|]. simpl.
  destruct (Qltb 0 c) eqn:Ec;
    [apply Qltb_lt in Ec|intros [= <- <- <- <-] _; apply sla_post_refl].
  destruct (current_request n) as [cur|] eqn:Ecur; [|by apply sla_dispatch_run].
  destruct (serve now dt h cur c) as [[b c1] h1] eqn:Es.
  intros Hloop (HL & Hnd & Hid).
  assert (Hrefs : sla_refs n = dqs n ++ [cur]).
  { unfold sla_refs. by rewrite Ecur. }
  assert (Hcur : cur ∈ L).
  { apply HL. rewrite Hrefs, elem_of_app. right. by left. }
  assert (Hstep := serve_service now dt L c h d cur b c1 h1 Hcur Ec Es).
  assert (Hfr : ∀ r, r ∈ dqs n → h1 !!! r = h !!! r).
  { intros r Hr. assert (r ≠ cur).
    { intros ->. apply NoDup_fmap_1 in Hnd. rewrite Hrefs in Hnd.
      apply NoDup_app in Hnd as (_ & Hdis & _). apply (Hdis cur Hr). by left. }
    revert Es. unfold serve. destruct (Qle_bool _ c); intros [= _ _ <-];
      by rewrite lookup_total_insert_ne. }
  destruct b.
  - set (n1 := set_current_request_start_time None _) in *.
    apply (sla_post_trans _ _ _ _ c1 h1 n1 (d ++ [cur])).
    + repeat split; auto; [by apply rtc_once|].
      rewrite Hrefs. unfold sla_refs. simpl. change (dqs n1) with (dqs n).
      rewrite app_nil_r, (comm (++) d [cur]). by rewrite !app_assoc.
    + apply (sla_dispatch_run _ _ _ _ _ _ _ _ _ IH); [done..|].
      repeat split.
      * intros r Hr. apply HL. rewrite Hrefs, elem_of_app. left.
        unfold sla_refs in Hr. simpl in Hr. by rewrite app_nil_r in Hr.
      * rewrite Hrefs, fmap_app in Hnd. apply NoDup_app in Hnd as [Hnd _].
        unfold sla_refs. simpl. by rewrite app_nil_r.
      * intros r. rewrite <- Hid.
        apply frozen_request_id, (serve_frozen _ _ _ _ _ _ _ _ Es).
  - injection Hloop as <- <- <- <-. repeat split; auto. by apply rtc_once.
Qed.

End SlaLoop.

Lemma frozen_priority_class a b : frozen a = frozen b → priority_class a = priority_class b.
Proof. intros H. by apply (f_equal priority_class) in H. Qed.

Lemma class_queues_ok_frozen h h' n :
  (∀ x, frozen (h' !!! x) = frozen (h !!! x)) →
  class_queues_ok h n → class_queues_ok h' n.
Proof.
  intros Hf (H3 & H2 & H1).
  split; [|split]; intros r Hr; rewrite (frozen_priority_class _ _ (Hf r)); auto.
Qed.

Lemma dynamic_remove_total h n x :
  class_queues_ok h n → x ∈ dqs n →
  ∃ n', dynamic_remove h (priority_class (h !!! x)) x n = Ok n'.
Proof.
  intros (H3 & H2 & H1). unfold dqs, dynamic_remove. rewrite !elem_of_app.
  intros [Hx|[Hx|Hx]].
  - rewrite (H3 x Hx). simpl.
    destruct (deque_remove_in h x _ Hx) as [q' ->]. simpl. eauto.
  - rewrite (H2 x Hx). simpl.
    destruct (deque_remove_in h x _ Hx) as [q' ->]. simpl. eauto.
  - destruct (H1 x Hx) as [N3%Z.eqb_neq N2%Z.eqb_neq]. rewrite N3, N2.
    destruct (deque_remove_in h x _ Hx) as [q' ->]. simpl. eauto.
Qed.

Lemma sla_dispatch_total continue fuel now c h n d :
  (∀ c h n d, (length (dqs n) < fuel)%nat → class_queues_ok h n →
              ∃ res, continue c h n d = Ok res) →
  (length (dqs n) < S fuel)%nat → class_queues_ok h n →
  ∃ res, sla_dispatch continue now c h n d = Ok res.
Proof.
  intros IH Hlen Hok. unfold sla_dispatch.
  destruct (_select_next_request_sla h n now) as [next|] eqn:Esel; [|eauto].
  apply select_next_in in Esel.
  destruct (dynamic_remove_total h n next Hok Esel) as [n2 Erem].
  rewrite Erem. simpl.
  apply dynamic_remove_spec in Erem as (y & _ & Hperm & _ & _ & H3 & H2 & H1).
  apply IH.
  - apply Permutation_length in Hperm. simpl in Hperm.
    change (dqs (set_current_request_start_time (Some now)
                   (set_current_request (Some next) n2))) with (dqs n2). lia.
  - apply (class_queues_ok_frozen h); [intros x; apply mark_started_fields|].
    destruct Hok as (K3 & K2 & K1). split; [|split]; intros r Hr; simpl in Hr.
    + by apply K3, H3.
    + by apply K2, H2.
    + by apply K1, H1.
Qed.

(** With fuel above the number of queued requests the SLA loop returns. *)
Lemma sla_loop_total fuel now dt : ∀ c h n d,
  (length (dqs n) < fuel)%nat → class_queues_ok h n →
  ∃ res, sla_loop fuel now dt c h n d = Ok res.
Proof.
  induction fuel as [|fuel IH]; intros c h n d Hlen Hok; [lia|]. simpl.
  destruct (Qltb 0 c); [|eauto].
  destruct (current_request n) as [cur|]; [|by apply (sla_dispatch_total _ fuel)].
  destruct (serve now dt h cur c) as [[[] c1] h1] eqn:Es; [|eauto].
  apply (sla_dispatch_total _ fuel); [done..|].
  apply (class_queues_ok_frozen h); [by eapply serve_frozen|]. exact Hok.
Qed.

(** ** One call of [process_one_step] *)

Lemma queue_length_queued_refs n : _get_total_queue_length n = len (queued_refs n).
Proof.
  unfold _get_total_queue_length, queued_refs, sla_refs, dqs, len.
  destruct (is_sla n); [destruct (current_request n)|]; repeat case_match;
    rewrite ?length_app; simpl; lia.
Qed.

Lemma update_sla_weights_static h n t n' :
  _update_sla_weights_window h n t = Ok n' → adaptive_static n' = adaptive_static n.
Proof.
  unfold _update_sla_weights_window.
  destruct (List.filter _ (_completed_history n)); [by intros [= <-]|].
  destruct (Qeq_bool _ 0); [done|]. by intros [= <-].
Qed.

Lemma sla_window_boundary_static h n t n' :
  sla_window_boundary h n t = Ok n' → adaptive_static n' = adaptive_static n.
Proof.
  unfold sla_window_boundary. destruct (Qle_bool _ _); [|by intros [= <-]].
  destruct (_update_sla_weights_window h n t) as [n1|] eqn:E; simpl; [|done].
  intros [= <-]. by apply update_sla_weights_static in E.
Qed.

Lemma sla_window_boundary_total h n t :
  0 < getattr (sla_eps n) (1 # 1000000) → ∃ n', sla_window_boundary h n t = Ok n'.
Proof.
  intros Heps. unfold sla_window_boundary. destruct (Qle_bool _ _); [|eauto].
  destruct (update_sla_weights_fresh h n t Heps) as (n' & -> & _). simpl. eauto.
Qed.

(** The queues that a step leaves and what it completed, put together. *)
Lemma Permutation_three {A} (q3 q2 q1 p3 p2 p1 d3 d2 d1 : list A) :
  q3 ++ d3 ≡ₚ p3 → q2 ++ d2 ≡ₚ p2 ++ d3 → q1 ++ d1 ≡ₚ p1 ++ d2 →
  (q3 ++ q2 ++ q1) ++ d1 ≡ₚ p3 ++ p2 ++ p1.
Proof.
  intros P3 P2 P1. rewrite <- !app_assoc, P1.
  rewrite (Permutation_app_swap_app q2 p1 d2), P2.
  rewrite (Permutation_app_swap_app q3 p1), (Permutation_app_swap_app q3 p2), P3.
  rewrite (Permutation_app_comm p1), <- app_assoc.
  apply Permutation_app_swap_app.
Qed.

Lemma Permutation_two {A} (q2 q1 p2 p1 d2 d1 : list A) :
  q2 ++ d2 ≡ₚ p2 → q1 ++ d1 ≡ₚ p1 ++ d2 →
  (q2 ++ q1) ++ d1 ≡ₚ p2 ++ p1.
Proof.
  intros P2 P1. rewrite <- !app_assoc, P1.
  rewrite (Permutation_app_swap_app q2 p1 d2), P2.
  apply Permutation_app_comm.
Qed.

Lemma drain_perm now dt q c h d q' c' h' d' :
  drain now dt q c h d = (q', c', h', d') → q' ++ d' ≡ₚ q ++ d.
Proof.
  intros Hd. apply (drain_run now dt q) in Hd as (_ & k & -> & -> & _); [|done].
  rewrite (Permutation_app_comm d), app_assoc, (Permutation_app_comm (drop k q)).
  by rewrite take_drop.
Qed.

(** Whenever [process_one_step] returns, what it did is a service run on
    the requests the node held, with the budget [cpu_capacity * time_step];
    each of them is afterwards either still held or in the completed list. *)
Lemma process_one_step_cap_run h n now dt c' h' n' completed :
  (is_sla n = true → NoDup ((λ r, request_id (h !!! r)) <$> sla_refs n)) →
  process_one_step_cap h n now dt = Ok (c', h', n', completed) →
  service now dt (queued_refs n) (cpu_capacity n * dt, h, []) (c', h', completed)
  ∧ queued_refs n' ++ completed ≡ₚ queued_refs n
  ∧ scheduler n' = scheduler n
  ∧ (is_sla n = true →
     (∀ r, r ∈ dynamic_queue_3 n' → r ∈ dynamic_queue_3 n)
     ∧ (∀ r, r ∈ dynamic_queue_2 n' → r ∈ dynamic_queue_2 n)
     ∧ (∀ r, r ∈ dynamic_queue_1 n' → r ∈ dynamic_queue_1 n)
     ∧ (∀ r, r ∈ dqs n' → h' !!! r = h !!! r)).
Proof.
  intros Hids. unfold process_one_step_cap, queued_refs.
  destruct (is_sla n) eqn:Esla.
  - destruct (sla_loop _ now dt _ h n []) as [[[[c1 h1] n1] d1]|] eqn:Eloop; simpl; [|done].
    destruct (sla_window_boundary h1 n1 now) as [n2|] eqn:Ew; simpl; [|done].
    intros [= <- <- <- <-].
    apply (sla_loop_run now dt (sla_refs n) (λ r, request_id (h !!! r))) in Eloop
      as (Hrun & Hperm & Hst & H3 & H2 & H1 & Hq); [|by repeat split; auto].
    apply sla_window_boundary_static in Ew.
    assert (Hq3 : dynamic_queue_3 n2 = dynamic_queue_3 n1)
      by apply (f_equal dynamic_queue_3 Ew).
    assert (Hq2 : dynamic_queue_2 n2 = dynamic_queue_2 n1)
      by apply (f_equal dynamic_queue_2 Ew).
    assert (Hq1 : dynamic_queue_1 n2 = dynamic_queue_1 n1)
      by apply (f_equal dynamic_queue_1 Ew).
    assert (Hcr : current_request n2 = current_request n1)
      by apply (f_equal current_request Ew).
    assert (Hs2 : scheduler n2 = scheduler n1) by apply (f_equal scheduler Ew).
    assert (Hs1 : scheduler n1 = scheduler n) by apply (f_equal scheduler Hst).
    assert (Esla2 : is_sla n2 = true) by (unfold is_sla in *; by rewrite Hs2, Hs1).
    rewrite Esla2. unfold sla_refs, dqs in *. rewrite Hq3, Hq2, Hq1, Hcr.
    rewrite app_nil_r in Hperm.
    split; [done|]. split; [done|]. split; [congruence|]. done.
  - assert (Hsla : ∀ m, scheduler m = scheduler n → is_sla m = false).
    { intros m Hm. unfold is_sla in *. by rewrite Hm. }
    destruct (String.eqb (scheduler n) "STATIC_PRIORITY") eqn:Esp;
      [|destruct (String.eqb (scheduler n) "EMERGENCY_FIRST") eqn:Eef].
    + destruct (drain now dt (priority_queue_3 n) _ h []) as [[[q3 c3] h3] d3] eqn:E3.
      destruct (drain now dt (priority_queue_2 n) c3 h3 d3) as [[[q2 c2] h2] d2] eqn:E2.
      destruct (drain now dt (priority_queue_1 n) c2 h2 d2) as [[[q1 c1] h1] d1] eqn:E1.
      intros [= <- <- <- <-]. simpl. rewrite Hsla, Esp by done.
      set (L := priority_queue_3 n ++ priority_queue_2 n ++ priority_queue_1 n).
      assert (HL3 : ∀ r, r ∈ priority_queue_3 n → r ∈ L).
      { intros r Hr. unfold L. rewrite !elem_of_app. auto. }
      assert (HL2 : ∀ r, r ∈ priority_queue_2 n → r ∈ L).
      { intros r Hr. unfold L. rewrite !elem_of_app. auto. }
      assert (HL1 : ∀ r, r ∈ priority_queue_1 n → r ∈ L).
      { intros r Hr. unfold L. rewrite !elem_of_app. auto. }
      assert (P3 := drain_perm _ _ _ _ _ _ _ _ _ _ E3).
      assert (P2 := drain_perm _ _ _ _ _ _ _ _ _ _ E2).
      assert (P1 := drain_perm _ _ _ _ _ _ _ _ _ _ E1).
      apply (drain_run now dt L) in E3 as [R3 _]; [|done].
      apply (drain_run now dt L) in E2 as [R2 _]; [|done].
      apply (drain_run now dt L) in E1 as [R1 _]; [|done].
      split; [eapply rtc_trans; [exact R3|]; by eapply rtc_trans|].
      split; [|done]. rewrite app_nil_r in P3.
      by apply (Permutation_three _ _ _ _ _ _ d3 d2).
    + destruct (drain now dt (emergency_queue n) _ h []) as [[[qe ce] he] de] eqn:Ee.
      destruct (drain now dt (normal_queue n) ce he de) as [[[qn cn] hn] dn] eqn:En.
      intros [= <- <- <- <-]. simpl. rewrite Hsla, Esp, Eef by done.
      set (L := emergency_queue n ++ normal_queue n).
      assert (HLe : ∀ r, r ∈ emergency_queue n → r ∈ L).
      { intros r Hr. unfold L. rewrite !elem_of_app. auto. }
      assert (HLn : ∀ r, r ∈ normal_queue n → r ∈ L).
      { intros r Hr. unfold L. rewrite !elem_of_app. auto. }
      assert (Pe := drain_perm _ _ _ _ _ _ _ _ _ _ Ee).
      assert (Pn := drain_perm _ _ _ _ _ _ _ _ _ _ En).
      apply (drain_run now dt L) in Ee as [Re _]; [|done].
      apply (drain_run now dt L) in En as [Rn _]; [|done].
      split; [by eapply rtc_trans|]. split; [|done]. rewrite app_nil_r in Pe.
      by apply (Permutation_two _ _ _ _ de).
    + destruct (drain now dt (queue n) _ h []) as [[[q c] h1] d] eqn:E.
      intros [= <- <- <- <-]. simpl. rewrite Hsla, Esp, Eef by done.
      assert (P := drain_perm _ _ _ _ _ _ _ _ _ _ E).
      apply (drain_run now dt (queue n)) in E as [R _]; [|done].
      split; [done|]. split; [|done]. by rewrite app_nil_r in P.
Qed.

Lemma node_wf_NoDup h n : node_wf h n → NoDup (queued_refs n).
Proof. intros [Hids _ _]. by apply NoDup_fmap_1 in Hids. Qed.

Lemma sla_loop_static fuel now dt : ∀ c h n d c' h' n' d',
  sla_loop fuel now dt c h n d = Ok (c', h', n', d') → sla_static n' = sla_static n.
Proof.
  assert (Hd : ∀ continue c h n d c' h' n' d',
    (∀ c h n d c' h' n' d', continue c h n d = Ok (c', h', n', d') →
                            sla_static n' = sla_static n) →
    sla_dispatch continue now c h n d = Ok (c', h', n', d') →
    sla_static n' = sla_static n).
  { intros continue c h n d c' h' n' d' IH. unfold sla_dispatch.
    destruct (_select_next_request_sla h n now) as [next|]; [|by intros [= _ _ <- _]].
    destruct (dynamic_remove h _ next n) as [n2|] eqn:Erem; simpl; [|done].
    intros H%IH. rewrite H.
    apply dynamic_remove_spec in Erem as (_ & _ & _ & Hst & _). exact Hst. }
  induction fuel as [|fuel IH]; intros c h n d c' h' n' d'; [done|]. simpl.
  destruct (Qltb 0 c); [|by intros [= _ _ <- _]].
  destruct (current_request n) as [cur|]; [|by apply Hd].
  destruct (serve now dt h cur c) as [[[] c1] h1]; [|by intros [= _ _ <- _]].
  intros H%Hd; [|done]. by rewrite H.
Qed.

(** [process_one_step] returns on a node that agrees with the store. *)
Lemma process_one_step_cap_total h n now dt :
  node_wf h n →
  (is_sla n = true → 0 < getattr (sla_eps n) (1 # 1000000)) →
  ∃ res, process_one_step_cap h n now dt = Ok res.
Proof.
  intros [_ _ Hcls] Heps. unfold process_one_step_cap.
  destruct (is_sla n) eqn:Esla; [|repeat case_match; eauto].
  destruct (sla_loop_total (S (length (dqs n))) now dt (cpu_capacity n * dt) h n [])
    as [[[[c1 h1] n1] d1] Eloop]; [lia|by apply Hcls|].
  fold (dqs n). rewrite Eloop. simpl.
  apply sla_loop_static in Eloop.
  destruct (sla_window_boundary_total h1 n1 now) as [n2 ->]; [|simpl; eauto].
  rewrite (f_equal sla_eps Eloop : sla_eps n1 = sla_eps n). by apply Heps.
Qed.

Lemma sum_remaining_perm h l l' :
  l ≡ₚ l' → sum_remaining h l == sum_remaining h l'.
Proof.
  induction 1 as [|x l l' _ IH|x y l|l1 l2 l3 _ IH1 _ IH2]; simpl; lra.
Qed.

Lemma sum_remaining_ext h h' l :
  (∀ r, r ∈ l → remaining_demand (h' !!! r) = remaining_demand (h !!! r)) →
  sum_remaining h' l == sum_remaining h l.
Proof.
  induction l as [|x l IH]; intros H; simpl; [lra|].
  rewrite H by left. rewrite IH; [lra|]. intros r Hr. apply H. by right.
Qed.

Lemma sum_remaining_zero h l :
  (∀ r, r ∈ l → remaining_demand (h !!! r) = 0) → sum_remaining h l == 0.
Proof.
  induction l as [|x l IH]; intros H; simpl; [lra|].
  rewrite H by left. rewrite IH; [lra|]. intros r Hr. apply H. by right.
Qed.

Lemma sum_remaining_one h h' l p :
  NoDup l → p ∈ l →
  (∀ r, r ∈ l → r ≠ p → remaining_demand (h' !!! r) = remaining_demand (h !!! r)) →
  sum_remaining h' l
    == sum_remaining h l - (remaining_demand (h !!! p) - remaining_demand (h' !!! p)).
Proof.
  induction l as [|x l IH]; [by intros _ ?%elem_of_nil|].
  intros [Hx Hnd]%NoDup_cons Hp H. simpl.
  apply elem_of_cons in Hp as [->|Hp].
  - rewrite (sum_remaining_ext h h' l); [lra|].
    intros r Hr. apply H; [by right|]. by intros ->.
  - rewrite (H x) by (by left || by intros ->).
    rewrite IH; [lra|done..|]. intros r Hr. apply H. by right.
Qed.

Lemma is_sla_scheduler n n' : scheduler n' = scheduler n → is_sla n' = is_sla n.
Proof. intros H. unfold is_sla. by rewrite H. Qed.

Lemma process_one_step_cap_facts h n now dt left h' n' completed :
  node_wf h n →
  process_one_step_cap h n now dt = Ok (left, h', n', completed) →
  step_facts h n now dt left h' n' completed.
Proof.
  intros Hwf Hstep. assert (Hnd := node_wf_NoDup h n Hwf).
  destruct Hwf as [Hids Hlive Hcls].
  apply process_one_step_cap_run in Hstep as (Hrun & Hperm & Hsch & Hsub).
  2:{ intros Esla. unfold queued_refs in Hids. by rewrite Esla in Hids. }
  assert (Hnd' : NoDup (queued_refs n' ++ completed)) by (by rewrite Hperm).
  assert (Hinv : service_inv now dt (queued_refs n) (cpu_capacity n * dt) h left h' completed).
  { apply service_inv_holds; [done|]. by apply NoDup_app in Hnd' as (_ & _ & ?). }
  split; [done..|].
  assert (Hin : ∀ r, r ∈ queued_refs n' → r ∈ queued_refs n ∧ r ∉ completed).
  { intros r Hr. split.
    - rewrite <- Hperm, elem_of_app. by left.
    - apply NoDup_app in Hnd' as (_ & Hdis & _). by apply Hdis. }
  split.
  - assert (Hf : ∀ r, request_id (h' !!! r) = request_id (h !!! r)).
    { intros r. apply frozen_request_id, (inv_static _ _ _ _ _ _ _ _ Hinv). }
    rewrite (list_fmap_ext _ (λ r, request_id (h !!! r)) (queued_refs n'))
      by (intros; apply Hf).
    rewrite <- Hperm, fmap_app in Hids. by apply NoDup_app in Hids as (? & _).
  - intros r [Hr Hrd]%Hin. destruct (Hlive r Hr) as [Hc Hrem].
    destruct (inv_phase _ _ _ _ _ _ _ _ Hinv)
      as [[_ Hun]|(_ & p & _ & _ & Hl0 & Hl1 & Hp & Hpc & Hun)].
    + destruct (Hun r Hrd) as [-> ->]. done.
    + destruct (decide (r = p)) as [->|Hne].
      * rewrite Hpc. split; [done|]. lra.
      * destruct (Hun r Hrd Hne) as [-> ->]. done.
  - intros Esla. rewrite (is_sla_scheduler _ _ Hsch) in Esla.
    destruct (Hsub Esla) as (H3 & H2 & H1 & _). destruct (Hcls Esla) as (K3 & K2 & K1).
    apply (class_queues_ok_frozen h); [apply (inv_static _ _ _ _ _ _ _ _ Hinv)|].
    split; [|split]; intros r Hr; auto.
Qed.

(** ** The work of a step *)

Lemma step_work_done h n now dt left h' n' completed :
  step_facts h n now dt left h' n' completed →
  0 <= cpu_capacity n * dt →
  0 <= left ∧ work_done h h' (queued_refs n) == cpu_capacity n * dt - left.
Proof.
  intros [Hperm Hnd Hinv _ _] HB.
  split; [destruct (inv_budget _ _ _ _ _ _ _ _ Hinv) as [?| ->]; lra|].
  unfold work_done.
  rewrite <- (sum_remaining_perm h _ _ Hperm), <- (sum_remaining_perm h' _ _ Hperm).
  rewrite !sum_remaining_app.
  rewrite (sum_remaining_zero h' completed)
    by (intros r Hr; apply (inv_done _ _ _ _ _ _ _ _ Hinv r Hr)).
  apply NoDup_app in Hnd as (Hnd' & Hdis & _).
  destruct (inv_phase _ _ _ _ _ _ _ _ Hinv)
    as [[Hc Hun]|(-> & p & HpL & Hpd & Hl0 & Hl1 & Hp & _ & Hun)].
  - rewrite (sum_remaining_ext h h' (queued_refs n')); [lra|].
    intros r Hr. by apply Hun, Hdis.
  - assert (Hp' : p ∈ queued_refs n').
    { rewrite <- Hperm, elem_of_app in HpL. by destruct HpL. }
    rewrite (sum_remaining_one h h' (queued_refs n') p Hnd' Hp'); [lra|].
    intros r Hr Hne. by apply Hun; [apply Hdis|].
Qed.

Lemma node_wfb_sound h n : node_wfb h n = true → node_wf h n.
Proof.
  unfold node_wfb. intros [[Hids Hlive]%andb_prop Hcls]%andb_prop.
  split.
  - by apply bool_decide_eq_true_1 in Hids.
  - intros r Hr. rewrite forallb_forall in Hlive.
    apply list_elem_of_In, Hlive, andb_prop in Hr as [Hc Hrem].
    split; [by apply bool_decide_eq_true_1 in Hc|by apply Qltb_lt].
  - intros Esla. rewrite Esla in Hcls. simpl in Hcls.
    apply andb_prop in Hcls as [[H3 H2]%andb_prop H1].
    rewrite forallb_forall in H3, H2, H1.
    split; [|split]; intros r Hr%list_elem_of_In.
    + by apply Z.eqb_eq, H3.
    + by apply Z.eqb_eq, H2.
    + apply H1, andb_prop in Hr as [N3%negb_true_iff N2%negb_true_iff].
      split; by apply Z.eqb_neq.
Qed.

(** ** Strict priority ordering (C8) *)

Lemma service_frame now dt L σ σ' :
  service now dt L σ σ' → ∀ r, r ∉ L → σ'.1.2 !!! r = σ.1.2 !!! r.
Proof.
  induction 1 as [σ|σ1 σ2 σ3 Hstep _ IH]; [done|].
  intros r Hr. rewrite (IH r Hr).
  inversion Hstep; subst; simpl.
  - rewrite mark_started_lookup. destruct (decide (r = r0)) as [->|]; done.
  - rewrite lookup_total_insert_ne; [done|]. by intros ->.
  - rewrite lookup_total_insert_ne; [done|]. by intros ->.
Qed.

Lemma drain_frame now dt q c h d q' c' h' d' :
  drain now dt q c h d = (q', c', h', d') → ∀ r, r ∉ q → h' !!! r = h !!! r.
Proof.
  intros Hd%(drain_run now dt q); [|done]. destruct Hd as [Hrun _].
  apply (service_frame _ _ _ _ _ Hrun).
Qed.

(** Where [enqueue_request] puts an admitted request under the two
    priority policies. *)
Lemma enqueue_priority_placement h n request dt h' n' reason :
  enqueue_request h n request dt = Ok (h', n', (true, reason)) →
  (scheduler n = "STATIC_PRIORITY" →
   priority_queue_3 n' =
     (if Z.eqb (priority_class (h !!! request)) 3
      then priority_queue_3 n ++ [request] else priority_queue_3 n)
   ∧ priority_queue_2 n' =
     (if Z.eqb (priority_class (h !!! request)) 3 then priority_queue_2 n
      else if Z.eqb (priority_class (h !!! request)) 2
      then priority_queue_2 n ++ [request] else priority_queue_2 n)
   ∧ priority_queue_1 n' =
     (if Z.eqb (priority_class (h !!! request)) 3 then priority_queue_1 n
      else if Z.eqb (priority_class (h !!! request)) 2 then priority_queue_1 n
      else priority_queue_1 n ++ [request]))
  ∧ (scheduler n = "EMERGENCY_FIRST" →
     emergency_queue n' =
       (if is_emergency (h !!! request)
        then emergency_queue n ++ [request] else emergency_queue n)
     ∧ normal_queue n' =
       (if is_emergency (h !!! request)
        then normal_queue n else normal_queue n ++ [request])).
Proof.
  unfold enqueue_request.
  destruct (if max_queue_length n is Some m then Z.leb m (_get_total_queue_length n) else false);
    [intros [=]|].
  intros Henq. split; intros Hs; unfold is_sla in Henq; rewrite Hs in Henq; simpl in Henq.
  - destruct (Z.eqb (priority_class (h !!! request)) 3);
      [|destruct (Z.eqb (priority_class (h !!! request)) 2)];
      simpl in Henq; destruct (link_capacity n); injection Henq as <- <- <-;
      by repeat split.
  - destruct (is_emergency (h !!! request));
      simpl in Henq; destruct (link_capacity n); injection Henq as <- <- <-;
      by repeat split.
Qed.

(** C8.  In a step of a STATIC_PRIORITY node, what is completed is a prefix
    of the class-3 queue, then a prefix of the class-2 queue, then a prefix
    of the class-1 queue, and each queue keeps the rest in order; while a
    request is left in the class-3 queue, the other two queues and every
    request outside the class-3 queue are exactly as before the step (no
    start time, no capacity), and likewise for class 1 while a request is left
    in the class-2 queue.  In a step of an EMERGENCY_FIRST node the same holds
    of the emergency queue and the normal queue.  [enqueue_request] puts
    class-3 requests, and only them, in the class-3 queue, and emergency
    requests, and only them, in the emergency queue. *)
Theorem C8_strict_priority_ordering :
  (∀ h n now dt h' n' completed,
     process_one_step h n now dt = Ok (h', n', completed) →
     (scheduler n = "STATIC_PRIORITY" →
      ∃ k3 k2 k1,
        completed = take k3 (priority_queue_3 n) ++ take k2 (priority_queue_2 n)
                    ++ take k1 (priority_queue_1 n)
        ∧ priority_queue_3 n' = drop k3 (priority_queue_3 n)
        ∧ priority_queue_2 n' = drop k2 (priority_queue_2 n)
        ∧ priority_queue_1 n' = drop k1 (priority_queue_1 n)
        ∧ (priority_queue_3 n' ≠ [] →
           priority_queue_2 n' = priority_queue_2 n
           ∧ priority_queue_1 n' = priority_queue_1 n
           ∧ completed = take k3 (priority_queue_3 n)
           ∧ ∀ r, r ∉ priority_queue_3 n → h' !!! r = h !!! r)
        ∧ (priority_queue_2 n' ≠ [] →
           priority_queue_1 n' = priority_queue_1 n
           ∧ ∀ r, r ∉ priority_queue_3 n → r ∉ priority_queue_2 n → h' !!! r = h !!! r))
     ∧ (scheduler n = "EMERGENCY_FIRST" →
        ∃ ke kn,
          completed = take ke (emergency_queue n) ++ take kn (normal_queue n)
          ∧ emergency_queue n' = drop ke (emergency_queue n)
          ∧ normal_queue n' = drop kn (normal_queue n)
          ∧ (emergency_queue n' ≠ [] →
             normal_queue n' = normal_queue n
             ∧ completed = take ke (emergency_queue n)
             ∧ ∀ r, r ∉ emergency_queue n → h' !!! r = h !!! r)))
  ∧ (∀ h n request dt h' n' reason,
       enqueue_request h n request dt = Ok (h', n', (true, reason)) →
       (scheduler n = "STATIC_PRIORITY" →
        priority_queue_3 n' =
          (if Z.eqb (priority_class (h !!! request)) 3
           then priority_queue_3 n ++ [request] else priority_queue_3 n))
       ∧ (scheduler n = "EMERGENCY_FIRST" →
          emergency_queue n' =
            (if is_emergency (h !!! request)
             then emergency_queue n ++ [request] else emergency_queue n))).
Proof.
  split.
  2:{ intros h n request dt h' n' reason Henq.
      apply enqueue_priority_placement in Henq as [Hsp Hef].
      split; intros Hs; [by apply Hsp|by apply Hef]. }
  intros h n now dt h' n' completed. unfold process_one_step, process_one_step_cap.
  split; intros Hs; unfold is_sla in H; rewrite Hs in H; simpl in H.
  - destruct (drain now dt (priority_queue_3 n) _ h []) as [[[q3 c3] h3] d3] eqn:E3.
    destruct (drain now dt (priority_queue_2 n) c3 h3 d3) as [[[q2 c2] h2] d2] eqn:E2.
    destruct (drain now dt (priority_queue_1 n) c2 h2 d2) as [[[q1 c1] h1] d1] eqn:E1.
    simpl in H. injection H as <- <- <-.
    assert (F3 := drain_frame _ _ _ _ _ _ _ _ _ _ E3).
    assert (F2 := drain_frame _ _ _ _ _ _ _ _ _ _ E2).
    destruct (drain_run now dt _ _ _ _ _ _ _ _ _ (λ r H, H) E3) as (_ & k3 & Hq3 & Hd3 & B3).
    destruct (drain_run now dt _ _ _ _ _ _ _ _ _ (λ r H, H) E2) as (_ & k2 & Hq2 & Hd2 & B2).
    destruct (drain_run now dt _ _ _ _ _ _ _ _ _ (λ r H, H) E1) as (_ & k1 & Hq1 & Hd1 & B1).
    exists k3, k2, k1. simpl.
    split; [by rewrite Hd1, Hd2, Hd3, <- app_assoc|]. do 3 (split; [done|]). split.
    + intros Hne%B3.
      rewrite (drain_no_budget _ _ _ _ _ _ Hne) in E2. injection E2 as <- <- <- <-.
      rewrite (drain_no_budget _ _ _ _ _ _ Hne) in E1. injection E1 as <- <- <- <-.
      by rewrite Hd3.
    + intros Hne%B2.
      rewrite (drain_no_budget _ _ _ _ _ _ Hne) in E1. injection E1 as <- <- <- <-.
      split; [done|]. intros r Hr3 Hr2. by rewrite F2, F3.
  - destruct (drain now dt (emergency_queue n) _ h []) as [[[qe ce] he] de] eqn:Ee.
    destruct (drain now dt (normal_queue n) ce he de) as [[[qn cn] hn] dn] eqn:En.
    simpl in H. injection H as <- <- <-.
    assert (Fe := drain_frame _ _ _ _ _ _ _ _ _ _ Ee).
    destruct (drain_run now dt _ _ _ _ _ _ _ _ _ (λ r H, H) Ee) as (_ & ke & Hqe & Hde & Be).
    destruct (drain_run now dt _ _ _ _ _ _ _ _ _ (λ r H, H) En) as (_ & kn & Hqn & Hdn & Bn).
    exists ke, kn. simpl.
    split; [by rewrite Hdn, Hde|]. do 2 (split; [done|]).
    intros Hne%Be.
    rewrite (drain_no_budget _ _ _ _ _ _ Hne) in En. injection En as <- <- <- <-.
    by rewrite Hde.
Qed.

Lemma C8_witness :
  match process_one_step c1_store
          (set_priority_queue_1 [0%nat]
             (set_priority_queue_3 [1%nat]
                (FogNode_init 0 (0, 0) 1 None None "STATIC_PRIORITY"))) 0 1 with
  | Ok (h', n', completed) =>
      priority_queue_1 n' = [0%nat] ∧ h' !!! 0%nat = c1_store !!! 0%nat
  | Raise _ => False
  end.
Proof.
  destruct (process_one_step c1_store _ 0 1) as [[[h' n'] completed]|] eqn:E;
    [|by vm_compute in E].
  destruct (proj1 (proj1 C8_strict_priority_ordering _ _ _ _ _ _ _ E) eq_refl)
    as (k3 & k2 & k1 & _ & _ & _ & _ & H3 & _).
  vm_compute in E. injection E as <- <- <-.
  destruct H3 as (_ & Hq1 & _ & Hfr); [done|].
  split; [exact Hq1|]. apply Hfr. simpl. by intros [=]%list_elem_of_singleton.
Defined.

(** ** Queues drained one after the other, and the start time *)

(** Two queues drained one after the other are drained as one. *)
Lemma drain_app now dt q1 q2 : ∀ c h d,
  drain now dt (q1 ++ q2) c h d =
    let '(q1', c1, h1, d1) := drain now dt q1 c h d in
    let '(q2', c2, h2, d2) := drain now dt q2 c1 h1 d1 in
    (q1' ++ q2', c2, h2, d2).
Proof.
  induction q1 as [|r q1 IH]; intros c h d.
  - simpl. by destruct (drain now dt q2 c h d) as [[[q2' c2] h2] d2].
  - simpl. destruct (Qltb 0 c) eqn:Ec.
    + destruct (serve now dt (mark_started now h r) r c) as [[[] c1] h1] eqn:Es.
      * apply IH.
      * rewrite drain_no_budget; [done|].
        apply serve_partial_budget in Es. rewrite Es. lra.
    + rewrite drain_no_budget; [done|]. by apply Qltb_ge.
Qed.

(** Under the three policies without an in-service slot, a step drains the
    requests of the node as one queue. *)
Lemma process_one_step_cap_drain h n now dt :
  is_sla n = false →
  ∃ n', process_one_step_cap h n now dt =
          (let '(q', c', h', d') :=
             drain now dt (queued_refs n) (cpu_capacity n * dt) h [] in
           Ok (c', h', n', d')).
Proof.
  intros Esla. unfold process_one_step_cap, queued_refs. rewrite Esla.
  destruct (String.eqb (scheduler n) "STATIC_PRIORITY");
    [|destruct (String.eqb (scheduler n) "EMERGENCY_FIRST")].
  - rewrite drain_app.
    destruct (drain now dt (priority_queue_3 n) _ h []) as [[[q3 c3] h3] d3].
    rewrite drain_app.
    destruct (drain now dt (priority_queue_2 n) c3 h3 d3) as [[[q2 c2] h2] d2].
    destruct (drain now dt (priority_queue_1 n) c2 h2 d2) as [[[q1 c1] h1] d1].
    eauto.
  - rewrite drain_app.
    destruct (drain now dt (emergency_queue n) _ h []) as [[[qe ce] he] de].
    destruct (drain now dt (normal_queue n) ce he de) as [[[qn cn] hn] dn].
    eauto.
  - destruct (drain now dt (queue n) _ h []) as [[[q c] h1] d]. eauto.
Qed.

(** In that loop a request gets its start time in the step in which it
    first gets capacity: a request without a start time is either left as it
    was, or started now and served. *)
Lemma drain_start now dt q : ∀ c h d q' c' h' d',
  NoDup q →
  (∀ r, r ∈ q → 0 < remaining_demand (h !!! r)) →
  drain now dt q c h d = (q', c', h', d') →
  ∀ x, start_time (h !!! x) = None →
       h' !!! x = h !!! x
       ∨ (start_time (h' !!! x) = Some now
          ∧ remaining_demand (h' !!! x) < remaining_demand (h !!! x)).
Proof.
  induction q as [|r q IH]; intros c h d q' c' h' d' Hnd Hpos; simpl.
  { intros [= _ _ <- _]. auto. }
  apply NoDup_cons in Hnd as [Hr Hnd].
  destruct (Qltb 0 c) eqn:Ec; [apply Qltb_lt in Ec|intros [= _ _ <- _]; auto].
  assert (Hpr : 0 < remaining_demand (h !!! r)) by (apply Hpos; left).
  assert (Hm := mark_started_lookup now h r).
  destruct (serve now dt (mark_started now h r) r c) as [[b c1] h1] eqn:Es.
  assert (Hh1 : ∀ x, x ≠ r → h1 !!! x = h !!! x).
  { intros x Hx. revert Es. unfold serve. destruct (Qle_bool _ c); intros [= _ _ <-];
      rewrite lookup_total_insert_ne by done; rewrite Hm; by destruct (decide (x = r)). }
  assert (Hr1 : start_time (h !!! r) = None →
                start_time (h1 !!! r) = Some now
                ∧ remaining_demand (h1 !!! r) < remaining_demand (h !!! r)
                ∧ (b = true → remaining_demand (h1 !!! r) = 0)).
  { intros Hs. revert Es. unfold serve. rewrite (Hm r). destruct (decide (r = r)); [|done].
    rewrite Hs. simpl. destruct (Qle_bool _ c); intros [= <- _ <-];
      rewrite lookup_total_insert_eq; simpl; repeat split; (done || lra). }
  destruct b.
  - intros Hd x Hx.
    assert (Hfr := drain_frame _ _ _ _ _ _ _ _ _ _ Hd).
    destruct (decide (x = r)) as [->|Hne].
    + right. rewrite (Hfr r Hr). destruct (Hr1 Hx) as (? & ? & _). done.
    + rewrite <- (Hh1 x Hne). eapply IH; [done| |exact Hd|by rewrite Hh1].
      intros y Hy. rewrite Hh1; [apply Hpos; by right|]. by intros ->.
  - intros [= _ _ <- _] x Hx. destruct (decide (x = r)) as [->|Hne].
    + right. destruct (Hr1 Hx) as (? & ? & _). done.
    + left. by apply Hh1.
Qed.

(** *** What [enqueue_request] does to the node and to the store *)

Lemma dynamic_append_spec cls r n :
  scheduler (dynamic_append cls r n) = scheduler n
  ∧ current_request (dynamic_append cls r n) = current_request n
  ∧ dqs (dynamic_append cls r n) ≡ₚ r :: dqs n
  ∧ (∀ h, priority_class (h !!! r) = cls →
          class_queues_ok h n → class_queues_ok h (dynamic_append cls r n)).
Proof.
  unfold dynamic_append, dqs, class_queues_ok.
  destruct (Z.eqb cls 3) eqn:E3; [|destruct (Z.eqb cls 2) eqn:E2]; simpl;
    (split; [done|]); (split; [done|]); split.
  - etrans; [apply (Permutation_extract [] _ (dynamic_queue_3 n) [] r)|].
    simpl. by rewrite app_nil_r.
  - intros h Hc (K3 & K2 & K1). apply Z.eqb_eq in E3.
    split; [|done]. intros x [Hx| ->%list_elem_of_singleton]%elem_of_app; [auto|congruence].
  - etrans; [apply (Permutation_extract _ _ (dynamic_queue_2 n) [] r)|].
    by rewrite app_nil_r.
  - intros h Hc (K3 & K2 & K1). apply Z.eqb_eq in E2.
    split; [done|]. split; [|done].
    intros x [Hx| ->%list_elem_of_singleton]%elem_of_app; [auto|congruence].
  - rewrite !app_assoc. by rewrite <- Permutation_cons_append.
  - intros h Hc (K3 & K2 & K1). apply Z.eqb_neq in E3, E2.
    split; [done|]. split; [done|].
    intros x [Hx| ->%list_elem_of_singleton]%elem_of_app; [auto|]. by rewrite Hc.
Qed.

Lemma dynamic_appendleft_spec cls r n :
  scheduler (dynamic_appendleft cls r n) = scheduler n
  ∧ current_request (dynamic_appendleft cls r n) = current_request n
  ∧ dqs (dynamic_appendleft cls r n) ≡ₚ r :: dqs n
  ∧ (∀ h, priority_class (h !!! r) = cls →
          class_queues_ok h n → class_queues_ok h (dynamic_appendleft cls r n)).
Proof.
  unfold dynamic_appendleft, dqs, class_queues_ok.
  destruct (Z.eqb cls 3) eqn:E3; [|destruct (Z.eqb cls 2) eqn:E2]; simpl;
    (split; [done|]); (split; [done|]); split.
  - done.
  - intros h Hc (K3 & K2 & K1). apply Z.eqb_eq in E3.
    split; [|done]. intros x [->|Hx]%elem_of_cons; [congruence|auto].
  - symmetry. apply Permutation_middle.
  - intros h Hc (K3 & K2 & K1). apply Z.eqb_eq in E2.
    split; [done|]. split; [|done]. intros x [->|Hx]%elem_of_cons; [congruence|auto].
  - rewrite app_assoc, <- Permutation_middle. by rewrite <- app_assoc.
  - intros h Hc (K3 & K2 & K1). apply Z.eqb_neq in E3, E2.
    split; [done|]. split; [done|]. intros x [->|Hx]%elem_of_cons; [by rewrite Hc|auto].
Qed.

(** The request appended last is the one that [pop] takes away. *)
Lemma dynamic_pop_appendleft_append cls cls' cur r n :
  dynamic_pop cls (dynamic_appendleft cls' cur (dynamic_append cls r n))
  = Ok (dynamic_appendleft cls' cur n).
Proof.
  unfold dynamic_pop, dynamic_appendleft, dynamic_append.
  destruct (Z.eqb cls 3), (Z.eqb cls 2), (Z.eqb cls' 3), (Z.eqb cls' 2);
    cbn [dynamic_queue_3 dynamic_queue_2 dynamic_queue_1
         set_dynamic_queue_3 set_dynamic_queue_2 set_dynamic_queue_1];
    rewrite ?deque_pop_app, ?deque_pop_cons_app; reflexivity.
Qed.

Lemma Permutation_snoc_1 {A} (a b c : list A) (r : A) :
  (a ++ [r]) ++ b ++ c ≡ₚ r :: a ++ b ++ c.
Proof. rewrite <- app_assoc. simpl. symmetry. apply Permutation_middle. Qed.

Lemma Permutation_snoc_2 {A} (a b c : list A) (r : A) :
  a ++ (b ++ [r]) ++ c ≡ₚ r :: a ++ b ++ c.
Proof.
  rewrite <- app_assoc. simpl. rewrite !app_assoc. symmetry. apply Permutation_middle.
Qed.

Lemma Permutation_snoc_3 {A} (a b c : list A) (r : A) :
  a ++ b ++ c ++ [r] ≡ₚ r :: a ++ b ++ c.
Proof. rewrite !app_assoc. symmetry. apply Permutation_cons_append. Qed.

Lemma queued_refs_sla n : is_sla n = true → queued_refs n = sla_refs n.
Proof. intros H. unfold queued_refs. by rewrite H. Qed.

Lemma enqueue_request_effects h n request dt h' n' ok reason :
  enqueue_request h n request dt = Ok (h', n', (ok, reason)) →
  scheduler n' = scheduler n
  ∧ (if ok then queued_refs n' ≡ₚ request :: queued_refs n
     else queued_refs n' = queued_refs n)
  ∧ (h' = h
     ∨ (h' = mark_started (arrival_time (h !!! request)) h request
        ∧ is_sla n = true ∧ current_request n' = Some request))
  ∧ (is_sla n = true → class_queues_ok h n → class_queues_ok h' n').
Proof.
  unfold enqueue_request.
  destruct (if max_queue_length n is Some m then Z.leb m (_get_total_queue_length n) else false).
  { intros [= <- <- <- <-]. auto. }
  destruct (is_sla n) eqn:Esla.
  - destruct (_admission_control_check_timebased h n request) as [[]|]; simpl; [| |done].
    2:{ intros [= <- <- <- <-]. split; [done|]. split; [done|]. split; [by left|].
        intros _ Hok. exact Hok. }
    destruct (dynamic_append_spec (priority_class (h !!! request)) request n)
      as (Hs & Hc & Hp & Hk).
    set (nA := dynamic_append (priority_class (h !!! request)) request n) in *.
    assert (HslaA : is_sla nA = true) by (by rewrite (is_sla_scheduler _ _ Hs)).
    rewrite Hc. destruct (current_request n) as [cur|] eqn:Ecur.
    + destruct (Qltb _ _).
      * subst nA. rewrite dynamic_pop_appendleft_append. simpl. intros [= <- <- <- <-].
        destruct (dynamic_appendleft_spec (priority_class (h !!! cur)) cur n)
          as (Hs' & Hc' & Hp' & Hk').
        set (nL := dynamic_appendleft (priority_class (h !!! cur)) cur n) in *.
        split; [done|]. split; [|split; [by right|]].
        -- rewrite (queued_refs_sla n Esla), queued_refs_sla
             by (by rewrite (is_sla_scheduler n); [|exact Hs']).
           unfold sla_refs. simpl. rewrite Ecur. simpl.
           change (dqs (set_current_request (Some request) nL)) with (dqs nL).
           rewrite Hp'. simpl. rewrite <- Permutation_cons_append.
           rewrite <- Permutation_cons_append. apply perm_swap.
        -- intros _ Hok. apply (class_queues_ok_frozen h);
             [intros x; apply mark_started_fields|].
           by apply (Hk' h).
      * intros [= <- <- <- <-]. split; [done|]. split; [|split; [by left|]].
        -- rewrite !queued_refs_sla by done. unfold sla_refs. rewrite Hc, Ecur, Hp.
           done.
        -- intros _ Hok. by apply Hk.
    + intros [= <- <- <- <-]. split; [done|]. split; [|split; [by left|]].
      * rewrite !queued_refs_sla by done. unfold sla_refs. rewrite Hc, Ecur, Hp.
        done.
      * intros _ Hok. by apply Hk.
  - assert (Hq : ∀ m, scheduler m = scheduler n → is_sla m = false).
    { intros m Hm. by rewrite (is_sla_scheduler _ _ Hm). }
    destruct (String.eqb (scheduler n) "STATIC_PRIORITY") eqn:Esp;
      [|destruct (String.eqb (scheduler n) "EMERGENCY_FIRST") eqn:Eef].
    + destruct (Z.eqb (priority_class (h !!! request)) 3);
        [|destruct (Z.eqb (priority_class (h !!! request)) 2)];
        simpl; destruct (link_capacity n); intros [= <- <- <- <-];
        (split; [done|]); (split; [|split; [by left|done]]);
        unfold queued_refs; rewrite Hq, Esla by done; simpl; rewrite Esp;
        first [apply Permutation_snoc_1|apply Permutation_snoc_2|apply Permutation_snoc_3].
    + destruct (is_emergency (h !!! request));
        simpl; destruct (link_capacity n); intros [= <- <- <- <-];
        (split; [done|]); (split; [|split; [by left|done]]);
        unfold queued_refs; rewrite Hq, Esla by done; simpl; rewrite Esp, Eef;
        first [by rewrite <- app_assoc; simpl; symmetry; apply Permutation_middle
              |by rewrite app_assoc; symmetry; apply Permutation_cons_append].
    + destruct (if max_queue_length n is Some m then Z.leb m (len (queue n)) else false);
        simpl; [intros [= <- <- <- <-]; auto|].
      destruct (link_capacity n); intros [= <- <- <- <-];
        (split; [done|]); (split; [|split; [by left|done]]);
        unfold queued_refs; rewrite Hq, Esla by done; simpl; rewrite Esp, Eef;
        symmetry; apply Permutation_cons_append.
Qed.

Lemma process_one_step_inv h n now dt h' n' completed :
  process_one_step h n now dt = Ok (h', n', completed) →
  ∃ left, process_one_step_cap h n now dt = Ok (left, h', n', completed).
Proof.
  unfold process_one_step.
  destruct (process_one_step_cap h n now dt) as [[[[left h1] n1] d1]|]; simpl; [|done].
  intros [= <- <- <-]. eauto.
Qed.

Lemma enqueue_request_wf h n request dt h' n' ok reason :
  node_wf h n → fresh_request h n request →
  enqueue_request h n request dt = Ok (h', n', (ok, reason)) →
  node_wf h' n'.
Proof.
  intros [Hids Hlive Hcls] (Hid & Hcomp & Hrem) Henq.
  apply enqueue_request_effects in Henq as (Hs & Hq & Hh & Hk).
  assert (Hf : ∀ x, remaining_demand (h' !!! x) = remaining_demand (h !!! x)
                    ∧ completion_time (h' !!! x) = completion_time (h !!! x)
                    ∧ frozen (h' !!! x) = frozen (h !!! x)).
  { intros x. destruct Hh as [->|[-> _]]; [done|apply mark_started_fields]. }
  assert (Hin : ∀ r, r ∈ queued_refs n' → r = request ∨ r ∈ queued_refs n).
  { intros r Hr. destruct ok; [|rewrite <- Hq; by right].
    rewrite Hq in Hr. by apply elem_of_cons in Hr. }
  split.
  - rewrite (list_fmap_ext _ (λ r, request_id (h !!! r)) (queued_refs n'))
      by (intros i x _; apply frozen_request_id, Hf).
    destruct ok; [|by rewrite Hq]. rewrite Hq, fmap_cons. by apply NoDup_cons.
  - intros r Hr. destruct (Hf r) as (-> & -> & _).
    destruct (Hin r Hr) as [->|Hr']; auto.
  - intros Esla. apply Hk; [by rewrite <- (is_sla_scheduler _ _ Hs)|].
    apply Hcls. by rewrite <- (is_sla_scheduler _ _ Hs).
Qed.

(** The SLA loop does not test the budget again before it dispatches: the
    step at time 1 finishes the emergency request with the whole budget and
    then makes the other request current, with [start_time = 1] and no
    capacity left for it. *)
Example sla_dispatch_with_no_budget_left :
  match c9_two_steps with
  | Ok (capacity_left, h, n) =>
      Qred capacity_left = 0
      ∧ current_request n = Some 1%nat
      ∧ start_time (h !!! 1%nat) = Some 1
      ∧ remaining_demand (h !!! 1%nat) = processing_demand (h !!! 1%nat)
  | Raise _ => False
  end.
Proof. vm_compute. repeat split; done. Qed.

(** ** Per-step processing semantics (C3) *)

(** The loop of the FIFO, EMERGENCY_FIRST and STATIC_PRIORITY branches
    completes the requests at the head of the queue as long as they fit the
    budget that is left: the first request it leaves did not fit, and the
    requests behind that one were not reached. *)
Lemma drain_order now dt q : ∀ c h d q' c' h' d',
  NoDup q →
  (∀ r, r ∈ q → 0 < remaining_demand (h !!! r)) →
  drain now dt q c h d = (q', c', h', d') →
  ∃ k, d' = d ++ take k q ∧ q' = drop k q
    ∧ (∀ p, head q' = Some p →
         c - sum_remaining h (take k q) < remaining_demand (h !!! p))
    ∧ (∀ r, r ∈ tail q' → h' !!! r = h !!! r).
Proof.
  induction q as [|r q IH]; intros c h d q' c' h' d' Hnd Hpos.
  { intros [= <- <- <- <-]. exists 0%nat. rewrite app_nil_r. by repeat split. }
  apply NoDup_cons in Hnd as [Hr Hnd].
  assert (Hpr : 0 < remaining_demand (h !!! r)) by (apply Hpos; left).
  simpl. destruct (Qltb 0 c) eqn:Ec.
  2:{ intros [= <- <- <- <-]. apply Qltb_ge in Ec. exists 0%nat. rewrite app_nil_r.
      do 2 (split; [done|]). split; [|done].
      intros p [= <-]. simpl. lra. }
  assert (Hm := mark_started_lookup now h r).
  assert (Hmr : remaining_demand (mark_started now h r !!! r) = remaining_demand (h !!! r))
    by apply mark_started_fields.
  destruct (serve now dt (mark_started now h r) r c) as [[b c1] h1] eqn:Es.
  assert (Hh1 : ∀ x, x ≠ r → h1 !!! x = h !!! x).
  { intros x Hx. revert Es. unfold serve. destruct (Qle_bool _ c); intros [= _ _ <-];
      rewrite lookup_total_insert_ne by done; rewrite Hm; by destruct (decide (x = r)). }
  assert (Hq : ∀ x, x ∈ q → h1 !!! x = h !!! x).
  { intros x Hx. apply Hh1. by intros ->. }
  destruct b.
  - assert (Hc1 : c1 = c - remaining_demand (h !!! r)).
    { revert Es. unfold serve. rewrite Hmr. by destruct (Qle_bool _ c); intros [= <-]. }
    intros Hd. apply IH in Hd as (k & -> & -> & Hhead & Htail); [|done|].
    2:{ intros x Hx. rewrite (Hq x Hx). apply Hpos. by right. }
    exists (S k). simpl. split; [by rewrite <- app_assoc|]. split; [done|].
    assert (Hsum : sum_remaining h1 (take k q) == sum_remaining h (take k q)).
    { apply sum_remaining_ext. intros x Hx. f_equal. apply Hq.
      by apply (subseteq_take k q). }
    split.
    + intros p Hp. assert (Hpq : p ∈ q).
      { apply head_Some_elem_of in Hp. by apply (subseteq_drop k q). }
      specialize (Hhead p Hp). rewrite (Hq p Hpq) in Hhead. rewrite Hc1 in Hhead. lra.
    + intros x Hx. rewrite (Htail x Hx). apply Hq.
      apply (subseteq_drop k q). destruct (drop k q) as [|y l]; [done|]. by right.
  - intros [= <- <- <- <-]. exists 0%nat. rewrite app_nil_r.
    do 2 (split; [done|]). split.
    + intros p [= <-]. simpl. revert Es. unfold serve. rewrite Hmr.
      destruct (Qle_bool _ c) eqn:E; [done|]. intros _. apply Qle_bool_gt in E. lra.
    + simpl. exact Hq.
Qed.

(** Under the three policies without an in-service slot a step drains the
    requests of the node as one queue, and what the loop leaves is what the
    node holds afterwards. *)
Lemma process_one_step_cap_order h n now dt left h' n' completed :
  is_sla n = false →
  process_one_step_cap h n now dt = Ok (left, h', n', completed) →
  drain now dt (queued_refs n) (cpu_capacity n * dt) h []
  = (queued_refs n', left, h', completed).
Proof.
  intros Esla. unfold process_one_step_cap, queued_refs. rewrite Esla.
  assert (Hsla : ∀ m, scheduler m = scheduler n → is_sla m = false).
  { intros m Hm. by rewrite (is_sla_scheduler _ _ Hm). }
  destruct (String.eqb (scheduler n) "STATIC_PRIORITY") eqn:Esp;
    [|destruct (String.eqb (scheduler n) "EMERGENCY_FIRST") eqn:Eef].
  - rewrite drain_app.
    destruct (drain now dt (priority_queue_3 n) _ h []) as [[[q3 c3] h3] d3].
    rewrite drain_app.
    destruct (drain now dt (priority_queue_2 n) c3 h3 d3) as [[[q2 c2] h2] d2].
    destruct (drain now dt (priority_queue_1 n) c2 h2 d2) as [[[q1 c1] h1] d1].
    intros [= <- <- <- <-]. rewrite Hsla by done. simpl. by rewrite Esp.
  - rewrite drain_app.
    destruct (drain now dt (emergency_queue n) _ h []) as [[[qe ce] he] de].
    destruct (drain now dt (normal_queue n) ce he de) as [[[qn cn] hn] dn].
    intros [= <- <- <- <-]. rewrite Hsla by done. simpl. by rewrite Esp, Eef.
  - destruct (drain now dt (queue n) _ h []) as [[[q c] h1] d].
    intros [= <- <- <- <-]. rewrite Hsla by done. simpl. by rewrite Esp, Eef.
Qed.

(** The selection finds a request whenever a class queue holds one. *)
Lemma select_fold_some h n t l : ∀ st,
  is_Some st.1 → is_Some st.2 →
  is_Some (fold_left (select_step h n t) l st).1.
Proof.
  induction l as [|r l IH]; intros st H1 H2; [done|]. simpl. apply IH.
  - destruct (select_step_fst h n t st r) as [->| ->]; [done|eauto].
  - unfold select_step. destruct st as [b [s|]]; simpl; [|eauto].
    repeat case_match; simpl; eauto.
Qed.

Lemma select_next_none h n t : _select_next_request_sla h n t = None → dqs n = [].
Proof.
  unfold _select_next_request_sla. fold (dqs n).
  destruct (dqs n) as [|r l]; [done|]. simpl. intros Hn.
  destruct (select_fold_some h n t l (Some r, Some (_priority_score h n r t)))
    as [x Hx]; [by eexists..|]. congruence.
Qed.

(** The loop of the SLA branch ends with the budget used up or with
    nothing left to serve. *)
Lemma sla_loop_progress fuel now dt : ∀ c h n d c' h' n' d',
  sla_loop fuel now dt c h n d = Ok (c', h', n', d') →
  sla_refs n' ≠ [] → c' <= 0.
Proof.
  assert (Hd : ∀ continue c h n d c' h' n' d',
    (∀ c h n d c' h' n' d', continue c h n d = Ok (c', h', n', d') →
                            sla_refs n' ≠ [] → c' <= 0) →
    current_request n = None →
    sla_dispatch continue now c h n d = Ok (c', h', n', d') →
    sla_refs n' ≠ [] → c' <= 0).
  { intros continue c h n d c' h' n' d' IH Hcur. unfold sla_dispatch.
    destruct (_select_next_request_sla h n now) as [next|] eqn:Esel.
    - destruct (dynamic_remove h _ next n) as [n2|]; simpl; [|done]. apply IH.
    - intros [= <- <- <- <-] Hne. exfalso. apply Hne.
      unfold sla_refs. rewrite Hcur, (select_next_none _ _ _ Esel). done. }
  induction fuel as [|fuel IH]; intros c h n d c' h' n' d'; [done|]. simpl.
  destruct (Qltb 0 c) eqn:Ec; [|intros [= <- <- <- <-] _; by apply Qltb_ge].
  destruct (current_request n) as [cur|] eqn:Ecur; [|by apply Hd].
  destruct (serve now dt h cur c) as [[[] c1] h1] eqn:Es.
  - by apply Hd.
  - intros [= <- <- <- <-] _. apply serve_partial_budget in Es. rewrite Es. lra.
Qed.

Lemma process_one_step_cap_progress h n now dt left h' n' completed :
  process_one_step_cap h n now dt = Ok (left, h', n', completed) →
  queued_refs n' ≠ [] → left <= 0.
Proof.
  destruct (is_sla n) eqn:Esla.
  - unfold process_one_step_cap. rewrite Esla.
    destruct (sla_loop _ now dt _ h n []) as [[[[c1 h1] n1] d1]|] eqn:Eloop; simpl; [|done].
    destruct (sla_window_boundary h1 n1 now) as [n2|] eqn:Ew; simpl; [|done].
    intros [= <- <- <- <-] Hne. apply (sla_loop_progress _ _ _ _ _ _ _ _ _ _ _ Eloop).
    apply sla_window_boundary_static in Ew.
    assert (Hs : scheduler n2 = scheduler n).
    { etrans; [exact (f_equal scheduler Ew)|].
      exact (f_equal scheduler (sla_loop_static _ _ _ _ _ _ _ _ _ _ _ Eloop)). }
    rewrite queued_refs_sla in Hne by (by rewrite (is_sla_scheduler _ _ Hs)).
    assert (Hq3 : dynamic_queue_3 n2 = dynamic_queue_3 n1)
      by apply (f_equal dynamic_queue_3 Ew).
    assert (Hq2 : dynamic_queue_2 n2 = dynamic_queue_2 n1)
      by apply (f_equal dynamic_queue_2 Ew).
    assert (Hq1 : dynamic_queue_1 n2 = dynamic_queue_1 n1)
      by apply (f_equal dynamic_queue_1 Ew).
    assert (Hcr : current_request n2 = current_request n1)
      by apply (f_equal current_request Ew).
    unfold sla_refs, dqs in *. by rewrite <- Hq3, <- Hq2, <- Hq1, <- Hcr.
  - intros Hstep%process_one_step_cap_order; [|done].
    apply (drain_run now dt (queued_refs n)) in Hstep as (_ & k & _ & _ & Hc); [|done].
    exact Hc.
Qed.

(** C3.  On a node that agrees with the store (and, for the SLA policy,
    has [eps > 0], so that the weight update at the end of the step cannot
    divide by zero), [process_one_step(current_time, time_step)] returns, and
    with [B = cpu_capacity * time_step]:
    - the work taken off the requests of the node is [B] minus the budget
      left at the end, which is not negative when [B] is not: at most [B];
    - the [i]-th completed request was held by the node and is no longer; it
      was reached with a positive budget left, [B] minus the demands of the
      requests completed before it, its remaining demand was at most that;
      its remaining demand is now exactly 0 and its completion time is
      [current_time + time_step];
    - a request of the node that is not in the completed list is still held
      and not completed; its remaining demand is unchanged, or it exceeded
      the budget left after the completed ones and was reduced by exactly
      that, which used the budget up;
    - no remaining demand increased, and for the requests of the node the
      remaining demand is 0 if and only if the completion time is set;
    - the step goes on as long as there is budget and a request to serve:
      when the node still holds a request afterwards, the budget is used up;
    - under FIFO, EMERGENCY_FIRST and STATIC_PRIORITY the requests are
      reached in queue order (the queues one after the other), so the
      completed list is the front of that order and the node keeps the rest
      in order; the first request it keeps did not fit the budget left after
      the completed ones and, when there was budget left, was reduced by
      exactly that; the requests behind it were not reached: they are
      exactly as they were;
    - under the SLA policy the requests reached are the completed ones and
      the one in the in-service slot: that one did not fit the budget left
      after the completed ones and, when there was budget left, was reduced
      by exactly that; the requests in the class queues were not reached:
      they are exactly as they were.
    And one request of 2.5 units arriving at time 0 on a node of capacity 1
    with steps of 1 second is completed by the third step, under each
    policy, with [completion_time = 3]. *)
Theorem C3_per_step_processing :
  (∀ h n now dt,
     node_wf h n →
     (is_sla n = true → 0 < getattr (sla_eps n) (1 # 1000000)) →
     ∃ left h' n' completed,
       process_one_step_cap h n now dt = Ok (left, h', n', completed)
       ∧ process_one_step h n now dt = Ok (h', n', completed)
       ∧ (0 <= cpu_capacity n * dt →
          0 <= left ∧ work_done h h' (queued_refs n) == cpu_capacity n * dt - left)
       ∧ (∀ i r, completed !! i = Some r →
            r ∈ queued_refs n ∧ (r ∉ queued_refs n')
            ∧ (0 < cpu_capacity n * dt - sum_remaining h (take i completed))
            ∧ (remaining_demand (h !!! r)
                 <= cpu_capacity n * dt - sum_remaining h (take i completed))
            ∧ remaining_demand (h' !!! r) = 0
            ∧ completion_time (h' !!! r) = Some (now + dt))
       ∧ (∀ r, r ∈ queued_refs n → r ∉ completed →
            r ∈ queued_refs n'
            ∧ completion_time (h' !!! r) = None
            ∧ (remaining_demand (h' !!! r) = remaining_demand (h !!! r)
               ∨ (left = 0
                  ∧ (0 < cpu_capacity n * dt - sum_remaining h completed)
                  ∧ (cpu_capacity n * dt - sum_remaining h completed
                       < remaining_demand (h !!! r))
                  ∧ (remaining_demand (h' !!! r)
                       == remaining_demand (h !!! r)
                          - (cpu_capacity n * dt - sum_remaining h completed)))))
       ∧ (∀ r, remaining_demand (h' !!! r) <= remaining_demand (h !!! r))
       ∧ (∀ r, r ∈ queued_refs n →
            (remaining_demand (h' !!! r) == 0 ↔ completion_time (h' !!! r) ≠ None))
       ∧ (queued_refs n' ≠ [] → left <= 0)
       ∧ (is_sla n = false →
          queued_refs n = completed ++ queued_refs n'
          ∧ (∀ p, head (queued_refs n') = Some p →
               (cpu_capacity n * dt - sum_remaining h completed
                  < remaining_demand (h !!! p))
               ∧ (0 < cpu_capacity n * dt - sum_remaining h completed →
                  left = 0
                  ∧ remaining_demand (h' !!! p)
                    == remaining_demand (h !!! p)
                       - (cpu_capacity n * dt - sum_remaining h completed)))
          ∧ (∀ r, r ∈ tail (queued_refs n') → h' !!! r = h !!! r))
       ∧ (is_sla n = true →
          (∀ p, current_request n' = Some p →
               (cpu_capacity n * dt - sum_remaining h completed
                  < remaining_demand (h !!! p))
               ∧ (0 < cpu_capacity n * dt - sum_remaining h completed →
                  left = 0
                  ∧ remaining_demand (h' !!! p)
                    == remaining_demand (h !!! p)
                       - (cpu_capacity n * dt - sum_remaining h completed)))
          ∧ (∀ r, r ∈ dqs n' → h' !!! r = h !!! r)))
  ∧ (∀ scheduler,
       scheduler ∈ ["FIFO"; "EMERGENCY_FIRST"; "STATIC_PRIORITY"; "SLA-DWP-Fog"] →
       c3_scenario scheduler = Ok ([[]; []; [0%nat]], [3 # 2; 1 # 2; 0], Some 3)).
Proof.
  split.
  2:{ intros s Hs. repeat (apply elem_of_cons in Hs as [->|Hs]; [reflexivity|]).
      by apply elem_of_nil in Hs. }
  intros h n now dt Hwf Heps.
  destruct (process_one_step_cap_total h n now dt Hwf Heps)
    as [[[[left h'] n'] completed] Hstep].
  exists left, h', n', completed. split; [done|].
  split; [unfold process_one_step; by rewrite Hstep|].
  assert (Hf := process_one_step_cap_facts _ _ _ _ _ _ _ _ Hwf Hstep).
  split; [by eapply step_work_done|].
  assert (Hprog := process_one_step_cap_progress _ _ _ _ _ _ _ _ Hstep).
  assert (Hqnd := node_wf_NoDup h n Hwf).
  assert (Horder : is_sla n = false →
    ∃ k, completed = take k (queued_refs n) ∧ queued_refs n' = drop k (queued_refs n)
      ∧ (∀ p, head (queued_refs n') = Some p →
           cpu_capacity n * dt - sum_remaining h (take k (queued_refs n))
             < remaining_demand (h !!! p))
      ∧ (∀ r, r ∈ tail (queued_refs n') → h' !!! r = h !!! r)).
  { intros Esla. apply process_one_step_cap_order in Hstep as Hdrain; [|done].
    apply drain_order in Hdrain as (k & Hc & Hq & Hhead & Htail);
      [|done|intros r Hr; by apply (wf_live h n Hwf)].
    exists k. split; [exact Hc|]. split; [exact Hq|]. split; [exact Hhead|exact Htail]. }
  assert (Huntouched : is_sla n = true → ∀ r, r ∈ dqs n' → h' !!! r = h !!! r).
  { intros Esla. apply process_one_step_cap_run in Hstep as (_ & _ & _ & Hq).
    - by apply Hq.
    - intros _. destruct Hwf as [Hids _ _]. by rewrite queued_refs_sla in Hids. }
  assert (Hsla' : is_sla n' = is_sla n) by apply is_sla_scheduler, Hf.
  destruct Hf as [Hperm Hnd Hinv _ _]. destruct Hwf as [_ Hlive _].
  destruct Hinv as [Hbud Hdone Hfit Hphase Hframe Hstatic Hstart Hsub].
  assert (Hdis : ∀ r, r ∈ completed → r ∉ queued_refs n').
  { intros r Hr Hq. apply NoDup_app in Hnd as (_ & Hdis & _). by apply (Hdis r). }
  assert (Hrest : ∀ r, r ∈ queued_refs n → r ∉ completed →
    r ∈ queued_refs n'
    ∧ completion_time (h' !!! r) = None
    ∧ (remaining_demand (h' !!! r) = remaining_demand (h !!! r)
       ∨ (left = 0
          ∧ (0 < cpu_capacity n * dt - sum_remaining h completed)
          ∧ (cpu_capacity n * dt - sum_remaining h completed < remaining_demand (h !!! r))
          ∧ (remaining_demand (h' !!! r)
               == remaining_demand (h !!! r)
                  - (cpu_capacity n * dt - sum_remaining h completed))))).
  { intros r Hr Hrd. split.
    { rewrite <- Hperm, elem_of_app in Hr. by destruct Hr. }
    destruct (Hlive r Hr) as [Hc _].
    destruct Hphase as [[_ Hun]|(-> & p & _ & _ & Hl0 & Hl1 & Hp & Hpc & Hun)].
    - destruct (Hun r Hrd) as [-> ->]. auto.
    - destruct (decide (r = p)) as [->|Hne].
      + rewrite Hpc. split; [done|]. right. done.
      + destruct (Hun r Hrd Hne) as [-> ->]. auto. }
  split; [|split; [done|split; [|split; [|split; [done|split]]]]].
  - intros i r Hi. assert (Hr : r ∈ completed) by (by eapply list_elem_of_lookup_2).
    destruct (Hfit i r Hi) as [? ?]. destruct (Hdone r Hr) as [? ?]. auto 10.
  - intros r. destruct (decide (r ∈ queued_refs n)) as [Hr|Hr];
      [|rewrite (Hframe r Hr); lra].
    destruct (decide (r ∈ completed)) as [Hc|Hc].
    + destruct (Hdone r Hc) as [-> _]. destruct (Hlive r Hr). lra.
    + destruct (Hrest r Hr Hc) as (_ & _ & [->|(_ & ? & ? & ?)]); lra.
  - intros r Hr. destruct (decide (r ∈ completed)) as [Hc|Hc].
    + destruct (Hdone r Hc) as [-> ->]. split; [done|reflexivity].
    + destruct (Hrest r Hr Hc) as (_ & -> & Hrem). destruct (Hlive r Hr) as [_ Hpos].
      split; [|done]. intros H0. exfalso.
      destruct Hrem as [Heq|(_ & ? & ? & ?)]; [rewrite Heq in H0|]; lra.
  - intros Esla. destruct (Horder Esla) as (k & Hc & Hq & Hhead & Htail).
    split; [by rewrite Hc, Hq, take_drop|]. split; [|done].
    intros p Hp. rewrite Hc. split; [by apply Hhead|]. rewrite <- Hc. intros Hbudget.
    assert (Hp' : p ∈ queued_refs n') by (by apply head_Some_elem_of).
    assert (Hleft : left <= 0).
    { apply Hprog. intros E. rewrite E in Hp'. by apply elem_of_nil in Hp'. }
    destruct Hphase as [[Hceq _]|(-> & p' & Hp'L & Hp'd & Hl0 & Hl1 & Hrem & _)]; [lra|].
    split; [done|]. assert (p' = p) as ->; [|done].
    assert (Hp'q : p' ∈ queued_refs n').
    { rewrite <- Hperm, elem_of_app in Hp'L. by destruct Hp'L. }
    destruct (queued_refs n') as [|x l]; [done|]. injection Hp as ->.
    apply elem_of_cons in Hp'q as [Heq|Hin]; [done|].
    exfalso. rewrite (Htail p' Hin) in Hrem. lra.
  - intros Esla. split; [|by apply Huntouched].
    intros p Hp.
    assert (Hp' : p ∈ queued_refs n').
    { rewrite queued_refs_sla by (by rewrite Hsla'). unfold sla_refs. rewrite Hp.
      apply elem_of_app. right. by left. }
    assert (Hpq : p ∈ queued_refs n).
    { rewrite <- Hperm, elem_of_app. by left. }
    assert (Hleft : left <= 0).
    { apply Hprog. intros E. rewrite E in Hp'. by apply elem_of_nil in Hp'. }
    destruct (Hlive p Hpq) as [_ Hpos].
    destruct Hphase as [[Hceq _]|(-> & p' & Hp'L & Hp'd & Hl0 & Hl1 & Hrem & _)];
      [split; lra|].
    assert (p' = p) as ->; [|done].
    assert (Hp'q : p' ∈ queued_refs n').
    { rewrite <- Hperm, elem_of_app in Hp'L. by destruct Hp'L. }
    rewrite queued_refs_sla in Hp'q by (by rewrite Hsla'). unfold sla_refs in Hp'q.
    rewrite Hp in Hp'q. apply elem_of_app in Hp'q as [Hin|Hin%list_elem_of_singleton];
      [|done].
    exfalso. rewrite (Huntouched Esla p' Hin) in Hrem. lra.
Qed.


Lemma C3_witness :
  ∃ left h' n' completed,
    process_one_step_cap c1_store c1_node 0 1 = Ok (left, h', n', completed)
    ∧ process_one_step c1_store c1_node 0 1 = Ok (h', n', completed).
Proof.
  destruct (proj1 C3_per_step_processing c1_store c1_node 0 1)
    as (left & h' & n' & completed & H1 & H2 & _).
  - apply node_wfb_sound. reflexivity.
  - intros _. by vm_compute.
  - by exists left, h', n', completed.
Defined.

(** ** Conservation of the counters (C4) *)

Lemma queue_length_nonneg n : (0 <= queue_length n)%Z.
Proof. unfold queue_length. rewrite queue_length_queued_refs. unfold len. lia. Qed.

Lemma queued_total_nonneg nodes : (0 <= queued_total nodes)%Z.
Proof.
  induction nodes as [|n nodes IH]; simpl; [lia|].
  assert (H := queue_length_nonneg n). lia.
Qed.

Lemma queued_total_insert nodes : ∀ i x,
  (i < length nodes)%nat →
  queued_total (<[i := x]> nodes)
  = (queued_total nodes - queue_length (nodes !!! i) + queue_length x)%Z.
Proof.
  induction nodes as [|n nodes IH]; intros i x Hi; simpl in Hi; [lia|].
  destruct i as [|i]; simpl; [lia|]. rewrite IH by lia. lia.
Qed.

Lemma queued_total_reset nodes :
  queued_total (map reset_step_state nodes) = queued_total nodes.
Proof. induction nodes as [|n nodes IH]; simpl; [done|]. by rewrite IH. Qed.

(** *** Counting at one node *)

Lemma enqueue_request_count h n request dt h' n' ok reason :
  enqueue_request h n request dt = Ok (h', n', (ok, reason)) →
  queue_length n' = (queue_length n + (if ok then 1 else 0))%Z.
Proof.
  intros (_ & Hq & _)%enqueue_request_effects.
  unfold queue_length. rewrite !queue_length_queued_refs. unfold len.
  destruct ok; [|rewrite Hq; lia].
  apply Permutation_length in Hq. rewrite Hq. simpl. lia.
Qed.

Lemma sla_loop_count fuel now dt : ∀ c h n d c' h' n' d',
  sla_loop fuel now dt c h n d = Ok (c', h', n', d') →
  (length (sla_refs n') + length d' = length (sla_refs n) + length d)%nat.
Proof.
  assert (Hd : ∀ continue c h n d c' h' n' d',
    (∀ c h n d c' h' n' d', continue c h n d = Ok (c', h', n', d') →
       (length (sla_refs n') + length d' = length (sla_refs n) + length d)%nat) →
    current_request n = None →
    sla_dispatch continue now c h n d = Ok (c', h', n', d') →
    (length (sla_refs n') + length d' = length (sla_refs n) + length d)%nat).
  { intros continue c h n d c' h' n' d' IH Hcur. unfold sla_dispatch.
    destruct (_select_next_request_sla h n now) as [next|]; [|by intros [= _ _ <- <-]].
    destruct (dynamic_remove h _ next n) as [n2|] eqn:Erem; simpl; [|done].
    intros H%IH. rewrite H.
    apply dynamic_remove_spec in Erem as (y & _ & Hperm%Permutation_length & _).
    unfold sla_refs. rewrite Hcur, !length_app. simpl in *.
    change (dqs (set_current_request_start_time (Some now)
                   (set_current_request (Some next) n2))) with (dqs n2). lia. }
  induction fuel as [|fuel IH]; intros c h n d c' h' n' d'; [done|]. simpl.
  destruct (Qltb 0 c); [|by intros [= _ _ <- <-]].
  destruct (current_request n) as [cur|] eqn:Ecur; [|by apply Hd].
  destruct (serve now dt h cur c) as [[[] c1] h1]; [|by intros [= _ _ <- <-]].
  intros H%Hd; [|done..]. rewrite H. unfold sla_refs. rewrite Ecur, !length_app. simpl.
  change (dqs (set_current_request_start_time None _)) with (dqs n). lia.
Qed.

Lemma process_one_step_count h n now dt h' n' completed :
  process_one_step h n now dt = Ok (h', n', completed) →
  (queue_length n' + len completed)%Z = queue_length n.
Proof.
  intros [left Hstep]%process_one_step_inv.
  unfold queue_length. rewrite !queue_length_queued_refs. unfold len.
  destruct (is_sla n) eqn:Esla.
  - revert Hstep. unfold process_one_step_cap. rewrite Esla.
    destruct (sla_loop _ now dt _ h n []) as [[[[c1 h1] n1] d1]|] eqn:Eloop; simpl; [|done].
    destruct (sla_window_boundary h1 n1 now) as [n2|] eqn:Ew; simpl; [|done].
    intros [= <- <- <- <-].
    apply sla_loop_count in Eloop as Hcount. apply sla_loop_static in Eloop.
    apply sla_window_boundary_static in Ew.
    assert (Hs : scheduler n2 = scheduler n).
    { rewrite (f_equal scheduler Ew : scheduler n2 = scheduler n1).
      apply (f_equal scheduler Eloop). }
    rewrite (queued_refs_sla n Esla), queued_refs_sla
      by (by rewrite (is_sla_scheduler n)).
    assert (Hr : sla_refs n2 = sla_refs n1).
    { unfold sla_refs, dqs.
      by rewrite (f_equal dynamic_queue_3 Ew : dynamic_queue_3 n2 = dynamic_queue_3 n1),
        (f_equal dynamic_queue_2 Ew : dynamic_queue_2 n2 = dynamic_queue_2 n1),
        (f_equal dynamic_queue_1 Ew : dynamic_queue_1 n2 = dynamic_queue_1 n1),
        (f_equal current_request Ew : current_request n2 = current_request n1). }
    rewrite Hr. simpl in Hcount. lia.
  - apply process_one_step_cap_run in Hstep as (_ & Hperm%Permutation_length & _);
      [|by rewrite Esla]. rewrite length_app in Hperm. lia.
Qed.

(** *** Counting in the simulation loop *)

Lemma nearest_fold_in pos es : ∀ st i,
  (fold_left (nearest_step pos) es st).1 = Some i →
  st.1 = Some i ∨ ∃ e, e ∈ es ∧ e.1 = i.
Proof.
  induction es as [|e es IH]; intros st i; simpl; [auto|].
  intros [Hi|(e' & He' & Hi)]%IH; [|right; exists e'; split; [by right|done]].
  unfold nearest_step in Hi. destruct st as [b [d|]]; simpl in *.
  - destruct (Qltb _ d); simpl in Hi; [|by left].
    injection Hi as <-. right. exists e. split; [by left|done].
  - injection Hi as <-. right. exists e. split; [by left|done].
Qed.

Lemma get_nearest_fog_lt topo pos i :
  get_nearest_fog topo pos = Ok i → (i < length (fog_nodes topo))%nat.
Proof.
  unfold get_nearest_fog.
  destruct (fold_left _ _ _).1 as [j|] eqn:E; [|done]. intros [= ->].
  apply nearest_fold_in in E as [E|(e & He & <-)]; [done|].
  apply elem_of_lookup_imap_1 in He as (j & y & -> & Hj). simpl.
  by apply lookup_lt_Some in Hj.
Qed.

Lemma route_request_counts dt h topo m req h' topo' m' :
  route_request dt (h, topo, m) req = Ok (h', topo', m') →
  length (fog_nodes topo') = length (fog_nodes topo)
  ∧ total_generated m' = total_generated m
  ∧ total_completed m' = total_completed m
  ∧ classified m' = (classified m + 1)%Z
  ∧ (total_admitted m' - queued_total (fog_nodes topo')
     = total_admitted m - queued_total (fog_nodes topo))%Z.
Proof.
  unfold route_request, classified.
  destruct (get_nearest_fog topo _) as [i|] eqn:Ei; simpl; [|done].
  apply get_nearest_fog_lt in Ei.
  destruct (can_accept_request _ _ req dt).
  - destruct (enqueue_request _ _ req dt) as [[[h1 n1] [ok reason]]|] eqn:Eenq;
      simpl; [|done].
    apply enqueue_request_count in Eenq.
    assert (Hq := queued_total_insert (fog_nodes topo) i n1 Ei). rewrite Eenq in Hq.
    destruct ok; [|destruct (bool_decide _)]; intros [= <- <- <-]; simpl;
      rewrite length_insert, Hq; repeat split; lia.
  - intros [= <- <- <-]. simpl. repeat split; lia.
Qed.

Lemma route_requests_counts dt reqs : ∀ h topo m h' topo' m',
  foldM (route_request dt) (h, topo, m) reqs = Ok (h', topo', m') →
  length (fog_nodes topo') = length (fog_nodes topo)
  ∧ total_generated m' = total_generated m
  ∧ total_completed m' = total_completed m
  ∧ classified m' = (classified m + len reqs)%Z
  ∧ (total_admitted m' - queued_total (fog_nodes topo')
     = total_admitted m - queued_total (fog_nodes topo))%Z.
Proof.
  induction reqs as [|r reqs IH]; intros h topo m h' topo' m'; simpl.
  { intros [= <- <- <-]. unfold len. simpl. repeat split; lia. }
  destruct (route_request dt (h, topo, m) r) as [[[h1 topo1] m1]|] eqn:E1; simpl; [|done].
  apply route_request_counts in E1 as (L1 & G1 & C1 & K1 & Q1).
  intros (L2 & G2 & C2 & K2 & Q2)%IH. unfold len in *.
  rewrite L2, G2, C2, K2, Q2, L1, G1, C1, K1, Q1. simpl length. repeat split; lia.
Qed.

Lemma process_node_counts time dt h topo acc i h' topo' acc' :
  (i < length (fog_nodes topo))%nat →
  process_node time dt (h, topo, acc) i = Ok (h', topo', acc') →
  length (fog_nodes topo') = length (fog_nodes topo)
  ∧ (queued_total (fog_nodes topo') + len acc' = queued_total (fog_nodes topo) + len acc)%Z.
Proof.
  intros Hi. unfold process_node.
  destruct (process_one_step h _ time dt) as [[[h1 n1] d1]|] eqn:E; simpl; [|done].
  intros [= <- <- <-]. simpl. apply process_one_step_count in E.
  rewrite length_insert, (queued_total_insert _ _ _ Hi). unfold len in *.
  rewrite length_app. split; [done|]. lia.
Qed.

Lemma process_nodes_counts time dt idxs : ∀ h topo acc h' topo' acc',
  (∀ i, i ∈ idxs → (i < length (fog_nodes topo))%nat) →
  foldM (process_node time dt) (h, topo, acc) idxs = Ok (h', topo', acc') →
  length (fog_nodes topo') = length (fog_nodes topo)
  ∧ (queued_total (fog_nodes topo') + len acc' = queued_total (fog_nodes topo) + len acc)%Z.
Proof.
  induction idxs as [|i idxs IH]; intros h topo acc h' topo' acc' Hlt; simpl.
  { by intros [= <- <- <-]. }
  destruct (process_node time dt (h, topo, acc) i) as [[[h1 topo1] acc1]|] eqn:E1;
    simpl; [|done].
  apply process_node_counts in E1 as (L1 & Q1); [|apply Hlt; by left].
  intros (L2 & Q2)%IH; [|intros j Hj; rewrite L1; apply Hlt; by right].
  split; [congruence|lia].
Qed.

Lemma sim_step_balanced sim time dt sim' :
  counters_balanced (metrics sim) (fog_nodes (topology sim)) →
  sim_step sim time dt = Ok sim' →
  counters_balanced (metrics sim') (fog_nodes (topology sim'))
  ∧ config sim' = config sim.
Proof.
  intros [Hc Hb]. unfold sim_step.
  destruct (generate_requests _ _ _ _ time) as [[[[gen g] h] nref] new_requests].
  destruct (foldM (route_request dt) _ new_requests) as [[[h1 topo1] m1]|] eqn:Er;
    simpl; [|done].
  destruct (foldM (process_node time dt) _ _) as [[[h2 topo2] done2]|] eqn:Ep;
    simpl; [|done].
  intros [= <-]. simpl. split; [|done].
  apply route_requests_counts in Er as (L1 & G1 & C1 & K1 & Q1). simpl in *.
  apply process_nodes_counts in Ep as (L2 & Q2);
    [|intros i Hi%elem_of_seq; simpl; lia]. unfold len in Q2. simpl in Q2.
  unfold all_nodes in *. rewrite queued_total_reset in Q1. unfold classified in *.
  assert (Hm : ∀ m nodes,
    total_generated (record_queue_lengths m nodes) = total_generated m
    ∧ total_completed (record_queue_lengths m nodes) = total_completed m
    ∧ total_admitted (record_queue_lengths m nodes) = total_admitted m
    ∧ total_rejected (record_queue_lengths m nodes) = total_rejected m
    ∧ total_dropped (record_queue_lengths m nodes) = total_dropped m).
  { intros m nodes. by destruct nodes. }
  unfold counters_balanced. simpl.
  destruct (Hm (record_completed m1 done2) (fog_nodes topo2)) as (-> & -> & -> & -> & ->).
  unfold record_completed, record_generated, len in *. simpl in *. split; lia.
Qed.

Lemma run_steps_balanced k : ∀ sim time sim' time',
  counters_balanced (metrics sim) (fog_nodes (topology sim)) →
  run_steps k sim time = Ok (sim', time') →
  counters_balanced (metrics sim') (fog_nodes (topology sim')).
Proof.
  induction k as [|k IH]; intros sim time sim' time' Hb; simpl.
  { by intros [= <- <-]. }
  destruct (Qltb time _); [|by intros [= <- <-]].
  destruct (sim_step sim time _) as [sim1|] eqn:E; simpl; [|done].
  apply sim_step_balanced in E as [Hb1 _]; [|done]. by apply IH.
Qed.

Lemma queued_total_zero nodes :
  (∀ n, In n nodes → queue_length n = 0%Z) → queued_total nodes = 0%Z.
Proof.
  induction nodes as [|n nodes IH]; intros H; simpl; [done|].
  rewrite (H n) by (by left). rewrite IH; [done|]. intros m Hm. apply H. by right.
Qed.

Lemma build_grid_topology_empty cfg topo :
  build_grid_topology cfg = Ok topo → queued_total (fog_nodes topo) = 0%Z.
Proof.
  unfold build_grid_topology. destruct (_ || _); [done|]. intros [= <-]. simpl.
  apply queued_total_zero. intros n (ix & _ & (iy & <- & _)%in_map_iff)%in_flat_map.
  unfold queue_length, _get_total_queue_length, is_sla. simpl.
  by repeat case_match.
Qed.

(** C4.  At every step boundary of a run (after any number [k] of
    iterations of the loop of [Simulation.run] on a freshly constructed
    simulation), [total_generated = total_admitted + total_rejected +
    total_dropped] and [total_admitted >= total_completed]; the admitted
    requests are the completed ones and those the nodes still hold.  Inside a
    step, routing any number of new requests keeps [total_admitted] equal to
    [total_completed] plus the number of requests held, so
    [total_admitted >= total_completed] there too. *)
Theorem C4_conservation :
  (∀ seeded_stream cfg sim0 k sim time,
     Simulation_init seeded_stream cfg = Ok sim0 →
     run_steps k sim0 0 = Ok (sim, time) →
     total_generated (metrics sim)
       = (total_admitted (metrics sim) + total_rejected (metrics sim)
          + total_dropped (metrics sim))%Z
     ∧ (total_completed (metrics sim) <= total_admitted (metrics sim))%Z
     ∧ total_admitted (metrics sim)
       = (total_completed (metrics sim) + queued_total (fog_nodes (topology sim)))%Z)
  ∧ (∀ dt reqs h topo m h' topo' m',
       total_admitted m = (total_completed m + queued_total (fog_nodes topo))%Z →
       foldM (route_request dt) (h, topo, m) reqs = Ok (h', topo', m') →
       total_admitted m' = (total_completed m' + queued_total (fog_nodes topo'))%Z
       ∧ (total_completed m' <= total_admitted m')%Z).
Proof.
  split.
  - intros seeded_stream cfg sim0 k sim time Hinit Hrun.
    assert (H0 : counters_balanced (metrics sim0) (fog_nodes (topology sim0))).
    { revert Hinit. unfold Simulation_init.
      destruct (build_grid_topology cfg) as [topo|] eqn:Et;
        destruct (RequestGenerator_init cfg) as [gen|]; try done.
      intros [= <-]. simpl. apply build_grid_topology_empty in Et.
      split; simpl; [done|]. by rewrite Et. }
    destruct (run_steps_balanced _ _ _ _ _ H0 Hrun) as [Hc Hb].
    split; [done|]. split; [|done].
    assert (Hq := queued_total_nonneg (fog_nodes (topology sim))). lia.
  - intros dt reqs h topo m h' topo' m' Hb (_ & _ & C & _ & Q)%route_requests_counts.
    assert (Hq := queued_total_nonneg (fog_nodes topo')). split; lia.
Qed.

Lemma C4_witness :
  match sim ← Simulation_init c4_stream c4_config; run_steps 3 sim 0 with
  | Ok (sim, _) =>
      total_generated (metrics sim) = 12%Z
      ∧ total_generated (metrics sim)
        = (total_admitted (metrics sim) + total_rejected (metrics sim)
           + total_dropped (metrics sim))%Z
      ∧ (total_completed (metrics sim) <= total_admitted (metrics sim))%Z
  | Raise _ => False
  end.
Proof.
  destruct (Simulation_init c4_stream c4_config) as [sim0|] eqn:E0;
    [|by vm_compute in E0].
  cbn [mbind result_bind]. destruct (run_steps 3 sim0 0) as [[sim time]|] eqn:E.
  - destruct (proj1 C4_conservation c4_stream c4_config sim0 3%nat sim time E0 E)
      as (Hc & Hle & _).
    split; [|done]. clear Hc Hle.
    vm_compute in E0. injection E0 as <-. vm_compute in E. by injection E as <- _.
  - vm_compute in E0. injection E0 as <-. by vm_compute in E.
Defined.

(** * Further properties *)

(** ** Selection by earliest deadline *)

Lemma edf_fold_spec h : ∀ (seen rest : list ref) (st : option ref * option Q),
  (seen = [] → st = (None, None)) →
  (seen ≠ [] → ∃ i best, st = (Some best, Some (absolute_deadline (h !!! best)))
     ∧ seen !! i = Some best
     ∧ (∀ r, r ∈ seen → absolute_deadline (h !!! best) <= absolute_deadline (h !!! r))
     ∧ (∀ j r, seen !! j = Some r → (j < i)%nat →
          absolute_deadline (h !!! best) < absolute_deadline (h !!! r))) →
  seen ++ rest ≠ [] →
  ∃ i best, (fold_left (edf_step h) rest st).1 = Some best
     ∧ (seen ++ rest) !! i = Some best
     ∧ (∀ r, r ∈ seen ++ rest → absolute_deadline (h !!! best) <= absolute_deadline (h !!! r))
     ∧ (∀ j r, (seen ++ rest) !! j = Some r → (j < i)%nat →
          absolute_deadline (h !!! best) < absolute_deadline (h !!! r)).
Proof.
  intros seen rest. revert seen.
  induction rest as [|req rest IH]; intros seen st Hnil Hcons Hne.
  - rewrite app_nil_r in *. destruct (Hcons Hne) as (i & best & -> & ?). by exists i, best.
  - rewrite (cons_middle req seen rest), app_assoc.
    rewrite (cons_middle req seen rest), app_assoc in Hne.
    simpl. apply IH; [by destruct seen| |done]. intros _.
    destruct seen as [|s0 seen'] using rev_ind.
    { rewrite (Hnil eq_refl). simpl. exists 0%nat, req. split; [done|]. split; [done|].
      split.
      - intros r ->%list_elem_of_singleton. lra.
      - intros j r _ Hj. lia. }
    clear IHseen'.
    destruct Hcons as (i & best & -> & Hi & Hmin & Hfirst); [by destruct seen'|].
    simpl. destruct (Qltb _ _) eqn:E.
    + apply Qltb_lt in E. exists (length (seen' ++ [s0])), req.
      split; [done|]. split; [by rewrite lookup_app_r, Nat.sub_diag by lia|].
      split.
      * intros r [Hr| ->%list_elem_of_singleton]%elem_of_app; [|lra].
        specialize (Hmin r Hr). lra.
      * intros j r Hj Hlt. rewrite lookup_app_l in Hj by done.
        apply list_elem_of_lookup_2, Hmin in Hj. lra.
    + apply Qltb_ge in E. exists i, best.
      split; [done|]. split; [by apply lookup_app_l_Some|].
      split.
      * intros r [Hr| ->%list_elem_of_singleton]%elem_of_app; [by apply Hmin|done].
      * intros j r Hj Hlt. apply lookup_lt_Some in Hi as Hilt.
        rewrite lookup_app_l in Hj by lia. by eapply Hfirst.
Qed.

(** X1.  [_select_edf_from_class] returns [None] on an empty queue and on no
    other; on a queue that is not empty it returns a request of the queue
    whose absolute deadline is the earliest, and of the requests with that
    deadline the one nearest to the head of the queue. *)
Theorem select_edf_earliest_deadline h queue :
  (_select_edf_from_class h queue = None ↔ queue = [])
  ∧ ∀ best, _select_edf_from_class h queue = Some best →
      ∃ i, queue !! i = Some best
        ∧ (∀ r, r ∈ queue →
             absolute_deadline (h !!! best) <= absolute_deadline (h !!! r))
        ∧ (∀ j r, queue !! j = Some r → (j < i)%nat →
             absolute_deadline (h !!! best) < absolute_deadline (h !!! r)).
Proof.
  destruct queue as [|r0 q]; [by split|].
  destruct (edf_fold_spec h [] (r0 :: q) (None, None)) as (i & best & Hf & Hi & Hmin & Hfirst);
    [done|done|done|].
  unfold _select_edf_from_class. rewrite Hf. split; [by split|].
  intros ? [= <-]. by exists i.
Qed.

(** ** The priority score *)

Lemma py_min_le_l (a b : Q) : py_min a b <= a.
Proof. unfold py_min. destruct (Qltb b a) eqn:E; [apply Qltb_lt in E|]; lra. Qed.

Lemma py_min_le_r (a b : Q) : py_min a b <= b.
Proof. unfold py_min. destruct (Qltb b a) eqn:E; [|apply Qltb_ge in E]; lra. Qed.

Lemma py_min_glb (a b c : Q) : c <= a → c <= b → c <= py_min a b.
Proof. unfold py_min. by destruct (Qltb b a). Qed.

Lemma py_max_lub (a b c : Q) : a <= c → b <= c → py_max a b <= c.
Proof. unfold py_max. by destruct (Qltb a b). Qed.

Lemma clamp_unit (x : Q) : 0 <= py_min 1 (py_max 0 x) <= 1.
Proof.
  split; [|apply py_min_le_l].
  apply py_min_glb; [lra|apply py_max_ge_l].
Qed.

Lemma clamp_mono (x y : Q) : x <= y → py_min 1 (py_max 0 x) <= py_min 1 (py_max 0 y).
Proof.
  intros Hxy. apply py_min_glb; [apply py_min_le_l|].
  eapply Qle_trans; [apply py_min_le_r|].
  apply py_max_lub; [apply py_max_ge_l|].
  eapply Qle_trans; [exact Hxy|apply py_max_ge_r].
Qed.

Lemma relative_deadline_floor (d : Q) : 0 < py_max (1 # 1000000000) d.
Proof. assert (H := py_max_ge_l (1 # 1000000000) d). lra. Qed.

Lemma Qdiv_le_mono (x y d : Q) : 0 < d → x <= y → x / d <= y / d.
Proof.
  intros Hd Hxy. unfold Qdiv. apply Qmult_le_compat_r; [done|].
  apply Qlt_le_weak, Qinv_lt_0_compat, Hd.
Qed.

Lemma Qmult_unit_bounds (a x : Q) : 0 <= a → 0 <= x <= 1 → 0 <= a * x <= a.
Proof.
  intros Ha [H0 H1]. split; [by apply Qmult_le_0_compat|].
  rewrite <- (Qmult_1_r a) at 2. rewrite !(Qmult_comm a).
  by apply Qmult_le_compat_r.
Qed.

(** X2.  With weights that are not negative the priority score of a request
    lies between [0] and [alpha + beta + gamma], at any time and whatever the
    request; with normalised weights it lies in [0, 1]. *)
Theorem priority_score_bounded h n request current_time :
  weights_nonneg n →
  0 <= _priority_score h n request current_time <= alpha n + beta n + gamma n.
Proof.
  intros (Ha & Hb & Hc). unfold _priority_score.
  set (g := if Z.eqb (priority_class (h !!! request)) 3 then 1
            else if Z.eqb (priority_class (h !!! request)) 2 then 1 # 2 else 0).
  assert (Hg : 0 <= g <= 1) by (subst g; repeat case_match; lra).
  destruct (Qmult_unit_bounds _ _ Ha Hg).
  destruct (Qmult_unit_bounds _ _ Hb (clamp_unit
    (1 - (absolute_deadline (h !!! request) - current_time)
         / py_max (1 # 1000000000) (relative_deadline_s (h !!! request))))).
  destruct (Qmult_unit_bounds _ _ Hc (clamp_unit
    ((current_time - arrival_time (h !!! request))
       / py_max (1 # 1000000000) (relative_deadline_s (h !!! request))))).
  lra.
Qed.

Lemma priority_score_bounded_witness :
  0 <= _priority_score c1_store c1_node 1%nat 3
    <= alpha c1_node + beta c1_node + gamma c1_node.
Proof.
  apply (priority_score_bounded c1_store c1_node 1%nat 3).
  unfold weights_nonneg. simpl. repeat split; by vm_compute.
Defined.

(** X3.  With weights that are not negative the priority score of a request
    never decreases while time passes: what waits gets more urgent. *)
Theorem priority_score_ages h n request t t' :
  weights_nonneg n → t <= t' →
  _priority_score h n request t <= _priority_score h n request t'.
Proof.
  intros (Ha & Hb & Hc) Ht. unfold _priority_score.
  set (Di := py_max (1 # 1000000000) (relative_deadline_s (h !!! request))).
  assert (HDi : 0 < Di) by apply relative_deadline_floor.
  assert (Hu := clamp_mono
    (1 - (absolute_deadline (h !!! request) - t) / Di)
    (1 - (absolute_deadline (h !!! request) - t') / Di)).
  assert (Hw := clamp_mono
    ((t - arrival_time (h !!! request)) / Di)
    ((t' - arrival_time (h !!! request)) / Di)).
  assert (H1 : (absolute_deadline (h !!! request) - t') / Di
               <= (absolute_deadline (h !!! request) - t) / Di)
    by (apply Qdiv_le_mono; lra).
  assert (H2 : (t - arrival_time (h !!! request)) / Di
               <= (t' - arrival_time (h !!! request)) / Di)
    by (apply Qdiv_le_mono; lra).
  assert (Hu' := Hu ltac:(lra)). assert (Hw' := Hw H2).
  apply Qplus_le_compat; [apply Qplus_le_compat; [lra|]|].
  - rewrite !(Qmult_comm (beta n)). by apply Qmult_le_compat_r.
  - rewrite !(Qmult_comm (gamma n)). by apply Qmult_le_compat_r.
Qed.

Lemma priority_score_ages_witness :
  _priority_score c1_store c1_node 1%nat 0 <= _priority_score c1_store c1_node 1%nat 3.
Proof.
  apply (priority_score_ages c1_store c1_node 1%nat 0 3).
  - unfold weights_nonneg. simpl. repeat split; by vm_compute.
  - by vm_compute.
Defined.

(** ** The SLA selection *)

Lemma sla_preferred_refl h n t r : sla_preferred h n t r r.
Proof. unfold sla_preferred. split; [lra|]. intros _. split; [lra|]. intros _. lra. Qed.

Lemma select_step_preferred h n t (seen : list ref) best bs req :
  bs == _priority_score h n best t →
  best ∈ seen →
  (∀ c, c ∈ seen → sla_preferred h n t best c) →
  ∃ best' bs',
    select_step h n t (Some best, Some bs) req = (Some best', Some bs')
    ∧ bs' == _priority_score h n best' t
    ∧ best' ∈ seen ++ [req]
    ∧ ∀ c, c ∈ seen ++ [req] → sla_preferred h n t best' c.
Proof.
  intros Hbs Hbest Hpref.
  assert (Hnew : ∀ c, c ∈ seen ++ [req] →
            (c ∈ seen → sla_preferred h n t req c) → sla_preferred h n t req c).
  { intros c [Hc| ->%list_elem_of_singleton]%elem_of_app; [auto|].
    intros _. apply sla_preferred_refl. }
  assert (Hold : ∀ c, c ∈ seen ++ [req] →
            sla_preferred h n t best req → sla_preferred h n t best c).
  { intros c [Hc| ->%list_elem_of_singleton]%elem_of_app; auto. }
  assert (Hin : req ∈ seen ++ [req]) by (apply elem_of_app; right; by left).
  assert (Hin' : best ∈ seen ++ [req]) by (apply elem_of_app; by left).
  unfold select_step.
  destruct (Qltb bs (_priority_score h n req t)) eqn:Egt.
  { apply Qltb_lt in Egt. exists req, (_priority_score h n req t).
    split; [done|]. split; [lra|]. split; [done|].
    intros c Hc. apply Hnew; [done|]. intros Hs. destruct (Hpref c Hs) as [Hle _].
    split; [lra|]. intros Heq. lra. }
  apply Qltb_ge in Egt.
  destruct (Qeq_bool (_priority_score h n req t) bs) eqn:Eeq.
  2:{ apply Qeq_bool_false in Eeq. exists best, bs.
      split; [done|]. split; [done|]. split; [done|].
      intros c Hc. apply Hold; [done|]. split; [lra|]. intros Heq. lra. }
  apply Qeq_bool_iff in Eeq.
  destruct (Qltb (absolute_deadline (h !!! req) - t) (absolute_deadline (h !!! best) - t))
    eqn:Eslack.
  { apply Qltb_lt in Eslack. exists req, bs.
    split; [done|]. split; [lra|]. split; [done|].
    intros c Hc. apply Hnew; [done|]. intros Hs. destruct (Hpref c Hs) as [Hle Htie].
    split; [lra|]. intros Heq. destruct Htie as [Hd _]; [lra|].
    split; [lra|]. intros Heqd. lra. }
  apply Qltb_ge in Eslack.
  destruct (Qeq_bool (absolute_deadline (h !!! req) - t) (absolute_deadline (h !!! best) - t))
    eqn:Eslack'.
  2:{ apply Qeq_bool_false in Eslack'. exists best, bs.
      split; [done|]. split; [done|]. split; [done|].
      intros c Hc. apply Hold; [done|]. split; [lra|]. intros _.
      split; [lra|]. intros Heqd. lra. }
  apply Qeq_bool_iff in Eslack'.
  destruct (Qltb (t - arrival_time (h !!! best)) (t - arrival_time (h !!! req))) eqn:Ewait.
  - apply Qltb_lt in Ewait. exists req, bs.
    split; [done|]. split; [lra|]. split; [done|].
    intros c Hc. apply Hnew; [done|]. intros Hs. destruct (Hpref c Hs) as [Hle Htie].
    split; [lra|]. intros Heq. destruct Htie as [Hd Ha]; [lra|].
    split; [lra|]. intros Heqd. assert (Ha' := Ha ltac:(lra)). lra.
  - apply Qltb_ge in Ewait. exists best, bs.
    split; [done|]. split; [done|]. split; [done|].
    intros c Hc. apply Hold; [done|]. split; [lra|]. intros _.
    split; [lra|]. intros _. lra.
Qed.

Lemma select_fold_preferred h n t : ∀ (rest seen : list ref) best bs,
  bs == _priority_score h n best t →
  best ∈ seen →
  (∀ c, c ∈ seen → sla_preferred h n t best c) →
  ∃ best',
    (fold_left (select_step h n t) rest (Some best, Some bs)).1 = Some best'
    ∧ best' ∈ seen ++ rest
    ∧ ∀ c, c ∈ seen ++ rest → sla_preferred h n t best' c.
Proof.
  induction rest as [|req rest IH]; intros seen best bs Hbs Hbest Hpref.
  - rewrite app_nil_r. by exists best.
  - destruct (select_step_preferred h n t seen best bs req Hbs Hbest Hpref)
      as (best' & bs' & Hstep & Hbs' & Hbest' & Hpref').
    cbn [fold_left]. rewrite Hstep, (cons_middle req seen rest), app_assoc. by apply IH.
Qed.

(** X4.  [_select_next_request_sla] returns [None] when the three class
    queues are empty and only then; otherwise it returns a queued request
    with the highest priority score at [current_time]; among the requests
    with that score it returns one with the earliest absolute deadline, and
    among those one with the earliest arrival time. *)
Theorem select_next_request_sla_best h n current_time :
  (_select_next_request_sla h n current_time = None ↔ dqs n = [])
  ∧ ∀ best, _select_next_request_sla h n current_time = Some best →
      best ∈ dqs n ∧ ∀ c, c ∈ dqs n → sla_preferred h n current_time best c.
Proof.
  unfold _select_next_request_sla. fold (dqs n).
  destruct (dqs n) as [|r0 q]; [by split|]. simpl.
  destruct (select_fold_preferred h n current_time q [r0] r0
              (_priority_score h n r0 current_time)) as (best & Hf & Hin & Hpref).
  { lra. }
  { by left. }
  { intros c ->%list_elem_of_singleton. apply sla_preferred_refl. }
  rewrite Hf. split; [by split|]. by intros ? [= <-].
Qed.

(** ** The nearest node *)

Lemma nearest_fold_spec pos (nodes : list FogNode) :
  nodes ≠ [] →
  ∃ i node d,
    fold_left (nearest_step pos) (imap pair nodes) (None, None) = (Some i, Some d)
    ∧ nodes !! i = Some node
    ∧ d = dist2 (position node) pos
    ∧ (∀ node', node' ∈ nodes → d <= dist2 (position node') pos)
    ∧ (∀ j node', nodes !! j = Some node' → (j < i)%nat → d < dist2 (position node') pos).
Proof.
  induction nodes as [|x nodes IH] using rev_ind; [done|]. intros _.
  rewrite imap_app, fold_left_app. simpl. rewrite Nat.add_0_r.
  destruct nodes as [|x0 nodes'] eqn:En.
  { simpl. exists 0%nat, x, (dist2 (position x) pos). split; [done|]. split; [done|].
    split; [done|]. split.
    - intros node' ->%list_elem_of_singleton. lra.
    - intros j node' _ Hj. lia. }
  rewrite <- En in *. destruct IH as (i & node & d & -> & Hi & Hd & Hmin & Hfirst);
    [by rewrite En|].
  unfold nearest_step at 1. cbn [fst snd].
  destruct (Qltb (dist2 (position x) pos) d) eqn:E.
  - apply Qltb_lt in E. exists (length nodes), x, (dist2 (position x) pos).
    split; [done|]. split; [by rewrite lookup_app_r, Nat.sub_diag by lia|].
    split; [done|]. split.
    + intros node' [Hn| ->%list_elem_of_singleton]%elem_of_app; [|lra].
      specialize (Hmin node' Hn). lra.
    + intros j node' Hj Hlt. rewrite lookup_app_l in Hj by done.
      apply list_elem_of_lookup_2, Hmin in Hj. lra.
  - apply Qltb_ge in E. exists i, node, d.
    split; [done|]. split; [by apply lookup_app_l_Some|]. split; [done|]. split.
    + intros node' [Hn| ->%list_elem_of_singleton]%elem_of_app; [by apply Hmin|done].
    + intros j node' Hj Hlt. apply lookup_lt_Some in Hi as Hilt.
      rewrite lookup_app_l in Hj by lia. by eapply Hfirst.
Qed.

(** X5.  [get_nearest_fog] fails its assertion on a topology without nodes
    and on no other; otherwise it returns a node of the topology that no
    other node is nearer to the position, and of the nodes at that distance
    the first in the list. *)
Theorem get_nearest_fog_nearest topo pos :
  (get_nearest_fog topo pos = Raise AssertionError ↔ fog_nodes topo = [])
  ∧ ∀ i, get_nearest_fog topo pos = Ok i →
      ∃ node, fog_nodes topo !! i = Some node
        ∧ (∀ node', node' ∈ fog_nodes topo →
             dist2 (position node) pos <= dist2 (position node') pos)
        ∧ (∀ j node', fog_nodes topo !! j = Some node' → (j < i)%nat →
             dist2 (position node) pos < dist2 (position node') pos).
Proof.
  unfold get_nearest_fog. destruct (fog_nodes topo) as [|x nodes] eqn:En; [by split|].
  destruct (nearest_fold_spec pos (x :: nodes)) as (i & node & d & Hf & Hi & -> & Hmin & Hfirst);
    [done|].
  rewrite Hf. simpl. split; [by split|]. intros ? [= <-]. by exists node.
Qed.

(** ** The grid of nodes *)

Lemma grid_row_ids (f : Z → Z → FogNode) (ny : nat) (k : nat) :
  (∀ ix iy, node_id (f ix iy) = (ix * Z.of_nat ny + iy)%Z) →
  map node_id (map (f (Z.of_nat k)) (map Z.of_nat (seq 0 ny)))
  = map Z.of_nat (seq (k * ny) ny).
Proof.
  intros Hid. rewrite <- (Nat.add_0_r (k * ny)), <- fmap_add_seq.
  rewrite !map_map. apply map_ext. intros i. rewrite Hid. lia.
Qed.

Lemma grid_ids (f : Z → Z → FogNode) (ny : nat) :
  (∀ ix iy, node_id (f ix iy) = (ix * Z.of_nat ny + iy)%Z) →
  ∀ k, map node_id (flat_map (λ ix, map (f ix) (map Z.of_nat (seq 0 ny)))
                      (map Z.of_nat (seq 0 k)))
       = map Z.of_nat (seq 0 (k * ny)).
Proof.
  intros Hid. induction k as [|k IH]; [done|].
  rewrite seq_S, map_app, flat_map_app, map_app, IH. simpl. rewrite app_nil_r.
  rewrite (grid_row_ids f ny k Hid), <- map_app, <- seq_app.
  f_equal. f_equal. lia.
Qed.

Lemma elem_of_range (n i : Z) : i ∈ range n ↔ (0 <= i < n)%Z.
Proof.
  unfold range. rewrite list_elem_of_fmap. split.
  - intros (k & -> & Hk%elem_of_seq). lia.
  - intros Hi. exists (Z.to_nat i). split; [lia|]. apply elem_of_seq. lia.
Qed.

Lemma grid_position_inside config ix iy :
  (0 <= ix < num_fog_nodes_x config)%Z → (0 <= iy < num_fog_nodes_y config)%Z →
  (0 < city_width config →
   0 < (grid_position config ix iy).1 ∧ (grid_position config ix iy).1 < city_width config)
  ∧ (0 < city_height config →
     0 < (grid_position config ix iy).2 ∧ (grid_position config ix iy).2 < city_height config).
Proof.
  assert (Hfrac : ∀ (i m : Z) (w : Q), (0 <= i < m)%Z → 0 < w →
            0 < inject_Z (i + 1) * (w / inject_Z (m + 1))
            ∧ inject_Z (i + 1) * (w / inject_Z (m + 1)) < w).
  { intros i m w Hi Hw.
    assert (H1 : 0 < inject_Z (i + 1)) by (rewrite <- (Zlt_Qlt 0); lia).
    assert (H2 : inject_Z (i + 1) < inject_Z (m + 1)) by (rewrite <- Zlt_Qlt; lia).
    assert (H3 : 0 < inject_Z (m + 1)) by lra.
    assert (H4 : 0 < w / inject_Z (m + 1)) by (by apply Qlt_shift_div_l; lra).
    split; [by apply Qmult_lt_0_compat|].
    assert (H5 : inject_Z (i + 1) * (w / inject_Z (m + 1))
                 < inject_Z (m + 1) * (w / inject_Z (m + 1)))
      by (by apply Qmult_lt_compat_r).
    assert (H6 : inject_Z (m + 1) * (w / inject_Z (m + 1)) == w) by (field; lra).
    lra. }
  intros Hx Hy. split; intros Hw; simpl; by apply Hfrac.
Qed.

(** X6.  With positive grid dimensions [build_grid_topology] returns
    [num_fog_nodes_x * num_fog_nodes_y] nodes whose identifiers are
    [0, 1, 2, ...] in the order of the list, so that a node's identifier is
    its index.  Every node has the resources, the policy and the eight SLA
    parameters of the configuration, and is otherwise as the constructor
    makes it: every queue empty, nothing in service, weights of one third
    each, dual variables at zero, step sizes of 0.01.  It sits at a grid
    position, strictly inside the city rectangle when the city has a
    positive width and height. *)
Theorem build_grid_topology_grid config :
  (0 < num_fog_nodes_x config)%Z → (0 < num_fog_nodes_y config)%Z →
  ∃ topo, build_grid_topology config = Ok topo
    ∧ node_id <$> fog_nodes topo = range (num_fog_nodes_x config * num_fog_nodes_y config)
    ∧ ∀ node, node ∈ fog_nodes topo →
        node_of_config config node
        ∧ ∃ ix iy, (0 <= ix < num_fog_nodes_x config)%Z
            ∧ (0 <= iy < num_fog_nodes_y config)%Z
            ∧ node_id node = (ix * num_fog_nodes_y config + iy)%Z
            ∧ position node = grid_position config ix iy
            ∧ (0 < city_width config →
               0 < (position node).1 ∧ (position node).1 < city_width config)
            ∧ (0 < city_height config →
               0 < (position node).2 ∧ (position node).2 < city_height config).
Proof.
  intros Hx Hy. unfold build_grid_topology.
  destruct (Z.leb (num_fog_nodes_x config) 0 || Z.leb (num_fog_nodes_y config) 0) eqn:E.
  { apply orb_true_iff in E as [E|E]; apply Z.leb_le in E; lia. }
  eexists. split; [reflexivity|]. simpl. split.
  - unfold range.
    set (f := λ ix iy : Z,
      wire_sla_attrs config
        (FogNode_init (ix * num_fog_nodes_y config + iy)%Z
           (inject_Z (ix + 1)
              * (city_width config / inject_Z (num_fog_nodes_x config + 1)),
            inject_Z (iy + 1)
              * (city_height config / inject_Z (num_fog_nodes_y config + 1)))
           (fog_cpu_capacity config) (fog_link_capacity config)
           (fog_max_queue_length config) (cfg_scheduler config))).
    assert (Hid : ∀ ix iy, node_id (f ix iy)
                           = (ix * Z.of_nat (Z.to_nat (num_fog_nodes_y config)) + iy)%Z).
    { intros ix iy. subst f. simpl. lia. }
    unfold fmap, list_fmap.
    rewrite (grid_ids f (Z.to_nat (num_fog_nodes_y config)) Hid).
    f_equal. f_equal. lia.
  - intros node (ix & Hix%list_elem_of_In%elem_of_range
                    & (iy & <- & Hiy%list_elem_of_In%elem_of_range)%in_map_iff)%list_elem_of_In%in_flat_map.
    split.
    + unfold node_of_config, queued_refs, is_sla, weights_normalized. simpl.
      do 13 (split; [done|]). split; [by repeat case_match|].
      do 9 (split; [done|]). repeat split; by vm_compute.
    + exists ix, iy. do 2 (split; [done|]). split; [done|]. split; [done|].
      apply (grid_position_inside config ix iy Hix Hiy).
Qed.

Lemma build_grid_topology_grid_witness :
  ∃ topo, build_grid_topology default_config = Ok topo
    ∧ node_id <$> fog_nodes topo = [0; 1; 2; 3]%Z.
Proof.
  destruct (build_grid_topology_grid default_config) as (topo & Hb & Hids & _).
  - simpl. lia.
  - simpl. lia.
  - exists topo. split; [exact Hb|exact Hids].
Defined.

(** ** What a node keeps *)

Lemma node_params_fields n n' :
  node_params n' = node_params n →
  scheduler n' = scheduler n ∧ is_sla n' = is_sla n
  ∧ cpu_capacity n' = cpu_capacity n ∧ link_capacity n' = link_capacity n
  ∧ max_queue_length n' = max_queue_length n ∧ sla_eps n' = sla_eps n.
Proof.
  unfold node_params, is_sla. intros [= _ _ -> -> -> -> _ _ _ _ _ _ _ _ _ _ ->]. done.
Qed.

Lemma dynamic_ops_params cls r n :
  node_params (dynamic_append cls r n) = node_params n
  ∧ node_params (dynamic_appendleft cls r n) = node_params n
  ∧ adaptive_state (dynamic_append cls r n) = adaptive_state n
  ∧ adaptive_state (dynamic_appendleft cls r n) = adaptive_state n.
Proof.
  unfold dynamic_append, dynamic_appendleft.
  by destruct (Z.eqb cls 3), (Z.eqb cls 2).
Qed.

Lemma dynamic_pop_params cls n n' :
  dynamic_pop cls n = Ok n' →
  node_params n' = node_params n ∧ adaptive_state n' = adaptive_state n.
Proof.
  unfold dynamic_pop.
  destruct (Z.eqb cls 3); [|destruct (Z.eqb cls 2)];
    (destruct (deque_pop _) as [q|]; simpl; [|done]); by intros [= <-].
Qed.

Lemma enqueue_request_params h n request dt h' n' res :
  enqueue_request h n request dt = Ok (h', n', res) →
  node_params n' = node_params n ∧ adaptive_state n' = adaptive_state n.
Proof.
  unfold enqueue_request.
  destruct (if max_queue_length n is Some m then Z.leb m (_get_total_queue_length n) else false).
  { by intros [= _ <- _]. }
  destruct (is_sla n).
  - destruct (_admission_control_check_timebased h n request) as [[]|]; simpl; [| |done].
    2:{ by intros [= _ <- _]. }
    destruct (dynamic_ops_params (priority_class (h !!! request)) request n)
      as (Hp & _ & Ha & _).
    rewrite current_request_dynamic_append.
    destruct (current_request n) as [cur|]; [|by intros [= _ <- _]].
    destruct (Qltb _ _); [|by intros [= _ <- _]].
    destruct (dynamic_pop _ _) as [n2|] eqn:Epop; simpl; [|done].
    intros [= _ <- _]. apply dynamic_pop_params in Epop as [Hp2 Ha2].
    destruct (dynamic_ops_params (priority_class (h !!! cur)) cur
                (dynamic_append (priority_class (h !!! request)) request n))
      as (_ & Hp3 & _ & Ha3).
    split.
    + etrans; [|exact Hp]. etrans; [|exact Hp3]. exact Hp2.
    + etrans; [|exact Ha]. etrans; [|exact Ha3]. exact Ha2.
  - repeat case_match; simplify_eq; by intros [= _ <- _].
Qed.

Lemma process_one_step_params h n now dt h' n' completed :
  process_one_step h n now dt = Ok (h', n', completed) →
  node_params n' = node_params n
  ∧ current_link_load n' = current_link_load n
  ∧ total_rejected_due_to_deadline n' = total_rejected_due_to_deadline n.
Proof.
  intros [left Hstep]%process_one_step_inv. revert Hstep. unfold process_one_step_cap.
  destruct (is_sla n).
  - destruct (sla_loop _ now dt _ h n []) as [[[[c1 h1] n1] d1]|] eqn:Eloop; simpl; [|done].
    destruct (sla_window_boundary h1 n1 now) as [n2|] eqn:Ew; simpl; [|done].
    intros [= _ _ <- _].
    apply sla_loop_static in Eloop. apply sla_window_boundary_static in Ew.
    split; [|split].
    + etrans; [exact (f_equal node_params Ew)|exact (f_equal node_params Eloop)].
    + etrans; [exact (f_equal current_link_load Ew)|exact (f_equal current_link_load Eloop)].
    + etrans; [exact (f_equal total_rejected_due_to_deadline Ew)
              |exact (f_equal total_rejected_due_to_deadline Eloop)].
  - repeat case_match; by intros [= _ _ <- _].
Qed.

(** X7.  A node with a queue bound never holds more requests than the bound:
    on a node that holds at most [max_queue_length] requests,
    [enqueue_request] and [process_one_step] keep the bound and leave at most
    [max_queue_length] requests in the node, the request in service of the SLA
    policy included. *)
Theorem queue_bound_kept h n m :
  max_queue_length n = Some m → (queue_length n <= m)%Z →
  (∀ request dt h' n' res,
     enqueue_request h n request dt = Ok (h', n', res) →
     max_queue_length n' = Some m ∧ (queue_length n' <= m)%Z)
  ∧ (∀ now dt h' n' completed,
       process_one_step h n now dt = Ok (h', n', completed) →
       max_queue_length n' = Some m ∧ (queue_length n' <= m)%Z).
Proof.
  intros Hm Hlen. split.
  - intros request dt h' n' [ok reason] Henq.
    destruct (enqueue_request_params _ _ _ _ _ _ _ Henq) as [Hp _].
    split; [rewrite <- Hm; exact (f_equal (λ p, p.1.1.1.1.2) Hp)|].
    rewrite (enqueue_request_count _ _ _ _ _ _ _ _ Henq).
    destruct ok; [|lia].
    revert Henq. unfold enqueue_request. rewrite Hm.
    destruct (Z.leb m (_get_total_queue_length n)) eqn:E; [by intros [=]|].
    intros _. apply Z.leb_gt in E. unfold queue_length. lia.
  - intros now dt h' n' completed Hstep.
    destruct (process_one_step_params _ _ _ _ _ _ _ Hstep) as [Hp _].
    split; [rewrite <- Hm; exact (f_equal (λ p, p.1.1.1.1.2) Hp)|].
    apply process_one_step_count in Hstep. unfold len in Hstep. lia.
Qed.

Lemma queue_bound_kept_witness :
  match enqueue_request c1_store c2_node 1%nat 1 with
  | Ok (h', n', res) => max_queue_length n' = Some 1%Z ∧ (queue_length n' <= 1)%Z
  | Raise _ => False
  end.
Proof.
  destruct (enqueue_request c1_store c2_node 1%nat 1) as [[[h' n'] res]|] eqn:E;
    [|by vm_compute in E].
  apply (proj1 (queue_bound_kept c1_store c2_node 1%Z eq_refl ltac:(by vm_compute))
           1%nat 1 h' n' res E).
Defined.

(** ** First in, first out *)

(** X8.  A node whose scheduler is none of the three other policies (FIFO,
    or any other name) serves in the order of admission: a step completes
    the requests at the head of the queue, in queue order, and leaves the
    rest in place, with budget left only when the queue is empty; an admitted
    request joins the queue at its tail. *)
Theorem fifo_order h n :
  is_sla n = false →
  scheduler n ≠ "STATIC_PRIORITY" → scheduler n ≠ "EMERGENCY_FIRST" →
  (∀ now dt capacity_left h' n' completed,
     process_one_step_cap h n now dt = Ok (capacity_left, h', n', completed) →
     ∃ k, completed = take k (queue n) ∧ queue n' = drop k (queue n)
          ∧ (queue n' ≠ [] → capacity_left <= 0))
  ∧ (∀ request dt h' n' reason,
       enqueue_request h n request dt = Ok (h', n', (true, reason)) →
       queue n' = queue n ++ [request]).
Proof.
  intros Hsla Hsp%String.eqb_neq Hef%String.eqb_neq. split.
  - intros now dt capacity_left h' n' completed. unfold process_one_step_cap.
    rewrite Hsla, Hsp, Hef.
    destruct (drain now dt (queue n) _ h []) as [[[q c] h1] d] eqn:Ed.
    intros [= <- <- <- <-].
    destruct (drain_run now dt _ _ _ _ _ _ _ _ _ (λ r H, H) Ed) as (_ & k & Hq & Hd & Hb).
    exists k. simpl. split; [exact Hd|]. split; [exact Hq|exact Hb].
  - intros request dt h' n' reason. unfold enqueue_request.
    destruct (if max_queue_length n is Some m then Z.leb m (_get_total_queue_length n) else false);
      [by intros [=]|].
    rewrite Hsla, Hsp, Hef.
    destruct (if max_queue_length n is Some m then Z.leb m (len (queue n)) else false);
      [by intros [=]|].
    simpl. destruct (link_capacity n); by intros [= _ <- _].
Qed.

Lemma fifo_order_witness :
  match process_one_step_cap c3_store
          (set_queue [0%nat] (FogNode_init 0 (0, 0) 1 None None "FIFO")) 0 1 with
  | Ok (capacity_left, h', n', completed) =>
      ∃ k, completed = take k [0%nat] ∧ queue n' = drop k [0%nat]
           ∧ (queue n' ≠ [] → capacity_left <= 0)
  | Raise _ => False
  end.
Proof.
  destruct (process_one_step_cap _ _ 0 1) as [[[[c h'] n'] completed]|] eqn:E;
    [|by vm_compute in E].
  apply (proj1 (fifo_order c3_store
                  (set_queue [0%nat] (FogNode_init 0 (0, 0) 1 None None "FIFO"))
                  eq_refl ltac:(done) ltac:(done)) 0 1 c h' n' completed E).
Defined.

(** ** The adaptation of the weights *)

(** X9.  [process_one_step] touches the state of the adaptation (weights,
    dual variables, time of the last update) only at a window boundary of an
    SLA node: there it records [current_time] as the time of the last
    update, whether or not the update found a completion in the window;
    everywhere else, and on every node of another policy, that state is
    exactly what it was. *)
Theorem weights_adapt_at_window_boundaries h n now dt h' n' completed :
  process_one_step h n now dt = Ok (h', n', completed) →
  (at_window_boundary n now → _last_window_update n' = now)
  ∧ (¬ at_window_boundary n now → adaptive_state n' = adaptive_state n).
Proof.
  intros [left Hstep]%process_one_step_inv. revert Hstep.
  unfold process_one_step_cap, at_window_boundary.
  destruct (is_sla n).
  2:{ intros Hstep. split; [by intros [? _]|]. intros _. revert Hstep.
      repeat case_match; by intros [= _ _ <- _]. }
  destruct (sla_loop _ now dt _ h n []) as [[[[c1 h1] n1] d1]|] eqn:Eloop; simpl; [|done].
  apply sla_loop_static in Eloop.
  assert (Ha : adaptive_state n1 = adaptive_state n)
    by exact (f_equal adaptive_state Eloop).
  assert (HTW : sla_window_TW n1 = sla_window_TW n)
    by exact (f_equal sla_window_TW Eloop).
  assert (Hlast : _last_window_update n1 = _last_window_update n)
    by exact (f_equal _last_window_update Eloop).
  unfold sla_window_boundary. rewrite HTW, Hlast.
  destruct (Qle_bool _ _) eqn:Etest.
  - destruct (_update_sla_weights_window h1 n1 now) as [n2|]; simpl; [|done].
    intros [= _ _ <- _]. split; [done|]. intros []. split; [done|].
    by apply Qle_bool_iff.
  - simpl. intros [= _ _ <- _]. split; [|done].
    intros [_ Hb%Qle_bool_iff]. congruence.
Qed.

Lemma weights_adapt_at_window_boundaries_witness :
  match process_one_step c1_store c1_node 0 1 with
  | Ok (h', n', completed) =>
      (at_window_boundary c1_node 0 → _last_window_update n' = 0)
      ∧ (¬ at_window_boundary c1_node 0 → adaptive_state n' = adaptive_state c1_node)
  | Raise _ => False
  end.
Proof.
  destruct (process_one_step c1_store c1_node 0 1) as [[[h' n'] completed]|] eqn:E;
    [|by vm_compute in E].
  apply (weights_adapt_at_window_boundaries c1_store c1_node 0 1 h' n' completed E).
Defined.

Lemma Qdiv_le_iff (a b s : Q) : 0 < s → (a / s <= b / s ↔ a <= b).
Proof.
  intros Hs. split; [|by apply Qdiv_le_mono].
  intros H. apply (Qmult_le_compat_r _ _ s) in H; [|lra].
  assert (Ha : a / s * s == a) by (field; lra).
  assert (Hb : b / s * s == b) by (field; lra). lra.
Qed.

(** X10.  The weights are ordered as the dual variables they come from:
    that holds of a freshly constructed node, and with [eps > 0] every
    weight update keeps it.  An update that finds no completion within the
    window [current_time - TW, ...] leaves the node as it is. *)
Theorem weights_ordered_as_duals :
  (∀ id pos cpu link maxq sched,
     weights_follow_duals (FogNode_init id pos cpu link maxq sched))
  ∧ (∀ h n current_time n',
       0 < getattr (sla_eps n) (1 # 1000000) →
       weights_follow_duals n →
       _update_sla_weights_window h n current_time = Ok n' →
       weights_follow_duals n')
  ∧ (∀ h n current_time,
       (∀ r c, r ∈ _completed_history n → completion_time (h !!! r) = Some c →
               c < current_time - getattr (sla_window_TW n) 10) →
       _update_sla_weights_window h n current_time = Ok n).
Proof.
  split; [|split].
  - intros. unfold weights_follow_duals. simpl. repeat split; intros _; lra.
  - intros h n t n' Heps Hn. unfold _update_sla_weights_window.
    destruct (List.filter _ (_completed_history n)) as [|r0 w]; [by intros [= <-]|].
    set (l1 := py_max 0 _). set (l2 := py_max 0 _). set (l3 := py_max 0 _).
    set (eps := getattr (sla_eps n) (1 # 1000000)) in *.
    assert (H1 : 0 <= l1) by apply py_max_ge_l.
    assert (H2 : 0 <= l2) by apply py_max_ge_l.
    assert (H3 : 0 <= l3) by apply py_max_ge_l.
    destruct (Qeq_bool _ 0); [done|]. intros [= <-].
    unfold weights_follow_duals. simpl.
    rewrite !Qdiv_le_iff by lra. repeat split; intros; lra.
  - intros h n t Hold. unfold _update_sla_weights_window.
    destruct (List.filter _ (_completed_history n)) as [|r0 w] eqn:Ef; [done|].
    assert (Hr : r0 ∈ List.filter
              (λ r, match completion_time (h !!! r) with
                    | Some c => Qle_bool (t - getattr (sla_window_TW n) 10) c
                    | None => false
                    end) (_completed_history n)) by (rewrite Ef; left).
    apply list_elem_of_In, filter_In in Hr as [Hr%list_elem_of_In Hc].
    destruct (completion_time (h !!! r0)) as [c|] eqn:Ec; [|done].
    apply Qle_bool_iff in Hc. specialize (Hold r0 c Hr Ec). lra.
Qed.

Lemma weights_ordered_as_duals_witness :
  match c6_once with
  | Ok n' => weights_follow_duals n'
  | Raise _ => False
  end.
Proof.
  destruct c6_once as [n'|] eqn:E; [|by vm_compute in E].
  apply (proj1 (proj2 weights_ordered_as_duals) c6_store c6_node 20 n').
  - by vm_compute.
  - apply (proj1 weights_ordered_as_duals).
  - exact E.
Defined.

(** ** Preemption at admission *)

Lemma priority_score_weights h n n' r t :
  adaptive_state n' = adaptive_state n →
  _priority_score h n' r t = _priority_score h n r t.
Proof.
  intros Ha. unfold _priority_score.
  by rewrite (f_equal (λ p, p.1.1.1.1) Ha : alpha n' = alpha n),
    (f_equal (λ p, p.1.1.1.2) Ha : beta n' = beta n),
    (f_equal (λ p, p.1.1.2) Ha : gamma n' = gamma n).
Qed.

(** X11.  A request that an SLA node admits while another one is in service
    takes its place exactly when its priority score at its arrival time is
    strictly higher.  Then it is the request in service and is in no queue,
    and the request it replaced is back at the head of the queue of its
    class; the store changes at most by the start time of the newcomer, so
    the work done on the replaced request is kept.  Otherwise the request in
    service stays, and the newcomer waits at the tail of the queue of its
    class; it waits there too when nothing is in service. *)
Theorem sla_preemption h n request dt h' n' reason :
  is_sla n = true →
  enqueue_request h n request dt = Ok (h', n', (true, reason)) →
  match current_request n with
  | Some cur =>
      let t := arrival_time (h !!! request) in
      (_priority_score h n cur t < _priority_score h n request t →
       current_request n' = Some request
       ∧ class_queues n'
         = class_queues (dynamic_appendleft (priority_class (h !!! cur)) cur n)
       ∧ h' = mark_started t h request)
      ∧ (_priority_score h n request t <= _priority_score h n cur t →
         current_request n' = Some cur
         ∧ class_queues n'
           = class_queues (dynamic_append (priority_class (h !!! request)) request n)
         ∧ h' = h)
  | None =>
      current_request n' = None
      ∧ class_queues n'
        = class_queues (dynamic_append (priority_class (h !!! request)) request n)
      ∧ h' = h
  end.
Proof.
  intros Hsla. unfold enqueue_request.
  destruct (if max_queue_length n is Some m then Z.leb m (_get_total_queue_length n) else false);
    [by intros [=]|].
  rewrite Hsla.
  destruct (_admission_control_check_timebased h n request) as [[]|]; simpl; [|done..].
  rewrite current_request_dynamic_append.
  destruct (dynamic_ops_params (priority_class (h !!! request)) request n)
    as (_ & _ & Ha & _).
  destruct (current_request n) as [cur|] eqn:Ecur.
  2:{ intros [= <- <- _]. by rewrite current_request_dynamic_append. }
  rewrite !(priority_score_weights h n _ _ _ Ha).
  destruct (Qltb _ _) eqn:Escore.
  - rewrite dynamic_pop_appendleft_append. simpl. intros [= <- <- _].
    apply Qltb_lt in Escore. split; [done|]. intros Hle. lra.
  - intros [= <- <- _]. apply Qltb_ge in Escore. split; [intros Hlt; lra|].
    intros _. by rewrite current_request_dynamic_append.
Qed.

Lemma sla_preemption_witness :
  match enqueue_request c9_store preempt_node 1%nat 1 with
  | Ok (h', n', _) =>
      current_request n' = Some 1%nat
      ∧ class_queues n' = ([], [], [0%nat])
      ∧ remaining_demand (h' !!! 0%nat) = 100
  | Raise _ => False
  end.
Proof.
  destruct (enqueue_request c9_store preempt_node 1%nat 1) as [[[h' n'] [ok reason]]|] eqn:E;
    [|by vm_compute in E].
  assert (Hok : ok = true) by (vm_compute in E; by injection E as _ _ <- _).
  subst ok.
  destruct (proj1 (sla_preemption c9_store preempt_node 1%nat 1 h' n' reason eq_refl E))
    as (Hcur & Hq & Hh).
  - by vm_compute.
  - split; [exact Hcur|]. split; [exact Hq|]. by rewrite Hh.
Defined.

(** ** The request generator *)

(** X12.  The three tables of the generator agree: a type is an emergency
    type exactly when its priority class is 3, every class is 1, 2 or 3, the
    relative deadline lies in the range of the class (5 to 10 seconds for
    class 3, 15 to 30 for class 2, 60 to 120 for class 1), the demand and
    the data size are positive, and the latency objective of a type is never
    beyond its relative deadline. *)
Theorem request_type_tables_agree request_type :
  ((_defaults_for_type request_type).2 = true
   ↔ _priority_class_for_type request_type = 3%Z)
  ∧ _priority_class_for_type request_type ∈ [1; 2; 3]%Z
  ∧ (_priority_class_for_type request_type = 3%Z →
     5 <= _relative_deadline_for_type request_type <= 10)
  ∧ (_priority_class_for_type request_type = 2%Z →
     15 <= _relative_deadline_for_type request_type <= 30)
  ∧ (_priority_class_for_type request_type = 1%Z →
     60 <= _relative_deadline_for_type request_type <= 120)
  ∧ 0 < (_defaults_for_type request_type).1.1.1
  ∧ 0 < (_defaults_for_type request_type).1.1.2
  ∧ (∀ slo, (_defaults_for_type request_type).1.2 = Some slo →
            slo <= _relative_deadline_for_type request_type).
Proof.
  destruct request_type; simpl;
    (split; [by split|]);
    (split; [repeat constructor|]);
    (split; [try done; intros _; by split|]);
    (split; [try done; intros _; by split|]);
    (split; [try done; intros _; by split|]);
    (split; [done|]); (split; [done|]); by intros ? [= <-].
Qed.

Lemma defaults_for_type_positive request_type :
  0 < (_defaults_for_type request_type).1.1.1.
Proof. by destruct request_type. Qed.

Lemma bernoulli_trials_spec p : ∀ k num g,
  ∃ num', bernoulli_trials k p num g
          = (num', mkRng (rng_stream g) (k + rng_pos g))
    ∧ (num <= num' <= num + k)%nat
    ∧ (rng_in_unit g → p <= 0 → num' = num)
    ∧ (rng_in_unit g → 1 <= p → num' = (num + k)%nat).
Proof.
  induction k as [|k IH]; intros num g.
  - exists num. destruct g. simpl. split; [done|]. split; [lia|]. split; intros; lia.
  - cbn [bernoulli_trials]. unfold random_random.
    destruct (IH (if Qltb (rng_stream g (rng_pos g)) p then S num else num)
                 (mkRng (rng_stream g) (S (rng_pos g))))
      as (num' & -> & Hb & H0 & H1).
    exists num'. simpl. rewrite Nat.add_succ_r. split; [done|].
    split; [destruct (Qltb _ p); lia|].
    split; intros Hg Hp.
    + rewrite H0; [|done..]. destruct (Qltb _ p) eqn:E; [|done].
      apply Qltb_lt in E. destruct (Hg (rng_pos g)). lra.
    + rewrite H1; [|done..]. destruct (Qltb _ p) eqn:E; [lia|].
      apply Qltb_ge in E. destruct (Hg (rng_pos g)). lra.
Qed.

Lemma make_request_spec t gen g h next_ref reqs :
  ∃ rq,
    make_request t (gen, g, h, next_ref, reqs)
    = (mkRequestGenerator (gen_config gen) (next_request_id gen + 1)%Z
         (type_probabilities gen),
       mkRng (rng_stream g) (3 + rng_pos g),
       <[next_ref := rq]> h, S next_ref, reqs ++ [next_ref])
    ∧ request_id rq = next_request_id gen
    ∧ generated_request t rq
    ∧ source_position rq
      = (0 + (city_width (gen_config gen) - 0) * rng_stream g (1 + rng_pos g),
         0 + (city_height (gen_config gen) - 0) * rng_stream g (2 + rng_pos g)).
Proof.
  unfold make_request, _sample_request_type, random_uniform, random_random. simpl.
  set (rt := match sample_from (rng_stream g (rng_pos g)) 0 (type_probabilities gen) with
             | Some rt => rt
             | None => List.last (map fst (type_probabilities gen)) TRIP_SUMMARY_ANALYTICS
             end).
  assert (Hrt : (match sample_from (rng_stream g (rng_pos g)) 0 (type_probabilities gen) with
                 | Some rt => (rt, mkRng (rng_stream g) (S (rng_pos g)))
                 | None => (List.last (map fst (type_probabilities gen)) TRIP_SUMMARY_ANALYTICS,
                            mkRng (rng_stream g) (S (rng_pos g)))
                 end) = (rt, mkRng (rng_stream g) (S (rng_pos g))))
    by (subst rt; by destruct (sample_from _ 0 _)).
  rewrite Hrt.
  destruct (_defaults_for_type rt) as [[[proc data] slo] emerg] eqn:Edef. simpl.
  eexists. split; [reflexivity|]. split; [done|]. split; [|done].
  unfold generated_request. simpl. by rewrite Edef.
Qed.

Lemma make_requests_spec t gen g h next_ref : ∀ k,
  ∃ h',
    Nat.iter k (make_request t) (gen, g, h, next_ref, [])
    = (mkRequestGenerator (gen_config gen) (next_request_id gen + Z.of_nat k)%Z
         (type_probabilities gen),
       mkRng (rng_stream g) (3 * k + rng_pos g),
       h', (next_ref + k)%nat, seq next_ref k)
    ∧ (∀ r, (r < next_ref)%nat → h' !! r = h !! r)
    ∧ (∀ i, (i < k)%nat →
         ∃ rq, h' !! (next_ref + i)%nat = Some rq
           ∧ request_id rq = (next_request_id gen + Z.of_nat i)%Z
           ∧ generated_request t rq
           ∧ source_position rq
             = (0 + (city_width (gen_config gen) - 0)
                    * rng_stream g (1 + (3 * i + rng_pos g)),
                0 + (city_height (gen_config gen) - 0)
                    * rng_stream g (2 + (3 * i + rng_pos g)))).
Proof.
  induction k as [|k (h1 & IH & Hframe & Hnew)].
  - exists h. destruct gen, g. simpl. rewrite Z.add_0_r, Nat.add_0_r.
    split; [done|]. split; [done|]. intros i Hi. lia.
  - rewrite Nat.iter_succ, IH.
    destruct (make_request_spec t
                (mkRequestGenerator (gen_config gen) (next_request_id gen + Z.of_nat k)%Z
                   (type_probabilities gen))
                (mkRng (rng_stream g) (3 * k + rng_pos g)) h1 (next_ref + k)%nat
                (seq next_ref k)) as (rq & -> & Hid & Hshape & Hpos).
    exists (<[(next_ref + k)%nat := rq]> h1). cbn [gen_config next_request_id
      type_probabilities rng_stream rng_pos] in *.
    split.
    { rewrite seq_S. repeat (f_equal; try lia). }
    split.
    + intros r Hr. rewrite lookup_insert_ne by lia. by apply Hframe.
    + intros i Hi. destruct (decide (i = k)) as [->|Hne].
      * exists rq. by rewrite lookup_insert_eq.
      * rewrite lookup_insert_ne by lia. apply Hnew. lia.
Qed.

Lemma generate_requests_spec gen g h next_ref t :
  (max_requests_per_step (gen_config gen) <= 0)%Z
  ∧ generate_requests gen g h next_ref t = (gen, g, h, next_ref, [])
  ∨ (0 < max_requests_per_step (gen_config gen))%Z
    ∧ ∃ k h',
      generate_requests gen g h next_ref t
      = (mkRequestGenerator (gen_config gen) (next_request_id gen + Z.of_nat k)%Z
           (type_probabilities gen),
         mkRng (rng_stream g)
           (3 * k + (Z.to_nat (max_requests_per_step (gen_config gen)) + rng_pos g)),
         h', (next_ref + k)%nat, seq next_ref k)
      ∧ (k <= Z.to_nat (max_requests_per_step (gen_config gen)))%nat
      ∧ (rng_in_unit g → avg_requests_per_step (gen_config gen) <= 0 → k = 0%nat)
      ∧ (rng_in_unit g →
         inject_Z (max_requests_per_step (gen_config gen))
           <= avg_requests_per_step (gen_config gen) →
         k = Z.to_nat (max_requests_per_step (gen_config gen)))
      ∧ (∀ r, (r < next_ref)%nat → h' !! r = h !! r)
      ∧ (∀ i, (i < k)%nat →
           ∃ rq, h' !! (next_ref + i)%nat = Some rq
             ∧ request_id rq = (next_request_id gen + Z.of_nat i)%Z
             ∧ generated_request t rq
             ∧ (rng_in_unit g → 0 <= city_width (gen_config gen) →
                0 <= city_height (gen_config gen) →
                in_city (gen_config gen) (source_position rq))).
Proof.
  unfold generate_requests.
  destruct (Z.leb (max_requests_per_step (gen_config gen)) 0) eqn:Emax.
  { left. by apply Z.leb_le in Emax. }
  apply Z.leb_gt in Emax. right. split; [done|].
  set (p := if Qltb 0 (avg_requests_per_step (gen_config gen))
            then py_min 1 (avg_requests_per_step (gen_config gen)
                           / inject_Z (max_requests_per_step (gen_config gen)))
            else 0).
  destruct (bernoulli_trials_spec p (Z.to_nat (max_requests_per_step (gen_config gen)))
              0%nat g) as (k & -> & Hk & H0 & H1).
  destruct (make_requests_spec t gen
              (mkRng (rng_stream g)
                 (Z.to_nat (max_requests_per_step (gen_config gen)) + rng_pos g))
              h next_ref k) as (h' & -> & Hframe & Hnew).
  exists k, h'. split; [done|]. split; [lia|].
  assert (Hmax : 0 < inject_Z (max_requests_per_step (gen_config gen)))
    by (rewrite <- (Zlt_Qlt 0); lia).
  split; [|split; [|split; [done|]]].
  - intros Hg Havg. apply H0; [done|]. subst p.
    destruct (Qltb 0 _) eqn:E; [apply Qltb_lt in E|]; lra.
  - intros Hg Havg. rewrite H1; [lia|done|]. subst p.
    destruct (Qltb 0 _) eqn:E; [|apply Qltb_ge in E; lra].
    apply py_min_glb; [lra|]. apply Qle_shift_div_l; [done|lra].
  - intros i Hi. destruct (Hnew i Hi) as (rq & Hrq & Hid & Hshape & Hpos).
    exists rq. do 3 (split; [done|]). intros Hg Hw Hh. unfold in_city. rewrite Hpos.
    cbn [fst snd rng_stream rng_pos].
    set (u1 := rng_stream g _). set (u2 := rng_stream g _).
    assert (Hu1 : 0 <= u1 ∧ u1 < 1) by apply Hg.
    assert (Hu2 : 0 <= u2 ∧ u2 < 1) by apply Hg.
    destruct (Qmult_unit_bounds (city_width (gen_config gen)) u1 Hw) as [? ?]; [lra|].
    destruct (Qmult_unit_bounds (city_height (gen_config gen)) u2 Hh) as [? ?]; [lra|].
    split; split; ring_simplify; lra.
Qed.

(** X13.  [generate_requests] makes at most [max_requests_per_step]
    requests in a step.  Their identifiers are consecutive, from
    [next_request_id] on, in the order of the returned list, and the
    generator's counter moves on by their number, so that no identifier is
    ever given twice; the request objects that existed before are not
    touched.  A call with a positive [max_requests_per_step] consumes one
    random draw per arrival slot and three for each request made. *)
Theorem generate_requests_identifiers gen g h next_ref current_time gen' g' h' next_ref' reqs :
  generate_requests gen g h next_ref current_time = (gen', g', h', next_ref', reqs) →
  (Z.of_nat (length reqs) <= Z.max 0 (max_requests_per_step (gen_config gen)))%Z
  ∧ gen' = mkRequestGenerator (gen_config gen)
             (next_request_id gen + Z.of_nat (length reqs))%Z (type_probabilities gen)
  ∧ reqs = seq next_ref (length reqs)
  ∧ next_ref' = (next_ref + length reqs)%nat
  ∧ (∀ i r, reqs !! i = Some r →
       request_id (h' !!! r) = (next_request_id gen + Z.of_nat i)%Z)
  ∧ (∀ r, (r < next_ref)%nat → h' !! r = h !! r)
  ∧ rng_stream g' = rng_stream g
  ∧ rng_pos g'
    = (if Z.leb (max_requests_per_step (gen_config gen)) 0 then rng_pos g
       else 3 * length reqs + (Z.to_nat (max_requests_per_step (gen_config gen)) + rng_pos g))%nat.
Proof.
  destruct (generate_requests_spec gen g h next_ref current_time)
    as [[Hmax ->]|(Hmax & k & h1 & -> & Hk & _ & _ & Hframe & Hnew)];
    intros [= <- <- <- <- <-].
  - apply Z.leb_le in Hmax as Hmax'. rewrite Hmax'. destruct gen. simpl.
    rewrite Z.add_0_r. do 4 (split; [done || lia|]). split; [|done].
    intros i r Hi. by rewrite lookup_nil in Hi.
  - apply Z.leb_gt in Hmax as Hmax'. rewrite Hmax', length_seq.
    split; [lia|]. do 3 (split; [done|]). split; [|done].
    intros i r [-> Hi]%lookup_seq.
    destruct (Hnew i Hi) as (rq & Hrq & Hid & _).
    by rewrite (lookup_total_correct _ _ _ Hrq).
Qed.

Lemma generate_requests_identifiers_witness :
  match generate_requests busy_generator steady_rng ∅ 0%nat 0 with
  | (gen', g', h', next_ref', reqs) =>
      (Z.of_nat (length reqs) <= 4)%Z
      ∧ reqs = seq 0 (length reqs)
      ∧ next_request_id gen' = Z.of_nat (length reqs)
  end.
Proof.
  destruct (generate_requests busy_generator steady_rng ∅ 0%nat 0)
    as [[[[gen' g'] h'] next_ref'] reqs] eqn:E.
  destruct (generate_requests_identifiers _ _ _ _ _ _ _ _ _ _ E)
    as (Hlen & -> & Hreqs & _).
  split; [exact Hlen|]. split; [exact Hreqs|]. reflexivity.
Defined.

(** X14.  Every request that [generate_requests] returns at [current_time]
    arrives at that time, carries the demand, the size, the class and the
    relative deadline that the tables give for its type, has all its work
    still to do, an absolute deadline of [current_time + relative_deadline_s],
    and no fog node, start time or completion time yet; its position lies in
    the city rectangle (draws in [0, 1), a city of non-negative width and
    height). *)
Theorem generate_requests_fresh gen g h next_ref current_time gen' g' h' next_ref' reqs r :
  generate_requests gen g h next_ref current_time = (gen', g', h', next_ref', reqs) →
  r ∈ reqs →
  generated_request current_time (h' !!! r)
  ∧ 0 < remaining_demand (h' !!! r)
  ∧ (rng_in_unit g → 0 <= city_width (gen_config gen) →
     0 <= city_height (gen_config gen) →
     in_city (gen_config gen) (source_position (h' !!! r))).
Proof.
  destruct (generate_requests_spec gen g h next_ref current_time)
    as [[Hmax ->]|(Hmax & k & h1 & -> & Hk & _ & _ & Hframe & Hnew)];
    intros [= <- <- <- <- <-] Hr.
  - by apply elem_of_nil in Hr.
  - apply elem_of_seq in Hr.
    destruct (Hnew (r - next_ref)%nat) as (rq & Hrq & _ & Hshape & Hpos); [lia|].
    replace (next_ref + (r - next_ref))%nat with r in Hrq by lia.
    rewrite (lookup_total_correct _ _ _ Hrq). split; [done|]. split; [|done].
    destruct Hshape as (_ & Hdef & -> & _).
    assert (Hp := defaults_for_type_positive (request_type rq)).
    by rewrite <- Hdef in Hp.
Qed.

Lemma generate_requests_fresh_witness :
  match generate_requests busy_generator steady_rng ∅ 0%nat 7 with
  | (gen', g', h', next_ref', reqs) =>
      generated_request 7 (h' !!! 0%nat) ∧ 0 < remaining_demand (h' !!! 0%nat)
  end.
Proof.
  destruct (generate_requests busy_generator steady_rng ∅ 0%nat 7)
    as [[[[gen' g'] h'] next_ref'] reqs] eqn:E.
  destruct (generate_requests_fresh _ _ _ _ _ _ _ _ _ _ 0%nat E) as (Hshape & Hpos & _).
  - vm_compute in E. injection E as _ _ _ _ <-. by left.
  - split; [exact Hshape|exact Hpos].
Defined.

(** X15.  The two ends of the arrival rate (draws in [0, 1), a positive
    number of slots): with [avg_requests_per_step <= 0] no request is
    generated, and with [avg_requests_per_step >= max_requests_per_step]
    every slot yields one, [max_requests_per_step] requests in each step. *)
Theorem generate_requests_rate_limits gen g h next_ref current_time :
  rng_in_unit g →
  (0 < max_requests_per_step (gen_config gen))%Z →
  (avg_requests_per_step (gen_config gen) <= 0 →
   (generate_requests gen g h next_ref current_time).2 = [])
  ∧ (inject_Z (max_requests_per_step (gen_config gen))
       <= avg_requests_per_step (gen_config gen) →
     length (generate_requests gen g h next_ref current_time).2
     = Z.to_nat (max_requests_per_step (gen_config gen))).
Proof.
  intros Hg Hmax.
  destruct (generate_requests_spec gen g h next_ref current_time)
    as [[Hmax' _]|(_ & k & h1 & -> & Hk & H0 & H1 & _)]; [lia|].
  cbn [snd]. split; intros Havg.
  - by rewrite (H0 Hg Havg).
  - by rewrite length_seq, (H1 Hg Havg).
Qed.

Lemma generate_requests_rate_limits_witness :
  length (generate_requests busy_generator steady_rng ∅ 0%nat 0).2 = 4%nat.
Proof.
  apply (proj2 (generate_requests_rate_limits busy_generator steady_rng ∅ 0%nat 0
                  ltac:(intros i; split; by vm_compute) ltac:(by vm_compute))).
  by vm_compute.
Defined.

(** ** The simulation loop, phase by phase *)

Lemma sim_step_phases sim time dt sim' :
  sim_step sim time dt = Ok sim' →
  ∃ gen g h nref new_requests h1 topo1 m1 h2 topo2 all_completed,
    generate_requests (generator sim) (rng sim) (store sim) (next_ref sim) time
    = (gen, g, h, nref, new_requests)
    ∧ foldM (route_request dt)
        (h, mkFogTopology (map reset_step_state (fog_nodes (topology sim))),
         record_generated (metrics sim) new_requests) new_requests
      = Ok (h1, topo1, m1)
    ∧ foldM (process_node time dt) (h1, topo1, []) (seq 0 (length (fog_nodes topo1)))
      = Ok (h2, topo2, all_completed)
    ∧ sim' = mkSimulation (config sim) topo2 gen
               (step_advance (record_queue_lengths (record_completed m1 all_completed)
                                (fog_nodes topo2)))
               h2 nref g.
Proof.
  unfold sim_step, all_nodes.
  destruct (generate_requests _ _ _ _ time) as [[[[gen g] h] nref] new_requests].
  destruct (foldM (route_request dt) _ new_requests) as [[[h1 topo1] m1]|] eqn:Er;
    simpl; [|done].
  destruct (foldM (process_node time dt) _ _) as [[[h2 topo2] done2]|] eqn:Ep;
    simpl; [|done].
  intros [= <-]. by exists gen, g, h, nref, new_requests, h1, topo1, m1, h2, topo2, done2.
Qed.

Lemma run_steps_invariant (I : nat → Simulation → Q → Prop) :
  (∀ s sim time sim',
     I s sim time → Qltb time (sim_time (config sim)) = true →
     sim_step sim time (run_dt (config sim)) = Ok sim' →
     I (S s) sim' (time + run_dt (config sim'))) →
  ∀ k s sim time sim' time',
    I s sim time →
    run_steps k sim time = Ok (sim', time') →
    ∃ s', (s <= s' <= s + k)%nat ∧ I s' sim' time'
          ∧ ((s' < s + k)%nat → Qltb time' (sim_time (config sim')) = false).
Proof.
  intros Hstep. induction k as [|k IH]; intros s sim time sim' time' HI; simpl.
  { intros [= <- <-]. exists s. split; [lia|]. split; [done|]. lia. }
  destruct (Qltb time _) eqn:Et.
  2:{ intros [= <- <-]. exists s. split; [lia|]. split; [done|]. done. }
  destruct (sim_step sim time _) as [sim1|] eqn:E; simpl; [|done].
  intros Hrun. apply (IH (S s)) in Hrun as (s' & Hs & HI' & Hend).
  - exists s'. split; [lia|]. split; [done|]. intros Hlt. apply Hend. lia.
  - exact (Hstep s sim time sim1 HI Et E).
Qed.

(** ** The collector's series and tallies *)

Lemma Zsum_snoc xs x : Zsum (xs ++ [x]) = (Zsum xs + x)%Z.
Proof. unfold Zsum. induction xs as [|y xs IH]; simpl; lia. Qed.

Lemma reason_count_incr m k k' :
  default 0%Z (incr k (dropped_by_reason m) !! k')
  = (reason_count m k' + (if decide (k = k') then 1 else 0))%Z.
Proof.
  unfold incr, reason_count. destruct (decide (k = k')) as [->|Hne].
  - by rewrite lookup_insert_eq.
  - rewrite lookup_insert_ne by done. lia.
Qed.

Lemma enqueue_request_outcome h n request dt h' n' ok reason :
  enqueue_request h n request dt = Ok (h', n', (ok, reason)) →
  ((ok = true ∧ reason = None)
   ∨ (ok = false ∧ reason = Some "queue_full")
   ∨ (ok = false ∧ reason = Some "admission_rejected" ∧ is_sla n = true))
  ∧ total_rejected_due_to_deadline n'
    = (total_rejected_due_to_deadline n
       + (if bool_decide (reason = Some "admission_rejected") then 1 else 0))%Z
  ∧ (current_link_load n' = current_link_load n
     ∨ (ok = true ∧ is_sla n = false ∧ is_Some (link_capacity n)
        ∧ current_link_load n' = current_link_load n + data_size (h !!! request))).
Proof.
  unfold enqueue_request.
  destruct (if max_queue_length n is Some m then Z.leb m (_get_total_queue_length n) else false).
  { intros [= <- <- <- <-]. split; [auto|]. split; [simpl; lia|by left]. }
  destruct (is_sla n) eqn:Esla.
  - destruct (_admission_control_check_timebased h n request) as [[]|]; simpl; [| |done].
    2:{ intros [= <- <- <- <-]. split; [auto|]. split; [by simpl|by left]. }
    assert (Hc : ∀ cls r x,
      total_rejected_due_to_deadline (dynamic_append cls r x) = total_rejected_due_to_deadline x
      ∧ total_rejected_due_to_deadline (dynamic_appendleft cls r x)
        = total_rejected_due_to_deadline x
      ∧ current_link_load (dynamic_append cls r x) = current_link_load x
      ∧ current_link_load (dynamic_appendleft cls r x) = current_link_load x).
    { intros cls r x. unfold dynamic_append, dynamic_appendleft.
      by destruct (Z.eqb cls 3), (Z.eqb cls 2). }
    destruct (Hc (priority_class (h !!! request)) request n) as (Hr & _ & Hl & _).
    rewrite current_request_dynamic_append.
    destruct (current_request n) as [cur|].
    2:{ intros [= <- <- <- <-]. split; [auto|]. split; [simpl; lia|by left]. }
    destruct (Qltb _ _).
    2:{ intros [= <- <- <- <-]. split; [auto|]. split; [simpl; lia|by left]. }
    rewrite dynamic_pop_appendleft_append. simpl. intros [= <- <- <- <-].
    destruct (Hc (priority_class (h !!! cur)) cur n) as (_ & Hr2 & _ & Hl2).
    split; [auto|]. simpl. split; [lia|by left].
  - destruct (String.eqb (scheduler n) "STATIC_PRIORITY");
      [|destruct (String.eqb (scheduler n) "EMERGENCY_FIRST")].
    + destruct (Z.eqb _ 3); [|destruct (Z.eqb _ 2)]; simpl;
        destruct (link_capacity n); intros [= <- <- <- <-];
        (split; [auto|]); (split; [simpl; lia|]); simpl; auto.
    + destruct (is_emergency _); simpl;
        destruct (link_capacity n); intros [= <- <- <- <-];
        (split; [auto|]); (split; [simpl; lia|]); simpl; auto.
    + destruct (if max_queue_length n is Some m then Z.leb m (len (queue n)) else false).
      { intros [= <- <- <- <-]. split; [auto|]. split; [simpl; lia|by left]. }
      simpl. destruct (link_capacity n); intros [= <- <- <- <-];
        (split; [auto|]); (split; [simpl; lia|]); simpl; auto.
Qed.

Lemma route_request_outcome dt h topo m req h' topo' m' :
  route_request dt (h, topo, m) req = Ok (h', topo', m') →
  ∃ i n0 n1,
    fog_nodes topo !! i = Some n0
    ∧ fog_nodes topo' = <[i := n1]> (fog_nodes topo)
    ∧ node_params n1 = node_params n0
    ∧ ((m' = count_admitted m
        ∧ total_rejected_due_to_deadline n1 = total_rejected_due_to_deadline n0)
       ∨ (m' = record_rejected m "admission_rejected"
          ∧ total_rejected_due_to_deadline n1 = (total_rejected_due_to_deadline n0 + 1)%Z
          ∧ is_sla n0 = true)
       ∨ (m' = record_dropped m "queue_full"
          ∧ total_rejected_due_to_deadline n1 = total_rejected_due_to_deadline n0)
       ∨ (m' = record_dropped m "link_capacity" ∧ n1 = n0)).
Proof.
  unfold route_request.
  destruct (get_nearest_fog topo _) as [i|] eqn:Ei; simpl; [|done].
  apply get_nearest_fog_lt in Ei.
  destruct (lookup_lt_is_Some_2 _ _ Ei) as [n0 Hn0].
  rewrite (list_lookup_total_correct _ _ _ Hn0).
  destruct (can_accept_request _ _ req dt).
  - destruct (enqueue_request _ _ req dt) as [[[h1 n1] [ok reason]]|] eqn:Eenq;
      simpl; [|done].
    destruct (enqueue_request_params _ _ _ _ _ _ _ Eenq) as [Hp _].
    apply enqueue_request_outcome in Eenq
      as ([[-> ->]|[[-> ->]|(-> & -> & Hsla)]] & Hrej & _); simpl in Hrej.
    + intros [= <- <- <-]. exists i, n0, n1. do 3 (split; [done|]). left. split; [done|lia].
    + intros [= <- <- <-]. exists i, n0, n1. do 3 (split; [done|]).
      right. right. left. split; [done|lia].
    + intros [= <- <- <-]. exists i, n0, n1. do 3 (split; [done|]). right. left. done.
  - intros [= <- <- <-]. exists i, n0, n0. split; [done|].
    split; [by rewrite list_insert_id|]. split; [done|]. by repeat right.
Qed.

Lemma metrics_consistent_init : metrics_consistent MetricsCollector_init.
Proof.
  split; try done.
  intros k [x Hk]. simpl in Hk. by rewrite lookup_empty in Hk.
Qed.

Lemma incr_keys m k k' :
  (∀ k, is_Some (dropped_by_reason m !! k) →
        k ∈ ["queue_full"; "link_capacity"; "admission_rejected"]) →
  k ∈ ["queue_full"; "link_capacity"; "admission_rejected"] →
  is_Some (incr k (dropped_by_reason m) !! k') →
  k' ∈ ["queue_full"; "link_capacity"; "admission_rejected"].
Proof.
  intros Hkeys Hk. unfold incr. destruct (decide (k = k')) as [<-|Hne]; [done|].
  rewrite lookup_insert_ne by done. apply Hkeys.
Qed.

Lemma route_metrics_consistent m m' :
  metrics_consistent m →
  m' = count_admitted m ∨ m' = record_rejected m "admission_rejected"
  ∨ m' = record_dropped m "queue_full" ∨ m' = record_dropped m "link_capacity" →
  metrics_consistent m'
  ∧ per_step_generated m' = per_step_generated m
  ∧ per_step_completed m' = per_step_completed m
  ∧ per_step_dropped m' = per_step_dropped m
  ∧ avg_queue_lengths m' = avg_queue_lengths m
  ∧ max_queue_lengths m' = max_queue_lengths m.
Proof.
  intros [Hg Hc Hd Hrd Hrr Hk Hn] Hm'. split; [|by destruct Hm' as [-> | [-> | [-> | ->]]]].
  unfold reason_count in *.
  destruct Hm' as [-> | [-> | [-> | ->]]]; split;
    unfold reason_count; simpl; rewrite ?reason_count_incr; unfold reason_count;
    repeat case_decide; try done; try lia.
  - intros k. apply incr_keys; [done|]. do 2 right. by left.
  - intros k. apply incr_keys; [done|]. by left.
  - intros k. apply incr_keys; [done|]. right. by left.
Qed.

Lemma Zsum_app xs ys : Zsum (xs ++ ys) = (Zsum xs + Zsum ys)%Z.
Proof. unfold Zsum. induction xs as [|y xs IH]; simpl; lia. Qed.

Lemma Zsum_insert (l : list Z) i x y :
  l !! i = Some x → Zsum (<[i := y]> l) = (Zsum l - x + y)%Z.
Proof.
  intros Hi. rewrite insert_take_drop by (by eapply lookup_lt_Some).
  rewrite <- (take_drop_middle l i x Hi) at 3.
  rewrite !Zsum_app. change (Zsum (y :: drop (S i) l)) with (y + Zsum (drop (S i) l))%Z.
  change (Zsum (x :: drop (S i) l)) with (x + Zsum (drop (S i) l))%Z. lia.
Qed.

Lemma collect_rejected_sum nodes :
  collect_rejected_due_to_deadline nodes = Zsum (total_rejected_due_to_deadline <$> nodes).
Proof.
  unfold collect_rejected_due_to_deadline.
  assert (H : ∀ acc, fold_left (λ acc node, (acc + total_rejected_due_to_deadline node)%Z)
                       nodes acc
                     = (acc + Zsum (total_rejected_due_to_deadline <$> nodes))%Z).
  { unfold Zsum. induction nodes as [|n nodes IH]; intros acc; [simpl; lia|].
    rewrite fmap_cons. cbn [fold_left foldr]. rewrite IH. lia. }
  rewrite H. lia.
Qed.

(** What the routing of one request keeps and counts. *)
Lemma route_request_tallies dt h topo m req h' topo' m' :
  metrics_consistent m →
  route_request dt (h, topo, m) req = Ok (h', topo', m') →
  metrics_consistent m'
  ∧ (per_step_generated m' = per_step_generated m
     ∧ per_step_completed m' = per_step_completed m
     ∧ per_step_dropped m' = per_step_dropped m
     ∧ avg_queue_lengths m' = avg_queue_lengths m
     ∧ max_queue_lengths m' = max_queue_lengths m)
  ∧ node_params <$> fog_nodes topo' = node_params <$> fog_nodes topo
  ∧ (Zsum (total_rejected_due_to_deadline <$> fog_nodes topo') - total_rejected m'
     = Zsum (total_rejected_due_to_deadline <$> fog_nodes topo) - total_rejected m)%Z
  ∧ (total_rejected m' = total_rejected m
     ∨ ∃ n0, n0 ∈ fog_nodes topo ∧ is_sla n0 = true).
Proof.
  intros Hm (i & n0 & n1 & Hi & -> & Hp & Hcase)%route_request_outcome.
  assert (Hm' : m' = count_admitted m ∨ m' = record_rejected m "admission_rejected"
                ∨ m' = record_dropped m "queue_full"
                ∨ m' = record_dropped m "link_capacity")
    by (destruct Hcase as [[? _]|[(? & _)|[[? _]|[? _]]]]; auto).
  destruct (route_metrics_consistent m m' Hm Hm') as [Hc Hs].
  split; [done|]. split; [done|]. split.
  { rewrite list_fmap_insert, Hp. apply list_insert_id. by rewrite list_lookup_fmap, Hi. }
  rewrite list_fmap_insert.
  rewrite (Zsum_insert _ i (total_rejected_due_to_deadline n0))
    by (by rewrite list_lookup_fmap, Hi).
  destruct Hcase as [[-> Hr]|[(-> & Hr & Hsla)|[[-> Hr]|[-> ->]]]]; simpl;
    (split; [lia|]); try (by left).
  right. exists n0. split; [by eapply list_elem_of_lookup_2|done].
Qed.

Lemma route_requests_tallies dt reqs : ∀ h topo m h' topo' m',
  metrics_consistent m →
  foldM (route_request dt) (h, topo, m) reqs = Ok (h', topo', m') →
  metrics_consistent m'
  ∧ (per_step_generated m' = per_step_generated m
     ∧ per_step_completed m' = per_step_completed m
     ∧ per_step_dropped m' = per_step_dropped m
     ∧ avg_queue_lengths m' = avg_queue_lengths m
     ∧ max_queue_lengths m' = max_queue_lengths m)
  ∧ node_params <$> fog_nodes topo' = node_params <$> fog_nodes topo
  ∧ (Zsum (total_rejected_due_to_deadline <$> fog_nodes topo') - total_rejected m'
     = Zsum (total_rejected_due_to_deadline <$> fog_nodes topo) - total_rejected m)%Z
  ∧ (total_rejected m' = total_rejected m
     ∨ ∃ p, p ∈ node_params <$> fog_nodes topo ∧ p.1.1.1.2 ∈ ["DYNAMIC_PRIORITY"; "SLA-DWP-Fog"]).
Proof.
  induction reqs as [|r reqs IH]; intros h topo m h' topo' m' Hm; simpl.
  { intros [= <- <- <-]. do 4 (split; [done|]). by left. }
  destruct (route_request dt (h, topo, m) r) as [[[h1 topo1] m1]|] eqn:E1; simpl; [|done].
  apply route_request_tallies in E1 as (Hm1 & (S1 & S2 & S3 & S4 & S5) & P1 & R1 & N1);
    [|done].
  intros (Hm2 & (T1 & T2 & T3 & T4 & T5) & P2 & R2 & N2)%IH; [|done].
  split; [done|]. split; [by rewrite T1, T2, T3, T4, T5|].
  split; [by rewrite P2|]. split; [lia|].
  destruct N2 as [N2|N2]; [|right; by rewrite <- P1].
  destruct N1 as [N1|(n0 & Hn0 & Hsla)]; [left; lia|]. right.
  exists (node_params n0). split; [by apply list_elem_of_fmap_2|].
  simpl. unfold is_sla in Hsla.
  apply orb_true_iff in Hsla as [->%String.eqb_eq| ->%String.eqb_eq]; [by left|right; by left].
Qed.

Lemma process_node_static time dt h topo acc i h' topo' acc' :
  (i < length (fog_nodes topo))%nat →
  process_node time dt (h, topo, acc) i = Ok (h', topo', acc') →
  node_kept <$> fog_nodes topo' = node_kept <$> fog_nodes topo.
Proof.
  intros Hi. unfold process_node.
  destruct (lookup_lt_is_Some_2 _ _ Hi) as [n0 Hn0].
  rewrite (list_lookup_total_correct _ _ _ Hn0).
  destruct (process_one_step h n0 time dt) as [[[h1 n1] d1]|] eqn:E; simpl; [|done].
  intros [= <- <- <-]. simpl. apply process_one_step_params in E as (Hp & Hl & Hr).
  rewrite list_fmap_insert. unfold node_kept at 1. rewrite Hp, Hl, Hr.
  apply list_insert_id. by rewrite list_lookup_fmap, Hn0.
Qed.

Lemma process_nodes_static time dt idxs : ∀ h topo acc h' topo' acc',
  (∀ i, i ∈ idxs → (i < length (fog_nodes topo))%nat) →
  foldM (process_node time dt) (h, topo, acc) idxs = Ok (h', topo', acc') →
  node_kept <$> fog_nodes topo' = node_kept <$> fog_nodes topo.
Proof.
  induction idxs as [|i idxs IH]; intros h topo acc h' topo' acc' Hlt; simpl.
  { by intros [= <- <- <-]. }
  destruct (process_node time dt (h, topo, acc) i) as [[[h1 topo1] acc1]|] eqn:E1;
    simpl; [|done].
  apply process_node_static in E1 as P1; [|apply Hlt; by left].
  intros P2%IH.
  - by rewrite P2.
  - intros j Hj. rewrite <- (length_fmap node_kept), P1, length_fmap. apply Hlt. by right.
Qed.

Lemma fmap_proj {A B C} (g : A → B) (f : B → C) (l l' : list A) :
  g <$> l' = g <$> l → (f ∘ g) <$> l' = (f ∘ g) <$> l.
Proof. intros H. by rewrite !list_fmap_compose, H. Qed.

(** ** The tallies along a run *)

Lemma build_grid_topology_nodes cfg topo :
  build_grid_topology cfg = Ok topo →
  fog_nodes topo ≠ []
  ∧ ∀ n, n ∈ fog_nodes topo →
      ∃ id pos, n = wire_sla_attrs cfg
                      (FogNode_init id pos (fog_cpu_capacity cfg) (fog_link_capacity cfg)
                         (fog_max_queue_length cfg) (cfg_scheduler cfg)).
Proof.
  unfold build_grid_topology.
  destruct (Z.leb (num_fog_nodes_x cfg) 0 || Z.leb (num_fog_nodes_y cfg) 0) eqn:E; [done|].
  apply orb_false_iff in E as [Ex%Z.leb_gt Ey%Z.leb_gt]. intros [= <-]. simpl. split.
  - intros Hnil. apply (f_equal (@length FogNode)) in Hnil. revert Hnil.
    assert (Hx : range (num_fog_nodes_x cfg) = 0%Z :: range (num_fog_nodes_x cfg - 1)
                   ∨ ∃ l, range (num_fog_nodes_x cfg) = 0%Z :: l).
    { right. unfold range. destruct (Z.to_nat (num_fog_nodes_x cfg)) eqn:En; [lia|].
      simpl. eauto. }
    destruct Hx as [Hx|[l Hx]]; rewrite Hx; simpl; rewrite length_app, length_map;
      unfold range; rewrite length_map, length_seq; simpl; lia.
  - intros n (ix & _ & (iy & <- & _)%in_map_iff)%list_elem_of_In%in_flat_map. eauto.
Qed.

Lemma record_queue_lengths_totals m nodes :
  nodes ≠ [] →
  ∃ avg_len max_len,
    record_queue_lengths m nodes
    = mkMetricsCollector (total_generated m) (total_completed m)
        (total_dropped m) (total_admitted m) (total_rejected m) (dropped_by_reason m)
        (per_step_generated m) (per_step_completed m)
        (per_step_dropped m) (_current_step_dropped m)
        (avg_queue_lengths m ++ [avg_len]) (max_queue_lengths m ++ [max_len]).
Proof. destruct nodes; [done|]. intros _. simpl. eauto. Qed.

Lemma sim_step_tallies cfg s sim time sim' :
  run_tallies cfg s sim time →
  Qltb time (sim_time (config sim)) = true →
  sim_step sim time (run_dt (config sim)) = Ok sim' →
  run_tallies cfg (S s) sim' (time + run_dt (config sim')).
Proof.
  intros [Hcfg Htime _ Hm Hs Hnodes Hsched Hrej Hsla] Hbefore%Qltb_lt.
  intros (gen & g & h & nref & reqs & h1 & topo1 & m1 & h2 & topo2 & done2
          & _ & Hroute & Hproc & ->)%sim_step_phases.
  assert (Hm0 : metrics_consistent (record_generated (metrics sim) reqs)).
  { destruct Hm as [Hg Hc Hd Hrd Hrr Hk Hn]. split; try done; simpl.
    - rewrite Zsum_snoc. lia.
    - unfold len. lia. }
  apply route_requests_tallies in Hroute
    as (Hm1 & (S1 & S2 & S3 & S4 & S5) & P1 & R1 & N1); [|done].
  cbn [fog_nodes] in P1, R1, N1.
  assert (Hreset : ∀ {A} (f : FogNode → A),
            (∀ n, f (reset_step_state n) = f n) →
            f <$> map reset_step_state (fog_nodes (topology sim))
            = f <$> fog_nodes (topology sim)).
  { intros A f Hf. change (map reset_step_state) with (fmap (M := list) reset_step_state).
    rewrite <- list_fmap_compose. apply list_fmap_ext. intros i n _. apply Hf. }
  rewrite (Hreset _ node_params) in P1 by done.
  rewrite (Hreset _ total_rejected_due_to_deadline) in R1 by done.
  rewrite (Hreset _ node_params) in N1 by done.
  apply process_nodes_static in Hproc as K2; [|intros i Hi%elem_of_seq; lia].
  assert (P2 := fmap_proj node_kept (λ p, p.1.1) _ _ K2).
  assert (R2 := fmap_proj node_kept (λ p, p.2) _ _ K2).
  change ((λ p, p.1.1) ∘ node_kept) with node_params in P2.
  change ((λ p, p.2) ∘ node_kept) with total_rejected_due_to_deadline in R2.
  assert (Hlen : length (fog_nodes topo2) = length (fog_nodes (topology sim))).
  { by rewrite <- (length_fmap node_params), P2, P1, length_fmap. }
  assert (Hne : fog_nodes topo2 ≠ []).
  { intros Hnil. rewrite Hnil in Hlen. by destruct (fog_nodes (topology sim)). }
  assert (Hsched' : ∀ n, n ∈ fog_nodes topo2 → scheduler n = cfg_scheduler cfg).
  { intros n Hn. apply (list_elem_of_fmap_2 node_params) in Hn.
    rewrite P2, P1 in Hn. apply list_elem_of_fmap in Hn as (n0 & Hp & Hn0).
    rewrite <- (Hsched n0 Hn0). exact (f_equal (λ p, p.1.1.1.2) Hp). }
  destruct (record_queue_lengths_totals (record_completed m1 done2) (fog_nodes topo2) Hne)
    as (avg_len & max_len & ->).
  destruct Hs as (L1 & L2 & L3 & L4 & L5 & L6). simpl in S1, S2, S3, S4, S5.
  destruct Hm1 as [Hg Hc Hd Hrd Hrr Hk Hn].
  split; cbn [config topology metrics step_advance record_completed
              total_generated total_completed total_dropped total_admitted
              total_rejected dropped_by_reason per_step_generated per_step_completed
              per_step_dropped _current_step_dropped avg_queue_lengths max_queue_lengths].
  - done.
  - rewrite Hcfg.
    assert (HS : inject_Z (Z.of_nat (S s)) == inject_Z (Z.of_nat s) + 1).
    { rewrite Nat2Z.inj_succ. unfold Z.succ. by rewrite inject_Z_plus. }
    rewrite HS, Htime. ring.
  - intros _. rewrite Hcfg in *. lra.
  - split; simpl; try done.
    + rewrite Zsum_snoc. lia.
    + rewrite Zsum_snoc. lia.
    + unfold len. lia.
  - unfold series_lengths. simpl.
    rewrite !length_app, S1, S2, S3, S4, S5, length_app, L1, L2, L3, L4, L5. simpl.
    repeat split; lia.
  - done.
  - done.
  - rewrite R2. simpl in R1. lia.
  - destruct Hsla as [H0|Hsla]; [|by right].
    destruct N1 as [N1|(p & (n0 & -> & Hn0)%list_elem_of_fmap & Hp)].
    + left. simpl in N1. lia.
    + right. unfold sla_scheduler. rewrite <- (Hsched n0 Hn0). exact Hp.
Qed.

Lemma Simulation_init_inv seeded_stream cfg sim0 :
  Simulation_init seeded_stream cfg = Ok sim0 →
  ∃ topo gen,
    build_grid_topology cfg = Ok topo
    ∧ RequestGenerator_init cfg = Ok gen
    ∧ sim0 = mkSimulation cfg topo gen MetricsCollector_init ∅ 0%nat
               (mkRng (seeded_stream (random_seed cfg)) 0).
Proof.
  unfold Simulation_init.
  destruct (build_grid_topology cfg) as [topo|]; cbn [mbind result_bind]; [|done].
  destruct (RequestGenerator_init cfg) as [gen|]; cbn [mbind result_bind]; [|done].
  intros [= <-]. by exists topo, gen.
Qed.

Lemma run_steps_tallies seeded_stream cfg sim0 k sim time :
  Simulation_init seeded_stream cfg = Ok sim0 →
  run_steps k sim0 0 = Ok (sim, time) →
  ∃ steps, (steps <= k)%nat
    ∧ run_tallies cfg steps sim time
    ∧ ((steps < k)%nat → sim_time cfg <= time).
Proof.
  intros (topo & gen & Hb & _ & ->)%Simulation_init_inv Hrun.
  apply build_grid_topology_nodes in Hb as [Hne Hnodes].
  assert (H0 : run_tallies cfg 0 (mkSimulation cfg topo gen MetricsCollector_init ∅ 0%nat
                 (mkRng (seeded_stream (random_seed cfg)) 0)) 0).
  { split; simpl.
    - done.
    - ring.
    - lia.
    - apply metrics_consistent_init.
    - by repeat split.
    - done.
    - intros n (id & pos & ->)%Hnodes. done.
    - assert (Hz : ∀ l : list FogNode,
                (∀ n, n ∈ l → total_rejected_due_to_deadline n = 0%Z) →
                Zsum (total_rejected_due_to_deadline <$> l) = 0%Z).
      { induction l as [|n l IH]; intros Hl; [done|]. rewrite fmap_cons.
        change (Zsum (?x :: ?xs)) with (x + Zsum xs)%Z.
        rewrite (Hl n) by (by left). rewrite IH; [done|]. intros x Hx. apply Hl. by right. }
      apply Hz. intros n (id & pos & ->)%Hnodes. done.
    - by left. }
  destruct (run_steps_invariant (run_tallies cfg)
              (sim_step_tallies cfg)
              k 0%nat _ 0 sim time H0 Hrun) as (steps & Hs & HI & Hend).
  exists steps. split; [lia|]. split; [done|]. intros Hlt.
  apply Qltb_ge. rewrite <- (rt_config _ _ _ _ HI). apply Hend. lia.
Qed.

(** X16.  At every step boundary of a run the series of the collector agree
    with its totals: after [steps] iterations of the loop (all [k] that were
    asked for, or fewer when the loop ended first) each of the five per-step
    series has [steps] entries, the per-step counts of generated, completed
    and dropped requests sum up to [total_generated], [total_completed] and
    [total_dropped], and no drop is waiting to be written to the series. *)
Theorem run_series_agree_with_totals seeded_stream cfg sim0 k sim time :
  Simulation_init seeded_stream cfg = Ok sim0 →
  run_steps k sim0 0 = Ok (sim, time) →
  ∃ steps, (steps <= k)%nat
    ∧ series_lengths steps (metrics sim)
    ∧ Zsum (per_step_generated (metrics sim)) = total_generated (metrics sim)
    ∧ Zsum (per_step_completed (metrics sim)) = total_completed (metrics sim)
    ∧ Zsum (per_step_dropped (metrics sim)) = total_dropped (metrics sim).
Proof.
  intros Hinit Hrun.
  destruct (run_steps_tallies _ _ _ _ _ _ Hinit Hrun) as (steps & Hk & HI & Hend).
  destruct HI as [_ Htime _ [Hg Hc Hd _ _ _ _] Hs _ _ _ _].
  exists steps. do 2 (split; [done|]). split; [done|]. split; [done|].
  destruct Hs as (_ & _ & _ & _ & _ & H0). rewrite H0 in Hd. lia.
Qed.

Lemma run_series_agree_with_totals_witness :
  match sim ← Simulation_init c4_stream c4_config; run_steps 5 sim 0 with
  | Ok (sim, time) =>
      ∃ steps, (steps <= 5)%nat
        ∧ series_lengths steps (metrics sim)
        ∧ Zsum (per_step_generated (metrics sim)) = total_generated (metrics sim)
  | Raise _ => False
  end.
Proof.
  destruct (Simulation_init c4_stream c4_config) as [sim0|] eqn:E0;
    [|by vm_compute in E0].
  cbn [mbind result_bind]. destruct (run_steps 5 sim0 0) as [[sim time]|] eqn:E.
  - destruct (run_series_agree_with_totals c4_stream c4_config sim0 5%nat sim time E0 E)
      as (steps & Hk & Hs & Hg & _).
    exists steps. split; [exact Hk|]. split; [exact Hs|exact Hg].
  - vm_compute in E0. injection E0 as <-. by vm_compute in E.
Defined.

(** X17.  At every step boundary of a run the tally of reasons agrees with
    the counters: the drops for a full queue and those for the link capacity
    add up to [total_dropped], the entry for admission rejections is
    [total_rejected], and no other reason is ever recorded.  The rejection
    counters of the nodes, which [Simulation.run] adds up when the loop has
    ended, sum to [total_rejected] as well; and a policy other than the SLA
    policy never rejects a request. *)
Theorem run_reasons_agree_with_counters seeded_stream cfg sim0 k sim time :
  Simulation_init seeded_stream cfg = Ok sim0 →
  run_steps k sim0 0 = Ok (sim, time) →
  (reason_count (metrics sim) "queue_full" + reason_count (metrics sim) "link_capacity")%Z
    = total_dropped (metrics sim)
  ∧ reason_count (metrics sim) "admission_rejected" = total_rejected (metrics sim)
  ∧ (∀ reason, is_Some (dropped_by_reason (metrics sim) !! reason) →
               reason ∈ ["queue_full"; "link_capacity"; "admission_rejected"])
  ∧ collect_rejected_due_to_deadline (fog_nodes (topology sim))
    = total_rejected (metrics sim)
  ∧ (¬ sla_scheduler (cfg_scheduler cfg) → total_rejected (metrics sim) = 0%Z).
Proof.
  intros Hinit Hrun.
  destruct (run_steps_tallies _ _ _ _ _ _ Hinit Hrun) as (steps & _ & HI & _).
  destruct HI as [_ _ _ [_ _ _ Hrd Hrr Hkeys _] _ _ _ Hrej Hsla].
  do 3 (split; [done|]). split; [by rewrite collect_rejected_sum|].
  intros Hn. by destruct Hsla.
Qed.

Lemma run_reasons_agree_with_counters_witness :
  match sim ← Simulation_init c4_stream c4_config; run_steps 3 sim 0 with
  | Ok (sim, time) =>
      reason_count (metrics sim) "admission_rejected" = total_rejected (metrics sim)
      ∧ collect_rejected_due_to_deadline (fog_nodes (topology sim))
        = total_rejected (metrics sim)
  | Raise _ => False
  end.
Proof.
  destruct (Simulation_init c4_stream c4_config) as [sim0|] eqn:E0;
    [|by vm_compute in E0].
  cbn [mbind result_bind]. destruct (run_steps 3 sim0 0) as [[sim time]|] eqn:E.
  - destruct (run_reasons_agree_with_counters c4_stream c4_config sim0 3%nat sim time E0 E)
      as (_ & Hr & _ & Hc & _).
    split; [exact Hr|exact Hc].
  - vm_compute in E0. injection E0 as <-. by vm_compute in E.
Defined.

(** ** The link budget *)

Lemma elem_of_insert_inv {A} (l : list A) : ∀ i x y, y ∈ <[i := x]> l → y = x ∨ y ∈ l.
Proof.
  induction l as [|a l IH]; intros i x y; [by right|].
  destruct i as [|i]; simpl.
  - intros [->|Hy]%elem_of_cons; [by left|right; by right].
  - intros [->|Hy]%elem_of_cons; [right; by left|].
    destruct (IH i x y Hy) as [->|Hl]; [by left|right; by right].
Qed.

Lemma route_request_link dt h topo m req h' topo' m' :
  route_request dt (h, topo, m) req = Ok (h', topo', m') →
  ∃ i n0 n1,
    fog_nodes topo !! i = Some n0
    ∧ fog_nodes topo' = <[i := n1]> (fog_nodes topo)
    ∧ node_params n1 = node_params n0
    ∧ (current_link_load n1 = current_link_load n0
       ∨ (is_sla n0 = false
          ∧ ∃ lc, link_capacity n0 = Some lc ∧ current_link_load n1 <= lc * dt)).
Proof.
  unfold route_request.
  destruct (get_nearest_fog topo _) as [i|] eqn:Ei; simpl; [|done].
  apply get_nearest_fog_lt in Ei.
  destruct (lookup_lt_is_Some_2 _ _ Ei) as [n0 Hn0].
  rewrite (list_lookup_total_correct _ _ _ Hn0).
  destruct (can_accept_request _ _ req dt) eqn:Eacc.
  - destruct (enqueue_request _ _ req dt) as [[[h1 n1] [ok reason]]|] eqn:Eenq;
      simpl; [|done].
    destruct (enqueue_request_params _ _ _ _ _ _ _ Eenq) as [Hp _].
    apply enqueue_request_outcome in Eenq as (_ & _ & Hload).
    intros Hres. exists i, n0, n1. split; [done|].
    split; [by destruct ok; [|destruct (bool_decide _)]; injection Hres as <- <- <-|].
    split; [done|].
    destruct Hload as [Hl|(_ & Hsla & [lc Hlc] & Hl)]; [by left|]. right.
    split; [done|]. exists lc. split; [done|]. rewrite Hl.
    unfold can_accept_request in Eacc. rewrite Hlc in Eacc. by apply Qle_bool_iff.
  - intros [= <- <- <-]. exists i, n0, n0. split; [done|].
    split; [by rewrite list_insert_id|]. split; [done|]. by left.
Qed.

Lemma route_requests_link dt reqs : ∀ h topo m h' topo' m',
  (∀ n, n ∈ fog_nodes topo →
        link_within_budget dt n ∧ (is_sla n = true → current_link_load n = 0)) →
  foldM (route_request dt) (h, topo, m) reqs = Ok (h', topo', m') →
  ∀ n, n ∈ fog_nodes topo' →
       link_within_budget dt n ∧ (is_sla n = true → current_link_load n = 0).
Proof.
  induction reqs as [|r reqs IH]; intros h topo m h' topo' m' Hl; simpl.
  { by intros [= <- <- <-]. }
  destruct (route_request dt (h, topo, m) r) as [[[h1 topo1] m1]|] eqn:E1; simpl; [|done].
  apply IH. apply route_request_link in E1 as (i & n0 & n1 & Hi & -> & Hp & Hcase).
  intros n [->|Hn]%elem_of_insert_inv; [|by apply Hl].
  destruct (Hl n0) as [Hb Hs]; [by eapply list_elem_of_lookup_2|].
  destruct (node_params_fields _ _ Hp) as (_ & Hsla & _ & Hlc & _).
  rewrite Hsla. unfold link_within_budget. rewrite Hlc.
  destruct Hcase as [->|(Hns & lc & Hlc0 & Hle)]; [done|].
  split; [right; eauto|]. intros Hs'. congruence.
Qed.

(** X18.  At every step boundary of a run the link of every node is within
    its budget: the data it admitted during the last step is at most
    [link_capacity * dt] (or nothing was counted at all); and a node of the
    SLA policy never counts any data, its link load is always 0. *)
Theorem run_link_within_budget seeded_stream cfg sim0 k sim time :
  Simulation_init seeded_stream cfg = Ok sim0 →
  run_steps k sim0 0 = Ok (sim, time) →
  ∀ n, n ∈ fog_nodes (topology sim) →
       link_within_budget (run_dt cfg) n
       ∧ (is_sla n = true → current_link_load n = 0).
Proof.
  intros Hinit Hrun.
  set (I := λ (_ : nat) (sim : Simulation) (_ : Q),
    config sim = cfg
    ∧ ∀ n, n ∈ fog_nodes (topology sim) →
           link_within_budget (run_dt cfg) n
           ∧ (is_sla n = true → current_link_load n = 0)).
  assert (H0 : I 0%nat sim0 0).
  { apply Simulation_init_inv in Hinit as (topo & gen & Hb & _ & ->).
    apply build_grid_topology_nodes in Hb as [_ Hnodes]. split; [done|].
    intros n (id & pos & ->)%Hnodes. split; [by left|done]. }
  assert (Hstep : ∀ s sim time sim',
     I s sim time → Qltb time (sim_time (config sim)) = true →
     sim_step sim time (run_dt (config sim)) = Ok sim' →
     I (S s) sim' (time + run_dt (config sim'))).
  { clear. intros s sim time sim' [Hcfg _] _.
    intros (gen & g & h & nref & reqs & h1 & topo1 & m1 & h2 & topo2 & done2
            & _ & Hroute & Hproc & ->)%sim_step_phases.
    split; [done|]. cbn [topology].
    assert (Hreset : ∀ n, n ∈ map reset_step_state (fog_nodes (topology sim)) →
              link_within_budget (run_dt (config sim)) n
              ∧ (is_sla n = true → current_link_load n = 0)).
    { intros n (n0 & <- & _)%list_elem_of_In%in_map_iff. split; [by left|done]. }
    assert (Hrouted := route_requests_link _ _ _
              (mkFogTopology (map reset_step_state (fog_nodes (topology sim))))
              _ _ _ _ Hreset Hroute).
    apply process_nodes_static in Hproc as K2; [|intros i Hi%elem_of_seq; lia].
    intros n Hn. apply (list_elem_of_fmap_2 node_kept) in Hn. rewrite K2 in Hn.
    apply list_elem_of_fmap in Hn as (n0 & Hk & Hn0).
    destruct (Hrouted n0 Hn0) as [Hb Hs]. rewrite Hcfg in Hb.
    destruct (node_params_fields _ _ (f_equal (λ p, p.1.1) Hk)) as (_ & Hsla & _ & Hlc & _).
    assert (Hl : current_link_load n = current_link_load n0)
      by exact (f_equal (λ p, p.1.2) Hk).
    unfold link_within_budget. by rewrite Hsla, Hlc, Hl. }
  destruct (run_steps_invariant I Hstep k 0%nat sim0 0 sim time H0 Hrun)
    as (s' & _ & [_ HI] & _).
  exact HI.
Qed.

Lemma run_link_within_budget_witness :
  match sim ← Simulation_init c4_stream c4_config; run_steps 3 sim 0 with
  | Ok (sim, time) =>
      Forall (λ n, link_within_budget 1 n ∧ (is_sla n = true → current_link_load n = 0))
        (fog_nodes (topology sim))
  | Raise _ => False
  end.
Proof.
  destruct (Simulation_init c4_stream c4_config) as [sim0|] eqn:E0;
    [|by vm_compute in E0].
  cbn [mbind result_bind]. destruct (run_steps 3 sim0 0) as [[sim time]|] eqn:E.
  - apply Forall_forall.
    exact (run_link_within_budget c4_stream c4_config sim0 3%nat sim time E0 E).
  - vm_compute in E0. injection E0 as <-. by vm_compute in E.
Defined.

(** ** The store and the nodes along a run *)

Lemma node_wf_ext h h' n :
  (∀ r, r ∈ queued_refs n → h' !!! r = h !!! r) →
  node_wf h n → node_wf h' n.
Proof.
  intros Hext [Hids Hlive Hcls]. split.
  - rewrite (list_fmap_ext _ (λ r, request_id (h !!! r)) (queued_refs n)); [done|].
    intros i r Hr. rewrite Hext; [done|]. by eapply list_elem_of_lookup_2.
  - intros r Hr. rewrite Hext by done. by apply Hlive.
  - intros Hsla. destruct (Hcls Hsla) as (K3 & K2 & K1).
    assert (Hq : ∀ r, r ∈ dqs n → h' !!! r = h !!! r).
    { intros r Hr. apply Hext. rewrite queued_refs_sla by done.
      unfold sla_refs. apply elem_of_app. by left. }
    unfold class_queues_ok, dqs in *.
    split; [|split]; intros r Hr; rewrite Hq; auto;
      rewrite !elem_of_app; auto.
Qed.

Lemma node_wf_reset h n : node_wf h n → node_wf h (reset_step_state n).
Proof. intros [Hids Hlive Hcls]. by split. Qed.

Lemma enqueue_request_total h n request dt :
  node_runs n → ∃ res, enqueue_request h n request dt = Ok res.
Proof.
  intros Hruns. unfold enqueue_request.
  destruct (if max_queue_length n is Some m then Z.leb m (_get_total_queue_length n) else false);
    [eauto|].
  destruct (is_sla n) eqn:Esla.
  - destruct (Hruns Esla) as [Hcpu _].
    unfold _admission_control_check_timebased.
    apply Qeq_bool_false in Hcpu. rewrite Hcpu. simpl.
    destruct (negb _); [eauto|].
    rewrite current_request_dynamic_append.
    destruct (current_request n) as [cur|]; [|eauto].
    destruct (Qltb _ _); [|eauto].
    rewrite dynamic_pop_appendleft_append. simpl. eauto.
  - repeat case_match; eauto.
Qed.

Lemma get_nearest_fog_total topo pos :
  fog_nodes topo ≠ [] →
  ∃ i, get_nearest_fog topo pos = Ok i ∧ (i < length (fog_nodes topo))%nat.
Proof.
  intros Hne. destruct (nearest_fold_spec pos (fog_nodes topo) Hne)
    as (i & node & d & Hf & Hi & _).
  exists i. unfold get_nearest_fog. rewrite Hf. split; [done|]. by eapply lookup_lt_Some.
Qed.

Lemma held_refs_insert nodes i n0 :
  nodes !! i = Some n0 →
  held_refs nodes
  = held_refs (take i nodes) ++ queued_refs n0 ++ held_refs (drop (S i) nodes)
  ∧ ∀ n1, held_refs (<[i := n1]> nodes)
          = held_refs (take i nodes) ++ queued_refs n1 ++ held_refs (drop (S i) nodes).
Proof.
  intros Hi. unfold held_refs. split.
  - rewrite <- (take_drop_middle nodes i n0 Hi) at 1. by rewrite bind_app, bind_cons.
  - intros n1. rewrite insert_take_drop by (by eapply lookup_lt_Some).
    by rewrite bind_app, bind_cons.
Qed.

Lemma held_refs_elem nodes n r : n ∈ nodes → r ∈ queued_refs n → r ∈ held_refs nodes.
Proof. intros Hn Hr. apply list_elem_of_bind. eauto. Qed.

Lemma held_refs_disjoint : ∀ nodes i j n0 n r,
  NoDup (held_refs nodes) →
  nodes !! i = Some n0 → nodes !! j = Some n → i ≠ j →
  r ∈ queued_refs n → r ∉ queued_refs n0.
Proof.
  induction nodes as [|a l IH]; intros i j n0 n r Hnd Hi Hj Hne Hr Hr0; [done|].
  unfold held_refs in Hnd. rewrite bind_cons in Hnd.
  apply NoDup_app in Hnd as (_ & Hdis & Hnd).
  destruct i as [|i], j as [|j]; simpl in Hi, Hj; simplify_eq.
  - apply (Hdis r Hr0). eapply held_refs_elem; [by eapply list_elem_of_lookup_2|done].
  - apply (Hdis r Hr). eapply held_refs_elem; [by eapply list_elem_of_lookup_2|done].
  - eapply (IH i j n0 n r); eauto.
Qed.

Lemma NoDup_replace_middle (pre q0 post q1 : list ref) :
  NoDup (pre ++ q0 ++ post) → NoDup q1 →
  (∀ r, r ∈ q1 → (r ∉ pre) ∧ (r ∉ post)) →
  NoDup (pre ++ q1 ++ post).
Proof.
  intros (Hpre & Hdis & (_ & _ & Hpost)%NoDup_app)%NoDup_app Hq1 Hsub.
  apply NoDup_app. split; [done|]. split.
  - intros r Hr [Hr1|Hr2]%elem_of_app.
    + by destruct (Hsub r Hr1).
    + apply (Hdis r Hr). rewrite !elem_of_app. auto.
  - apply NoDup_app. split; [done|]. split; [|done].
    intros r Hr. by destruct (Hsub r Hr).
Qed.

Lemma NoDup_middle_disjoint (pre q0 post : list ref) r :
  NoDup (pre ++ q0 ++ post) → r ∈ q0 → (r ∉ pre) ∧ (r ∉ post).
Proof.
  intros (_ & Hdis & (_ & Hdis' & _)%NoDup_app)%NoDup_app Hr. split.
  - intros Hp. apply (Hdis r Hp). rewrite elem_of_app. auto.
  - by apply Hdis'.
Qed.

(** Routing the next request, the one numbered [b]. *)
Lemma route_request_wf dt h topo m b nref :
  sim_wf h (fog_nodes topo) b nref → (b < nref)%nat →
  fog_nodes topo ≠ [] → (∀ n, n ∈ fog_nodes topo → node_runs n) →
  ∃ h' topo' m',
    route_request dt (h, topo, m) b = Ok (h', topo', m')
    ∧ sim_wf h' (fog_nodes topo') (S b) nref
    ∧ node_params <$> fog_nodes topo' = node_params <$> fog_nodes topo.
Proof.
  intros [Hnd Hbound Hwf Hids Hnew] Hb Hne Hruns. unfold route_request.
  destruct (get_nearest_fog_total topo (source_position (h !!! b)) Hne) as (i & -> & Hi).
  cbn [mbind result_bind].
  destruct (lookup_lt_is_Some_2 _ _ Hi) as [n0 Hn0].
  rewrite (list_lookup_total_correct _ _ _ Hn0).
  assert (Hin0 : n0 ∈ fog_nodes topo) by (by eapply list_elem_of_lookup_2).
  set (h1 := <[b := set_assigned_fog_id (Some (node_id n0)) (h !!! b)]> h).
  assert (H1ne : ∀ r, r ≠ b → h1 !!! r = h !!! r)
    by (intros r Hr; subst h1; by rewrite lookup_total_insert_ne).
  assert (H1b : h1 !!! b = set_assigned_fog_id (Some (node_id n0)) (h !!! b))
    by (subst h1; by rewrite lookup_total_insert_eq).
  assert (Hheld : ∀ n r, n ∈ fog_nodes topo → r ∈ queued_refs n → r ≠ b).
  { intros n r Hn Hr ->. specialize (Hbound b (held_refs_elem _ _ _ Hn Hr)). lia. }
  assert (Hb_held : b ∉ held_refs (fog_nodes topo)).
  { intros Hin. specialize (Hbound b Hin). lia. }
  assert (Hwf1 : ∀ n, n ∈ fog_nodes topo → node_wf h1 n).
  { intros n Hn. apply (node_wf_ext h); [|by apply Hwf].
    intros r Hr. apply H1ne. by eapply Hheld. }
  assert (Hids1 : ∀ h2 : gmap nat Request, (∀ r, r ≠ b → h2 !!! r = h !!! r) →
            request_id (h2 !!! b) = request_id (h !!! b) →
            ∀ r, (r < nref)%nat → request_id (h2 !!! r) = Z.of_nat r).
  { intros h2 H2ne H2b r Hr. destruct (decide (r = b)) as [->|Hrb].
    - rewrite H2b. by apply Hids.
    - rewrite H2ne by done. by apply Hids. }
  assert (Hnew1 : ∀ h2 : gmap nat Request, (∀ r, r ≠ b → h2 !!! r = h !!! r) →
            ∀ r, (S b <= r < nref)%nat →
                 completion_time (h2 !!! r) = None ∧ 0 < remaining_demand (h2 !!! r)).
  { intros h2 H2ne r Hr. rewrite H2ne by lia. apply Hnew. lia. }
  destruct (can_accept_request h1 n0 b dt).
  2:{ eexists _, _, _. split; [reflexivity|]. split; [|done]. split.
      - done.
      - intros r Hr. specialize (Hbound r Hr). lia.
      - done.
      - apply Hids1; [done|]. by rewrite H1b.
      - by apply Hnew1. }
  destruct (enqueue_request_total h1 n0 b dt (Hruns n0 Hin0)) as [[[h2 n1] [ok reason]] Eenq].
  rewrite Eenq. cbn [mbind result_bind].
  destruct (enqueue_request_params _ _ _ _ _ _ _ Eenq) as [Hp _].
  assert (Heff := enqueue_request_effects _ _ _ _ _ _ _ _ Eenq).
  destruct Heff as (_ & Hq & Hh & _).
  assert (Hfr : ∀ x, remaining_demand (h2 !!! x) = remaining_demand (h1 !!! x)
                     ∧ completion_time (h2 !!! x) = completion_time (h1 !!! x)
                     ∧ frozen (h2 !!! x) = frozen (h1 !!! x)).
  { intros x. destruct Hh as [->|[-> _]]; [done|apply mark_started_fields]. }
  assert (H2ne : ∀ r, r ≠ b → h2 !!! r = h !!! r).
  { intros r Hr. rewrite <- (H1ne r Hr). destruct Hh as [->|[-> _]]; [done|].
    rewrite mark_started_lookup. by rewrite decide_False. }
  assert (H2b : request_id (h2 !!! b) = request_id (h !!! b)).
  { destruct (Hfr b) as (_ & _ & Hf). apply frozen_request_id in Hf. by rewrite Hf, H1b. }
  assert (Hfresh : fresh_request h1 n0 b).
  { split; [|split].
    - intros (r & Hid & Hr)%list_elem_of_fmap.
      assert (Hrb : r ≠ b) by (by eapply Hheld).
      rewrite H1b, (H1ne r Hrb) in Hid. simpl in Hid.
      assert (Hlt : (r < b)%nat) by (apply Hbound; by eapply held_refs_elem).
      rewrite !Hids in Hid by lia. lia.
    - rewrite H1b. simpl. apply Hnew. lia.
    - rewrite H1b. simpl. apply Hnew. lia. }
  assert (Hwf2 : node_wf h2 n1)
    by exact (enqueue_request_wf _ _ _ _ _ _ _ _ (Hwf1 n0 Hin0) Hfresh Eenq).
  assert (Hsub : ∀ r, r ∈ queued_refs n1 → r = b ∨ r ∈ queued_refs n0).
  { intros r Hr. destruct ok; [|rewrite <- Hq; by right].
    rewrite Hq in Hr. by apply elem_of_cons in Hr. }
  destruct (held_refs_insert _ _ _ Hn0) as [Hheld0 Hheld1].
  assert (Hsim : sim_wf h2 (<[i := n1]> (fog_nodes topo)) (S b) nref).
  { split.
    - rewrite Hheld1. rewrite Hheld0 in Hnd, Hb_held.
      apply (NoDup_replace_middle _ _ _ _ Hnd); [by eapply node_wf_NoDup|].
      intros r [->|Hr]%Hsub.
      + rewrite !elem_of_app in Hb_held. split; intros ?; apply Hb_held; auto.
      + by eapply NoDup_middle_disjoint.
    - intros r. rewrite Hheld1. intros Hr.
      assert (Hor : r = b ∨ r ∈ held_refs (fog_nodes topo)).
      { rewrite Hheld0. rewrite !elem_of_app in Hr |- *.
        destruct Hr as [?|[[->|?]%Hsub|?]]; auto. }
      destruct Hor as [->|Hr']; [lia|]. specialize (Hbound r Hr'). lia.
    - intros n [->|Hn]%elem_of_insert_inv; [done|].
      apply (node_wf_ext h); [|by apply Hwf].
      intros r Hr. apply H2ne. by eapply Hheld.
    - by apply Hids1.
    - by apply Hnew1. }
  assert (Hpar : node_params <$> <[i := n1]> (fog_nodes topo) = node_params <$> fog_nodes topo).
  { rewrite list_fmap_insert, Hp. apply list_insert_id. by rewrite list_lookup_fmap, Hn0. }
  destruct ok; [|destruct (bool_decide _)]; eexists _, _, _; (split; [reflexivity|done]).
Qed.

Lemma route_requests_wf dt nref : ∀ k b h topo m,
  sim_wf h (fog_nodes topo) b nref → (b + k <= nref)%nat →
  fog_nodes topo ≠ [] → (∀ n, n ∈ fog_nodes topo → node_runs n) →
  ∃ h' topo' m',
    foldM (route_request dt) (h, topo, m) (seq b k) = Ok (h', topo', m')
    ∧ sim_wf h' (fog_nodes topo') (b + k) nref
    ∧ node_params <$> fog_nodes topo' = node_params <$> fog_nodes topo.
Proof.
  induction k as [|k IH]; intros b h topo m Hwf Hk Hne Hruns.
  { exists h, topo, m. rewrite Nat.add_0_r. by split. }
  destruct (route_request_wf dt h topo m b nref Hwf ltac:(lia) Hne Hruns)
    as (h1 & topo1 & m1 & E1 & Hwf1 & P1).
  cbn [seq foldM]. rewrite E1. cbn [mbind result_bind].
  destruct (IH (S b) h1 topo1 m1 Hwf1 ltac:(lia)) as (h2 & topo2 & m2 & E2 & Hwf2 & P2).
  - intros Hnil. rewrite Hnil in P1. by destruct (fog_nodes topo).
  - intros n Hn. apply (list_elem_of_fmap_2 node_params) in Hn. rewrite P1 in Hn.
    apply list_elem_of_fmap in Hn as (n0 & Hp & Hn0). specialize (Hruns n0 Hn0).
    unfold node_runs in *. destruct (node_params_fields _ _ Hp) as (_ & -> & -> & _ & _ & ->).
    done.
  - exists h2, topo2, m2. rewrite E2. split; [done|].
    replace (b + S k)%nat with (S b + k)%nat by lia. split; [done|]. by rewrite P2.
Qed.

(** One node takes its step. *)
Lemma process_node_wf time dt h topo acc i b nref :
  sim_wf h (fog_nodes topo) b nref → (i < length (fog_nodes topo))%nat →
  (∀ n, n ∈ fog_nodes topo → node_runs n) →
  ∃ h' topo' acc',
    process_node time dt (h, topo, acc) i = Ok (h', topo', acc')
    ∧ sim_wf h' (fog_nodes topo') b nref
    ∧ node_params <$> fog_nodes topo' = node_params <$> fog_nodes topo.
Proof.
  intros [Hnd Hbound Hwf Hids Hnew] Hi Hruns. unfold process_node.
  destruct (lookup_lt_is_Some_2 _ _ Hi) as [n0 Hn0].
  rewrite (list_lookup_total_correct _ _ _ Hn0).
  assert (Hin0 : n0 ∈ fog_nodes topo) by (by eapply list_elem_of_lookup_2).
  assert (Hwf0 := Hwf n0 Hin0).
  destruct (process_one_step_cap_total h n0 time dt Hwf0) as [[[[c1 h1] n1] d1] Hstep].
  { intros Hsla. by destruct (Hruns n0 Hin0 Hsla). }
  assert (Hstep' : process_one_step h n0 time dt = Ok (h1, n1, d1))
    by (unfold process_one_step; by rewrite Hstep).
  rewrite Hstep'. cbn [mbind result_bind].
  destruct (process_one_step_params _ _ _ _ _ _ _ Hstep') as (Hp & _ & _).
  destruct (process_one_step_cap_facts _ _ _ _ _ _ _ _ Hwf0 Hstep)
    as [Hperm _ Hinv _ Hwf1].
  destruct Hinv as [_ _ _ _ Hframe Hstatic _ _].
  assert (Hsub : ∀ r, r ∈ queued_refs n1 → r ∈ queued_refs n0).
  { intros r Hr. rewrite <- Hperm. apply elem_of_app. by left. }
  destruct (held_refs_insert _ _ _ Hn0) as [Hheld0 Hheld1].
  eexists _, _, _. split; [reflexivity|]. cbn [fog_nodes]. split.
  2:{ rewrite list_fmap_insert, Hp. apply list_insert_id. by rewrite list_lookup_fmap, Hn0. }
  split.
  - rewrite Hheld1. rewrite Hheld0 in Hnd.
    apply (NoDup_replace_middle _ _ _ _ Hnd); [by eapply node_wf_NoDup|].
    intros r Hr%Hsub. by eapply NoDup_middle_disjoint.
  - intros r. rewrite Hheld1. intros Hr. apply Hbound. rewrite Hheld0.
    rewrite !elem_of_app in Hr |- *. destruct Hr as [?|[?%Hsub|?]]; auto.
  - intros n (j & Hj)%list_elem_of_lookup. destruct (decide (j = i)) as [->|Hji].
    + rewrite list_lookup_insert_eq in Hj by done. by injection Hj as <-.
    + rewrite list_lookup_insert_ne in Hj by done.
      apply (node_wf_ext h); [|apply Hwf; by eapply list_elem_of_lookup_2].
      intros r Hr. apply Hframe. by eapply (held_refs_disjoint _ i j).
  - intros r Hr. rewrite (frozen_request_id _ _ (Hstatic r)). by apply Hids.
  - intros r Hr. rewrite Hframe; [by apply Hnew|].
    intros Hq. specialize (Hbound r (held_refs_elem _ _ _ Hin0 Hq)). lia.
Qed.

Lemma process_nodes_wf time dt b nref : ∀ idxs h topo acc,
  sim_wf h (fog_nodes topo) b nref →
  (∀ i, i ∈ idxs → (i < length (fog_nodes topo))%nat) →
  (∀ n, n ∈ fog_nodes topo → node_runs n) →
  ∃ h' topo' acc',
    foldM (process_node time dt) (h, topo, acc) idxs = Ok (h', topo', acc')
    ∧ sim_wf h' (fog_nodes topo') b nref
    ∧ node_params <$> fog_nodes topo' = node_params <$> fog_nodes topo.
Proof.
  induction idxs as [|i idxs IH]; intros h topo acc Hwf Hlt Hruns.
  { exists h, topo, acc. by split. }
  destruct (process_node_wf time dt h topo acc i b nref Hwf) as (h1 & topo1 & acc1 & E1 & Hwf1 & P1);
    [apply Hlt; by left|done|].
  cbn [foldM]. rewrite E1. cbn [mbind result_bind].
  destruct (IH h1 topo1 acc1 Hwf1) as (h2 & topo2 & acc2 & E2 & Hwf2 & P2).
  - intros j Hj. rewrite <- (length_fmap node_params), P1, length_fmap. apply Hlt. by right.
  - intros n Hn. apply (list_elem_of_fmap_2 node_params) in Hn. rewrite P1 in Hn.
    apply list_elem_of_fmap in Hn as (n0 & Hp & Hn0). specialize (Hruns n0 Hn0).
    unfold node_runs in *. destruct (node_params_fields _ _ Hp) as (_ & -> & -> & _ & _ & ->).
    done.
  - exists h2, topo2, acc2. rewrite E2. split; [done|]. split; [done|]. by rewrite P2.
Qed.

Lemma held_refs_reset nodes : held_refs (map reset_step_state nodes) = held_refs nodes.
Proof.
  unfold held_refs. induction nodes as [|n nodes IH]; [done|].
  cbn [map]. rewrite !bind_cons, IH. done.
Qed.

(** The arrivals of a step are numbered from [nref] on and join the store
    before any of them is offered to a node. *)
Lemma generate_requests_wf gen g h nodes nref t :
  sim_wf h nodes nref nref →
  next_request_id gen = Z.of_nat nref →
  ∃ gen' g' h' k,
    generate_requests gen g h nref t = (gen', g', h', (nref + k)%nat, seq nref k)
    ∧ next_request_id gen' = Z.of_nat (nref + k)
    ∧ sim_wf h' (map reset_step_state nodes) nref (nref + k).
Proof.
  intros [Hnd Hbound Hwf Hids Hnew] Hid.
  assert (Hreset : ∀ h' : gmap nat Request,
            (∀ r, (r < nref)%nat → h' !! r = h !! r) →
            ∀ n, n ∈ map reset_step_state nodes → node_wf h' n).
  { intros h' Hframe n (n0 & <- & Hn0%list_elem_of_In)%list_elem_of_In%in_map_iff.
    apply node_wf_reset, (node_wf_ext h); [|by apply Hwf].
    intros r Hr. rewrite !lookup_total_alt, Hframe; [done|].
    apply Hbound. by eapply held_refs_elem. }
  destruct (generate_requests_spec gen g h nref t)
    as [[_ ->]|(_ & k & h' & -> & _ & _ & _ & Hframe & Hgen)].
  - exists gen, g, h, 0%nat. rewrite Nat.add_0_r. split; [done|]. split; [done|].
    split; rewrite ?held_refs_reset; try done. by apply Hreset.
  - eexists _, _, h', k. split; [reflexivity|]. cbn [next_request_id].
    split; [lia|].
    split; rewrite ?held_refs_reset; try done.
    + by apply Hreset.
    + intros r Hr. destruct (decide (r < nref)%nat) as [Hlt|Hge].
      * rewrite lookup_total_alt, Hframe, <- lookup_total_alt by done. by apply Hids.
      * destruct (Hgen (r - nref)%nat) as (rq & Hrq & Hrid & _); [lia|].
        replace (nref + (r - nref))%nat with r in Hrq by lia.
        rewrite (lookup_total_correct _ _ _ Hrq), Hrid. lia.
    + intros r Hr.
      destruct (Hgen (r - nref)%nat) as (rq & Hrq & _ & Hshape & _); [lia|].
      replace (nref + (r - nref))%nat with r in Hrq by lia.
      rewrite (lookup_total_correct _ _ _ Hrq).
      destruct Hshape as (_ & Hdef & -> & _ & _ & _ & _ & _ & ->). split; [done|].
      assert (Hp := defaults_for_type_positive (request_type rq)).
      by rewrite <- Hdef in Hp.
Qed.

Lemma node_runs_params n n' : node_params n' = node_params n → node_runs n → node_runs n'.
Proof.
  intros (_ & Hs & Hc & _ & _ & He)%node_params_fields. unfold node_runs.
  by rewrite Hs, Hc, He.
Qed.

(** One iteration of the loop completes and keeps the agreement. *)
Lemma sim_step_wf sim time dt :
  run_wf sim →
  ∃ sim', sim_step sim time dt = Ok sim' ∧ run_wf sim' ∧ config sim' = config sim.
Proof.
  intros [Hstore Hcounter Hne Hruns].
  destruct (generate_requests_wf (generator sim) (rng sim) (store sim)
              (fog_nodes (topology sim)) (next_ref sim) time Hstore Hcounter)
    as (gen & g & h & k & Egen & Hid & Hwf0).
  assert (Hne0 : map reset_step_state (fog_nodes (topology sim)) ≠ [])
    by (by destruct (fog_nodes (topology sim))).
  assert (Hruns0 : ∀ n, n ∈ map reset_step_state (fog_nodes (topology sim)) → node_runs n).
  { intros n (n0 & <- & Hn0%list_elem_of_In)%list_elem_of_In%in_map_iff.
    by apply (node_runs_params n0), Hruns. }
  destruct (route_requests_wf dt (next_ref sim + k) k (next_ref sim) h
              (mkFogTopology (map reset_step_state (fog_nodes (topology sim))))
              (record_generated (metrics sim) (seq (next_ref sim) k)) Hwf0 ltac:(lia)
              Hne0 Hruns0)
    as (h1 & topo1 & m1 & Eroute & Hwf1 & P1).
  cbn [fog_nodes] in P1.
  assert (Hruns1 : ∀ n, n ∈ fog_nodes topo1 → node_runs n).
  { intros n Hn. apply (list_elem_of_fmap_2 node_params) in Hn. rewrite P1 in Hn.
    apply list_elem_of_fmap in Hn as (n0 & Hp & Hn0).
    by apply (node_runs_params n0), Hruns0. }
  destruct (process_nodes_wf time dt (next_ref sim + k) (next_ref sim + k)
              (seq 0 (length (fog_nodes topo1))) h1 topo1 [] Hwf1)
    as (h2 & topo2 & done2 & Eproc & Hwf2 & P2);
    [intros i Hi%elem_of_seq; lia|done|].
  eexists. split.
  { unfold sim_step, all_nodes. rewrite Egen. cbv beta iota.
    rewrite Eroute. cbn [mbind result_bind]. rewrite Eproc. reflexivity. }
  split; [|done]. split; cbn [store topology next_ref generator].
  - done.
  - done.
  - intros Hnil. rewrite Hnil in P2. rewrite <- P2 in P1. by destruct (fog_nodes (topology sim)).
  - intros n Hn. apply (list_elem_of_fmap_2 node_params) in Hn. rewrite P2 in Hn.
    apply list_elem_of_fmap in Hn as (n0 & Hp & Hn0).
    by apply (node_runs_params n0), Hruns1.
Qed.

Lemma run_steps_wf : ∀ k sim time,
  run_wf sim → ∃ sim' time', run_steps k sim time = Ok (sim', time') ∧ run_wf sim'.
Proof.
  induction k as [|k IH]; intros sim time Hwf; [by exists sim, time|].
  cbn [run_steps]. destruct (Qltb time (sim_time (config sim))); [|by exists sim, time].
  destruct (sim_step_wf sim time (run_dt (config sim)) Hwf) as (sim1 & -> & Hwf1 & _).
  cbn [mbind result_bind]. by apply IH.
Qed.

Lemma Simulation_init_wf seeded_stream cfg :
  config_runs cfg →
  ∃ sim0, Simulation_init seeded_stream cfg = Ok sim0 ∧ run_wf sim0.
Proof.
  intros (Hx & Hy & Hsla). unfold Simulation_init.
  destruct (build_grid_topology cfg) as [topo|] eqn:Eb.
  2:{ revert Eb. unfold build_grid_topology.
      destruct (Z.leb (num_fog_nodes_x cfg) 0 || Z.leb (num_fog_nodes_y cfg) 0) eqn:E; [|done].
      apply orb_true_iff in E as [E|E]; apply Z.leb_le in E; lia. }
  destruct (RequestGenerator_init_ok cfg) as (gen & -> & _ & Hid).
  cbn [mbind result_bind]. eexists. split; [reflexivity|].
  apply build_grid_topology_nodes in Eb as [Hne Hnodes].
  assert (Hq : ∀ n, n ∈ fog_nodes topo → queued_refs n = []).
  { intros n (id & pos & ->)%Hnodes. unfold queued_refs, is_sla. simpl.
    by repeat case_match. }
  assert (Hheld : held_refs (fog_nodes topo) = []).
  { unfold held_refs. revert Hq. generalize (fog_nodes topo).
    induction l as [|n l IH]; intros Hq; [done|].
    rewrite bind_cons, (Hq n) by (by left). apply IH. intros x Hxl. apply Hq. by right. }
  split; cbn [store topology next_ref generator].
  - split.
    + rewrite Hheld. constructor.
    + intros r. rewrite Hheld. by intros ?%elem_of_nil.
    + intros n Hn. split.
      * rewrite (Hq n Hn). constructor.
      * intros r. rewrite (Hq n Hn). by intros ?%elem_of_nil.
      * intros _. destruct (Hnodes n Hn) as (id & pos & ->).
        unfold class_queues_ok. simpl.
        split; [|split]; intros x Hx0; by apply elem_of_nil in Hx0.
    + intros r Hr. lia.
    + intros r Hr. lia.
  - done.
  - done.
  - intros n (id & pos & ->)%Hnodes. unfold node_runs, is_sla. simpl. intros Hs.
    apply Hsla. unfold sla_scheduler.
    apply orb_true_iff in Hs as [->%String.eqb_eq| ->%String.eqb_eq]; [by left|right; by left].
Qed.

(** X19.  On a configuration with a grid of nodes (and, under the SLA
    policy, a capacity other than zero and a positive [sla_eps]) the
    simulation is constructed and its loop never raises: every iteration
    completes.  At every step boundary no request is held twice, whether by
    one node or by two; every node agrees with the store (the requests it
    holds have distinct identifiers, are not completed and have work left,
    and on an SLA node each sits in the queue of its class); and the
    identifier of a request is the number under which it was generated. *)
Theorem run_never_raises seeded_stream cfg :
  config_runs cfg →
  ∃ sim0, Simulation_init seeded_stream cfg = Ok sim0
    ∧ ∀ k, ∃ sim time,
        run_steps k sim0 0 = Ok (sim, time)
        ∧ NoDup (held_refs (fog_nodes (topology sim)))
        ∧ (∀ n, n ∈ fog_nodes (topology sim) → node_wf (store sim) n)
        ∧ (∀ r, r ∈ held_refs (fog_nodes (topology sim)) → (r < next_ref sim)%nat)
        ∧ (∀ r, (r < next_ref sim)%nat → request_id (store sim !!! r) = Z.of_nat r).
Proof.
  intros Hcfg. destruct (Simulation_init_wf seeded_stream cfg Hcfg) as (sim0 & Hinit & Hwf0).
  exists sim0. split; [done|]. intros k.
  destruct (run_steps_wf k sim0 0 Hwf0) as (sim & time & Hrun & [[Hnd Hb Hn Hids _] _ _ _]).
  by exists sim, time.
Qed.

Lemma run_never_raises_witness :
  ∃ sim0, Simulation_init c4_stream c4_config = Ok sim0
    ∧ ∃ sim time, run_steps 3 sim0 0 = Ok (sim, time)
        ∧ NoDup (held_refs (fog_nodes (topology sim))).
Proof.
  destruct (run_never_raises c4_stream c4_config) as (sim0 & Hinit & Hrun).
  - split; [by vm_compute|]. split; [by vm_compute|].
    intros _. split; [by intros H; vm_compute in H|by vm_compute].
  - exists sim0. split; [exact Hinit|].
    destruct (Hrun 3%nat) as (sim & time & Hsteps & Hnd & _).
    exists sim, time. split; [exact Hsteps|exact Hnd].
Defined.

(** X26.  The edge cases of the loop of [Simulation.run], which do not
    depend on how the clock adds up.  With [sim_time <= 0] the body of the
    loop is never executed: the simulation is returned as it was
    constructed, at time 0.  With [0 < sim_time <= dt] the body is executed
    exactly once.  With [dt <= 0 < sim_time] the clock never gets to
    [sim_time] and the loop never ends: however many iterations are asked
    for, all of them are executed, and none raises. *)
Theorem run_loop_edge_cases seeded_stream cfg :
  config_runs cfg →
  ∃ sim0, Simulation_init seeded_stream cfg = Ok sim0
    ∧ (sim_time cfg <= 0 → ∀ k, run_steps k sim0 0 = Ok (sim0, 0))
    ∧ (0 < sim_time cfg → sim_time cfg <= run_dt cfg →
       ∀ k, ∃ sim time, run_steps (S k) sim0 0 = Ok (sim, time)
                        ∧ series_lengths 1 (metrics sim))
    ∧ (0 < sim_time cfg → run_dt cfg <= 0 →
       ∀ k, ∃ sim time, run_steps k sim0 0 = Ok (sim, time)
                        ∧ series_lengths k (metrics sim)).
Proof.
  intros Hcfg. destruct (Simulation_init_wf seeded_stream cfg Hcfg) as (sim0 & Hinit & Hwf0).
  exists sim0. split; [done|].
  assert (Hc0 : config sim0 = cfg).
  { apply Simulation_init_inv in Hinit as (topo & gen & _ & _ & ->). done. }
  assert (Hruns : ∀ k, ∃ sim time steps,
    run_steps k sim0 0 = Ok (sim, time)
    ∧ (steps <= k)%nat
    ∧ series_lengths steps (metrics sim)
    ∧ time == inject_Z (Z.of_nat steps) * run_dt cfg
    ∧ ((0 < steps)%nat → time - run_dt cfg < sim_time cfg)
    ∧ ((steps < k)%nat → sim_time cfg <= time)).
  { intros k. destruct (run_steps_wf k sim0 0 Hwf0) as (sim & time & Hrun & _).
    destruct (run_steps_tallies _ _ _ _ _ _ Hinit Hrun) as (steps & Hk & HI & Hend).
    destruct HI as [_ Htime Hbefore _ Hs _ _ _ _].
    exists sim, time, steps. do 5 (split; [done|]). done. }
  split; [|split].
  - intros Hsim [|k]; simpl; [done|]. rewrite Hc0.
    destruct (Qltb 0 (sim_time cfg)) eqn:E; [|done]. apply Qltb_lt in E. lra.
  - intros Hsim Hdt k.
    destruct (Hruns (S k)) as (sim & time & steps & Hrun & Hk & Hs & Ht & Hbefore & Hend).
    exists sim, time. split; [done|].
    assert (steps = 1%nat) as ->; [|done].
    destruct steps as [|[|steps]]; [|done|].
    + exfalso. assert (Hlt : (0 < S k)%nat) by lia. specialize (Hend Hlt).
      rewrite Ht in Hend. change (inject_Z (Z.of_nat 0)) with 0 in Hend. lra.
    + exfalso. assert (Hlt : (0 < S (S steps))%nat) by lia. specialize (Hbefore Hlt).
      rewrite Ht in Hbefore.
      assert (Hinj : inject_Z (Z.of_nat (S (S steps))) == inject_Z (Z.of_nat steps) + 2).
      { replace (Z.of_nat (S (S steps))) with (Z.of_nat steps + 2)%Z by lia.
        rewrite inject_Z_plus. reflexivity. }
      assert (H0 : 0 <= inject_Z (Z.of_nat steps)) by (rewrite <- (Zle_Qle 0); lia).
      assert (Hm : 0 <= inject_Z (Z.of_nat steps) * run_dt cfg)
        by (apply Qmult_le_0_compat; lra).
      rewrite Hinj in Hbefore.
      assert (Hring : (inject_Z (Z.of_nat steps) + 2) * run_dt cfg - run_dt cfg
                      == inject_Z (Z.of_nat steps) * run_dt cfg + run_dt cfg) by ring.
      lra.
  - intros Hsim Hdt k.
    destruct (Hruns k) as (sim & time & steps & Hrun & Hk & Hs & Ht & _ & Hend).
    exists sim, time. split; [done|].
    assert (steps = k) as ->; [|done].
    destruct (decide (steps < k)%nat) as [Hlt|]; [|lia].
    exfalso. specialize (Hend Hlt). rewrite Ht in Hend.
    assert (Hs0 : 0 <= inject_Z (Z.of_nat steps)) by (rewrite <- (Zle_Qle 0); lia).
    assert (Hneg : 0 <= inject_Z (Z.of_nat steps) * - run_dt cfg)
      by (apply Qmult_le_0_compat; lra).
    assert (Hring : inject_Z (Z.of_nat steps) * - run_dt cfg
                    == - (inject_Z (Z.of_nat steps) * run_dt cfg)) by ring.
    lra.
Qed.

Lemma run_loop_edge_cases_witness :
  ∃ sim0, Simulation_init c4_stream stalled_config = Ok sim0
    ∧ ∃ sim time, run_steps 4 sim0 0 = Ok (sim, time)
                  ∧ series_lengths 4 (metrics sim).
Proof.
  destruct (run_loop_edge_cases c4_stream stalled_config)
    as (sim0 & Hinit & _ & _ & Hstall).
  - split; [by vm_compute|]. split; [by vm_compute|].
    intros [H|[H|H%elem_of_nil]%elem_of_cons]%elem_of_cons; [| |done];
      by vm_compute in H.
  - exists sim0. split; [exact Hinit|].
    apply (Hstall ltac:(by vm_compute) ltac:(by vm_compute) 4%nat).
Defined.

(** ** The queue-length samples *)

Lemma fold_max_spec (l : list Z) : ∀ a,
  (a <= fold_left Z.max l a)%Z
  ∧ (∀ x, x ∈ l → (x <= fold_left Z.max l a)%Z)
  ∧ (fold_left Z.max l a = a ∨ fold_left Z.max l a ∈ l).
Proof.
  induction l as [|y l IH]; intros a; simpl.
  { split; [lia|]. split; [by intros x ?%elem_of_nil|by left]. }
  destruct (IH (Z.max a y)) as (Ha & Hl & Hin). split; [lia|]. split.
  - intros x [->|Hx]%elem_of_cons; [lia|by apply Hl].
  - destruct Hin as [->|Hin]; [|right; by right].
    destruct (Z.max_spec a y) as [[_ ->]|[_ ->]]; [right; by left|by left].
Qed.

Lemma fold_add_Zsum (l : list Z) : ∀ a, fold_left Z.add l a = (a + Zsum l)%Z.
Proof.
  unfold Zsum. induction l as [|y l IH]; intros a; simpl; [lia|]. rewrite IH. lia.
Qed.

Lemma Zsum_bounds (l : list Z) (lo hi : Z) :
  (∀ x, x ∈ l → (lo <= x <= hi)%Z) →
  (lo * Z.of_nat (length l) <= Zsum l <= hi * Z.of_nat (length l))%Z.
Proof.
  unfold Zsum. induction l as [|y l IH]; intros Hl; [simpl; lia|].
  cbn [foldr length]. destruct IH as [? ?]; [intros x Hx; apply Hl; by right|].
  destruct (Hl y) as [? ?]; [by left|]. lia.
Qed.

Lemma queued_total_Zsum nodes : queued_total nodes = Zsum (map queue_length nodes).
Proof. unfold queued_total, Zsum. induction nodes as [|n l IH]; simpl; [done|]. by rewrite IH. Qed.

(** X20.  [record_queue_lengths] records nothing for an empty list of
    nodes.  Otherwise it appends one sample to each of the two series and
    changes nothing else: the maximum is the queue length of one of the
    nodes and no node has a longer queue, and the average is the sum of the
    queue lengths over the number of nodes, between 0 and the maximum. *)
Theorem record_queue_lengths_samples m nodes :
  (nodes = [] → record_queue_lengths m nodes = m)
  ∧ (nodes ≠ [] →
     ∃ avg_len max_len,
       record_queue_lengths m nodes
       = mkMetricsCollector (total_generated m) (total_completed m)
           (total_dropped m) (total_admitted m) (total_rejected m) (dropped_by_reason m)
           (per_step_generated m) (per_step_completed m)
           (per_step_dropped m) (_current_step_dropped m)
           (avg_queue_lengths m ++ [avg_len]) (max_queue_lengths m ++ [max_len])
       ∧ (∀ n, n ∈ nodes → (queue_length n <= max_len)%Z)
       ∧ (∃ n, n ∈ nodes ∧ queue_length n = max_len)
       ∧ avg_len * py_len nodes == inject_Z (queued_total nodes)
       ∧ 0 <= avg_len <= inject_Z max_len).
Proof.
  split; [by intros ->|]. intros Hne.
  destruct nodes as [|n0 nodes]; [done|]. clear Hne.
  set (all := n0 :: nodes). eexists _, _. split; [reflexivity|].
  set (lengths := map queue_length all).
  destruct (fold_max_spec lengths (List.hd 0%Z lengths)) as (Hhd & Hmax & Hin).
  assert (Hmem : ∀ n, n ∈ all → queue_length n ∈ lengths).
  { intros n Hn. subst lengths. by apply list_elem_of_In, in_map, list_elem_of_In. }
  assert (Hlen : length lengths = length all) by apply length_map.
  assert (Hsum : fold_left Z.add lengths 0%Z = queued_total all).
  { rewrite fold_add_Zsum, queued_total_Zsum. subst lengths. lia. }
  assert (Hpos : 0 < py_len lengths).
  { unfold py_len. rewrite Hlen. subst all. simpl length.
    rewrite <- (Zlt_Qlt 0). lia. }
  split; [intros n Hn; by apply Hmax, Hmem|]. split.
  { assert (Hin' : fold_left Z.max lengths (List.hd 0%Z lengths) ∈ lengths).
    { destruct Hin as [->|Hin]; [|done]. subst lengths all. simpl. by left. }
    apply list_elem_of_In, in_map_iff in Hin' as (n & Hn & Hin').
    exists n. split; [by apply list_elem_of_In|done]. }
  split.
  { rewrite Hsum. unfold py_len in *. rewrite Hlen in *. field. lra. }
  assert (Hb := Zsum_bounds lengths 0 (fold_left Z.max lengths (List.hd 0%Z lengths))).
  destruct Hb as [Hlo Hhi].
  { intros x Hx. split; [|by apply Hmax].
    apply list_elem_of_In, in_map_iff in Hx as (n & <- & _). apply queue_length_nonneg. }
  rewrite fold_add_Zsum, Z.add_0_l.
  split.
  - apply Qle_shift_div_l; [done|]. rewrite Qmult_0_l, <- (Zle_Qle 0). lia.
  - apply Qle_shift_div_r; [done|]. unfold py_len. rewrite <- inject_Z_mult, <- Zle_Qle. lia.
Qed.

Lemma record_queue_lengths_samples_witness :
  ∃ avg_len max_len,
    record_queue_lengths MetricsCollector_init [c1_node; c2_node]
    = mkMetricsCollector 0 0 0 0 0 ∅ [] [] [] 0 [avg_len] [max_len]
    ∧ 0 <= avg_len <= inject_Z max_len.
Proof.
  destruct (proj2 (record_queue_lengths_samples MetricsCollector_init [c1_node; c2_node]))
    as (avg_len & max_len & Hrec & _ & _ & _ & Hb); [done|].
  exists avg_len, max_len. split; [exact Hrec|exact Hb].
Defined.

(** ** The rates of a run *)

Lemma Qdiv_unit_bounds (a b : Z) :
  (0 <= a <= b)%Z → (0 < b)%Z → 0 <= inject_Z a / inject_Z b <= 1.
Proof.
  intros [Ha Hab] Hb.
  assert (Hb' : 0 < inject_Z b) by (by rewrite <- (Zlt_Qlt 0)).
  assert (Ha' : 0 <= inject_Z a) by (by rewrite <- (Zle_Qle 0)).
  assert (Hab' : inject_Z a <= inject_Z b) by (by rewrite <- Zle_Qle).
  split.
  - apply Qle_shift_div_l; [done|]. lra.
  - apply Qle_shift_div_r; [done|]. lra.
Qed.

(** X21.  At every step boundary of a run the admission rate lies in
    [0, 1], and the completion ratio of the final report, which is defined
    as soon as a request was generated, lies between 0 and the admission
    rate: no more requests are completed than were admitted, and no more
    admitted than were generated. *)
Theorem run_rates_bounded seeded_stream cfg sim0 k sim time :
  Simulation_init seeded_stream cfg = Ok sim0 →
  run_steps k sim0 0 = Ok (sim, time) →
  0 <= get_admission_rate (metrics sim) <= 1
  ∧ (completion_ratio (metrics sim) = None ↔ total_generated (metrics sim) = 0%Z)
  ∧ ∀ c, completion_ratio (metrics sim) = Some c →
         0 <= c <= get_admission_rate (metrics sim).
Proof.
  intros Hinit Hrun.
  destruct (run_steps_tallies _ _ _ _ _ _ Hinit Hrun) as (steps & _ & HI & _).
  destruct HI as [_ _ _ [_ _ _ _ _ _ (Hg & Hc & Hd & Ha & Hr)] _ _ _ _ _].
  assert (Hbal : counters_balanced (metrics sim) (fog_nodes (topology sim))).
  { apply (run_steps_balanced k sim0 0 sim time); [|done].
    apply Simulation_init_inv in Hinit as (topo & gen & Hb & _ & ->).
    apply build_grid_topology_empty in Hb. split; simpl; [done|]. by rewrite Hb. }
  destruct Hbal as [Hsum Hadm].
  assert (Hq := queued_total_nonneg (fog_nodes (topology sim))).
  unfold get_admission_rate, completion_ratio.
  destruct (Z.eqb (total_generated (metrics sim)) 0) eqn:E0.
  - apply Z.eqb_eq in E0. rewrite E0. simpl. split; [lra|]. split; [done|]. by intros c [=].
  - apply Z.eqb_neq in E0.
    assert (Hpos : (0 < total_generated (metrics sim))%Z) by lia.
    apply Z.ltb_lt in Hpos as Hpos'. rewrite Hpos'.
    split; [apply Qdiv_unit_bounds; lia|]. split; [split; [done|lia]|].
    intros c [= <-].
    assert (Hgq : 0 < inject_Z (total_generated (metrics sim)))
      by (by rewrite <- (Zlt_Qlt 0)).
    split.
    + apply Qdiv_unit_bounds; lia.
    + apply Qdiv_le_mono; [done|]. rewrite <- Zle_Qle. lia.
Qed.

Lemma run_rates_bounded_witness :
  match sim ← Simulation_init c4_stream c4_config; run_steps 3 sim 0 with
  | Ok (sim, time) => 0 <= get_admission_rate (metrics sim) <= 1
  | Raise _ => False
  end.
Proof.
  destruct (Simulation_init c4_stream c4_config) as [sim0|] eqn:E0;
    [|by vm_compute in E0].
  cbn [mbind result_bind]. destruct (run_steps 3 sim0 0) as [[sim time]|] eqn:E.
  - exact (proj1 (run_rates_bounded c4_stream c4_config sim0 3%nat sim time E0 E)).
  - vm_compute in E0. injection E0 as <-. by vm_compute in E.
Defined.

(** ** The deadline tallies *)

Lemma track_deadline_consistent t r :
  tallies_consistent t →
  tallies_consistent (track_deadline t r)
  ∧ (total_deadline_met (track_deadline t r)
     + total_deadline_violated (track_deadline t r)
     = total_deadline_met t + total_deadline_violated t
       + (if bool_decide (completion_time r ≠ None) then 1 else 0))%Z
  ∧ (total_deadline_met t <= total_deadline_met (track_deadline t r))%Z
  ∧ (total_deadline_violated t <= total_deadline_violated (track_deadline t r))%Z.
Proof.
  unfold tallies_consistent, track_deadline, deadline_met.
  intros (H1 & H2 & H3 & H4 & H5 & H6 & H7 & H8).
  destruct (completion_time r) as [c|]; simpl; [|repeat split; lia].
  destruct (Qle_bool c (absolute_deadline r)),
    (Z.eqb (priority_class r) 3), (Z.eqb (priority_class r) 2),
    (Z.eqb (priority_class r) 1); simpl; repeat split; lia.
Qed.

(** X22.  [record_completed] keeps the deadline tallies consistent: none
    is negative and the tallies of the three classes add up to no more than
    the overall ones, a request of a class other than 1, 2 and 3 being
    counted overall only.  A call adds to [total_deadline_met] plus
    [total_deadline_violated] the number of the requests of the list that
    have a completion time, and takes nothing away. *)
Theorem record_completed_deadlines_consistent h t requests :
  tallies_consistent t →
  tallies_consistent (record_completed_deadlines h t requests)
  ∧ (total_deadline_met (record_completed_deadlines h t requests)
     + total_deadline_violated (record_completed_deadlines h t requests)
     = total_deadline_met t + total_deadline_violated t + completed_count h requests)%Z
  ∧ (total_deadline_met t <= total_deadline_met (record_completed_deadlines h t requests))%Z
  ∧ (total_deadline_violated t
     <= total_deadline_violated (record_completed_deadlines h t requests))%Z.
Proof.
  unfold record_completed_deadlines, completed_count. revert t.
  induction requests as [|r requests IH]; intros t Ht.
  { simpl. split; [done|]. split; [lia|]. split; lia. }
  cbn [fold_left List.filter].
  destruct (track_deadline_consistent t (h !!! r) Ht) as (Ht1 & Hsum & Hm & Hv).
  destruct (IH _ Ht1) as (Ht2 & Hsum2 & Hm2 & Hv2).
  split; [done|]. split; [|split; lia].
  rewrite Hsum2, Hsum.
  destruct (bool_decide (completion_time (h !!! r) ≠ None)); cbn [length]; lia.
Qed.

Lemma record_completed_deadlines_consistent_witness :
  tallies_consistent (record_completed_deadlines c6_store DeadlineTallies_init [0%nat])
  ∧ total_deadline_violated (record_completed_deadlines c6_store DeadlineTallies_init [0%nat])
    = 1%Z.
Proof.
  destruct (record_completed_deadlines_consistent c6_store DeadlineTallies_init [0%nat])
    as (Hc & _).
  - unfold tallies_consistent. simpl. lia.
  - split; [exact Hc|reflexivity].
Defined.

Lemma inject_Z_eq (a b : Z) : inject_Z a == inject_Z b → a = b.
Proof. unfold Qeq. simpl. lia. Qed.

Lemma met_rate_bounds met violated :
  (0 <= met)%Z → (0 <= violated)%Z →
  0 <= met_rate met violated <= 1
  ∧ (met_rate met violated == 0 ↔ met = 0%Z)
  ∧ (met_rate met violated == 1 ↔ (0 < met)%Z ∧ violated = 0%Z).
Proof.
  intros Hm Hv. unfold met_rate.
  destruct (Z.eqb (met + violated) 0) eqn:E.
  - apply Z.eqb_eq in E. split; [lra|]. split; split.
    + intros _. lia.
    + intros _. lra.
    + intros H1. exfalso. lra.
    + intros [? ?]. lia.
  - apply Z.eqb_neq in E.
    assert (Hpos : 0 < inject_Z (met + violated)) by (rewrite <- (Zlt_Qlt 0); lia).
    assert (Hmul : inject_Z met
                   == inject_Z met / inject_Z (met + violated) * inject_Z (met + violated))
      by (field; lra).
    split; [apply Qdiv_unit_bounds; lia|]. split; split.
    + intros H0. rewrite H0, Qmult_0_l in Hmul. by apply (inject_Z_eq met 0).
    + intros ->. unfold Qdiv. change (inject_Z 0) with 0. ring.
    + intros H1. rewrite H1, Qmult_1_l in Hmul. apply inject_Z_eq in Hmul. lia.
    + intros [Hm' ->]. rewrite Z.add_0_r in *. field. lra.
Qed.

(** X23.  On consistent tallies the four deadline rates lie in [0, 1] and
    never divide by zero: a rate is 0 exactly when no deadline of its class
    was met, which includes the case that nothing was counted, and 1 exactly
    when a deadline was met and none was violated. *)
Theorem deadline_met_rates_bounded t :
  tallies_consistent t →
  (0 <= overall_deadline_met_rate t <= 1
   ∧ (overall_deadline_met_rate t == 0 ↔ total_deadline_met t = 0%Z)
   ∧ (overall_deadline_met_rate t == 1
      ↔ (0 < total_deadline_met t)%Z ∧ total_deadline_violated t = 0%Z))
  ∧ (0 <= priority3_deadline_met_rate t <= 1
     ∧ (priority3_deadline_met_rate t == 0 ↔ priority3_deadline_met t = 0%Z))
  ∧ (0 <= priority2_deadline_met_rate t <= 1
     ∧ (priority2_deadline_met_rate t == 0 ↔ priority2_deadline_met t = 0%Z))
  ∧ (0 <= priority1_deadline_met_rate t <= 1
     ∧ (priority1_deadline_met_rate t == 0 ↔ priority1_deadline_met t = 0%Z)).
Proof.
  intros (H1 & H2 & H3 & H4 & H5 & H6 & H7 & H8).
  assert (Hm : (0 <= total_deadline_met t)%Z) by lia.
  assert (Hv : (0 <= total_deadline_violated t)%Z) by lia.
  unfold overall_deadline_met_rate, priority3_deadline_met_rate,
    priority2_deadline_met_rate, priority1_deadline_met_rate.
  split; [by apply met_rate_bounds|].
  split; [|split].
  - destruct (met_rate_bounds _ _ H1 H4) as (? & ? & _). done.
  - destruct (met_rate_bounds _ _ H2 H5) as (? & ? & _). done.
  - destruct (met_rate_bounds _ _ H3 H6) as (? & ? & _). done.
Qed.

Lemma deadline_met_rates_bounded_witness :
  0 <= overall_deadline_met_rate
         (record_completed_deadlines c6_store DeadlineTallies_init [0%nat]) <= 1.
Proof.
  apply (deadline_met_rates_bounded
           (record_completed_deadlines c6_store DeadlineTallies_init [0%nat])).
  unfold tallies_consistent. repeat split; by vm_compute.
Defined.

(** ** Latency of a request and its deadline *)

(** X24.  [latency] and [deadline_met] are defined exactly for completed
    requests; and for a request whose absolute deadline is its arrival time
    plus its relative deadline, as the generator makes them, the deadline is
    met exactly when the latency is at most the relative deadline. *)
Theorem deadline_met_by_latency r :
  absolute_deadline r == arrival_time r + relative_deadline_s r →
  (latency r = None ↔ completion_time r = None)
  ∧ (deadline_met r = None ↔ completion_time r = None)
  ∧ ∀ l, latency r = Some l →
         deadline_met r = Some (Qle_bool l (relative_deadline_s r)).
Proof.
  intros Hd. unfold latency, deadline_met.
  destruct (completion_time r) as [c|]; [|by repeat split].
  split; [by split|]. split; [by split|]. intros l [= <-]. f_equal.
  destruct (Qle_bool c (absolute_deadline r)) eqn:E1,
           (Qle_bool (c - arrival_time r) (relative_deadline_s r)) eqn:E2; try done.
  - apply Qle_bool_iff in E1. apply Qle_bool_gt in E2. lra.
  - apply Qle_bool_iff in E2. apply Qle_bool_gt in E1. lra.
Qed.

Lemma deadline_met_by_latency_witness :
  latency (c6_store !!! 0%nat) = Some (20 - 0)
  ∧ deadline_met (c6_store !!! 0%nat) = Some false.
Proof.
  destruct (deadline_met_by_latency (c6_store !!! 0%nat)) as (_ & _ & Hl).
  - by vm_compute.
  - split; [reflexivity|]. by rewrite (Hl (20 - 0)).
Defined.

(** ** The percentile *)

Lemma StronglySorted_lookup {A} (R : relation A) (l : list A) :
  StronglySorted R l →
  ∀ i j x y, l !! i = Some x → l !! j = Some y → (i < j)%nat → R x y.
Proof.
  induction 1 as [|a l Hs IH Hall]; intros i j x y Hi Hj Hlt; [done|].
  destruct j as [|j]; [lia|]. destruct i as [|i]; simpl in *.
  - injection Hi as <-. rewrite Forall_forall in Hall. apply Hall.
    by eapply list_elem_of_lookup_2.
  - eapply IH; eauto. lia.
Qed.

Lemma sorted_spec values :
  length (sorted values) = length values
  ∧ (∀ x, x ∈ sorted values ↔ x ∈ values)
  ∧ ∀ i j x y, sorted values !! i = Some x → sorted values !! j = Some y →
               (i <= j)%nat → x <= y.
Proof.
  assert (Hperm : sorted values ≡ₚ values) by apply merge_sort_Permutation.
  split; [by rewrite Hperm|]. split; [intros x; by rewrite Hperm|].
  assert (Htrans : Transitive Qle) by (intros x y z; apply Qle_trans).
  assert (Htotal : Total Qle).
  { intros x y. destruct (Qlt_le_dec x y); [left; lra|by right]. }
  assert (Hs : StronglySorted Qle (sorted values))
    by (by apply StronglySorted_merge_sort).
  intros i j x y Hi Hj Hij. destruct (decide (i = j)) as [->|Hne].
  - rewrite Hi in Hj. injection Hj as <-. lra.
  - eapply (StronglySorted_lookup Qle _ Hs i j); eauto. lia.
Qed.

Lemma py_getitem_lookup {A} (l : list A) (i : nat) x :
  l !! i = Some x → py_getitem l (Z.of_nat i) = Ok x.
Proof.
  intros Hi. unfold py_getitem. apply lookup_lt_Some in Hi as Hlt.
  assert (E0 : Z.ltb (Z.of_nat i) 0 = false) by (apply Z.ltb_ge; lia).
  assert (E1 : Z.leb (Z.of_nat (length l)) (Z.of_nat i) = false) by (apply Z.leb_gt; lia).
  cbv zeta. rewrite !E0, E1. simpl. by rewrite Nat2Z.id, Hi.
Qed.

Lemma py_int_floor (k : Q) (n : Z) :
  0 <= k → k <= inject_Z n →
  (0 <= py_int k <= n)%Z ∧ inject_Z (py_int k) <= k ∧ k < inject_Z (py_int k + 1)
  ∧ (k == 0 → py_int k = 0%Z) ∧ (k == inject_Z n → py_int k = n).
Proof.
  intros H0 Hn. unfold py_int.
  assert (E : Qle_bool 0 k = true) by (by apply Qle_bool_iff). rewrite E.
  assert (Hf0 := Qfloor_resp_le _ _ H0). assert (Hfn := Qfloor_resp_le _ _ Hn).
  rewrite Qfloor_Z in Hfn. change 0 with (inject_Z 0) in Hf0. rewrite Qfloor_Z in Hf0.
  split; [lia|]. split; [apply Qfloor_le|]. split; [apply Qlt_floor|]. split.
  - intros Hk. rewrite (Qfloor_comp _ _ Hk). apply (Qfloor_Z 0).
  - intros Hk. rewrite (Qfloor_comp _ _ Hk). apply Qfloor_Z.
Qed.

Lemma py_getitem_nat {A} (l : list A) (i : Z) :
  (0 <= i < Z.of_nat (length l))%Z →
  ∃ x, l !! Z.to_nat i = Some x ∧ py_getitem l i = Ok x.
Proof.
  intros Hi. destruct (lookup_lt_is_Some_2 l (Z.to_nat i)) as [x Hx]; [lia|].
  exists x. split; [done|]. rewrite <- (Z2Nat.id i) by lia. by apply py_getitem_lookup.
Qed.

(** X25.  [pctl] answers [None] for an empty list.  For a list that is not
    empty and [q] in [0, 1] it returns a value between two values of the
    list (it interpolates between neighbours in sorted order): the smallest
    value for [q = 0] and the largest for [q = 1].  For a [q] so large that
    [(len - 1) * q] reaches [len] the index runs off the sorted list and
    IndexError is raised. *)
Theorem pctl_interpolates :
  (∀ q, pctl [] q = Ok None)
  ∧ (∀ values q,
       values ≠ [] → 0 <= q <= 1 →
       ∃ v lo hi,
         pctl values q = Ok (Some v)
         ∧ lo ∈ values ∧ hi ∈ values ∧ lo <= v <= hi
         ∧ (q == 0 → ∀ x, x ∈ values → v <= x)
         ∧ (q == 1 → ∀ x, x ∈ values → x <= v))
  ∧ (∀ values q,
       values ≠ [] →
       inject_Z (Z.of_nat (length values))
         <= inject_Z (Z.of_nat (length values) - 1) * q →
       pctl values q = Raise IndexError).
Proof.
  split; [done|]. split.
  - intros values q Hne Hq.
    destruct (sorted_spec values) as (Hlen & Hmem & Hsorted).
    unfold pctl. destruct values as [|v0 vs] eqn:Ev; [done|]. rewrite <- Ev in *. clear Hne.
    set (arr := sorted values) in *. set (n := Z.of_nat (length arr)).
    assert (Hn : (1 <= n)%Z) by (subst n; rewrite Hlen, Ev; simpl length; lia).
    set (k := inject_Z (n - 1) * q).
    assert (Hm : 0 <= inject_Z (n - 1)) by (rewrite <- (Zle_Qle 0); lia).
    destruct (Qmult_unit_bounds _ q Hm Hq) as [Hk0 Hkn]. fold k in Hk0, Hkn.
    destruct (py_int_floor k (n - 1) Hk0 Hkn) as (Hf & Hfk & Hkf & Hz & Hlast).
    set (f := py_int k) in *.
    assert (Hall : ∀ x, x ∈ values → ∃ j, arr !! j = Some x ∧ (Z.of_nat j < n)%Z).
    { intros x Hx%Hmem. apply list_elem_of_lookup in Hx as [j Hj]. exists j.
      split; [done|]. apply lookup_lt_Some in Hj. subst n. lia. }
    destruct (Z.eqb f (Z.min (f + 1) (n - 1))) eqn:E.
    + apply Z.eqb_eq in E. assert (Hfn : f = (n - 1)%Z) by lia.
      destruct (py_getitem_nat arr f) as (x & Hx & ->); [subst n; lia|].
      cbn [mbind result_bind]. exists x, x, x. split; [done|].
      assert (Hin : x ∈ values) by (apply Hmem; by eapply list_elem_of_lookup_2).
      do 2 (split; [done|]). split; [lra|]. split.
      * intros Hq0. assert (Hk : k == 0) by (subst k; rewrite Hq0; ring).
        intros y (j & Hj & _)%Hall. apply (Hsorted (Z.to_nat f) j); [done..|].
        rewrite (Hz Hk). simpl. lia.
      * intros _ y (j & Hj & Hjn)%Hall. apply (Hsorted j (Z.to_nat f)); [done..|]. lia.
    + apply Z.eqb_neq in E. assert (Hfn : (f < n - 1)%Z) by lia.
      rewrite Z.min_l by lia.
      destruct (py_getitem_nat arr f) as (a & Ha & ->); [subst n; lia|].
      destruct (py_getitem_nat arr (f + 1)) as (b & Hb & ->); [subst n; lia|].
      cbn [mbind result_bind]. eexists _, a, b. split; [reflexivity|].
      split; [apply Hmem; by eapply list_elem_of_lookup_2|].
      split; [apply Hmem; by eapply list_elem_of_lookup_2|].
      assert (Hab : a <= b) by (apply (Hsorted (Z.to_nat f) (Z.to_nat (f + 1))); [done..|lia]).
      assert (Hf1 : inject_Z (f + 1) == inject_Z f + 1) by (by rewrite inject_Z_plus).
      assert (Hw : 0 <= k - inject_Z f <= 1) by (rewrite Hf1 in Hkf; lra).
      destruct (Qmult_unit_bounds (b - a) (k - inject_Z f) ltac:(lra) Hw) as [Hw0 Hw1].
      assert (Hv : a * (inject_Z (f + 1) - k) + b * (k - inject_Z f)
                   == a + (b - a) * (k - inject_Z f)) by (rewrite Hf1; ring).
      split; [rewrite Hv; lra|]. split.
      * intros Hq0. assert (Hk : k == 0) by (subst k; rewrite Hq0; ring).
        assert (Hf0 := Hz Hk).
        intros y (j & Hj & _)%Hall.
        assert (Hay : a <= y) by (apply (Hsorted (Z.to_nat f) j); [done..|lia]).
        rewrite Hv, Hk, Hf0. change (inject_Z 0) with 0. lra.
      * intros Hq1. assert (Hk : k == inject_Z (n - 1)) by (subst k; rewrite Hq1; ring).
        assert (Hf' := Hlast Hk). lia.
  - intros values q Hne Hq.
    destruct (sorted_spec values) as (Hlen & _).
    unfold pctl. destruct values as [|v0 vs] eqn:Ev; [done|]. rewrite <- Ev in *. clear Hne.
    rewrite <- Hlen in Hq.
    set (arr := sorted values) in *. set (n := Z.of_nat (length arr)) in *.
    assert (Hn : (1 <= n)%Z) by (subst n; rewrite Hlen, Ev; simpl length; lia).
    set (k := inject_Z (n - 1) * q) in *.
    assert (Hn0 : 0 <= inject_Z n) by (rewrite <- (Zle_Qle 0); lia).
    assert (Hf : (n <= py_int k)%Z).
    { unfold py_int. assert (E : Qle_bool 0 k = true) by (apply Qle_bool_iff; lra).
      rewrite E. rewrite <- (Qfloor_Z n). by apply Qfloor_resp_le. }
    set (f := py_int k) in *.
    assert (E : Z.eqb f (Z.min (f + 1) (n - 1)) = false) by (apply Z.eqb_neq; lia).
    rewrite E. unfold py_getitem. fold n.
    assert (E0 : Z.ltb f 0 = false) by (apply Z.ltb_ge; lia).
    assert (E1 : Z.leb n f = true) by (apply Z.leb_le; lia).
    cbv zeta. by rewrite !E0, E1.
Qed.

Lemma pctl_interpolates_witness :
  ∃ v lo hi,
    pctl [3; 1; 2] (1 # 2) = Ok (Some v)
    ∧ lo ∈ [3; 1; 2] ∧ hi ∈ [3; 1; 2] ∧ lo <= v <= hi.
Proof.
  destruct (proj1 (proj2 pctl_interpolates) [3; 1; 2] (1 # 2))
    as (v & lo & hi & Hp & Hlo & Hhi & Hb & _).
  - done.
  - split; by vm_compute.
  - exists v, lo, hi. split; [exact Hp|]. split; [exact Hlo|]. split; [exact Hhi|exact Hb].
Defined.

(** X27.  A refused offer has no effect but the count of refusals.
    [enqueue_request] returns [(True, None)] and then holds the request
    once more than before, or it returns [(False, "queue_full")] with the
    store and the node untouched, which happens only on a node with a
    queue bound that its total queue length has reached, or it returns
    [(False, "admission_rejected")] with the store untouched and the node
    changed in its rejection counter only, which happens only on a node of
    the adaptive policy whose admission test failed. *)
Theorem enqueue_request_refusal h n request dt h' n' ok reason :
  enqueue_request h n request dt = Ok (h', n', (ok, reason)) →
  match reason with
  | None => ok = true ∧ queued_refs n' ≡ₚ request :: queued_refs n
  | Some why =>
      ok = false ∧ h' = h
      ∧ ((why = "queue_full" ∧ n' = n
          ∧ ∃ m, max_queue_length n = Some m ∧ (m <= _get_total_queue_length n)%Z)
         ∨ (why = "admission_rejected" ∧ is_sla n = true
            ∧ _admission_control_check_timebased h n request = Ok false
            ∧ n' = set_total_rejected_due_to_deadline
                     (total_rejected_due_to_deadline n + 1)%Z n))
  end.
Proof.
  intros Henq. pose proof (enqueue_request_effects _ _ _ _ _ _ _ _ Henq) as (_ & Hq & _).
  revert Henq. unfold enqueue_request.
  destruct (max_queue_length n) as [m|] eqn:Em.
  - destruct (Z.leb m (_get_total_queue_length n)) eqn:Efull.
    { intros [= <- <- <- <-]. split; [done|]. split; [done|]. left.
      split; [done|]. split; [done|]. exists m. split; [done|]. by apply Z.leb_le. }
    destruct (is_sla n) eqn:Esla.
    + destruct (_admission_control_check_timebased h n request) as [[]|]; simpl; [| |done].
      2:{ intros [= <- <- <- <-]. split; [done|]. split; [done|]. by right. }
      intros Henq. assert (reason = None ∧ ok = true) as [-> ->]; [|done].
      revert Henq. destruct (current_request _); [destruct (Qltb _ _)|].
      * destruct (dynamic_pop _ _); simpl; [|done]. by intros [= _ _ <- <-].
      * by intros [= _ _ <- <-].
      * by intros [= _ _ <- <-].
    + assert (Hfifo : String.eqb (scheduler n) "STATIC_PRIORITY" = false →
                      String.eqb (scheduler n) "EMERGENCY_FIRST" = false →
                      Z.leb m (len (queue n)) = false).
      { intros E1 E2. rewrite <- Efull. unfold _get_total_queue_length.
        by rewrite Esla, E1, E2. }
      intros Henq. assert (reason = None ∧ ok = true) as [-> ->]; [|done].
      revert Henq. destruct (String.eqb (scheduler n) "STATIC_PRIORITY").
      { destruct (Z.eqb _ 3); [|destruct (Z.eqb _ 2)]; by intros [= _ _ <- <-]. }
      destruct (String.eqb (scheduler n) "EMERGENCY_FIRST").
      { destruct (is_emergency _); by intros [= _ _ <- <-]. }
      rewrite Hfifo by done. by intros [= _ _ <- <-].
  - destruct (is_sla n) eqn:Esla.
    + destruct (_admission_control_check_timebased h n request) as [[]|]; simpl; [| |done].
      2:{ intros [= <- <- <- <-]. split; [done|]. split; [done|]. by right. }
      intros Henq. assert (reason = None ∧ ok = true) as [-> ->]; [|done].
      revert Henq. destruct (current_request _); [destruct (Qltb _ _)|].
      * destruct (dynamic_pop _ _); simpl; [|done]. by intros [= _ _ <- <-].
      * by intros [= _ _ <- <-].
      * by intros [= _ _ <- <-].
    + intros Henq. assert (reason = None ∧ ok = true) as [-> ->]; [|done].
      revert Henq. destruct (String.eqb (scheduler n) "STATIC_PRIORITY").
      { destruct (Z.eqb _ 3); [|destruct (Z.eqb _ 2)]; by intros [= _ _ <- <-]. }
      destruct (String.eqb (scheduler n) "EMERGENCY_FIRST");
        [destruct (is_emergency _)|]; by intros [= _ _ <- <-].
Qed.

Lemma enqueue_request_refusal_witness :
  match enqueue_request c1_store c2_node 1%nat 1 with
  | Ok (h', n', (ok, Some why)) => ok = false ∧ h' = c1_store
  | Ok (h', n', (ok, None)) => ok = true
  | Raise _ => False
  end.
Proof.
  destruct (enqueue_request c1_store c2_node 1%nat 1) as [[[h' n'] [ok reason]]|] eqn:E;
    [|by vm_compute in E].
  pose proof (enqueue_request_refusal c1_store c2_node 1%nat 1 h' n' ok reason E) as H.
  destruct reason as [why|]; [|exact (proj1 H)].
  exact (conj (proj1 H) (proj1 (proj2 H))).
Defined.

(** X28.  [_sample_request_type] inverts the cumulative distribution of
    the table: it draws one number and returns the first type at which the
    running sum of the probabilities reaches the draw; when no running sum
    reaches it, it returns the last type of the table. *)
Theorem sample_request_type_first_reached gen g rt g' :
  type_probabilities gen ≠ [] →
  _sample_request_type gen g = (rt, g') →
  g' = (random_random g).2
  ∧ ∃ i p, type_probabilities gen !! i = Some (rt, p)
      ∧ (∀ j, (j < i)%nat → cumulative_probability gen (S j) < (random_random g).1)
      ∧ ((random_random g).1 <= cumulative_probability gen (S i)
         ∨ (S i = length (type_probabilities gen)
            ∧ cumulative_probability gen (S i) < (random_random g).1)).
Proof.
  intros Hne. unfold _sample_request_type, cumulative_probability, py_sum.
  destruct (random_random g) as [r g1]. cbn [fst snd].
  generalize (type_probabilities gen) Hne. clear gen Hne. intros ps Hne.
  assert (Hgen : ∀ ps c,
    match sample_from r c ps with
    | Some rt =>
        ∃ i p, ps !! i = Some (rt, p)
          ∧ (∀ j, (j < i)%nat → fold_left Qplus (map snd (take (S j) ps)) c < r)
          ∧ r <= fold_left Qplus (map snd (take (S i) ps)) c
    | None => ∀ j, (j < length ps)%nat → fold_left Qplus (map snd (take (S j) ps)) c < r
    end).
  { clear. induction ps as [|[rt p] ps IH]; intros c; cbn [sample_from].
    { intros j Hj. simpl in Hj. lia. }
    destruct (Qle_bool r (c + p)) eqn:E.
    - apply Qle_bool_iff in E. exists 0%nat, p. split; [done|]. split; [intros j Hj; lia|].
      exact E.
    - apply Qle_bool_gt in E. specialize (IH (c + p)).
      destruct (sample_from r (c + p) ps) as [rt'|].
      + destruct IH as (i & p' & Hi & Hlt & Hle). exists (S i), p'. split; [done|].
        split; [|exact Hle]. intros [|j] Hj; [exact E|]. apply (Hlt j). lia.
      + intros [|j] Hj; [exact E|]. apply (IH j). simpl in Hj. lia. }
  specialize (Hgen ps 0). destruct (sample_from r 0 ps) as [rt'|].
  - intros [= <- <-]. split; [done|]. destruct Hgen as (i & p & Hi & Hlt & Hle).
    exists i, p. split; [done|]. split; [done|by left].
  - intros [= <- <-]. split; [done|].
    destruct (exists_last Hne) as (ps' & [rt' p] & ->).
    rewrite List.map_app. cbn [List.map]. rewrite List.last_last. cbn [fst].
    exists (length ps'), p. split; [by rewrite lookup_app_r, Nat.sub_diag by lia|].
    rewrite length_app in *. cbn [length] in *.
    split; [intros j Hj; apply Hgen; lia|]. right. split; [lia|]. apply Hgen. lia.
Qed.

Lemma sample_request_type_first_reached_witness :
  ∃ i p, type_probabilities busy_generator !! i = Some (COLLISION_ALERT, p)
    ∧ cumulative_probability busy_generator i < 1 # 2
    ∧ 1 # 2 <= cumulative_probability busy_generator (S i).
Proof.
  destruct (sample_request_type_first_reached busy_generator steady_rng COLLISION_ALERT
              (random_random steady_rng).2 ltac:(done) eq_refl)
    as (_ & i & p & Hi & Hlt & Hle).
  exists i, p. split; [exact Hi|].
  destruct i as [|i]; [by vm_compute in Hi|].
  split; [exact (Hlt i (Nat.lt_succ_diag_r i))|].
  destruct Hle as [Hle|[Hlen Hlt']]; [exact Hle|].
  injection Hlen as ->. by vm_compute in Hi.
Defined.

(** ** The queue bound along a run *)

Lemma enqueue_request_bound m h n request dt h' n' res :
  queue_within_bound m n →
  enqueue_request h n request dt = Ok (h', n', res) →
  queue_within_bound m n'.
Proof.
  intros [Hm Hlen] Henq. destruct res as [ok reason].
  destruct (enqueue_request_params _ _ _ _ _ _ _ Henq) as [Hp _].
  destruct (node_params_fields _ _ Hp) as (_ & _ & _ & _ & Hmax & _).
  split; [congruence|].
  rewrite (enqueue_request_count _ _ _ _ _ _ _ _ Henq).
  destruct ok; [|lia].
  revert Henq. unfold enqueue_request. rewrite Hm.
  destruct (Z.leb m (_get_total_queue_length n)) eqn:E; [by intros [=]|].
  intros _. apply Z.leb_gt in E. unfold queue_length. lia.
Qed.

Lemma process_one_step_bound m h n now dt h' n' completed :
  queue_within_bound m n →
  process_one_step h n now dt = Ok (h', n', completed) →
  queue_within_bound m n'.
Proof.
  intros [Hm Hlen] Hstep.
  destruct (process_one_step_params _ _ _ _ _ _ _ Hstep) as [Hp _].
  destruct (node_params_fields _ _ Hp) as (_ & _ & _ & _ & Hmax & _).
  split; [congruence|].
  apply process_one_step_count in Hstep. unfold len in Hstep. lia.
Qed.

Lemma route_request_bound bound dt h topo m req h' topo' m' :
  (∀ n, n ∈ fog_nodes topo → queue_within_bound bound n) →
  route_request dt (h, topo, m) req = Ok (h', topo', m') →
  (∀ n, n ∈ fog_nodes topo' → queue_within_bound bound n)
  ∧ max_queue_lengths m' = max_queue_lengths m
  ∧ avg_queue_lengths m' = avg_queue_lengths m.
Proof.
  intros Hb. unfold route_request.
  destruct (get_nearest_fog topo _) as [i|] eqn:Ei; simpl; [|done].
  apply get_nearest_fog_lt in Ei.
  destruct (lookup_lt_is_Some_2 _ _ Ei) as [n0 Hn0].
  rewrite (list_lookup_total_correct _ _ _ Hn0).
  assert (Hb0 : queue_within_bound bound n0) by (by eapply Hb, list_elem_of_lookup_2).
  destruct (can_accept_request _ _ req dt).
  - destruct (enqueue_request _ _ req dt) as [[[h1 n1] [ok reason]]|] eqn:Eenq;
      simpl; [|done].
    apply (enqueue_request_bound bound) in Eenq; [|done].
    intros Hres.
    assert (fog_nodes topo' = <[i := n1]> (fog_nodes topo)
            ∧ max_queue_lengths m' = max_queue_lengths m
            ∧ avg_queue_lengths m' = avg_queue_lengths m) as (-> & Hmax & Havg).
    { by destruct ok; [|destruct (bool_decide _)]; injection Hres as <- <- <-. }
    split; [|done]. intros n [->|Hn]%elem_of_insert_inv; [done|by apply Hb].
  - by intros [= <- <- <-].
Qed.

Lemma route_requests_bound bound dt reqs : ∀ h topo m h' topo' m',
  (∀ n, n ∈ fog_nodes topo → queue_within_bound bound n) →
  foldM (route_request dt) (h, topo, m) reqs = Ok (h', topo', m') →
  (∀ n, n ∈ fog_nodes topo' → queue_within_bound bound n)
  ∧ max_queue_lengths m' = max_queue_lengths m
  ∧ avg_queue_lengths m' = avg_queue_lengths m.
Proof.
  induction reqs as [|r reqs IH]; intros h topo m h' topo' m' Hb; simpl.
  { by intros [= <- <- <-]. }
  destruct (route_request dt (h, topo, m) r) as [[[h1 topo1] m1]|] eqn:E1; simpl; [|done].
  apply (route_request_bound bound) in E1 as (Hb1 & Hmax1 & Havg1); [|done].
  intros (Hb2 & Hmax2 & Havg2)%IH; [|done]. split; [done|]. split; congruence.
Qed.

Lemma process_nodes_bound bound time dt idxs : ∀ h topo acc h' topo' acc',
  (∀ n, n ∈ fog_nodes topo → queue_within_bound bound n) →
  foldM (process_node time dt) (h, topo, acc) idxs = Ok (h', topo', acc') →
  (∀ i, i ∈ idxs → (i < length (fog_nodes topo))%nat) →
  ∀ n, n ∈ fog_nodes topo' → queue_within_bound bound n.
Proof.
  induction idxs as [|i idxs IH]; intros h topo acc h' topo' acc' Hb; simpl.
  { by intros [= <- <- <-]. }
  destruct (process_node time dt (h, topo, acc) i) as [[[h1 topo1] acc1]|] eqn:E1;
    simpl; [|done].
  intros Hrest Hlt. unfold process_node in E1.
  destruct (lookup_lt_is_Some_2 (fog_nodes topo) i) as [n0 Hn0]; [apply Hlt; by left|].
  rewrite (list_lookup_total_correct _ _ _ Hn0) in E1.
  destruct (process_one_step h n0 time dt) as [[[h2 n2] d2]|] eqn:E; simpl in E1; [|done].
  injection E1 as <- <- <-.
  apply (process_one_step_bound bound) in E; [|by eapply Hb, list_elem_of_lookup_2].
  eapply IH; [|exact Hrest|].
  - simpl. intros n [->|Hn]%elem_of_insert_inv; [done|by apply Hb].
  - simpl. intros j Hj. rewrite length_insert. apply Hlt. by right.
Qed.

Lemma py_sum_bounds (l : list Q) (lo hi : Q) :
  (∀ x, x ∈ l → lo <= x <= hi) →
  lo * py_len l <= py_sum l <= hi * py_len l.
Proof.
  intros Hl. unfold py_sum, py_len.
  assert (Hgen : ∀ a, fold_left Qplus l a == a + fold_left Qplus l 0
            ∧ lo * inject_Z (Z.of_nat (length l)) <= fold_left Qplus l 0
                <= hi * inject_Z (Z.of_nat (length l))); [|apply (Hgen 0)].
  induction l as [|y l IH]; intros a.
  { simpl. change (inject_Z (Z.of_nat 0)) with 0. split; [lra|split; lra]. }
  destruct (IH (λ x Hx, Hl x (list_elem_of_further _ _ _ Hx)) (a + y)) as [Ha _].
  destruct (IH (λ x Hx, Hl x (list_elem_of_further _ _ _ Hx)) (0 + y)) as [H0 [Hlo Hhi]].
  destruct (Hl y) as [? ?]; [by left|].
  cbn [fold_left length]. rewrite Nat2Z.inj_succ, <- Z.add_1_r, inject_Z_plus.
  change (inject_Z 1) with 1. split; [rewrite Ha, H0; ring|]. rewrite H0. split; lra.
Qed.

(** X29.  In a run with a queue bound the bound is never exceeded.  When
    the configuration sets [fog_max_queue_length] to [m], at every step
    boundary every node holds at most [max(m, 0)] requests, every sample of
    the two queue-length series lies between 0 and [max(m, 0)], and so do
    the entries ["max_queue_length"] and ["avg_queue_length"] of the final
    report. *)
Theorem run_queue_bound seeded_stream cfg m sim0 k sim time :
  fog_max_queue_length cfg = Some m →
  Simulation_init seeded_stream cfg = Ok sim0 →
  run_steps k sim0 0 = Ok (sim, time) →
  (∀ n, n ∈ fog_nodes (topology sim) → (queue_length n <= Z.max m 0)%Z)
  ∧ (∀ x, x ∈ max_queue_lengths (metrics sim) → (0 <= x <= Z.max m 0)%Z)
  ∧ (∀ a, a ∈ avg_queue_lengths (metrics sim) → 0 <= a <= inject_Z (Z.max m 0))
  ∧ (∀ x, max_queue_len_overall (metrics sim) = Some x → (0 <= x <= Z.max m 0)%Z)
  ∧ (∀ a, avg_queue_len_overall (metrics sim) = Some a → 0 <= a <= inject_Z (Z.max m 0)).
Proof.
  intros Hm Hinit Hrun.
  set (I := λ (_ : nat) (sim : Simulation) (_ : Q),
    (∀ n, n ∈ fog_nodes (topology sim) → queue_within_bound m n)
    ∧ (∀ x, x ∈ max_queue_lengths (metrics sim) → (0 <= x <= Z.max m 0)%Z)
    ∧ (∀ a, a ∈ avg_queue_lengths (metrics sim) → 0 <= a <= inject_Z (Z.max m 0))).
  assert (H0 : I 0%nat sim0 0).
  { apply Simulation_init_inv in Hinit as (topo & gen & Hb & _ & ->).
    apply build_grid_topology_nodes in Hb as [_ Hnodes]. split.
    - intros n (id & pos & ->)%Hnodes. split; [done|].
      unfold queue_length, _get_total_queue_length, is_sla, len. cbn. repeat case_match; cbn; lia.
    - split; intros x Hx; by apply elem_of_nil in Hx. }
  assert (Hstep : ∀ s sim time sim',
     I s sim time → Qltb time (sim_time (config sim)) = true →
     sim_step sim time (run_dt (config sim)) = Ok sim' →
     I (S s) sim' (time + run_dt (config sim'))).
  { clear. intros s sim time sim' (Hb & Hmax & Havg) _.
    intros (gen & g & h & nref & reqs & h1 & topo1 & m1 & h2 & topo2 & done2
            & _ & Hroute & Hproc & ->)%sim_step_phases.
    assert (Hreset : ∀ n, n ∈ map reset_step_state (fog_nodes (topology sim)) →
              queue_within_bound m n).
    { intros n (n0 & <- & Hn0%list_elem_of_In)%list_elem_of_In%in_map_iff.
      exact (Hb n0 Hn0). }
    destruct (route_requests_bound m _ _ _
                (mkFogTopology (map reset_step_state (fog_nodes (topology sim))))
                _ _ _ _ Hreset Hroute) as (Hb1 & Hmax1 & Havg1).
    assert (Hb2 := process_nodes_bound m _ _ _ _ _ _ _ _ _ Hb1 Hproc
                     ltac:(by intros i Hi%elem_of_seq; lia)).
    cbn [topology metrics]. split; [done|].
    simpl in Hmax1, Havg1.
    destruct (fog_nodes topo2) as [|n0 nodes] eqn:Enodes.
    { simpl. rewrite Hmax1, Havg1. done. }
    set (all := n0 :: nodes) in *.
    set (lengths := map queue_length all).
    assert (Hl : ∀ x, x ∈ lengths → (0 <= x <= Z.max m 0)%Z).
    { intros x (n & <- & Hn%list_elem_of_In)%list_elem_of_In%in_map_iff.
      split; [apply queue_length_nonneg|by apply Hb2]. }
    assert (Hhd : List.hd 0%Z lengths ∈ lengths) by (by left).
    destruct (fold_max_spec lengths (List.hd 0%Z lengths)) as (_ & _ & Hin).
    assert (Hin' : fold_left Z.max lengths (List.hd 0%Z lengths) ∈ lengths)
      by (by destruct Hin as [->|Hin]).
    assert (Hpos : 0 < py_len lengths).
    { unfold py_len. subst lengths all. simpl length. rewrite <- (Zlt_Qlt 0). lia. }
    destruct (Zsum_bounds lengths 0 (Z.max m 0) Hl) as [Hlo Hhi].
    change (record_queue_lengths (record_completed m1 done2) all)
      with (mkMetricsCollector (total_generated m1) (total_completed m1 + len done2)
              (total_dropped m1) (total_admitted m1) (total_rejected m1)
              (dropped_by_reason m1)
              (per_step_generated m1) (per_step_completed m1 ++ [len done2])
              (per_step_dropped m1) (_current_step_dropped m1)
              (avg_queue_lengths m1
                 ++ [inject_Z (fold_left Z.add lengths 0%Z) / py_len lengths])
              (max_queue_lengths m1
                 ++ [fold_left Z.max lengths (List.hd 0%Z lengths)])).
    cbn [step_advance max_queue_lengths avg_queue_lengths]. rewrite Hmax1, Havg1. split.
    - intros x [Hx | ->%list_elem_of_singleton]%elem_of_app; [by apply Hmax|by apply Hl].
    - intros a [Ha | ->%list_elem_of_singleton]%elem_of_app; [by apply Havg|].
      rewrite fold_add_Zsum, Z.add_0_l. split.
      + apply Qle_shift_div_l; [done|]. rewrite Qmult_0_l, <- (Zle_Qle 0). lia.
      + apply Qle_shift_div_r; [done|]. unfold py_len.
        rewrite <- inject_Z_mult, <- Zle_Qle. lia. }
  destruct (run_steps_invariant I Hstep k 0%nat sim0 0 sim time H0 Hrun)
    as (s' & _ & (Hb & Hmax & Havg) & _).
  split; [intros n Hn; by apply Hb|]. split; [done|]. split; [done|].
  split.
  - unfold max_queue_len_overall. intros x.
    destruct (max_queue_lengths (metrics sim)) as [|y ys] eqn:E; [done|]. intros [= <-].
    destruct (fold_max_spec ys y) as (_ & _ & [->|Hin]); apply Hmax; [by left|by right].
  - unfold avg_queue_len_overall. intros a.
    destruct (py_sum_bounds _ _ _ Havg) as [Hlo Hhi].
    destruct (avg_queue_lengths (metrics sim)) as [|y ys] eqn:E; [done|]. intros [= <-].
    assert (Hpos : 0 < py_len (y :: ys)).
    { unfold py_len. simpl length. rewrite <- (Zlt_Qlt 0). lia. }
    split.
    + apply Qle_shift_div_l; [done|]. lra.
    + by apply Qle_shift_div_r.
Qed.

Lemma run_queue_bound_witness :
  match sim ← Simulation_init c4_stream bounded_config; run_steps 3 sim 0 with
  | Ok (sim, time) =>
      Forall (λ x, (0 <= x <= 2)%Z) (max_queue_lengths (metrics sim))
  | Raise _ => False
  end.
Proof.
  destruct (Simulation_init c4_stream bounded_config) as [sim0|] eqn:E0;
    [|by vm_compute in E0].
  cbn [mbind result_bind]. destruct (run_steps 3 sim0 0) as [[sim time]|] eqn:E.
  - apply Forall_forall.
    exact (proj1 (proj2 (run_queue_bound c4_stream bounded_config 2 sim0 3%nat sim time
                           eq_refl E0 E))).
  - vm_compute in E0. injection E0 as <-. by vm_compute in E.
Defined.

(** * Timestamps (C9) *)

(** ** The start time under the SLA policy *)

(** A start time, once set, is kept along a service run. *)
Lemma service_start_kept now dt L σ σ' :
  service now dt L σ σ' →
  ∀ r, start_time (σ.1.2 !!! r) ≠ None →
       start_time (σ'.1.2 !!! r) = start_time (σ.1.2 !!! r).
Proof.
  induction 1 as [σ|σ1 σ2 σ3 Hstep _ IH]; [done|].
  intros r Hr.
  assert (H12 : start_time (σ2.1.2 !!! r) = start_time (σ1.1.2 !!! r)).
  { inversion Hstep; subst; simpl in *.
    - rewrite mark_started_lookup. destruct (decide (r = r0)) as [->|]; [|done].
      destruct (start_time (h !!! r0)) eqn:E; [by rewrite E|done].
    - destruct (decide (r = r0)) as [->|];
        [by rewrite lookup_total_insert_eq|by rewrite lookup_total_insert_ne].
    - destruct (decide (r = r0)) as [->|];
        [by rewrite lookup_total_insert_eq|by rewrite lookup_total_insert_ne]. }
  rewrite IH; [done|]. by rewrite H12.
Qed.

Section SlaStart.

Variables (now dt : Q) (L : list ref) (idf : ref → Z).

Lemma sla_dispatch_started continue c h n d c' h' n' d' :
  (∀ c h n d c' h' n' d',
     continue c h n d = Ok (c', h', n', d') → sla_pre L idf h n →
     sla_post now dt L c h n d c' h' n' d' ∧ dispatched_started h n h' n') →
  current_request n = None →
  sla_dispatch continue now c h n d = Ok (c', h', n', d') →
  sla_pre L idf h n →
  dispatched_started h n h' n'.
Proof.
  intros IH Hcur. unfold sla_dispatch.
  destruct (_select_next_request_sla h n now) as [next|] eqn:Esel;
    [|by intros [= <- <- <- <-] _ r Hr Hr'].
  destruct (dynamic_remove h _ next n) as [n2|] eqn:Erem; simpl; [|done].
  intros Hc (HL & Hnd & Hid).
  apply dynamic_remove_spec in Erem as (y & Hyid & Hperm & Hst & Hcur2 & H3 & H2 & H1).
  apply select_next_in in Esel.
  assert (Hrefs : sla_refs n = dqs n).
  { unfold sla_refs. rewrite Hcur. apply app_nil_r. }
  assert (y = next) as ->.
  { apply (NoDup_fmap_inj_on idf (sla_refs n)); [done| | |].
    - rewrite Hrefs, Hperm. by left.
    - by rewrite Hrefs.
    - by rewrite <- !Hid. }
  set (n3 := set_current_request_start_time (Some now)
               (set_current_request (Some next) n2)) in *.
  assert (Hrefs3 : sla_refs n3 ≡ₚ sla_refs n).
  { rewrite Hrefs, Hperm. unfold sla_refs. simpl.
    change (dqs n3) with (dqs n2). by rewrite <- Permutation_cons_append. }
  destruct (IH _ _ _ _ _ _ _ _ Hc) as [(Hrun & _) Hstarted].
  { repeat split.
    - intros r Hr. apply HL. by rewrite <- Hrefs3.
    - by rewrite Hrefs3.
    - intros r. rewrite <- Hid. apply frozen_request_id, mark_started_fields. }
  intros r Hr Hr'. rewrite Hperm in Hr. apply elem_of_cons in Hr as [->|Hr].
  - assert (Hset : start_time (mark_started now h next !!! next) ≠ None).
    { rewrite mark_started_lookup. destruct (decide (next = next)); [|done].
      by destruct (start_time (h !!! next)) eqn:E; [rewrite E|]. }
    assert (Hk := service_start_kept _ _ _ _ _ Hrun next Hset). simpl in Hk.
    by rewrite Hk.
  - by apply Hstarted.
Qed.

Lemma sla_loop_started fuel : ∀ c h n d c' h' n' d',
  sla_loop fuel now dt c h n d = Ok (c', h', n', d') →
  sla_pre L idf h n →
  dispatched_started h n h' n'.
Proof.
  induction fuel as [|fuel IH]; intros c h n d c' h' n' d'; [done|].
  assert (Hcont : ∀ c h n d c' h' n' d',
    sla_loop fuel now dt c h n d = Ok (c', h', n', d') → sla_pre L idf h n →
    sla_post now dt L c h n d c' h' n' d' ∧ dispatched_started h n h' n').
  { intros c0 h0 n0 d0 c1 h1 n1 d1 Hl Hp. split; [by eapply sla_loop_run|by eapply IH]. }
  simpl.
  destruct (Qltb 0 c) eqn:Ec; [|by intros [= <- <- <- <-] _ r Hr Hr'].
  destruct (current_request n) as [cur|] eqn:Ecur;
    [|by apply sla_dispatch_started].
  destruct (serve now dt h cur c) as [[b c1] h1] eqn:Es.
  intros Hloop (HL & Hnd & Hid).
  assert (Hrefs : sla_refs n = dqs n ++ [cur]).
  { unfold sla_refs. by rewrite Ecur. }
  destruct b; [|injection Hloop as <- <- <- <-; by intros r Hr Hr'].
  set (n1 := set_current_request_start_time None _) in *.
  assert (Hpre : sla_pre L idf h1 n1).
  { repeat split.
    - intros r Hr. apply HL. rewrite Hrefs, elem_of_app. left.
      unfold sla_refs in Hr. simpl in Hr. by rewrite app_nil_r in Hr.
    - rewrite Hrefs, fmap_app in Hnd. apply NoDup_app in Hnd as [Hnd _].
      unfold sla_refs. simpl. by rewrite app_nil_r.
    - intros r. rewrite <- Hid.
      apply frozen_request_id, (serve_frozen _ _ _ _ _ _ _ _ Es). }
  assert (Hs := sla_dispatch_started (sla_loop fuel now dt) c1 h1 n1 (d ++ [cur])
                  c' h' n' d' Hcont eq_refl Hloop Hpre).
  intros r Hr Hr'. apply Hs; [exact Hr|exact Hr'].
Qed.

End SlaStart.

Lemma process_one_step_cap_started h n now dt left h' n' completed :
  node_wf h n → is_sla n = true →
  process_one_step_cap h n now dt = Ok (left, h', n', completed) →
  ∀ r, r ∈ dqs n → r ∉ dqs n' → start_time (h' !!! r) ≠ None.
Proof.
  intros [Hids _ _] Esla. unfold process_one_step_cap. rewrite Esla.
  destruct (sla_loop _ now dt _ h n []) as [[[[c1 h1] n1] d1]|] eqn:Eloop; simpl; [|done].
  destruct (sla_window_boundary h1 n1 now) as [n2|] eqn:Ew; simpl; [|done].
  intros [= <- <- <- <-].
  apply (sla_loop_started now dt (sla_refs n) (λ r, request_id (h !!! r))) in Eloop.
  2:{ rewrite queued_refs_sla in Hids by done. by repeat split. }
  apply sla_window_boundary_static in Ew.
  assert (Hq3 : dynamic_queue_3 n2 = dynamic_queue_3 n1)
    by apply (f_equal dynamic_queue_3 Ew).
  assert (Hq2 : dynamic_queue_2 n2 = dynamic_queue_2 n1)
    by apply (f_equal dynamic_queue_2 Ew).
  assert (Hq1 : dynamic_queue_1 n2 = dynamic_queue_1 n1)
    by apply (f_equal dynamic_queue_1 Ew).
  intros r Hr Hr'. apply (Eloop r Hr). unfold dqs in *. by rewrite <- Hq3, <- Hq2, <- Hq1.
Qed.

(** [enqueue_request] leaves the in-service slot and the store as they
    are, or, on an SLA node, puts the new request in the slot and gives it
    its arrival time as start time, if it has none. *)
Lemma enqueue_request_in_service h n request dt h' n' ok reason :
  enqueue_request h n request dt = Ok (h', n', (ok, reason)) →
  (current_request n' = current_request n ∧ h' = h)
  ∨ (is_sla n = true ∧ current_request n' = Some request
     ∧ h' = mark_started (arrival_time (h !!! request)) h request).
Proof.
  unfold enqueue_request.
  destruct (if max_queue_length n is Some m then Z.leb m (_get_total_queue_length n) else false).
  { intros [= <- <- <- <-]. by left. }
  destruct (is_sla n) eqn:Esla.
  - destruct (_admission_control_check_timebased h n request) as [[]|]; simpl; [| |done].
    2:{ intros [= <- <- <- <-]. by left. }
    destruct (dynamic_append_spec (priority_class (h !!! request)) request n)
      as (_ & Hc & _).
    rewrite Hc. destruct (current_request n) as [cur|] eqn:Ecur.
    + destruct (Qltb _ _).
      * rewrite dynamic_pop_appendleft_append. simpl. intros [= <- <- <- <-]. by right.
      * intros [= <- <- <- <-]. left. by rewrite Hc.
    + intros [= <- <- <- <-]. left. by rewrite Hc.
  - destruct (String.eqb (scheduler n) "STATIC_PRIORITY");
      [|destruct (String.eqb (scheduler n) "EMERGENCY_FIRST")].
    + destruct (Z.eqb _ 3); [|destruct (Z.eqb _ 2)];
        simpl; destruct (link_capacity n); intros [= <- <- <- <-]; by left.
    + destruct (is_emergency _);
        simpl; destruct (link_capacity n); intros [= <- <- <- <-]; by left.
    + destruct (if max_queue_length n is Some m then Z.leb m (len (queue n)) else false);
        simpl; [intros [= <- <- <- <-]; by left|].
      destruct (link_capacity n); intros [= <- <- <- <-]; by left.
Qed.

(** ** Arrival and completion times along a run *)

Lemma times_kept_refl now dt h : times_kept now dt h h.
Proof. intros r. auto. Qed.

Lemma times_kept_trans now dt h1 h2 h3 :
  times_kept now dt h1 h2 → times_kept now dt h2 h3 → times_kept now dt h1 h3.
Proof.
  intros H12 H23 r. destruct (H12 r) as [A1 C1]. destruct (H23 r) as [A2 C2].
  split; [congruence|]. destruct C2 as [C2|C2]; [|by right].
  destruct C1 as [C1|C1]; [left|right]; congruence.
Qed.

Lemma frozen_arrival_time a b : frozen a = frozen b → arrival_time a = arrival_time b.
Proof. intros H. by apply (f_equal arrival_time) in H. Qed.

Lemma mark_started_times t now dt h r : times_kept now dt h (mark_started t h r).
Proof.
  intros x. destruct (mark_started_fields t h r x) as (_ & Hc & Hf).
  split; [by apply frozen_arrival_time|by left].
Qed.

Lemma serve_times now dt h r c b c' h' :
  serve now dt h r c = (b, c', h') → times_kept now dt h h'.
Proof.
  intros Es x. split; [apply frozen_arrival_time, (serve_frozen _ _ _ _ _ _ _ _ Es)|].
  revert Es. unfold serve. destruct (Qle_bool _ c); intros [= _ _ <-];
    (destruct (decide (x = r)) as [->|];
       [rewrite lookup_total_insert_eq|rewrite lookup_total_insert_ne by done]);
    simpl; auto.
Qed.

Lemma drain_times now dt q : ∀ c h d q' c' h' d',
  drain now dt q c h d = (q', c', h', d') → times_kept now dt h h'.
Proof.
  induction q as [|r q IH]; intros c h d q' c' h' d'; simpl.
  { intros [= _ _ <- _]. apply times_kept_refl. }
  destruct (Qltb 0 c); [|intros [= _ _ <- _]; apply times_kept_refl].
  destruct (serve now dt (mark_started now h r) r c) as [[b c1] h1] eqn:Es.
  assert (H1 : times_kept now dt h h1).
  { eapply times_kept_trans; [apply mark_started_times|by eapply serve_times]. }
  destruct b.
  - intros Hd%IH. by eapply times_kept_trans.
  - by intros [= _ _ <- _].
Qed.

Lemma sla_loop_times fuel now dt : ∀ c h n d c' h' n' d',
  sla_loop fuel now dt c h n d = Ok (c', h', n', d') → times_kept now dt h h'.
Proof.
  assert (Hd : ∀ continue c h n d c' h' n' d',
    (∀ c h n d c' h' n' d', continue c h n d = Ok (c', h', n', d') →
                            times_kept now dt h h') →
    sla_dispatch continue now c h n d = Ok (c', h', n', d') →
    times_kept now dt h h').
  { intros continue c h n d c' h' n' d' IH. unfold sla_dispatch.
    destruct (_select_next_request_sla h n now) as [next|];
      [|intros [= _ <- _ _]; apply times_kept_refl].
    destruct (dynamic_remove h _ next n) as [n2|]; simpl; [|done].
    intros H%IH. eapply times_kept_trans; [apply mark_started_times|exact H]. }
  induction fuel as [|fuel IH]; intros c h n d c' h' n' d'; [done|]. simpl.
  destruct (Qltb 0 c); [|intros [= _ <- _ _]; apply times_kept_refl].
  destruct (current_request n) as [cur|]; [|by apply Hd].
  destruct (serve now dt h cur c) as [[[] c1] h1] eqn:Es.
  - intros H%Hd; [|done]. eapply times_kept_trans; [by eapply serve_times|exact H].
  - intros [= _ <- _ _]. by eapply serve_times.
Qed.

(** Whatever the node, a call of [process_one_step] changes no arrival
    time, and a completion time only by setting it to
    [current_time + time_step]. *)
Lemma process_one_step_times h n now dt h' n' completed :
  process_one_step h n now dt = Ok (h', n', completed) → times_kept now dt h h'.
Proof.
  intros [left Hstep]%process_one_step_inv. revert Hstep. unfold process_one_step_cap.
  destruct (is_sla n).
  - destruct (sla_loop _ now dt _ h n []) as [[[[c1 h1] n1] d1]|] eqn:Eloop; simpl; [|done].
    destruct (sla_window_boundary h1 n1 now) as [n2|]; simpl; [|done].
    intros [= _ <- _ _]. by eapply sla_loop_times.
  - destruct (String.eqb (scheduler n) "STATIC_PRIORITY");
      [|destruct (String.eqb (scheduler n) "EMERGENCY_FIRST")].
    + destruct (drain now dt (priority_queue_3 n) _ h []) as [[[q3 c3] h3] d3] eqn:E3.
      destruct (drain now dt (priority_queue_2 n) c3 h3 d3) as [[[q2 c2] h2] d2] eqn:E2.
      destruct (drain now dt (priority_queue_1 n) c2 h2 d2) as [[[q1 c1] h1] d1] eqn:E1.
      intros [= _ <- _ _]. apply drain_times in E3, E2, E1.
      eapply times_kept_trans; [exact E3|]. by eapply times_kept_trans.
    + destruct (drain now dt (emergency_queue n) _ h []) as [[[qe ce] he] de] eqn:Ee.
      destruct (drain now dt (normal_queue n) ce he de) as [[[qn cn] hn] dn] eqn:En.
      intros [= _ <- _ _]. apply drain_times in Ee, En. by eapply times_kept_trans.
    + destruct (drain now dt (queue n) _ h []) as [[[q c] h1] d] eqn:E.
      intros [= _ <- _ _]. by eapply drain_times.
Qed.

Lemma process_nodes_times time dt idxs : ∀ h topo acc h' topo' acc',
  foldM (process_node time dt) (h, topo, acc) idxs = Ok (h', topo', acc') →
  times_kept time dt h h'.
Proof.
  induction idxs as [|i idxs IH]; intros h topo acc h' topo' acc'; simpl.
  { intros [= <- _ _]. apply times_kept_refl. }
  destruct (process_node time dt (h, topo, acc) i) as [[[h1 topo1] acc1]|] eqn:E1;
    simpl; [|done].
  intros H%IH. eapply times_kept_trans; [|exact H].
  revert E1. unfold process_node.
  destruct (process_one_step h _ time dt) as [[[h2 n2] d2]|] eqn:E; simpl; [|done].
  intros [= <- _ _]. by eapply process_one_step_times.
Qed.

Lemma route_request_stamps dt h topo m req h' topo' m' :
  route_request dt (h, topo, m) req = Ok (h', topo', m') →
  ∀ r, arrival_time (h' !!! r) = arrival_time (h !!! r)
       ∧ completion_time (h' !!! r) = completion_time (h !!! r).
Proof.
  unfold route_request.
  destruct (get_nearest_fog topo _) as [i|]; simpl; [|done].
  set (h0 := <[req := set_assigned_fog_id _ (h !!! req)]> h).
  assert (H0 : ∀ r, arrival_time (h0 !!! r) = arrival_time (h !!! r)
                    ∧ completion_time (h0 !!! r) = completion_time (h !!! r)).
  { intros r. subst h0. destruct (decide (r = req)) as [->|];
      [by rewrite lookup_total_insert_eq|by rewrite lookup_total_insert_ne]. }
  destruct (can_accept_request h0 _ req dt).
  - destruct (enqueue_request h0 _ req dt) as [[[h1 n1] [ok reason]]|] eqn:Eenq;
      simpl; [|done].
    apply enqueue_request_effects in Eenq as (_ & _ & Hh & _).
    intros Hres.
    assert (h' = h1) as -> by (by destruct ok; [|destruct (bool_decide _)];
                                 injection Hres as <- _ _).
    intros r. destruct (H0 r) as [<- <-].
    destruct Hh as [->|[-> _]]; [done|].
    destruct (mark_started_fields (arrival_time (h0 !!! req)) h0 req r) as (_ & -> & Hf).
    split; [by apply frozen_arrival_time|done].
  - by intros [= <- _ _].
Qed.

Lemma route_requests_stamps dt reqs : ∀ h topo m h' topo' m',
  foldM (route_request dt) (h, topo, m) reqs = Ok (h', topo', m') →
  ∀ r, arrival_time (h' !!! r) = arrival_time (h !!! r)
       ∧ completion_time (h' !!! r) = completion_time (h !!! r).
Proof.
  induction reqs as [|x reqs IH]; intros h topo m h' topo' m'; simpl.
  { by intros [= <- _ _]. }
  destruct (route_request dt (h, topo, m) x) as [[[h1 topo1] m1]|] eqn:E1; simpl; [|done].
  intros H r. destruct (IH _ _ _ _ _ _ H r) as [-> ->].
  by apply (route_request_stamps _ _ _ _ _ _ _ _ E1).
Qed.

(** [generate_requests] leaves a request of the store as it was or makes it
    anew. *)
Lemma make_requests_store t k : ∀ gen g h next_ref reqs r,
  (Nat.iter k (make_request t) (gen, g, h, next_ref, reqs)).1.1.2 !!! r = h !!! r
  ∨ generated_request t
      ((Nat.iter k (make_request t) (gen, g, h, next_ref, reqs)).1.1.2 !!! r).
Proof.
  induction k as [|k IH]; intros gen g h next_ref reqs r; [by left|].
  rewrite Nat.iter_succ.
  specialize (IH gen g h next_ref reqs r).
  destruct (Nat.iter k (make_request t) (gen, g, h, next_ref, reqs))
    as [[[[gen1 g1] h1] nref1] reqs1].
  destruct (make_request_spec t gen1 g1 h1 nref1 reqs1) as (rq & -> & _ & Hgen & _).
  simpl in *. destruct (decide (r = nref1)) as [->|].
  - right. by rewrite lookup_total_insert_eq.
  - by rewrite lookup_total_insert_ne.
Qed.

Lemma generate_requests_store gen g h next_ref t gen' g' h' next_ref' reqs :
  generate_requests gen g h next_ref t = (gen', g', h', next_ref', reqs) →
  ∀ r, h' !!! r = h !!! r ∨ generated_request t (h' !!! r).
Proof.
  unfold generate_requests. destruct (Z.leb _ 0); [intros [= _ _ <- _ _]; by left|].
  destruct (bernoulli_trials _ _ 0%nat g) as [num g1].
  intros Hiter r. assert (H := make_requests_store t num gen g1 h next_ref [] r).
  by rewrite Hiter in H.
Qed.

(** Along a run whose clock does not go backwards, no request of the store
    arrived after the clock, and none was completed before it arrived. *)
Lemma run_steps_ordered seeded_stream cfg sim0 k sim time :
  Simulation_init seeded_stream cfg = Ok sim0 →
  run_steps k sim0 0 = Ok (sim, time) →
  0 <= run_dt cfg →
  stamps_ordered (store sim) time.
Proof.
  intros Hinit Hrun Hdt.
  set (I := λ (_ : nat) (sim : Simulation) (time : Q),
    config sim = cfg ∧ stamps_ordered (store sim) time).
  assert (H0 : I 0%nat sim0 0).
  { apply Simulation_init_inv in Hinit as (topo & gen & _ & _ & ->). split; [done|].
    intros r. simpl. rewrite lookup_total_empty. simpl. split; [lra|done]. }
  assert (Hstep : ∀ s sim time sim',
     I s sim time → Qltb time (sim_time (config sim)) = true →
     sim_step sim time (run_dt (config sim)) = Ok sim' →
     I (S s) sim' (time + run_dt (config sim'))).
  { clear -Hdt. intros s sim time sim' [Hcfg Ho] _.
    intros (gen & g & h & nref & reqs & h1 & topo1 & m1 & h2 & topo2 & done2
            & Hgen & Hroute & Hproc & ->)%sim_step_phases.
    split; [done|]. cbn [store config]. rewrite Hcfg in *.
    assert (Hg := generate_requests_store _ _ _ _ _ _ _ _ _ _ Hgen).
    assert (Hr := route_requests_stamps _ _ _ _ _ _ _ _ Hroute).
    apply process_nodes_times in Hproc.
    intros r. destruct (Hproc r) as [Ha Hc]. destruct (Hr r) as [Ha1 Hc1].
    assert (Hh : arrival_time (h !!! r) <= time
                 ∧ ∀ c, completion_time (h !!! r) = Some c → arrival_time (h !!! r) <= c).
    { destruct (Hg r) as [->|(-> & _ & _ & _ & _ & _ & _ & _ & ->)];
        [apply Ho|split; [lra|done]]. }
    destruct Hh as [Hle Hcomp].
    rewrite Ha, Ha1. split; [lra|]. intros c Hc'. destruct Hc as [Hc|Hc].
    - apply Hcomp. by rewrite <- Hc1, <- Hc.
    - rewrite Hc in Hc'. injection Hc' as <-. lra. }
  destruct (run_steps_invariant I Hstep k 0%nat sim0 0 sim time H0 Hrun)
    as (s' & _ & [_ HI] & _).
  exact HI.
Qed.

(** ** A step without budget *)

(** With a budget that is not positive a step leaves the store as it is. *)
Lemma process_one_step_idle h n now dt h' n' completed :
  cpu_capacity n * dt <= 0 →
  process_one_step h n now dt = Ok (h', n', completed) → h' = h.
Proof.
  intros Hb [left Hstep]%process_one_step_inv. revert Hstep. unfold process_one_step_cap.
  assert (Ec : Qltb 0 (cpu_capacity n * dt) = false) by (by apply Qltb_ge).
  destruct (is_sla n).
  - simpl. rewrite Ec. simpl.
    destruct (sla_window_boundary h n now) as [n2|]; simpl; [|done].
    by intros [= _ <- _ _].
  - rewrite !drain_no_budget by done. repeat case_match; by intros [= _ <- _ _].
Qed.

Lemma process_nodes_idle time dt idxs : ∀ h topo acc h' topo' acc',
  (∀ n, n ∈ fog_nodes topo → cpu_capacity n * dt <= 0) →
  (∀ i, i ∈ idxs → (i < length (fog_nodes topo))%nat) →
  foldM (process_node time dt) (h, topo, acc) idxs = Ok (h', topo', acc') → h' = h.
Proof.
  induction idxs as [|i idxs IH]; intros h topo acc h' topo' acc' Hcpu Hlt; simpl.
  { by intros [= <- _ _]. }
  destruct (process_node time dt (h, topo, acc) i) as [[[h1 topo1] acc1]|] eqn:E1;
    simpl; [|done].
  unfold process_node in E1.
  destruct (lookup_lt_is_Some_2 (fog_nodes topo) i) as [n0 Hn0]; [apply Hlt; by left|].
  rewrite (list_lookup_total_correct _ _ _ Hn0) in E1.
  assert (Hin0 : n0 ∈ fog_nodes topo) by (by eapply list_elem_of_lookup_2).
  destruct (process_one_step h n0 time dt) as [[[h2 n2] d2]|] eqn:E; simpl in E1; [|done].
  injection E1 as <- <- <-.
  assert (h2 = h) as -> by (eapply process_one_step_idle; [by apply Hcpu|exact E]).
  apply process_one_step_params in E as (Hp & _).
  destruct (node_params_fields _ _ Hp) as (_ & _ & Hc & _).
  apply IH.
  - simpl. intros n [->|Hn]%elem_of_insert_inv; [rewrite Hc|]; by apply Hcpu.
  - simpl. intros j Hj. rewrite length_insert. apply Hlt. by right.
Qed.

Lemma route_requests_cpu c dt reqs : ∀ h topo m h' topo' m',
  (∀ n, n ∈ fog_nodes topo → cpu_capacity n = c) →
  foldM (route_request dt) (h, topo, m) reqs = Ok (h', topo', m') →
  ∀ n, n ∈ fog_nodes topo' → cpu_capacity n = c.
Proof.
  induction reqs as [|x reqs IH]; intros h topo m h' topo' m' Hcpu; simpl.
  { by intros [= _ <- _]. }
  destruct (route_request dt (h, topo, m) x) as [[[h1 topo1] m1]|] eqn:E1; simpl; [|done].
  apply IH. apply route_request_link in E1 as (i & n0 & n1 & Hi & -> & Hp & _).
  intros n [->|Hn]%elem_of_insert_inv; [|by apply Hcpu].
  destruct (node_params_fields _ _ Hp) as (_ & _ & -> & _).
  by eapply Hcpu, list_elem_of_lookup_2.
Qed.

(** Along a run whose nodes have a capacity that is not negative and whose
    time step is negative, no step has a budget and no request is ever
    completed. *)
Lemma run_steps_idle seeded_stream cfg sim0 k sim time :
  Simulation_init seeded_stream cfg = Ok sim0 →
  run_steps k sim0 0 = Ok (sim, time) →
  0 <= fog_cpu_capacity cfg → run_dt cfg <= 0 →
  ∀ r, completion_time (store sim !!! r) = None.
Proof.
  intros Hinit Hrun Hcpu Hdt.
  set (I := λ (_ : nat) (sim : Simulation) (_ : Q),
    config sim = cfg
    ∧ (∀ n, n ∈ fog_nodes (topology sim) → cpu_capacity n = fog_cpu_capacity cfg)
    ∧ ∀ r, completion_time (store sim !!! r) = None).
  assert (Hidle : ∀ n, cpu_capacity n = fog_cpu_capacity cfg →
                       cpu_capacity n * run_dt cfg <= 0).
  { intros n ->.
    assert (H1 : 0 <= fog_cpu_capacity cfg * - run_dt cfg)
      by (apply Qmult_le_0_compat; lra).
    assert (H2 : fog_cpu_capacity cfg * - run_dt cfg
                 == - (fog_cpu_capacity cfg * run_dt cfg)) by ring.
    lra. }
  assert (H0 : I 0%nat sim0 0).
  { apply Simulation_init_inv in Hinit as (topo & gen & Hb & _ & ->).
    apply build_grid_topology_nodes in Hb as [_ Hnodes]. split; [done|]. split.
    - by intros n (id & pos & ->)%Hnodes.
    - intros r. simpl. by rewrite lookup_total_empty. }
  assert (Hstep : ∀ s sim time sim',
     I s sim time → Qltb time (sim_time (config sim)) = true →
     sim_step sim time (run_dt (config sim)) = Ok sim' →
     I (S s) sim' (time + run_dt (config sim'))).
  { clear -Hidle. intros s sim time sim' (Hcfg & Hnodes & Hnone) _.
    intros (gen & g & h & nref & reqs & h1 & topo1 & m1 & h2 & topo2 & done2
            & Hgen & Hroute & Hproc & ->)%sim_step_phases.
    split; [done|]. cbn [store config topology]. rewrite Hcfg in *.
    assert (Hreset : ∀ n, n ∈ map reset_step_state (fog_nodes (topology sim)) →
              cpu_capacity n = fog_cpu_capacity cfg).
    { intros n (n0 & <- & Hn0%list_elem_of_In)%list_elem_of_In%in_map_iff.
      exact (Hnodes n0 Hn0). }
    assert (Hrouted := route_requests_cpu _ _ _ _
              (mkFogTopology (map reset_step_state (fog_nodes (topology sim))))
              _ _ _ _ Hreset Hroute).
    assert (Hg := generate_requests_store _ _ _ _ _ _ _ _ _ _ Hgen).
    assert (Hr := route_requests_stamps _ _ _ _ _ _ _ _ Hroute).
    apply process_nodes_static in Hproc as K2; [|intros i Hi%elem_of_seq; lia].
    apply process_nodes_idle in Hproc as ->;
      [|intros n Hn; by apply Hidle, Hrouted|intros i Hi%elem_of_seq; lia].
    split.
    - intros n Hn. apply (list_elem_of_fmap_2 node_kept) in Hn. rewrite K2 in Hn.
      apply list_elem_of_fmap in Hn as (n0 & Hk & Hn0).
      destruct (node_params_fields _ _ (f_equal (λ p, p.1.1) Hk)) as (_ & _ & -> & _).
      by apply Hrouted.
    - intros r. destruct (Hr r) as [_ ->].
      by destruct (Hg r) as [->|(_ & _ & _ & _ & _ & _ & _ & _ & ->)]. }
  destruct (run_steps_invariant I Hstep k 0%nat sim0 0 sim time H0 Hrun)
    as (s' & _ & (_ & _ & HI) & _).
  exact HI.
Qed.

(** ** Capacity and start time along a run *)

Lemma starts_kept_refl h : starts_kept h h.
Proof. by intros r _. Qed.

Lemma starts_kept_trans h1 h2 h3 :
  starts_kept h1 h2 → starts_kept h2 h3 → starts_kept h1 h3.
Proof.
  intros H12 H23 r Hr. rewrite H23; [by apply H12|]. by rewrite H12.
Qed.

Lemma mark_started_starts t h r : starts_kept h (mark_started t h r).
Proof.
  intros x Hx. rewrite mark_started_lookup. destruct (decide (x = r)) as [->|]; [|done].
  destruct (start_time (h !!! r)) eqn:E; [by rewrite E|done].
Qed.

Lemma mark_started_set t h r : start_time (mark_started t h r !!! r) ≠ None.
Proof.
  rewrite mark_started_lookup. destruct (decide (r = r)); [|done].
  by destruct (start_time (h !!! r)) eqn:E; [rewrite E|].
Qed.

Lemma mark_started_served t h r : served_started h → served_started (mark_started t h r).
Proof.
  intros Hs x. rewrite mark_started_lookup. destruct (decide (x = r)) as [->|]; [|done].
  destruct (start_time (h !!! r)) eqn:E; [apply Hs|by right].
Qed.

Lemma serve_start now dt h r c b c' h' :
  serve now dt h r c = (b, c', h') →
  ∀ x, start_time (h' !!! x) = start_time (h !!! x)
       ∧ processing_demand (h' !!! x) = processing_demand (h !!! x)
       ∧ (x ≠ r → remaining_demand (h' !!! x) = remaining_demand (h !!! x)).
Proof.
  unfold serve. destruct (Qle_bool _ c); intros [= _ _ <-] x;
    (destruct (decide (x = r)) as [->|];
       [by rewrite lookup_total_insert_eq|by rewrite lookup_total_insert_ne]).
Qed.

Lemma serve_served now dt h r c b c' h' :
  serve now dt h r c = (b, c', h') →
  start_time (h !!! r) ≠ None → served_started h → served_started h'.
Proof.
  intros Es Hr Hs x. destruct (serve_start _ _ _ _ _ _ _ _ Es x) as (-> & -> & Hrem).
  destruct (decide (x = r)) as [->|Hne]; [by right|]. rewrite (Hrem Hne). apply Hs.
Qed.

Lemma serve_starts now dt h r c b c' h' :
  serve now dt h r c = (b, c', h') → starts_kept h h'.
Proof. intros Es x _. by destruct (serve_start _ _ _ _ _ _ _ _ Es x) as (-> & _). Qed.

Lemma drain_starts now dt q : ∀ c h d q' c' h' d',
  drain now dt q c h d = (q', c', h', d') →
  starts_kept h h' ∧ (served_started h → served_started h').
Proof.
  induction q as [|r q IH]; intros c h d q' c' h' d'; simpl.
  { intros [= _ _ <- _]. split; [apply starts_kept_refl|done]. }
  destruct (Qltb 0 c); [|intros [= _ _ <- _]; split; [apply starts_kept_refl|done]].
  destruct (serve now dt (mark_started now h r) r c) as [[b c1] h1] eqn:Es.
  assert (H1 : starts_kept h h1 ∧ (served_started h → served_started h1)).
  { split.
    - eapply starts_kept_trans; [apply mark_started_starts|by eapply serve_starts].
    - intros Hs. eapply serve_served; [exact Es|apply mark_started_set|].
      by apply mark_started_served. }
  destruct b; [|by intros [= _ _ <- _]].
  intros [H2 H3]%IH. destruct H1 as [H1 H1']. split; [by eapply starts_kept_trans|auto].
Qed.

Lemma starts_post_trans e h1 n1 h2 n2 h3 n3 :
  starts_post [] h1 n1 h2 n2 → starts_post e h2 n2 h3 n3 → starts_post e h1 n1 h3 n3.
Proof.
  intros (K1 & R1 & I1) (K2 & R2 & I2). split; [by eapply starts_kept_trans|]. split.
  - intros r [Hr|Hr]%R2; [by left|]. destruct (R1 r Hr) as [[]%elem_of_nil|]; by right.
  - intros Hi Hs. destruct (I1 Hi Hs). auto.
Qed.

Lemma sla_loop_starts fuel now dt : ∀ c h n d c' h' n' d',
  sla_loop fuel now dt c h n d = Ok (c', h', n', d') → starts_post [] h n h' n'.
Proof.
  assert (Hrefl : ∀ h n, starts_post [] h n h n).
  { intros h n. split; [apply starts_kept_refl|]. split; [by right|done]. }
  assert (Hd : ∀ continue c h n d c' h' n' d',
    (∀ c h n d c' h' n' d', continue c h n d = Ok (c', h', n', d') →
                            starts_post [] h n h' n') →
    current_request n = None →
    sla_dispatch continue now c h n d = Ok (c', h', n', d') →
    starts_post [] h n h' n').
  { intros continue c h n d c' h' n' d' IH Hcur. unfold sla_dispatch.
    destruct (_select_next_request_sla h n now) as [next|] eqn:Esel;
      [|intros [= _ <- <- _]; apply Hrefl].
    destruct (dynamic_remove h _ next n) as [n2|] eqn:Erem; simpl; [|done].
    intros H%IH. eapply starts_post_trans; [|exact H].
    apply select_next_in in Esel.
    apply dynamic_remove_spec in Erem as (y & _ & _ & _ & _ & H3 & H2 & H1).
    split; [apply mark_started_starts|]. split.
    - intros r. unfold sla_refs. simpl. rewrite Hcur, app_nil_r.
      intros [Hr|Hr%list_elem_of_singleton]%elem_of_app; right; [|by subst r].
      by apply (dqs_subseteq n n2).
    - intros _ Hs. split; [|by apply mark_started_served].
      intros r [= <-]. apply mark_started_set. }
  induction fuel as [|fuel IH]; intros c h n d c' h' n' d'; [done|]. simpl.
  destruct (Qltb 0 c); [|intros [= _ <- <- _]; apply Hrefl].
  destruct (current_request n) as [cur|] eqn:Ecur; [|by apply Hd].
  destruct (serve now dt h cur c) as [[b c1] h1] eqn:Es.
  assert (Hk : starts_kept h h1) by (by eapply serve_starts).
  destruct b.
  - intros H%Hd; [|done..]. eapply starts_post_trans; [|exact H].
    split; [done|]. split.
    + intros r. unfold sla_refs. simpl. rewrite app_nil_r, Ecur.
      intros Hr. right. apply elem_of_app. by left.
    + intros Hi Hs. split; [done|].
      eapply serve_served; [exact Es|by apply Hi|done].
  - intros [= <- <- <- <-]. split; [done|]. split; [by right|].
    intros Hi Hs. split.
    + intros r Hr. rewrite Hk; by apply Hi.
    + eapply serve_served; [exact Es|by apply Hi|done].
Qed.

(** A call of [process_one_step], whatever the policy and the state of the
    node: start times are kept, no request appears in the class queues or in
    the in-service slot, and when the request in service has a start time
    and every request that was given capacity has one, that is so
    afterwards. *)
Lemma process_one_step_starts h n now dt h' n' completed :
  process_one_step h n now dt = Ok (h', n', completed) → starts_post [] h n h' n'.
Proof.
  intros [left Hstep]%process_one_step_inv. revert Hstep. unfold process_one_step_cap.
  assert (Hsame : ∀ h1 n1, sla_refs n1 = sla_refs n → current_request n1 = current_request n →
            starts_kept h h1 ∧ (served_started h → served_started h1) →
            starts_post [] h n h1 n1).
  { intros h1 n1 Hr Hc [Hk Hs]. split; [done|]. split; [rewrite Hr; by right|].
    intros Hi Hss. split; [|auto]. intros r Hcur. rewrite Hc in Hcur.
    rewrite Hk; by apply Hi. }
  destruct (is_sla n).
  - destruct (sla_loop _ now dt _ h n []) as [[[[c1 h1] n1] d1]|] eqn:Eloop; simpl; [|done].
    destruct (sla_window_boundary h1 n1 now) as [n2|] eqn:Ew; simpl; [|done].
    intros [= _ <- <- _]. apply sla_loop_starts in Eloop as (Hk & Hr & Hi).
    apply sla_window_boundary_static in Ew.
    assert (Hq3 : dynamic_queue_3 n2 = dynamic_queue_3 n1)
      by apply (f_equal dynamic_queue_3 Ew).
    assert (Hq2 : dynamic_queue_2 n2 = dynamic_queue_2 n1)
      by apply (f_equal dynamic_queue_2 Ew).
    assert (Hq1 : dynamic_queue_1 n2 = dynamic_queue_1 n1)
      by apply (f_equal dynamic_queue_1 Ew).
    assert (Hcr : current_request n2 = current_request n1)
      by apply (f_equal current_request Ew).
    split; [done|]. split.
    + intros r. unfold sla_refs, dqs. rewrite Hq3, Hq2, Hq1, Hcr. apply Hr.
    + intros Hin Hs. destruct (Hi Hin Hs) as [Hi' Hs']. split; [|done].
      intros r. rewrite Hcr. apply Hi'.
  - destruct (String.eqb (scheduler n) "STATIC_PRIORITY");
      [|destruct (String.eqb (scheduler n) "EMERGENCY_FIRST")].
    + destruct (drain now dt (priority_queue_3 n) _ h []) as [[[q3 c3] h3] d3] eqn:E3.
      destruct (drain now dt (priority_queue_2 n) c3 h3 d3) as [[[q2 c2] h2] d2] eqn:E2.
      destruct (drain now dt (priority_queue_1 n) c2 h2 d2) as [[[q1 c1] h1] d1] eqn:E1.
      intros [= _ <- <- _]. apply drain_starts in E3 as [K3 S3], E2 as [K2 S2], E1 as [K1 S1].
      apply Hsame; [done..|]. split; [|auto].
      eapply starts_kept_trans; [exact K3|]. by eapply starts_kept_trans.
    + destruct (drain now dt (emergency_queue n) _ h []) as [[[qe ce] he] de] eqn:Ee.
      destruct (drain now dt (normal_queue n) ce he de) as [[[qn cn] hn] dn] eqn:En.
      intros [= _ <- <- _]. apply drain_starts in Ee as [Ke Se], En as [Kn Sn].
      apply Hsame; [done..|]. split; [by eapply starts_kept_trans|auto].
    + destruct (drain now dt (queue n) _ h []) as [[[q c] h1] d] eqn:E.
      intros [= _ <- <- _]. apply drain_starts in E. by apply Hsame.
Qed.

(** A call of [enqueue_request]: the same, the offered request being the
    only one that may appear in the class queues or in the slot. *)
Lemma enqueue_request_starts h n request dt h' n' res :
  enqueue_request h n request dt = Ok (h', n', res) →
  starts_post [request] h n h' n'.
Proof.
  destruct res as [ok reason]. intros Henq.
  assert (Hsl := enqueue_request_in_service _ _ _ _ _ _ _ _ Henq).
  assert (Hk : starts_kept h h' ∧ (served_started h → served_started h')).
  { destruct Hsl as [[_ ->]|(_ & _ & ->)]; [split; [apply starts_kept_refl|done]|].
    split; [apply mark_started_starts|apply mark_started_served]. }
  destruct Hk as [Hk Hs]. split; [done|]. split.
  - destruct (is_sla n) eqn:Esla.
    + destruct (enqueue_request_effects _ _ _ _ _ _ _ _ Henq) as (Hsch & Hq & _).
      assert (Esla' : is_sla n' = true) by (unfold is_sla in *; by rewrite Hsch).
      unfold queued_refs in Hq. rewrite Esla, Esla' in Hq. intros r Hr.
      destruct ok.
      * rewrite Hq in Hr. apply elem_of_cons in Hr as [->|Hr]; [left; by left|by right].
      * rewrite Hq in Hr. by right.
    + revert Henq. unfold enqueue_request. rewrite Esla.
      destruct (if max_queue_length n is Some m then Z.leb m (_get_total_queue_length n)
                else false).
      { intros [= _ <- _ _] r Hr. by right. }
      intros Henq r Hr. right. revert Henq Hr.
      repeat case_match; simplify_eq; intros [= _ <- _ _]; done.
  - intros Hi Hss. split; [|auto].
    intros r Hcur. destruct Hsl as [[Hc ->]|(_ & Hc & ->)].
    + apply Hi. by rewrite <- Hc.
    + rewrite Hc in Hcur. injection Hcur as <-. apply mark_started_set.
Qed.

Lemma run_started_update extra h nodes nref i n0 h' n1 :
  run_started h nodes nref →
  nodes !! i = Some n0 →
  starts_post extra h n0 h' n1 →
  (∀ r, r ∈ extra → (r < nref)%nat) →
  run_started h' (<[i := n1]> nodes) nref.
Proof.
  intros [Hs Hnodes] Hi (Hk & Hr & Hpost) Hextra.
  assert (Hin0 : n0 ∈ nodes) by (by eapply list_elem_of_lookup_2).
  destruct (Hnodes n0 Hin0) as [Hi0 Hb0]. destruct (Hpost Hi0 Hs) as [Hi1 Hs1].
  split; [done|]. intros n [->|Hn]%elem_of_insert_inv.
  - split; [done|]. intros r [Hx|Hx]%Hr; auto.
  - destruct (Hnodes n Hn) as [Hin Hb]. split; [|done].
    intros r Hcur. rewrite Hk; by apply Hin.
Qed.

Lemma route_request_started dt nref h topo m req h' topo' m' :
  (req < nref)%nat →
  run_started h (fog_nodes topo) nref →
  route_request dt (h, topo, m) req = Ok (h', topo', m') →
  run_started h' (fog_nodes topo') nref.
Proof.
  intros Hreq Hrun. unfold route_request.
  destruct (get_nearest_fog topo _) as [i|] eqn:Ei; simpl; [|done].
  apply get_nearest_fog_lt in Ei.
  destruct (lookup_lt_is_Some_2 (fog_nodes topo) i Ei) as [n0 Hn0].
  rewrite (list_lookup_total_correct _ _ _ Hn0).
  set (h0 := <[req := set_assigned_fog_id _ (h !!! req)]> h).
  assert (H0 : ∀ r, start_time (h0 !!! r) = start_time (h !!! r)
                    ∧ remaining_demand (h0 !!! r) = remaining_demand (h !!! r)
                    ∧ processing_demand (h0 !!! r) = processing_demand (h !!! r)).
  { intros r. subst h0. destruct (decide (r = req)) as [->|];
      [by rewrite lookup_total_insert_eq|by rewrite lookup_total_insert_ne]. }
  assert (Hrun0 : run_started h0 (fog_nodes topo) nref).
  { destruct Hrun as [Hs Hnodes]. split.
    - intros r. destruct (H0 r) as (-> & -> & ->). apply Hs.
    - intros n Hn. destruct (Hnodes n Hn) as [Hin Hb]. split; [|done].
      intros r Hcur. destruct (H0 r) as (-> & _). by apply Hin. }
  clearbody h0.
  destruct (can_accept_request h0 n0 req dt); [|by intros [= <- <- _]].
  destruct (enqueue_request h0 n0 req dt) as [[[h1 n1] res]|] eqn:Eenq; simpl; [|done].
  apply enqueue_request_starts in Eenq. intros Hres.
  assert (h' = h1 ∧ fog_nodes topo' = <[i := n1]> (fog_nodes topo)) as [-> ->].
  { destruct res as [ok reason]. by destruct ok; [|destruct (bool_decide _)];
      injection Hres as <- <- _. }
  eapply run_started_update; [exact Hrun0|exact Hn0|exact Eenq|].
  by intros r ->%list_elem_of_singleton.
Qed.

Lemma route_requests_started dt nref reqs : ∀ h topo m h' topo' m',
  (∀ r, r ∈ reqs → (r < nref)%nat) →
  run_started h (fog_nodes topo) nref →
  foldM (route_request dt) (h, topo, m) reqs = Ok (h', topo', m') →
  run_started h' (fog_nodes topo') nref.
Proof.
  induction reqs as [|x reqs IH]; intros h topo m h' topo' m' Hlt Hrun; simpl.
  { by intros [= <- <- _]. }
  destruct (route_request dt (h, topo, m) x) as [[[h1 topo1] m1]|] eqn:E1; simpl; [|done].
  apply IH; [intros r Hr; apply Hlt; by right|].
  eapply route_request_started; [|exact Hrun|exact E1]. apply Hlt. by left.
Qed.

Lemma process_nodes_started time dt nref idxs : ∀ h topo acc h' topo' acc',
  (∀ i, i ∈ idxs → (i < length (fog_nodes topo))%nat) →
  run_started h (fog_nodes topo) nref →
  foldM (process_node time dt) (h, topo, acc) idxs = Ok (h', topo', acc') →
  run_started h' (fog_nodes topo') nref.
Proof.
  induction idxs as [|i idxs IH]; intros h topo acc h' topo' acc' Hlt Hrun; simpl.
  { by intros [= <- <- _]. }
  destruct (process_node time dt (h, topo, acc) i) as [[[h1 topo1] acc1]|] eqn:E1;
    simpl; [|done].
  unfold process_node in E1.
  destruct (lookup_lt_is_Some_2 (fog_nodes topo) i) as [n0 Hn0]; [apply Hlt; by left|].
  rewrite (list_lookup_total_correct _ _ _ Hn0) in E1.
  destruct (process_one_step h n0 time dt) as [[[h2 n2] d2]|] eqn:E; simpl in E1; [|done].
  injection E1 as <- <- <-. apply process_one_step_starts in E.
  apply IH.
  - simpl. intros j Hj. rewrite length_insert. apply Hlt. by right.
  - simpl. eapply run_started_update; [exact Hrun|exact Hn0|exact E|].
    by intros r Hr%elem_of_nil.
Qed.

Lemma generate_requests_started gen g h nref t gen' g' h' nref' reqs nodes :
  generate_requests gen g h nref t = (gen', g', h', nref', reqs) →
  run_started h nodes nref →
  run_started h' nodes nref' ∧ ∀ r, r ∈ reqs → (r < nref')%nat.
Proof.
  intros Hgen [Hs Hnodes].
  assert (Hstore := generate_requests_store _ _ _ _ _ _ _ _ _ _ Hgen).
  assert (Hold : (nref <= nref')%nat
                 ∧ (∀ r, (r < nref)%nat → h' !!! r = h !!! r)
                 ∧ ∀ r, r ∈ reqs → (r < nref')%nat).
  { destruct (generate_requests_spec gen g h nref t)
      as [[_ Hg]|(_ & k & hk & Hg & _ & _ & _ & Hlow & _)];
      rewrite Hg in Hgen; injection Hgen as <- <- <- <- <-.
    - split; [lia|]. split; [done|]. by intros r Hr%elem_of_nil.
    - split; [lia|]. split.
      + intros r Hr. by rewrite !lookup_total_alt, (Hlow r Hr).
      + intros r Hr%elem_of_seq. lia. }
  destruct Hold as (Hle & Hlow & Hreqs). split; [|done]. split.
  - intros r. destruct (Hstore r) as [->|(_ & _ & Hrem & _)]; [apply Hs|by left].
  - intros n Hn. destruct (Hnodes n Hn) as [Hin Hb]. split.
    + intros r Hcur. rewrite Hlow; [by apply Hin|].
      apply Hb. unfold sla_refs. rewrite Hcur. apply elem_of_app. right. by left.
    + intros r Hr. specialize (Hb r Hr). lia.
Qed.

(** Along a run, under any policy and any configuration: every request that
    was given capacity has a start time, and so has the request in service
    at every node. *)
Lemma run_steps_started seeded_stream cfg sim0 k sim time :
  Simulation_init seeded_stream cfg = Ok sim0 →
  run_steps k sim0 0 = Ok (sim, time) →
  run_started (store sim) (fog_nodes (topology sim)) (next_ref sim).
Proof.
  intros Hinit Hrun.
  set (I := λ (_ : nat) (sim : Simulation) (_ : Q),
    run_started (store sim) (fog_nodes (topology sim)) (next_ref sim)).
  assert (H0 : I 0%nat sim0 0).
  { apply Simulation_init_inv in Hinit as (topo & gen & Hb & _ & ->).
    apply build_grid_topology_nodes in Hb as [_ Hnodes]. split.
    - intros r. left. simpl. by rewrite lookup_total_empty.
    - intros n (id & pos & ->)%Hnodes. split; [done|]. by intros r Hr%elem_of_nil. }
  assert (Hstep : ∀ s sim time sim',
     I s sim time → Qltb time (sim_time (config sim)) = true →
     sim_step sim time (run_dt (config sim)) = Ok sim' →
     I (S s) sim' (time + run_dt (config sim'))).
  { intros s sim1 time1 sim' HI _.
    intros (gen & g & h & nref & reqs & h1 & topo1 & m1 & h2 & topo2 & done2
            & Hgen & Hroute & Hproc & ->)%sim_step_phases.
    unfold I in *. cbn [store topology next_ref].
    assert (Hreset : run_started (store sim1)
              (map reset_step_state (fog_nodes (topology sim1))) (next_ref sim1)).
    { destruct HI as [Hs Hnodes]. split; [done|].
      intros n (n0 & <- & Hn0%list_elem_of_In)%list_elem_of_In%in_map_iff.
      exact (Hnodes n0 Hn0). }
    destruct (generate_requests_started _ _ _ _ _ _ _ _ _ _ _ Hgen Hreset) as [Hg Hreqs].
    apply (route_requests_started _ nref) in Hroute; [|done..].
    apply (process_nodes_started _ _ nref) in Hproc; [done| |done].
    intros i Hi%elem_of_seq. lia. }
  destruct (run_steps_invariant I Hstep k 0%nat sim0 0 sim time H0 Hrun)
    as (s' & _ & HI & _).
  exact HI.
Qed.

(** C9, as stated, fails in two ways.  For the start time on the SLA
    policy: the safety-critical request takes the place of the routine one
    when it is admitted and gets [start_time = 1]; the emergency request
    takes its place in turn before any step ran.  After the step at time 1
    the safety-critical request waits in its class queue: it has a start
    time, and it was never given capacity (its remaining demand is its
    processing demand).  For the completion time with a clock that goes
    backwards: with [time_step = -1] and [cpu_capacity = -100] the step at
    time 0 has a positive budget, and the request that arrived at time 0 is
    completed at time -1. *)
Lemma C9_counterexample :
  match c9_preempted_twice with
  | Ok (h, n) =>
      dynamic_queue_2 n = [1%nat]
      ∧ current_request n = Some 2%nat
      ∧ start_time (h !!! 1%nat) = Some 1
      ∧ remaining_demand (h !!! 1%nat) = processing_demand (h !!! 1%nat)
  | Raise _ => False
  end
  ∧ run_dt c9_backwards_config < 0
  ∧ fog_cpu_capacity c9_backwards_config < 0
  ∧ c9_backwards_step = Ok (0, Some (-1)).
Proof. vm_compute. repeat split; done. Qed.

(** C9, amended.  On a node that agrees with the store, a call of
    [process_one_step] leaves the node in agreement with the store and
    - keeps every completion time that was set; a completion time it sets
      is [current_time + time_step], on a request it returns as completed;
      it changes no arrival time;
    - keeps every start time that was set; a start time it sets is
      [current_time];
    - under FIFO, EMERGENCY_FIRST and STATIC_PRIORITY, a request without a
      start time is either left exactly as it was or gets [current_time] as
      start time together with its first capacity;
    - under the SLA policy the start time is set when a request is dispatched
      from its class queue to the in-service slot: a request that left the
      class queues has a start time, [current_time] if it had none, and a
      request that is still in a class queue after the step is exactly as it
      was; so when the request in service had a start time before the step,
      the request in service after it has one, and so has every request that
      got capacity in the step.
    [enqueue_request] changes no completion time, no arrival time and no
    remaining demand, keeps every start time that was set, and sets a start
    time only on an SLA node that puts the new request in service in place
    of the current one, to the arrival time of that request; a request that
    it puts in service has a start time afterwards, its arrival time if it
    had none; a request in service that had a start time keeps it; offered a
    request that is new to the node, it leaves the node in agreement with
    the store.
    And along a run of the simulation, under any policy and configuration,
    every request that was given capacity has a start time, and so has the
    request in service at every node; no request is completed before it
    arrived, unless both the time step and the capacity of the nodes are
    negative. *)
Theorem C9_write_once_timestamps :
  (∀ h n now dt h' n' completed,
     node_wf h n →
     process_one_step h n now dt = Ok (h', n', completed) →
     node_wf h' n'
     ∧ (∀ r c, completion_time (h !!! r) = Some c → completion_time (h' !!! r) = Some c)
     ∧ (∀ r c, completion_time (h !!! r) = None → completion_time (h' !!! r) = Some c →
               r ∈ completed ∧ c = now + dt)
     ∧ (∀ r, arrival_time (h' !!! r) = arrival_time (h !!! r))
     ∧ (∀ r s, start_time (h !!! r) = Some s → start_time (h' !!! r) = Some s)
     ∧ (∀ r s, start_time (h !!! r) = None → start_time (h' !!! r) = Some s → s = now)
     ∧ (is_sla n = false →
        ∀ r, start_time (h !!! r) = None →
             h' !!! r = h !!! r
             ∨ (start_time (h' !!! r) = Some now
                ∧ remaining_demand (h' !!! r) < remaining_demand (h !!! r)))
     ∧ (is_sla n = true →
        (∀ r, r ∈ dqs n' → h' !!! r = h !!! r)
        ∧ (∀ r, r ∈ dqs n → r ∉ dqs n' →
             start_time (h' !!! r) = Some (default now (start_time (h !!! r))))
        ∧ (in_service_started h n →
           in_service_started h' n'
           ∧ ∀ r, remaining_demand (h' !!! r) < remaining_demand (h !!! r) →
                  start_time (h' !!! r) ≠ None)))
  ∧ (∀ h n request dt h' n' ok reason,
       enqueue_request h n request dt = Ok (h', n', (ok, reason)) →
       (∀ r, completion_time (h' !!! r) = completion_time (h !!! r)
             ∧ remaining_demand (h' !!! r) = remaining_demand (h !!! r)
             ∧ arrival_time (h' !!! r) = arrival_time (h !!! r))
       ∧ (∀ r s, start_time (h !!! r) = Some s → start_time (h' !!! r) = Some s)
       ∧ (∀ r, start_time (h' !!! r) ≠ start_time (h !!! r) →
               r = request ∧ is_sla n = true ∧ current_request n' = Some request
               ∧ start_time (h' !!! r) = Some (arrival_time (h !!! request)))
       ∧ (current_request n' = Some request → current_request n ≠ Some request →
          start_time (h' !!! request)
          = Some (default (arrival_time (h !!! request)) (start_time (h !!! request))))
       ∧ (in_service_started h n → in_service_started h' n')
       ∧ (node_wf h n → fresh_request h n request → node_wf h' n'))
  ∧ (∀ seeded_stream cfg sim0 k sim time,
       Simulation_init seeded_stream cfg = Ok sim0 →
       run_steps k sim0 0 = Ok (sim, time) →
       (∀ r, remaining_demand (store sim !!! r) ≠ processing_demand (store sim !!! r) →
             start_time (store sim !!! r) ≠ None)
       ∧ (∀ n, n ∈ fog_nodes (topology sim) → in_service_started (store sim) n)
       ∧ (0 <= run_dt cfg ∨ 0 <= fog_cpu_capacity cfg →
          ∀ r c, completion_time (store sim !!! r) = Some c →
                 arrival_time (store sim !!! r) <= c)).
Proof.
  split; [|split].
  - intros h n now dt h' n' completed Hwf Hstep.
    assert (Htimes := process_one_step_times _ _ _ _ _ _ _ Hstep).
    apply process_one_step_inv in Hstep as [left Hstep].
    assert (Hf := process_one_step_cap_facts _ _ _ _ _ _ _ _ Hwf Hstep).
    assert (Hdisp := process_one_step_cap_started h n now dt left h' n' completed Hwf).
    destruct Hf as [Hperm Hnd Hinv Hsch Hwf'].
    split; [done|].
    destruct Hinv as [Hbud Hdone Hfit Hphase Hframe Hstatic Hstart Hsub].
    assert (Hun : ∀ r, r ∉ completed →
                       completion_time (h' !!! r) = completion_time (h !!! r)).
    { intros r Hr.
      destruct Hphase as [[_ Hun]|(_ & p & _ & _ & _ & _ & _ & Hpc & Hun)].
      - by apply Hun.
      - destruct (decide (r = p)) as [->|Hne]; [done|]. by apply Hun. }
    split; [|split; [|split; [|split; [|split; [|split]]]]].
    + intros r c Hc. destruct (decide (r ∈ completed)) as [Hr|Hr].
      * destruct (wf_live h n Hwf r (Hsub r Hr)) as [Hr' _]. congruence.
      * by rewrite Hun.
    + intros r c Hn Hc. destruct (decide (r ∈ completed)) as [Hr|Hr].
      * destruct (Hdone r Hr) as [_ Hc']. rewrite Hc' in Hc. injection Hc as <-. done.
      * rewrite Hun in Hc by done. congruence.
    + intros r. apply (Htimes r).
    + intros r s Hs. destruct (Hstart r) as [->|[Hn _]]; [done|congruence].
    + intros r s Hn Hs. destruct (Hstart r) as [E|[_ E]]; congruence.
    + intros Esla r Hr.
      destruct (process_one_step_cap_drain h n now dt Esla) as [n1 Hd].
      rewrite Hstep in Hd.
      destruct (drain now dt (queued_refs n) (cpu_capacity n * dt) h [])
        as [[[q1 c1] h1] d1] eqn:Edrain.
      injection Hd as -> -> _ ->.
      eapply drain_start; [by apply (node_wf_NoDup h)| |exact Edrain|done].
      intros x Hx. by apply (wf_live h n Hwf).
    + intros Esla.
      assert (Esla' : is_sla n' = true) by (by rewrite (is_sla_scheduler _ _ Hsch)).
      assert (Hq : ∀ r, r ∈ dqs n' → h' !!! r = h !!! r).
      { apply process_one_step_cap_run in Hstep as (_ & _ & _ & Hq).
        - by apply Hq.
        - intros _. destruct Hwf as [Hids _ _]. by rewrite queued_refs_sla in Hids. }
      specialize (Hdisp Esla Hstep).
      assert (Hkept : ∀ r, start_time (h !!! r) ≠ None → start_time (h' !!! r) ≠ None).
      { intros r Hr. destruct (Hstart r) as [->|[Hn _]]; done. }
      split; [done|]. split.
      { intros r Hr Hr'. specialize (Hdisp r Hr Hr').
        destruct (Hstart r) as [E|[E1 E2]].
        - rewrite E in *. by destruct (start_time (h !!! r)).
        - by rewrite E1, E2. }
      intros Hcur.
      assert (Hrefs : ∀ r, r ∈ queued_refs n → r ∈ dqs n ∨ current_request n = Some r).
      { intros r. rewrite queued_refs_sla by done. unfold sla_refs.
        intros [?|Hr]%elem_of_app; [by left|right].
        destruct (current_request n); simpl in Hr; [|by apply elem_of_nil in Hr].
        by apply list_elem_of_singleton in Hr as ->. }
      split.
      * intros p Hp.
        assert (Hp' : p ∈ queued_refs n').
        { rewrite queued_refs_sla by done. unfold sla_refs. rewrite Hp.
          apply elem_of_app. right. by left. }
        assert (Hpd : p ∉ dqs n').
        { apply NoDup_app in Hnd as [Hnd' _].
          rewrite queued_refs_sla in Hnd' by done. unfold sla_refs in Hnd'.
          rewrite Hp in Hnd'. apply NoDup_app in Hnd' as (_ & Hdis & _).
          intros Hin. apply (Hdis p Hin). by left. }
        assert (Hpq : p ∈ queued_refs n).
        { rewrite <- Hperm, elem_of_app. by left. }
        destruct (Hrefs p Hpq) as [Hin|Hc]; [by apply Hdisp|by apply Hkept, Hcur].
      * intros r Hlt.
        destruct (decide (r ∈ queued_refs n)) as [Hr|Hr];
          [|rewrite (Hframe r Hr) in Hlt; lra].
        destruct (Hrefs r Hr) as [Hin|Hc]; [|by apply Hkept, Hcur].
        apply Hdisp; [done|]. intros Hin'. rewrite (Hq r Hin') in Hlt. lra.
  - intros h n request dt h' n' ok reason Henq.
    assert (Heff := enqueue_request_effects _ _ _ _ _ _ _ _ Henq).
    assert (Hsl := enqueue_request_in_service _ _ _ _ _ _ _ _ Henq).
    destruct Heff as (_ & _ & Hh & _).
    split; [|split; [|split; [|split; [|split]]]].
    + intros r. destruct Hh as [->|[-> _]]; [done|].
      destruct (mark_started_fields (arrival_time (h !!! request)) h request r)
        as (-> & -> & Hfr). split; [done|]. split; [done|].
      by apply frozen_arrival_time.
    + intros r s Hs. destruct Hh as [->|[-> _]]; [done|].
      rewrite mark_started_lookup. destruct (decide (r = request)) as [->|]; [|done].
      by rewrite Hs.
    + intros r Hne. destruct Hh as [->|(-> & Esla & Hcur)]; [done|].
      rewrite mark_started_lookup in Hne |- *.
      destruct (decide (r = request)) as [->|]; [|done].
      destruct (start_time (h !!! request)) eqn:Es; [by rewrite Es in Hne|].
      done.
    + intros Hcur' Hcur. destruct Hsl as [[Hc _]|(_ & _ & ->)]; [congruence|].
      rewrite mark_started_lookup. destruct (decide (request = request)); [|done].
      by destruct (start_time (h !!! request)) eqn:Es; [rewrite Es|].
    + intros Hstarted p Hp. destruct Hsl as [[Hc ->]|(_ & Hc & ->)].
      * apply Hstarted. by rewrite <- Hc.
      * rewrite Hc in Hp. injection Hp as <-.
        rewrite mark_started_lookup. destruct (decide (request = request)); [|done].
        by destruct (start_time (h !!! request)) eqn:Es; [rewrite Es|].
    + intros Hwf Hfresh. by eapply enqueue_request_wf.
  - intros seeded_stream cfg sim0 k sim time Hinit Hrun.
    destruct (run_steps_started _ _ _ _ _ _ Hinit Hrun) as [Hs Hnodes].
    split; [|split].
    + intros r Hne. by destruct (Hs r).
    + intros n Hn. by apply Hnodes.
    + intros Hcfg r c.
      destruct (Qlt_le_dec (run_dt cfg) 0) as [Hneg|Hdt];
        [|apply (run_steps_ordered _ _ _ _ _ _ Hinit Hrun Hdt r)].
      destruct Hcfg as [Hdt|Hcpu]; [lra|].
      rewrite (run_steps_idle _ _ _ _ _ _ Hinit Hrun Hcpu) by lra. done.
Qed.

Lemma C9_witness :
  match process_one_step c1_store c1_node 0 1 with
  | Ok (h', n', completed) =>
      node_wf h' n' ∧ current_request n' = Some 0%nat
      ∧ start_time (h' !!! 0%nat) = Some 0
  | Raise _ => False
  end.
Proof.
  destruct (process_one_step c1_store c1_node 0 1) as [[[h' n'] completed]|] eqn:E;
    [|by vm_compute in E].
  destruct (proj1 C9_write_once_timestamps c1_store c1_node 0 1 h' n' completed
              (node_wfb_sound c1_store c1_node eq_refl) E)
    as (Hwf & _ & _ & _ & _ & _ & _ & Hsla).
  destruct (Hsla eq_refl) as (_ & Hdisp & _).
  split; [exact Hwf|].
  assert (Hn : dqs n' = [] ∧ current_request n' = Some 0%nat).
  { vm_compute in E. by injection E as _ <- _. }
  destruct Hn as [Hq Hc]. split; [exact Hc|].
  apply (Hdisp 0%nat).
  - by left.
  - rewrite Hq. by intros H%elem_of_nil.
Defined.
